(* ===== verification/_CoqProject ===== *)
-Q . S2P
Prelude.v
CMem.v
TftpState.v
Tftps.v
TftpFacts.v
TftpRead.v
TftpsRead.v
TftpsWrite.v
TftpSafety.v
TftpsErrors.v
TftpServer.v
TftpListener.v
TftpShare.v
Reaper.v
MsgQueue.v
IrDev.v
IrOpen.v
IrRace.v
IrTest.v
Multiplier.v
MultiplierTest.v
Board.v
Sbcp.v
ChatClient.v
ChatServer.v
ChatSetup.v
QueryCache.v
ProxyClient.v
ProxyDial.v
Proxy.v
ProxyServer.v
ProxyServe.v
Echo.v
EchoSession.v
EchoExchange.v
LedPanel.v
IrMonitor.v
Double.v
DoubleRange.v
DoubleCanon.v
DoubleNear.v
Raster.v
Ppm.v
PpmRead.v
Polygon.v
Window.v
Gradient.v
Sweep.v
Filter.v
FilterMain.v
HueFilter.v
HueMain.v
ColorMap.v
ColorMapMain.v
ImageTests.v
Warp.v
Shapes.v
Show.v
WarpFacts.v
WarpMain.v
WarpNear.v
WarpWave.v
WarpProject.v
