(* ===== verification/Prelude.v ===== *)
(** * Verification of the C and C++ programs of the TAMU course repository

    The repository holds independent course programs.  This development models those
    whose logic is in C or C++ and proves what they do, and where they fail.

    ** The programs and how their parts interact

    - [src/ECEN602/assignment3]: a TFTP server over UDP.  [tftps.c] is the program the
      makefile builds, [server.c] an earlier version of the same text.  A listener
      forks one child per request; the child answers the request (RRQ or WRQ) and then
      loops over one-second timeouts and datagrams: ACK packets drive a read, DATA
      packets a write, an ERROR packet or too many timeouts end it.
    - [src/ECEN749/lab8/src]: a Linux character device for an infrared demodulator.
      The interrupt handler of [ir_dev.c] puts messages into the circular queue of
      [msg_queue.h], [device_read] takes them out, [devtest.c] prints them.
    - [src/ECEN749/lab6/src]: a character device for a multiplier peripheral,
      [multiplier.c], and its test program [devtest.c]; [lab3] and [lab5] use the same
      peripheral from a bare-metal program and from a kernel module.  [xparameters.h] gives
      the addresses of the board, [lab3/src/platform.c] prepares it.
    - [src/ECEN602/assignment2]: a chat over TCP.  [client.c] joins, sends the lines
      typed, tells the server when its user is idle, and shows what the server sends;
      [server.cpp] keeps the table of clients and forwards their messages.
    - [src/ECEN602/assignment4]: a web proxy.  [client.c] asks it for a page;
      [proxy.cpp] accepts clients, parses the request, asks the web server for pages it
      does not have or that are expired, stores and sends them; [query_cache.cpp] keeps
      the list of stored pages.
    - [src/ECEN602/assignment1]: an echo service.  [echo.c] sends the lines typed and
      shows what comes back, over its [writen] and [readline]; [server.cpp] starts a child
      per connection that sends back what it reads.
    - [src/ECEN749/lab2]: a program that shows switches and a counter on LEDs;
      [lab7]: one that prints infrared messages when they change.
    - [src/CSCE646/pr01] to [pr07]: image programs.  Each has its copy of a class
      [myppm] that reads a PPM file into an array of pixels, and shows a picture made from
      it in a window: a gradient of its own (pr01), a polygon (pr02), colours mapped through
      tables or given another hue (pr03), convolutions and erosion (pr04), the same along
      lines that the hues of a second picture direct (pr05), geometric transformations
      (pr06, pr07).  [test.cpp] of pr03 and pr04 tries their functions on small arrays.
    - Other parts, not modelled, are listed at the end.

    ** How C is modelled

    [CMem.v] gives the state of a C function (its arrays as byte lists of their
    declared sizes, its scalars with "indeterminate" as a value, and a world of files,
    sockets or devices), the monad of its statements with the outcomes [Done],
    [Exited] (a call of [exit]) and [Undef] (an access outside an array, a use of an
    indeterminate value, a null or freed pointer), the C library routines the programs
    call, and weakest-precondition rules.  Programs over other data (a queue, a list on
    a heap, one text edited in place) use the same monad over their own state.
    Integers are [Z] with every narrowing conversion written out ([u8], [s8], [u16],
    [s16], [u32] below).  Arrays and structs that the program does not initialise have
    arbitrary contents, universally quantified in the theorems.  Every answer of the
    environment that can differ from run to run ([sendto] and [read] failing, the
    datagrams, the timeouts, the clock, the kernel's answers to the drivers) is an
    input.  [double] is the binary64 arithmetic of the Standard Library's [SpecFloat],
    with the conversions of C; a conversion out of range and an overflow of [int] are
    undefined.

    ** Files

    - [Prelude.v] (this file): machine integers, string literals, finite keys, hint
      databases, tactics, list and byte lemmas.
    - [CMem.v]: C functions as state transformers, as above.
    - [TftpState.v] (Module [Tftp]): the local variables of [main] that a child uses
      ([arr], [ivar], [init]), its files and socket ([tworld]), and the code the two
      servers share: [sendto], [build_error], [send_first], [send_next], [rrq]
      (lines 205-361 of [tftps.c]), [wrq] (365-426), [on_ack] (613-732), [on_error]
      (736-748), [cleanup] (756-764), [child_process].
    - [Tftps.v]: the transfer loop of [tftps.c] ([on_timeout], [on_data], [on_packet],
      [step], [child]; lines 430-752).
    - [TftpFacts.v]: rules for the shared statements (array shapes, frames, packets).
    - [TftpRead.v]: reading the requested file in blocks, netascii and its inverse.
    - [TftpsRead.v]: the abstract stop-and-wait sender, the interface [ServesReads]
      that a round of a server must meet, and the theorems C1-C4 on reads.
    - [TftpsWrite.v]: the abstract receiver and the theorems C5, C6 on writes.
    - [TftpSafety.v]: the invariant [alive] of a child in each of its roles, the
      interface [SafeRounds], and that a child with safe rounds is memory safe.
    - [TftpsErrors.v]: [tftps.c] meets [SafeRounds] (C7), its overruns, and its error
      answers (C8).
    - [TftpServer.v]: [server.c], whose reads meet [ServesReads] and whose writes
      refine a receiver with a 512-byte window (C9-C11).
    - [TftpListener.v]: start-up and the listening process of both, and that it starts
      children in the state the other theorems assume (C12).
    - [TftpShare.v]: the children of either server over one shared file system, their
      rounds interleaved (C13); a statement is [local] to a file when it neither depends on
      the others nor changes them, and the interface [LocalRounds] is what a server's
      round promises.
    - [Reaper.v]: the handler for ended children and its interleavings with forks, ends
      of children and merged signals (C14).
    - [MsgQueue.v]: [msg_queue.h], its refinement of a bounded FIFO (C15), and the call
      that leaves its array.
    - [IrDev.v]: [ir_dev.c] as operations on the driver state, and the paths from
      interrupt to test program.
    - [IrOpen.v]: processes that open and close the device, statement by statement and in
      any order, with interrupts between them, and their invariant (C16).
    - [IrRace.v]: a read statement by statement, interrupted anywhere (C17).
    - [IrTest.v]: the whole of the test program [devtest.c] over the driver (C18).
    - [Multiplier.v]: [multiplier.c] over an interface for the peripheral, and the programs
      of labs 3 and 5 over the same interface; [MultiplierTest.v]: the driver's life, its
      test program (C19), and the life of the module of lab 5.
    - [Board.v]: the address map of [xparameters.h], the mapping that the drivers make of
      the multiplier's window, and [platform.c] around the program of lab 3.
    - [Sbcp.v]: the message struct of the chat and its bytes.
    - [ChatClient.v]: the chat client ([JOIN_CHAT], [SEND_MSG], [IDLE_CLIENT], the
      round of its loop, [main]) and its refinement of a client over protocol messages
      (C20).
    - [ChatServer.v]: the chat server (the message constructor, [forward_message],
      [is_clnt_exist], the handlers of new connections and of client data), its
      refinement of a room, and the way of a line through it (C22).
    - [ChatSetup.v]: both from their command lines; the server from there to the room
      (C21).
    - [QueryCache.v]: [query_cache.cpp] on a heap of nodes and its refinement of a list
      (C23, C24).
    - [ProxyClient.v], [ProxyDial.v], [Proxy.v]: the proxy's client from its arguments to
      its file, the parsing of requests, and the path of a page through both (C25).
    - [ProxyServer.v]: the class [proxy] ([recv_from_clnt], [get_request_page],
      [recv_from_srvr], [send_to_clnt], its start-up and [main]) over the parser and the
      cache; [ProxyServe.v]: its refinement of a cache of pages (C26).
    - [Echo.v]: [writen] and [readline] of [echo.c]; [EchoSession.v]: the main loop of the
      client and the server's child as state machines, connected by two streams of bytes;
      [EchoExchange.v]: the invariant of their interleavings and what the user sees (C27,
      C28).
    - [LedPanel.v]: [lab2b.c]; [IrMonitor.v]: the loop of lab 7.
    - [Double.v], [DoubleRange.v]: [double] and its exactness on integers; bounds for
      sums and products and the range of [remainder].
    - [DoubleCanon.v], [DoubleNear.v]: the doubles of the machine, their rational values,
      rounding errors and comparisons.
    - [Raster.v]: the [for] loops over the pixels of an array and their rules.
    - [Ppm.v]: the class [myppm], C++ streams, [clean_up] and the forms of [ppm_init].
    - [PpmRead.v]: reading is the inverse of writing a PPM file (C29), and ends on every
      file (C30).
    - [Polygon.v]: [shape.h] and the rest of pr02 (C33).
    - [Window.v]: the windows of all image programs, over the interface [OpenGL] whose
      laws are the documented behaviour of the calls they make, and an instance of it.
    - [Gradient.v]: [pr01.cpp].
    - [Sweep.v]: moving a window over a picture.
    - [Filter.v], [FilterMain.v]: [conv_blur], [dilation] and the commands of pr04 (C34).
    - [HueFilter.v], [HueMain.v]: the same of pr05, with [get_hue], [ppm_init_hsv] and the
      eight kernels; its sums are those of [Filter.v] (C35).
    - [ColorMap.v], [ColorMapMain.v]: the tables, the HSV conversions and the commands of
      pr03 (C36).
    - [ImageTests.v]: the two programs [test.cpp], with all their cases.
    - [Warp.v]: [transformation], [getpixel], [bilinear], [inv_mtrx_3x3] and the commands
      of pr06 and pr07; [WarpFacts.v], [WarpMain.v]: exact runs of them (C37);
      [WarpNear.v]: the commands with any 2 by 2 matrix, with their rounding errors (C38);
      [WarpProject.v]: those with a 3 by 3 matrix (C39), with the inverse matrix (C31, in
      [WarpMain.v]); [WarpWave.v]: the wave of pr07 (C40).
    - [Shapes.v]: a judgement for statements that keep the shape of a picture, and the shape
      of what each [main] prepares; [Show.v]: from the command line to the window (C32).

    ** What the theorems show

    Refinement: reads of both TFTP servers send exactly what a stop-and-wait sender of
    the numbered blocks of the file sends, for every interleaving of acknowledgements
    and timeouts; writes refine receivers that say precisely which bytes are stored;
    the driver's queue refines a FIFO, the proxy's cache a list, the proxy a cache of
    pages, the chat client a client over messages, the chat server a room.  Delivery and round trips: what a reader receives is the file
    (after undoing netascii), what a writer sends is stored, a data word interrupting
    the driver is what the test program shows, a request written by the proxy's client
    is the request the proxy reads, a line typed into a chat client is what the other
    members of the room are shown, the lines typed into the echo client come back under
    every interleaving.  Safety: a TFTP child stays inside its arrays for
    all files, datagrams and failures except ERROR packets and datagrams of fewer than two
    bytes; at most one process holds the driver, and its handler finds an allocated queue
    outside of the windows that the theorem names; the cache touches no freed node while it holds at most
    ten pages.  Errors and liveness: which error packet each refusal sends, when a
    child gives up, when a client tells that it is idle.  Interleavings: transfers
    of different files that run at the same time do not affect each other; interrupts
    between any two statements of a read reorder and duplicate nothing, and what they can
    hide is said exactly; ended children are all collected although their signals are
    merged.  Whole programs: the test programs of both drivers and the chat server from its
    command line.  Images: a PPM file is read back
    as its picture; every program draws exactly its array and reads nothing behind it; every command of pr01
    and pr03 to pr05 and the mirror and translation of pr06 and pr07 are given pixel by
    pixel, with the floating-point results exact; the inverse matrix is one over the
    rational numbers.  Rotation, scaling, shear, the projections and the wave are no exact transformations:
    their pixels are the interpolations over the rational numbers, rounded up to an error of
    2^-40, and the runs that are undefined are characterised.  Several theorems state a
    defect exactly: they say what the code does on the inputs where it departs from its
    purpose, and are kept beside the ones that bound its good behaviour.

    ** Bounds and fuel

    [for_fuel] runs the C loops: the loops over [count < 512] have 513 rounds of fuel,
    the loops over [count < strlen(data)] and over the characters of a URL 1001, one
    more than the largest number of iterations the arrays allow; a search of the cache
    has one round more than there are nodes on the heap, the loops over a request text
    one more than it has characters; [clean_up] has one round more than there are bytes
    left, a segment of a colour table 257, one more than the table has entries; [reap_loop]
    has one round more than there are ended children when the handler is stepped as a
    whole, and in the step relation each call of [waitpid] is a step of its own; [delay]
    has one round more than the 2^28 it counts; the search for the edge of a polygon has
    exactly the rounds of its loop, after which the function ends without a result.  Running out is [Undef NoFuel], and every theorem that gives an outcome
    shows another one, so the fuel is enough.  The waiting loop
    of the interrupt handler takes the values its register shows and is done at the
    first one with the bit clear.  The transfer loop of the TFTP servers and the main
    loops of the chat programs and of the proxy are recursions over the events that reach
    them; [Done] (or [false]) means they wait for the next one.  The echo programs have no
    fuel: they are a step relation, and [inevitable] says that every run of uninterrupted
    steps reaches its end.

    ** Not modelled

    [printf] and [perror] output except where it is the program's purpose (the chat
    client, the test programs of the drivers and of the filters), the time-out value
    given to [select], the vendor's list [xparameters_ps.h] of interrupt numbers and
    addresses, which no program uses, Verilog, what is inside OpenGL (an interface with
    laws) and the library behind [platform.c] (its calls are recorded), failures of the
    network while both processes of the echo service are there (a connection is reset only
    by a process that has gone), and the buffering of [FILE] streams: a
    character is in the file when [putc] returns.  In [TftpShare.v] a whole round of a
    child (the answer to its request, or one pass through its loop) is the unit of
    interleaving, and two children that write the same file are not described.  [sin],
    [cos] and [atan] are parameters.  [close(read_fd)] in the clean-up of a TFTP child is
    given a number that only an octet read assigned; no number changes what is modelled.
    In the proxy, [strptime] and [mktime] are the
    parameter [date], and the room behind an array that is one byte too short is the
    parameter [padding]. *)

From stdpp Require Import base list gmap.
From Stdlib Require Import ZArith Lia Ascii String.
Open Scope Z_scope.

(** ** Machine integers

    C integers are [Z]; every narrowing conversion of the source is one of the
    functions below. *)

(** Conversion to [unsigned char]. *)
Definition u8 (z : Z) : Z := z mod 256.

(** Conversion to (signed) [char], the plain [char] of the target. *)
Definition s8 (z : Z) : Z := if u8 z <? 128 then u8 z else u8 z - 256.

(** Conversion to [unsigned short] and [unsigned int]. *)
Definition u16 (z : Z) : Z := z mod 65536.
Definition u32 (z : Z) : Z := z mod 4294967296.

(** Conversion to [short]. *)
Definition s16 (z : Z) : Z := if u16 z <? 32768 then u16 z else u16 z - 65536.

Definition is_byte (z : Z) : Prop := 0 <= z < 256.

(** ** C string literals as byte lists *)
Definition lit (s : string) : list Z :=
  List.map (fun c => Z.of_nat (nat_of_ascii c)) (list_ascii_of_string s).

Arguments lit : simpl never.

(** ** Finite key types with computing equality: the names of the arrays and of
    the scalar variables of a modelled function. *)
Class Key (K : Type) := {
  key_eqb : K -> K -> bool;
  key_eqb_spec : forall a b, reflect (a = b) (key_eqb a b)
}.

Definition upd {K V} `{Key K} (f : K -> V) (k : K) (v : V) : K -> V :=
  fun k' => if key_eqb k k' then v else f k'.

Section Upd.
Context {K V : Type} `{Key K}.
Lemma upd_eq (f : K -> V) k v : upd f k v k = v.
Proof. unfold upd. destruct (key_eqb_spec k k); congruence. Qed.
Lemma upd_ne (f : K -> V) k k' v : k <> k' -> upd f k v k' = f k'.
Proof. intros. unfold upd. destruct (key_eqb_spec k k'); congruence. Qed.
End Upd.

(** ** Shared hint databases and tactics *)
Create HintDb bytes.
Create HintDb cmem.
Create Rewrite HintDb bytes.

Ltac invc H := inversion H; subst; clear H.

(** Case split on the boolean comparisons of the goal, with the facts they give. *)
Ltac bcase :=
  match goal with
  | |- context [Z.eqb ?a ?b] => destruct (Z.eqb_spec a b)
  | |- context [Z.ltb ?a ?b] => destruct (Z.ltb_spec a b)
  | |- context [Z.leb ?a ?b] => destruct (Z.leb_spec a b)
  end; simpl.

(** ** Integer lemmas *)
Lemma u8_byte z : is_byte (u8 z).
Proof. unfold is_byte, u8. apply Z.mod_pos_bound. lia. Qed.

Lemma u8_id z : is_byte z -> u8 z = z.
Proof. intros []. unfold u8. apply Z.mod_small. lia. Qed.

Lemma s8_range z : -128 <= s8 z < 128.
Proof. unfold s8. pose proof (u8_byte z) as []. bcase; lia. Qed.

Lemma s8_id z : -128 <= z < 128 -> s8 z = z.
Proof.
  intros. unfold s8, u8.
  pose proof (Z.div_mod z 256). pose proof (Z.mod_pos_bound z 256).
  bcase; lia.
Qed.

Lemma u8_s8 z : u8 (s8 z) = u8 z.
Proof.
  unfold s8, u8. bcase; [apply Z.mod_mod; lia |].
  replace (z mod 256 - 256) with (z mod 256 + (-1) * 256) by lia.
  rewrite Z.mod_add by lia. apply Z.mod_mod. lia.
Qed.

(** A byte read as [char] is the end-of-file code only when it is 0xFF. *)
Lemma s8_eof z : is_byte z -> s8 z = -1 <-> z = 255.
Proof. intros. unfold s8. rewrite u8_id by done. unfold is_byte in *. bcase; lia. Qed.

Lemma s8_eqb z k : is_byte z -> 0 <= k < 128 -> (s8 z =? k) = (z =? k).
Proof. intros. unfold s8. rewrite u8_id by done. unfold is_byte in *.
  destruct (Z.ltb_spec z 128); repeat bcase; lia. Qed.

Lemma u16_range z : 0 <= u16 z < 65536.
Proof. apply Z.mod_pos_bound. lia. Qed.

Lemma u16_id z : 0 <= z < 65536 -> u16 z = z.
Proof. apply Z.mod_small. Qed.

Lemma s16_range z : -32768 <= s16 z < 32768.
Proof. unfold s16. pose proof (u16_range z). bcase; lia. Qed.

Lemma s16_id z : -32768 <= z < 32768 -> s16 z = z.
Proof.
  intros. unfold s16, u16.
  pose proof (Z.div_mod z 65536). pose proof (Z.mod_pos_bound z 65536).
  bcase; lia.
Qed.

Lemma s16_mod z z' : u16 z = u16 z' -> s16 z = s16 z'.
Proof. unfold s16. by intros ->. Qed.

#[export] Hint Resolve u8_byte u16_range s8_range : bytes.
#[export] Hint Rewrite u8_s8 : bytes.

(** ** List lemmas *)
Section Lists.
Context {A : Type}.
Implicit Types l : list A.

Lemma take_drop_app_le (n m : nat) l :
  (n <= m)%nat -> take n l ++ take (m - n) (drop n l) = take m l.
Proof.
  intros. rewrite <- (firstn_skipn n (take m l)) at 1.
  rewrite take_take, Nat.min_l by lia. f_equal.
  by rewrite take_drop_commute, Nat.add_comm, Nat.sub_add.
Qed.

Lemma Forall_take_drop (P : A -> Prop) n l :
  Forall P l -> Forall P (take n l) /\ Forall P (drop n l).
Proof. rewrite <- (firstn_skipn n l) at 1. by rewrite Forall_app. Qed.
End Lists.

(** ** The two big-endian bytes of a block number

    The programs build them with [(n & 0xFF00) >> 8] and [n & 0x00FF]. *)
Definition hi_byte (n : Z) : Z := Z.shiftr (Z.land n 0xFF00) 8.
Definition lo_byte (n : Z) : Z := Z.land n 0x00FF.

(** What a peer reads back from the two bytes. *)
Definition be16 (hi lo : Z) : Z := hi * 256 + lo.

Lemma lo_byte_mod n : lo_byte n = n mod 256.
Proof. unfold lo_byte. change 0xFF with (Z.ones 8). by rewrite Z.land_ones. Qed.

Lemma hi_byte_div n : hi_byte n = n / 256 mod 256.
Proof.
  unfold hi_byte. rewrite Z.shiftr_land, Z.shiftr_div_pow2 by lia.
  change (Z.shiftr 0xFF00 8) with (Z.ones 8). by rewrite Z.land_ones.
Qed.

Lemma be16_bytes n : 0 <= n < 65536 -> be16 (hi_byte n) (lo_byte n) = n.
Proof.
  intros. unfold be16. rewrite hi_byte_div, lo_byte_mod.
  rewrite (Z.mod_small (n / 256)) by (split; [apply Z.div_pos | apply Z.div_lt_upper_bound]; lia).
  pose proof (Z.div_mod n 256). lia.
Qed.

Lemma hi_byte_byte n : is_byte (hi_byte n).
Proof. rewrite hi_byte_div. apply (u8_byte (n / 256)). Qed.
Lemma lo_byte_byte n : is_byte (lo_byte n).
Proof. rewrite lo_byte_mod. apply (u8_byte n). Qed.
#[export] Hint Resolve hi_byte_byte lo_byte_byte : bytes.
