(* ===== verification/CMem.v ===== *)
(** * C functions as state transformers

    The programs are sequences of calls on fixed-size local arrays and on scalar
    local variables.  This file gives the state of such a function (the arrays,
    the scalars, and a component-specific world of files, devices and sockets),
    the monad its statements live in, the C library routines on arrays that the
    programs call, and the rules used to run a function symbolically.

    An access outside an array, a read of a variable that was never assigned or
    the use of a stream that was never opened makes the run [Undef]; [exit] makes
    it [Exited].  Arrays hold bytes 0..255; their initial contents, like those of
    an uninitialised C array, are arbitrary. *)

From S2P Require Import Prelude.
From stdpp Require Import base list.
From Stdlib Require Import ZArith Lia.
Open Scope Z_scope.

(** ** Outcomes *)
Inductive fault :=
| OutOfBounds      (* a read or write outside an array *)
| Uninitialised    (* an indeterminate scalar or pointer is used *)
| NullPointer
| UseAfterFree     (* an access to memory that was freed *)
| IntOverflow      (* a signed overflow, or a conversion of a double that does not fit *)
| MissingReturn    (* a result is used of a function that ended without [return] *)
| Uncaught         (* a C++ exception that nothing catches: the program is aborted *)
| NoFuel.          (* a loop bound of the model was exceeded; shown unreachable *)

Inductive outcome (S A : Type) :=
| Done (a : A) (s : S)
| Exited (code : Z) (s : S)
| Undef (w : fault) (s : S).
Arguments Done {S A} a s.
Arguments Exited {S A} code s.
Arguments Undef {S A} w s.

(** The state in which a run ended, however it ended. *)
Definition final {S A} (o : outcome S A) : S :=
  match o with Done _ s | Exited _ s | Undef _ s => s end.

(** ** The monad *)
Definition M (S A : Type) : Type := S -> outcome S A.

Definition ret {S A} (a : A) : M S A := fun s => Done a s.
Definition bind {S A B} (m : M S A) (k : A -> M S B) : M S B := fun s =>
  match m s with
  | Done a s' => k a s'
  | Exited c s' => Exited c s'
  | Undef w s' => Undef w s'
  end.
Definition exit {S A} (code : Z) : M S A := fun s => Exited code s.
Definition undef {S A} (w : fault) : M S A := fun s => Undef w s.

Declare Scope c_scope.
Delimit Scope c_scope with c.
Open Scope c_scope.
Notation "'let*' x ':=' m 'in' k" := (bind m (fun x => k))
  (at level 10, x name, m at level 100, k at level 200) : c_scope.
Notation "m ';;;' k" := (bind m (fun _ => k))
  (at level 100, right associativity) : c_scope.

(** Control flow out of a loop body. *)
Inductive ctl := Cont | Brk.

(** [for (;guard;incr) body]; [body] ends with [Cont] for the end of the body and
    [continue], with [Brk] for [break]. *)
Fixpoint for_fuel {S} (fuel : nat) (guard : M S bool) (incr : M S unit)
    (body : M S ctl) : M S unit :=
  match fuel with
  | O => undef NoFuel
  | Datatypes.S n =>
      let* g := guard in
      if g then
        let* c := body in
        match c with
        | Brk => ret tt
        | Cont => incr ;;; for_fuel n guard incr body
        end
      else ret tt
  end.

(** ** Pure array operations *)
Definition zlen (l : list Z) : Z := Z.of_nat (length l).

Definition in_bounds (l : list Z) (off n : Z) : bool :=
  (0 <=? off) && (0 <=? n) && (off + n <=? zlen l).

Definition slice (l : list Z) (off n : Z) : list Z :=
  take (Z.to_nat n) (drop (Z.to_nat off) l).

Definition splice (l : list Z) (off : Z) (src : list Z) : list Z :=
  take (Z.to_nat off) l ++ src ++ drop (Z.to_nat off + length src) l.

(** The C string that starts a byte sequence: what precedes the first NUL. *)
Fixpoint cstr (l : list Z) : option (list Z) :=
  match l with
  | [] => None
  | b :: l' => if b =? 0 then Some [] else cons b <$> cstr l'
  end.

(** [atoi]: white space, a sign, and the digits that follow; 0 when there are none. *)
Definition white (c : Z) : bool := (c =? 32) || ((9 <=? c) && (c <=? 13)).
Definition digit (c : Z) : bool := (48 <=? c) && (c <=? 57).
Fixpoint number (v : Z) (t : list Z) : Z :=
  match t with c :: t' => if digit c then number (10 * v + (c - 48)) t' else v | [] => v end.
Fixpoint atoi (t : list Z) : Z :=
  match t with
  | c :: t' => if white c then atoi t' else if c =? 45 then - number 0 t' else if c =? 43 then number 0 t' else number 0 t
  | [] => 0
  end.

(** ** States *)
Record cstate (arr ivar X : Type) := mk_cstate {
  arrs : arr -> list Z;
  ints : ivar -> option Z;   (* [None]: indeterminate *)
  world : X
}.
Arguments mk_cstate {arr ivar X} arrs ints world.
Arguments arrs {arr ivar X} c _.
Arguments ints {arr ivar X} c _.
Arguments world {arr ivar X} c.

Section Ops.
Context {arr ivar X : Type} `{Key arr} `{Key ivar}.
Abbreviation st := (cstate arr ivar X).
Abbreviation C := (M st).

Definition set_arr (s : st) (a : arr) (l : list Z) : st :=
  mk_cstate (upd (arrs s) a l) (ints s) (world s).
Definition set_int (s : st) (v : ivar) (z : Z) : st :=
  mk_cstate (arrs s) (upd (ints s) v (Some z)) (world s).
Definition set_world (s : st) (x : X) : st :=
  mk_cstate (arrs s) (ints s) x.

(** Scalars. *)
Definition geti (v : ivar) : C Z := fun s =>
  match ints s v with Some z => Done z s | None => Undef Uninitialised s end.
Definition seti (v : ivar) (z : Z) : C unit := fun s => Done tt (set_int s v z).

Definition getw : C X := fun s => Done (world s) s.
Definition setw (x : X) : C unit := fun s => Done tt (set_world s x).

(** Raw reads and writes of [n] consecutive bytes. *)
Definition read_arr (a : arr) (off n : Z) : C (list Z) := fun s =>
  if in_bounds (arrs s a) off n then Done (slice (arrs s a) off n) s
  else Undef OutOfBounds s.
Definition write_arr (a : arr) (off : Z) (src : list Z) : C unit := fun s =>
  if in_bounds (arrs s a) off (zlen src)
  then Done tt (set_arr s a (splice (arrs s a) off src))
  else Undef OutOfBounds s.

(** [a[i]] as [unsigned char], and [a[i] = v]. *)
Definition load (a : arr) (i : Z) : C Z :=
  let* l := read_arr a i 1 in ret (List.hd 0 l).
Definition store (a : arr) (i v : Z) : C unit := write_arr a i [u8 v].

(** The library routines. *)
Definition memcpy (dst : arr) (doff : Z) (src : arr) (soff n : Z) : C unit :=
  let* l := read_arr src soff n in write_arr dst doff l.
Definition memset0 (a : arr) (n : Z) : C unit :=
  write_arr a 0 (replicate (Z.to_nat n) 0).
Definition read_str (a : arr) (off : Z) : C (list Z) := fun s =>
  if in_bounds (arrs s a) off 0 then
    match cstr (drop (Z.to_nat off) (arrs s a)) with
    | Some t => Done t s
    | None => Undef OutOfBounds s
    end
  else Undef OutOfBounds s.
Definition strlen (a : arr) (off : Z) : C Z :=
  let* t := read_str a off in ret (zlen t).
Definition strcpy (dst : arr) (src : arr) (soff : Z) : C unit :=
  let* t := read_str src soff in write_arr dst 0 (t ++ [0]).
Definition strcpy_lit (dst : arr) (t : list Z) : C unit :=
  write_arr dst 0 (t ++ [0]).
(** [strcmp(a, t) == 0] for a literal [t]. *)
Definition streq_lit (a : arr) (t : list Z) : C bool :=
  let* u := read_str a 0 in ret (bool_decide (u = t)).
(** [sprintf(a, "%c...%c", cs)]. *)
Definition sprintf_c (a : arr) (cs : list Z) : C unit :=
  write_arr a 0 (cs ++ [0]).
End Ops.

(** ** Weakest preconditions

    [wp m Q E s]: run from [s], [m] ends normally with [Q] or exits with [E]; it
    is never undefined. *)
Definition wp {S A} (m : M S A) (Q : A -> S -> Prop) (E : Z -> S -> Prop) (s : S) : Prop :=
  match m s with
  | Done a s' => Q a s'
  | Exited c s' => E c s'
  | Undef _ _ => False
  end.

Section WpRules.
Context {S : Type}.
Implicit Type s : S.

Lemma wp_ret {A} (a : A) Q E s : Q a s -> wp (ret a) Q E s.
Proof. done. Qed.

Lemma wp_exit {A} c (Q : A -> S -> Prop) E s : E c s -> wp (exit c) Q E s.
Proof. done. Qed.

Lemma wp_bind {A B} (m : M S A) (k : A -> M S B) Q E s :
  wp m (fun a s' => wp (k a) Q E s') E s -> wp (bind m k) Q E s.
Proof. unfold wp, bind. by destruct (m s). Qed.

Lemma wp_mono {A} (m : M S A) (Q Q' : A -> S -> Prop) (E E' : Z -> S -> Prop) s :
  wp m Q E s -> (forall a s', Q a s' -> Q' a s') -> (forall c s', E c s' -> E' c s') ->
  wp m Q' E' s.
Proof. unfold wp. destruct (m s); naive_solver. Qed.

Lemma wp_done {A} (m : M S A) Q s :
  wp m Q (fun _ _ => False) s <-> exists a s', m s = Done a s' /\ Q a s'.
Proof. unfold wp. destruct (m s); naive_solver. Qed.

(** One iteration of a loop. *)
Lemma wp_for (n : nat) (guard : M S bool) incr body Q E s :
  wp guard (fun g s1 =>
    if g then
      wp body (fun c s2 =>
        match c with
        | Brk => Q tt s2
        | Cont => wp incr (fun _ s3 => wp (for_fuel n guard incr body) Q E s3) E s2
        end) E s1
    else Q tt s1) E s ->
  wp (for_fuel (Datatypes.S n) guard incr body) Q E s.
Proof.
  intros Hw. simpl. apply wp_bind. eapply wp_mono; [exact Hw | | done].
  intros [] s1 H1; [| done]. apply wp_bind. eapply wp_mono; [exact H1 | | done].
  intros [] s2 H2; [| done]. by apply wp_bind.
Qed.
End WpRules.

(** [fails m w s]: run from [s], [m] is undefined with fault [w]. *)
Definition fails {S A} (m : M S A) (w : fault) (s : S) : Prop := exists s', m s = Undef w s'.

Section Fails.
Context {S : Type}.
Implicit Type s : S.

Lemma fails_bind {A B} (m : M S A) (k : A -> M S B) w s :
  wp m (fun a s' => fails (k a) w s') (fun _ _ => False) s -> fails (bind m k) w s.
Proof. unfold wp, fails, bind. by destruct (m s). Qed.

Lemma fails_first {A B} (m : M S A) (k : A -> M S B) w s : fails m w s -> fails (bind m k) w s.
Proof. intros [s' H]. exists s'. unfold bind. by rewrite H. Qed.
End Fails.

Section WpOps.
Context {arr ivar X : Type} `{Key arr} `{Key ivar}.
Abbreviation st := (cstate arr ivar X).
Implicit Types (s : st) (a : arr).

Lemma wp_geti v z Q E s : ints s v = Some z -> Q z s -> wp (geti v) Q E s.
Proof. intros Hv HQ. unfold wp, geti. by rewrite Hv. Qed.

Lemma wp_seti v z Q E s : Q tt (set_int s v z) -> wp (seti v z) Q E s.
Proof. done. Qed.

Lemma wp_getw Q E s : Q (world s) s -> wp getw Q E s.
Proof. done. Qed.

Lemma wp_setw x Q E s : Q tt (set_world s x) -> wp (setw x) Q E s.
Proof. done. Qed.

Lemma in_bounds_true l off n :
  0 <= off -> 0 <= n -> off + n <= zlen l -> in_bounds l off n = true.
Proof. intros. unfold in_bounds. by rewrite !(proj2 (Z.leb_le _ _)) by lia. Qed.

Lemma wp_read_arr a off n Q E s :
  0 <= off -> 0 <= n -> off + n <= zlen (arrs s a) ->
  Q (slice (arrs s a) off n) s -> wp (read_arr a off n) Q E s.
Proof. intros. unfold wp, read_arr. by rewrite in_bounds_true. Qed.

Lemma wp_write_arr a off l Q E s :
  0 <= off -> off + zlen l <= zlen (arrs s a) ->
  Q tt (set_arr s a (splice (arrs s a) off l)) -> wp (write_arr a off l) Q E s.
Proof.
  intros. unfold wp, write_arr. rewrite in_bounds_true; try done. unfold zlen; lia.
Qed.

Lemma wp_store a i v Q E s :
  0 <= i < zlen (arrs s a) ->
  Q tt (set_arr s a (splice (arrs s a) i [u8 v])) -> wp (store a i v) Q E s.
Proof. intros. apply wp_write_arr; unfold zlen in *; simpl; try lia. done. Qed.

Lemma wp_memcpy dst doff src soff n Q E s :
  0 <= soff -> 0 <= n -> soff + n <= zlen (arrs s src) ->
  0 <= doff -> doff + n <= zlen (arrs s dst) ->
  Q tt (set_arr s dst (splice (arrs s dst) doff (slice (arrs s src) soff n))) ->
  wp (memcpy dst doff src soff n) Q E s.
Proof.
  intros. unfold memcpy. apply wp_bind, wp_read_arr; try lia.
  apply wp_write_arr; try done. unfold zlen, slice in *.
  rewrite length_take, length_drop. lia.
Qed.

Lemma wp_memset0 a n Q E s :
  0 <= n <= zlen (arrs s a) ->
  Q tt (set_arr s a (splice (arrs s a) 0 (replicate (Z.to_nat n) 0))) ->
  wp (memset0 a n) Q E s.
Proof.
  intros. apply wp_write_arr; [lia | | done].
  unfold zlen in *. rewrite length_replicate. lia.
Qed.

Lemma wp_read_str a off t Q E s :
  0 <= off <= zlen (arrs s a) -> cstr (drop (Z.to_nat off) (arrs s a)) = Some t ->
  Q t s -> wp (read_str a off) Q E s.
Proof.
  intros ? Ht ?. unfold wp, read_str. rewrite in_bounds_true by lia. by rewrite Ht.
Qed.
End WpOps.

(** ** Lemmas on slices, splices and C strings *)
Lemma zlen_nil : zlen [] = 0. Proof. done. Qed.
Lemma zlen_cons x l : zlen (x :: l) = 1 + zlen l.
Proof. unfold zlen. simpl. lia. Qed.
Lemma zlen_app l1 l2 : zlen (l1 ++ l2) = zlen l1 + zlen l2.
Proof. unfold zlen. rewrite length_app. lia. Qed.
Lemma zlen_nonneg l : 0 <= zlen l.
Proof. unfold zlen. lia. Qed.
Lemma zlen_replicate n x : 0 <= n -> zlen (replicate (Z.to_nat n) x) = n.
Proof. intros. unfold zlen. rewrite length_replicate. lia. Qed.

Lemma zlen_splice l off src :
  0 <= off -> off + zlen src <= zlen l -> zlen (splice l off src) = zlen l.
Proof.
  unfold zlen, splice. intros. rewrite !length_app, length_take, length_drop. lia.
Qed.

Lemma zlen_slice l off n :
  0 <= off -> 0 <= n -> off + n <= zlen l -> zlen (slice l off n) = n.
Proof. unfold zlen, slice. intros. rewrite length_take, length_drop. lia. Qed.

Lemma splice_0 l src : splice l 0 src = src ++ drop (length src) l.
Proof. done. Qed.

(** Reading back what was just written, from the start of the array. *)
Lemma slice_0_app l1 l2 n : n = zlen l1 -> slice (l1 ++ l2) 0 n = l1.
Proof.
  intros ->. unfold slice, zlen. rewrite Nat2Z.id, drop_0.
  by rewrite take_app_length.
Qed.

Lemma drop_zlen_app l1 l2 n : n = zlen l1 -> drop (Z.to_nat n) (l1 ++ l2) = l2.
Proof. intros ->. unfold zlen. rewrite Nat2Z.id. apply drop_app_length. Qed.

Lemma slice_app l1 l2 off n :
  off = zlen l1 -> slice (l1 ++ l2) off n = slice l2 0 n.
Proof.
  intros ->. unfold slice, zlen. rewrite Nat2Z.id, drop_app_length. done.
Qed.

Lemma splice_app l1 l2 off src :
  off = zlen l1 -> splice (l1 ++ l2) off src = l1 ++ splice l2 0 src.
Proof.
  intros ->. unfold splice, zlen. rewrite Nat2Z.id, take_app_length. simpl.
  by rewrite drop_app_add.
Qed.

Lemma cstr_app t l : Forall (fun b => b <> 0) t -> cstr (t ++ 0 :: l) = Some t.
Proof.
  induction 1 as [| b t Hb _ IH]; simpl; [done |].
  rewrite (proj2 (Z.eqb_neq b 0)) by done. by rewrite IH.
Qed.

Lemma cstr_Some l t : cstr l = Some t ->
  exists r, l = t ++ 0 :: r /\ Forall (fun b => b <> 0) t.
Proof.
  revert t. induction l as [| b l IH]; simpl; [done |]. intros t.
  destruct (Z.eqb_spec b 0) as [-> |].
  - intros [= <-]. by exists l.
  - destruct (cstr l) as [t' |]; simpl; [| done]. intros [= <-].
    destruct (IH t') as (r & -> & ?); [done |]. exists r. split; [done |]. by constructor.
Qed.

(** Strings without NUL bytes. *)
Definition nonzero (l : list Z) : Prop := Forall (fun b => b <> 0) l.

Lemma nonzero_dec t : forallb (fun b => negb (b =? 0)) t = true -> Forall (fun b => b <> 0) t.
Proof.
  induction t as [| b t IH]; simpl; [constructor |]. intros [Hb Ht]%andb_prop.
  constructor; [| by apply IH]. by destruct (Z.eqb_spec b 0).
Qed.

Lemma cstr_splice_0 l t : nonzero t -> cstr (splice l 0 (t ++ [0])) = Some t.
Proof. intros. rewrite splice_0, <- app_assoc. by apply cstr_app. Qed.

Lemma cstr_nonzero l t : cstr l = Some t -> nonzero t /\ zlen t < zlen l.
Proof.
  intros (r & -> & Ht)%cstr_Some. split; [done |]. rewrite zlen_app, zlen_cons.
  pose proof (zlen_nonneg r). lia.
Qed.

Lemma cstr_terminated l r : is_Some (cstr (l ++ 0 :: r)).
Proof.
  induction l as [| b l IH]; simpl; [by eexists |]. destruct (b =? 0); [by eexists |].
  destruct IH as [t ->]. by eexists.
Qed.

Lemma length_splice_0 (p l : list Z) : (length l <= length p)%nat -> length (splice p 0 l) = length p.
Proof. intros. rewrite splice_0, length_app, length_drop. lia. Qed.

(** A copy that does not fit its destination. *)
Lemma fails_memcpy {arr ivar X} `{Key arr} `{Key ivar} (s : cstate arr ivar X) dst doff src soff n :
  0 <= soff -> 0 <= n -> soff + n <= zlen (arrs s src) -> zlen (arrs s dst) < doff + n ->
  fails (memcpy dst doff src soff n) OutOfBounds s.
Proof.
  intros. exists s. unfold memcpy, bind, read_arr. rewrite in_bounds_true by lia.
  unfold write_arr, in_bounds. rewrite zlen_slice by lia.
  rewrite (proj2 (Z.leb_gt (doff + n) _)) by lia. by rewrite andb_false_r.
Qed.

#[export] Hint Rewrite zlen_nil zlen_cons zlen_app : bytes.

Arguments for_fuel : simpl never.
Arguments zlen : simpl never.
Arguments slice : simpl never.
Arguments splice : simpl never.

(** Lengths of byte lists built from constants, slices and splices. *)
Ltac zl :=
  repeat first
    [ rewrite zlen_app | rewrite zlen_cons | rewrite zlen_nil
    | rewrite zlen_replicate by lia ];
  simpl; try lia.

(** Symbolic execution of straight-line code: one statement. *)
Ltac wp_step :=
  match goal with
  | |- wp (bind _ _) _ _ _ => apply wp_bind
  | |- wp (ret _) _ _ _ => apply wp_ret
  | |- wp (exit _) _ _ _ => apply wp_exit
  | |- wp (seti _ _) _ _ _ => apply wp_seti
  | |- wp getw _ _ _ => apply wp_getw
  | |- wp (setw _) _ _ _ => apply wp_setw
  | |- wp (geti _) _ _ _ => eapply wp_geti; [done |]
  end; cbv beta iota.
Ltac wp_steps := repeat (wp_step; cbv beta iota).
