(* ===== verification/TftpState.v ===== *)
(** * TFTP server: the state of one transfer and the code both servers share

    [src/ECEN602/assignment3] holds two servers, [tftps.c] (the one the makefile
    builds) and [server.c] (an earlier version of the same text).  Both fork one
    child per request; this file holds the local variables of the child, its view
    of the file system and of its socket, and the statements that the two files
    have in common: building and sending packets, opening and reading the
    requested file, the RRQ and WRQ branches, the ACK branch and the clean-up.
    [Tftps.v] and [TftpServer.v] hold what differs. *)

From S2P Require Import Prelude CMem.
From stdpp Require Import base list gmap.
From Stdlib Require Import ZArith Lia String.
Open Scope Z_scope.

Module Tftp.

(** ** Constants *)
Definition NOBYTES : Z := 512.
Definition HEADER : Z := 4.
Definition MAXCHAR : Z := 1000.

(** ** Local variables of [main] used by a child *)
Inductive arr :=
| packet | data | datapack | send_pack | errmsg | msg | ACK | BlockNo
| Filename | Mode | ErrorCode | ErrMsg.
Scheme Equality for arr.
#[global] Instance arr_key : Key arr.
Proof.
  refine {| key_eqb := arr_beq |}.
  intros a b. destruct (arr_beq a b) eqn:E; constructor.
  - by apply internal_arr_dec_bl.
  - intros ->. rewrite internal_arr_dec_lb in E; done.
Defined.

(** The declared size of each array. *)
Definition arr_size (a : arr) : Z :=
  match a with
  | packet | data => MAXCHAR
  | datapack | send_pack => 517
  | errmsg => 100
  | msg | ErrMsg => 50
  | ACK | BlockNo | Filename | Mode | ErrorCode => 10
  end.

Inductive ivar :=
| read_flag | write_flag | stop_flag | mode_flag | time_count | size_sp | count
| block_number | nextch | ch | read_size | mode_offset | sent_num.
Scheme Equality for ivar.
#[global] Instance ivar_key : Key ivar.
Proof.
  refine {| key_eqb := ivar_beq |}.
  intros a b. destruct (ivar_beq a b) eqn:E; constructor.
  - by apply internal_ivar_dec_bl.
  - intros ->. rewrite internal_ivar_dec_lb in E; done.
Defined.

(** ** Files and the socket *)

(** A stream opened for reading holds what is left to read; one opened for
    writing appends to the file it names. *)
Inductive stream := RStream (rest : list Z) | WStream (name : list Z).
Inductive FILEp := FUninit | FNull | FOpen (f : stream).

Record tworld := mk_world {
  fs : gmap (list Z) (list Z);     (* the files the child can open *)
  fp : FILEp;
  read_fd : option (list Z);       (* what is left to read, once opened *)
  sent : list (list Z)             (* the datagrams sent to the client, in order *)
}.

Abbreviation st := (cstate arr ivar tworld).
Abbreviation C := (M st).

(** What the environment answers in one round: whether [sendto] and [read]
    succeed. *)
Record env := { send_ok : bool; read_ok : bool }.

Definition set_fs (w : tworld) x := mk_world x (fp w) (read_fd w) (sent w).
Definition set_fp (w : tworld) x := mk_world (fs w) x (read_fd w) (sent w).
Definition set_read_fd (w : tworld) x := mk_world (fs w) (fp w) x (sent w).
Definition add_sent (w : tworld) d := mk_world (fs w) (fp w) (read_fd w) (sent w ++ [d]).

(** ** Sending *)

(** [if (sendto(childsockfd, send_pack, size_sp, ...) <= ERROR) exit(1);] *)
Definition sendto (o : env) : C unit :=
  let* n := geti size_sp in
  let* d := read_arr send_pack 0 n in
  if send_ok o then let* w := getw in setw (add_sent w d)
  else exit 1.

(** Building an error packet: code, message, and the copy into [send_pack]. *)
Definition build_error (code : Z) (text : string) : C unit :=
  sprintf_c errmsg [0; 5; 0; code] ;;;
  strcpy_lit msg (lit text) ;;;
  let* n := strlen msg 0 in
  memcpy errmsg 4 msg 0 n ;;;
  memcpy send_pack 0 errmsg 0 (n + HEADER) ;;;
  seti size_sp (n + HEADER).

(** The error packet is sent and the transfer stops. *)
Definition send_error (o : env) (code : Z) (text : string) : C unit :=
  build_error code text ;;; sendto o ;;; seti stop_flag 1.

(** The first data packet: header 00 03 00 01 and [count] bytes of [data]. *)
Definition send_first (o : env) : C unit :=
  sprintf_c datapack [0; 3; 0; 1] ;;;
  let* c := geti count in
  memcpy datapack 4 data 0 c ;;;
  memcpy send_pack 0 datapack 0 (c + HEADER) ;;;
  seti size_sp (c + HEADER) ;;;
  sendto o ;;;
  seti block_number 1.

(** The following ones, numbered [(block_number+1) % 65536]. *)
Definition send_next (o : env) : C unit :=
  sprintf_c datapack [0; 3] ;;;
  let* b := geti block_number in
  seti sent_num ((b + 1) mod 65536) ;;;
  let* n := geti sent_num in
  store datapack 2 (hi_byte n) ;;;
  store datapack 3 (lo_byte n) ;;;
  let* c := geti count in
  memcpy datapack 4 data 0 c ;;;
  memcpy send_pack 0 datapack 0 (c + HEADER) ;;;
  seti size_sp (c + HEADER) ;;;
  sendto o ;;;
  seti block_number (u16 (b + 1)).

(** ** Files *)

(** [read(read_fd, data, 512)] on a regular file; the result is [read_size]. *)
Definition read_block (o : env) : C unit :=
  let* w := getw in
  match read_fd w with
  | None => undef Uninitialised
  | Some rest =>
      if read_ok o then
        let l := take (Z.to_nat NOBYTES) rest in
        write_arr data 0 l ;;;
        setw (set_read_fd w (Some (drop (Z.to_nat NOBYTES) rest))) ;;;
        seti read_size (zlen l)
      else exit 1
  end.

(** [getc(fp)]: the next byte, or EOF (-1). *)
Definition getc : C Z :=
  let* w := getw in
  match fp w with
  | FUninit => undef Uninitialised
  | FNull => undef NullPointer
  | FOpen (RStream (b :: rest)) =>
      setw (set_fp w (FOpen (RStream rest))) ;;; ret b
  | FOpen _ => ret (-1)
  end.

(** [putc(c, fp)]. *)
Definition putc (c : Z) : C unit :=
  let* w := getw in
  match fp w with
  | FUninit => undef Uninitialised
  | FNull => undef NullPointer
  | FOpen (WStream f) =>
      setw (set_fs w (<[f := (fs w !!! f) ++ [u8 c]]> (fs w)))
  | FOpen (RStream _) => ret tt
  end.

(** [fclose(fp)]. *)
Definition fclose : C unit :=
  let* w := getw in
  match fp w with
  | FUninit => undef Uninitialised
  | FNull => undef NullPointer
  | FOpen _ => setw (set_fp w FUninit)
  end.

(** ** RRQ *)

(** The file name and mode of a request. *)
Definition parse_request : C unit :=
  strcpy Filename packet 2 ;;;
  let* n := strlen Filename 0 in
  seti mode_offset (2 + n + 1) ;;;
  let* m := geti mode_offset in
  strcpy Mode packet m.

(** Whether the child goes on to the transfer loop or leaves ([break] out of the
    main loop, then [return 0]). *)
Inductive req := Transfer | Leave.

Definition rrq_octet (o : env) : C req :=
  seti mode_flag 0 ;;;
  let* f := read_str Filename 0 in
  let* w := getw in
  match fs w !! f with
  | None => exit 1
  | Some content =>
      setw (set_read_fd w (Some content)) ;;;
      seti count NOBYTES ;;;
      read_block o ;;;
      send_first o ;;;
      ret Transfer
  end.

(** CR LF translation of the character [c] just read: sets [ch] and [nextch]. *)
Definition translate (c : Z) : C unit :=
  if c =? 10 then seti ch 13 ;;; seti nextch 10
  else if c =? 13 then seti nextch 0
  else seti nextch (-1).

(** Body of the loop that fills [data] for the first netascii packet. *)
Definition rrq_char : C ctl :=
  let* n := geti nextch in
  let* c := geti count in
  if 0 <=? n then
    store data c n ;;; seti nextch (-1) ;;; ret Cont
  else
    let* r := getc in
    seti ch (s8 r) ;;;
    let* x := geti ch in
    if x =? -1 then seti stop_flag 1 ;;; ret Brk
    else
      let* m := geti mode_flag in
      (if m =? 1 then translate x else ret tt) ;;;
      let* y := geti ch in
      store data c y ;;;
      let* stop := geti stop_flag in
      if stop =? 1 then ret Brk else ret Cont.

(** [count < NOBYTES] and [count++]. *)
Definition count_lt (bound : Z) : C bool := let* c := geti count in ret (c <? bound).
Definition count_incr : C unit := let* c := geti count in seti count (c + 1).

Definition rrq_netascii (o : env) : C req :=
  seti mode_flag 1 ;;;
  let* f := read_str Filename 0 in
  let* w := getw in
  match fs w !! f with
  | None =>
      setw (set_fp w FNull) ;;;
      send_error o 1 "File not found" ;;; ret Leave
  | Some content =>
      setw (set_fp w (FOpen (RStream content))) ;;;
      seti count 0 ;;;
      for_fuel 513 (count_lt NOBYTES) count_incr rrq_char ;;;
      send_first o ;;;
      ret Transfer
  end.

Definition rrq (o : env) : C req :=
  seti read_flag 1 ;;;
  seti write_flag 0 ;;;
  memset0 send_pack 517 ;;;
  parse_request ;;;
  let* m1 := streq_lit Mode (lit "octet") in
  let* m2 := streq_lit Mode (lit "OCTET") in
  if m1 || m2 then rrq_octet o
  else
    let* m3 := streq_lit Mode (lit "netascii") in
    let* m4 := streq_lit Mode (lit "NETASCII") in
    if m3 || m4 then rrq_netascii o
    else send_error o 4 "Illegal TFTP operation." ;;; ret Leave.

(** ** WRQ *)
Definition wrq (o : env) : C req :=
  seti read_flag 0 ;;;
  seti write_flag 1 ;;;
  parse_request ;;;
  memset0 send_pack 517 ;;;
  let* f := read_str Filename 0 in
  let* w := getw in
  match fs w !! f with
  | Some _ =>
      setw (set_fp w FNull) ;;;
      send_error o 6 "File already exists." ;;; ret Leave
  | None =>
      setw (set_fp (set_fs w (<[f := []]> (fs w))) (FOpen (WStream f))) ;;;
      sprintf_c ACK [0; 4; 0; 0] ;;;
      memcpy send_pack 0 ACK 0 HEADER ;;;
      seti size_sp HEADER ;;;
      sendto o ;;;
      seti block_number 1 ;;;
      ret Transfer
  end.

(** ** The ACK branch of the transfer loop *)

(** Body of the loop that fills [data] for a later netascii packet. *)
Definition ack_char : C ctl :=
  let* n := geti nextch in
  let* c := geti count in
  if 0 <=? n then
    store data c n ;;; seti nextch (-1) ;;; ret Cont
  else
    let* r := getc in
    seti ch (s8 r) ;;;
    let* x := geti ch in
    if x =? -1 then seti stop_flag 1 ;;; ret Brk
    else
      translate x ;;;
      let* y := geti ch in
      store data c y ;;; ret Cont.

(** [if (mode_flag == 0) ...]: the next 512 bytes. *)
Definition ack_read_octet (o : env) : C unit :=
  seti count NOBYTES ;;;
  read_block o ;;;
  let* r := geti read_size in
  if r <? NOBYTES then seti count r ;;; seti stop_flag 1 else ret tt.

(** [if (mode_flag == 1) ...]. *)
Definition ack_read_netascii : C unit :=
  seti count 0 ;;; for_fuel 513 (count_lt NOBYTES) count_incr ack_char.

(** The next block, in the mode of the request. *)
Definition ack_read (o : env) : C unit :=
  let* m := geti mode_flag in
  (if m =? 0 then ack_read_octet o else ret tt) ;;;
  (if m =? 1 then ack_read_netascii else ret tt).

Definition on_ack (o : env) : C ctl :=
  memset0 send_pack 517 ;;;
  memset0 BlockNo 10 ;;;
  memset0 data MAXCHAR ;;;
  memset0 ACK 10 ;;;
  memset0 datapack 517 ;;;
  let* r := geti read_flag in
  let* wf := geti write_flag in
  if (r =? 0) || (wf =? 1) then
    send_error o 2 "Access violation." ;;; ret Brk
  else
    memcpy BlockNo 0 packet 2 2 ;;;
    let* stop := geti stop_flag in
    if stop =? 0 then
      ack_read o ;;;
      send_next o ;;;
      ret Cont
    else ret Brk.

(** ** The ERROR branch of the transfer loop *)
Definition on_error : C ctl :=
  memset0 ErrorCode 10 ;;;
  memset0 ErrMsg 50 ;;;
  memcpy ErrorCode 0 packet 2 2 ;;;
  memcpy ErrMsg 0 packet 4 (MAXCHAR - 4) ;;;
  seti stop_flag 1 ;;;
  ret Brk.

(** ** Clean-up: [if (stop_flag == 1) { fclose(fp); close(read_fd); ... exit(0); }]

    Only an octet read assigned [read_fd]; otherwise [close] is given whatever number the
    variable holds.  Every number has the same effect on what is modelled: [fp] is closed
    already, and a socket or a standard stream of this process, which exits in the next
    statement, is not used again, so that no file changes and no packet is sent or lost.
    A C compiler may treat the use of the unassigned variable as undefined behaviour;
    unlike the pointer passed to [fclose], it is not followed into memory. *)
Definition cleanup : C unit :=
  let* stop := geti stop_flag in
  if stop =? 1 then
    fclose ;;;
    (let* w := getw in setw (set_read_fd w None)) ;;;
    exit 0
  else ret tt.

(** What reaches a child in one round of its loop: one second without a datagram,
    a datagram, or a failing [recvfrom]. *)
Inductive event := EvTimeout | EvRecv (dgram : list Z) | EvRecvErr.

(** [recvfrom(childsockfd, packet, sizeof(packet), ...)]: what exceeds the array
    is cut off; what the datagram does not reach keeps its old contents. *)
Definition recvfrom (dgram : list Z) : C unit :=
  write_arr packet 0 (take (Z.to_nat MAXCHAR) dgram).

(** ** The child process

    The two servers have the same request branch and the same clean-up; their
    transfer loops differ in what one round does, the parameter [step]. *)
Definition request (o : env) : C req :=
  let* op := load packet 1 in
  if s8 op =? 1 then rrq o else if s8 op =? 2 then wrq o else ret Transfer.

Section Child.
Context (step : event -> env -> C ctl).

(** The loop over the events that reach the child; [false]: still in the loop,
    waiting for the next event. *)
Fixpoint transfer_loop (evs : list (event * env)) : C bool :=
  match evs with
  | [] => ret false
  | (e, o) :: evs' =>
      let* c := step e o in
      match c with Brk => ret true | Cont => transfer_loop evs' end
  end.

(** From the fork to the exit. *)
Definition child_process (o : env) (evs : list (event * env)) : C unit :=
  let* r := request o in
  match r with
  | Leave => exit 0
  | Transfer =>
      let* left := transfer_loop evs in
      if left then cleanup else ret tt
  end.
End Child.

(** ** Starting a child: the initialised locals, and arbitrary contents of the
    others.  [g] gives the contents of the arrays. *)
Definition init_ints (v : ivar) : option Z :=
  match v with
  | read_flag | write_flag | stop_flag | time_count | block_number => Some 0
  | mode_flag | nextch => Some (-1)
  | _ => None
  end.

Definition init (g : arr -> list Z) (files : gmap (list Z) (list Z)) : st :=
  mk_cstate g init_ints (mk_world files FUninit None []).

(** The shape of the arrays. *)
Definition sized (g : arr -> list Z) : Prop := forall a, zlen (g a) = arr_size a.

End Tftp.
