(* ===== verification/Tftps.v ===== *)
(** * [tftps.c]: the transfer loop of the TFTP server *)

From S2P Require Import Prelude CMem TftpState.
From stdpp Require Import base list gmap.
From Stdlib Require Import ZArith Lia String.
Open Scope Z_scope.

Module Tftps.
Import Tftp.

(** ** One second without a datagram *)

(** Reading client: the last packet is sent again, ten times at most. *)
Definition retransmit (o : env) : C ctl :=
  sendto o ;;;
  let* t := geti time_count in
  seti time_count (t + 1) ;;;
  if 10 <=? t + 1 then seti stop_flag 1 ;;; ret Brk else ret Cont.

(** Writing client: the packet buffer is made to look like an empty block, and
    two timeouts in a row end the transfer. *)
Definition write_timeout : C ctl :=
  sprintf_c packet [0; 3] ;;;
  let* b := geti block_number in
  seti sent_num (b mod 65536) ;;;
  let* n := geti sent_num in
  store packet 2 (hi_byte n) ;;;
  store packet 3 (lo_byte n) ;;;
  store packet 4 0 ;;;
  let* t := geti time_count in
  seti time_count (t + 1) ;;;
  if 2 <=? t + 1 then seti stop_flag 1 ;;; ret Brk else ret Cont.

Definition on_timeout (o : env) : C ctl :=
  let* r := geti read_flag in
  let* w := geti write_flag in
  let* c := (if (r =? 1) && (w =? 0) then retransmit o else ret Cont) in
  match c with
  | Brk => ret Brk
  | Cont => if (r =? 0) && (w =? 1) then write_timeout else ret Cont
  end.

(** ** The DATA branch *)

(** Body of the loop that writes the received bytes to the file. *)
Definition data_char : C ctl :=
  let* n := geti nextch in
  let* c := geti count in
  if 0 <=? n then putc n ;;; seti nextch (-1) ;;; ret Cont
  else
    let* b := load data c in
    seti ch (s8 b) ;;;
    let* x := geti ch in
    (if x =? -1 then seti stop_flag 1 else ret tt) ;;;
    let* m := geti mode_flag in
    (if m =? 1 then translate x else ret tt) ;;;
    let* y := geti ch in
    putc y ;;; ret Cont.

(** [count < strlen(data)]. *)
Definition count_lt_strlen : C bool :=
  let* c := geti count in let* n := strlen data 0 in ret (c <? n).

Definition on_data (o : env) : C ctl :=
  memset0 send_pack 517 ;;;
  memset0 BlockNo 10 ;;;
  memset0 data MAXCHAR ;;;
  memset0 ACK 10 ;;;
  let* r := geti read_flag in
  let* w := geti write_flag in
  if (r =? 1) || (w =? 0) then
    send_error o 0 "Access violation." ;;; ret Brk
  else
    memcpy BlockNo 0 packet 2 2 ;;;
    memcpy data 0 packet 4 (MAXCHAR - 4) ;;;
    seti count 0 ;;;
    for_fuel 1001 count_lt_strlen count_incr data_char ;;;
    sprintf_c ACK [0; 4] ;;;
    let* b := geti block_number in
    seti sent_num (b mod 65536) ;;;
    let* n := geti sent_num in
    store ACK 2 (hi_byte n) ;;;
    store ACK 3 (lo_byte n) ;;;
    memcpy send_pack 0 ACK 0 HEADER ;;;
    seti size_sp 4 ;;;
    sendto o ;;;
    seti block_number (u16 (b + 1)) ;;;
    let* stop := geti stop_flag in
    if stop =? 1 then ret Brk else ret Cont.

(** ** One round of the transfer loop *)
Definition on_packet (o : env) (dgram : list Z) : C ctl :=
  recvfrom dgram ;;;
  seti time_count 0 ;;;
  let* op := load packet 1 in
  let* c := (if s8 op =? 3 then on_data o
             else if s8 op =? 4 then on_ack o
             else if s8 op =? 5 then on_error
             else ret Cont) in
  match c with
  | Brk => ret Brk
  | Cont => memset0 packet MAXCHAR ;;; ret Cont
  end.

Definition step (e : event) (o : env) : C ctl :=
  match e with
  | EvTimeout => on_timeout o
  | EvRecvErr => exit 1
  | EvRecv d => on_packet o d
  end.

(** The transfer loop and the child process of [tftps.c]. *)
Definition transfer : list (event * env) -> C bool := transfer_loop step.
Definition child : env -> list (event * env) -> C unit := child_process step.

End Tftps.
