(* ===== verification/TftpFacts.v ===== *)
(** * Running the shared TFTP code: array shapes, packets, file reads

    Rules for the statements of [TftpState.v], in the form used to run a branch
    symbolically: what the statement leaves unchanged, what it sends, and that the
    arrays keep their declared sizes. *)

From S2P Require Import Prelude CMem TftpState.
From stdpp Require Import base list gmap.
From Stdlib Require Import ZArith Lia.
Open Scope Z_scope.

Module TftpFacts.
Import Tftp.

(** Reduce accesses to updated states. *)
Ltac csimp :=
  cbn [arrs ints world set_arr set_int set_world upd key_eqb arr_key ivar_key
       arr_beq ivar_beq fs fp read_fd sent set_fs set_fp set_read_fd add_sent
       arr_size init init_ints] in *.

(** ** Frames: the arrays and scalars a statement may change *)
Definition frame (A : list arr) (I : list ivar) (s s' : st) : Prop :=
  (forall a, existsb (key_eqb a) A = false -> arrs s' a = arrs s a) /\
  (forall v, existsb (key_eqb v) I = false -> ints s' v = ints s v).

Lemma frame_refl A I s : frame A I s s.
Proof. done. Qed.

Lemma frame_trans A I s1 s2 s3 : frame A I s1 s2 -> frame A I s2 s3 -> frame A I s1 s3.
Proof.
  intros [Ha Hi] [Ha' Hi']. split; intros k Hk.
  - by rewrite Ha', Ha.
  - by rewrite Hi', Hi.
Qed.

Lemma frame_set_arr A I s a l :
  existsb (key_eqb a) A = true -> frame A I s (set_arr s a l).
Proof.
  intros Ha. split; intros b Hb; [| done]. simpl. apply upd_ne. intros ->. congruence.
Qed.

Lemma frame_set_int A I s v z :
  existsb (key_eqb v) I = true -> frame A I s (set_int s v z).
Proof.
  intros Ha. split; intros b Hb; [done |]. simpl. apply upd_ne. intros ->. congruence.
Qed.

Lemma frame_set_world A I s w : frame A I s (set_world s w).
Proof. done. Qed.

Lemma frame_weaken A I A' I' s s' :
  forallb (fun a => existsb (key_eqb a) A') A = true ->
  forallb (fun v => existsb (key_eqb v) I') I = true ->
  frame A I s s' -> frame A' I' s s'.
Proof.
  intros HA HI [Ha Hi]. rewrite forallb_forall in HA, HI.
  assert (forall K (k : K) `{Key K} (L L' : list K),
    (forall x, In x L -> existsb (key_eqb x) L' = true) ->
    existsb (key_eqb k) L' = false -> existsb (key_eqb k) L = false) as Hsub.
  { intros K k HK L L' HL Hk. apply not_true_is_false. intros [x [Hx Hkx]]%existsb_exists.
    destruct (key_eqb_spec k x); [subst | done]. specialize (HL x Hx). congruence. }
  split; intros k Hk; [apply Ha | apply Hi]; by eapply Hsub.
Qed.

(** A state built from [s] by updates is framed by them. *)
Ltac frame_solve :=
  repeat first
    [ assumption
    | apply frame_refl
    | match goal with
      | |- frame _ _ _ (set_arr ?s _ _) => eapply frame_trans; [| apply frame_set_arr; reflexivity]
      | |- frame _ _ _ (set_int ?s _ _) => eapply frame_trans; [| apply frame_set_int; reflexivity]
      | |- frame _ _ _ (set_world ?s _) => eapply frame_trans; [| apply frame_set_world]
      end ].

Lemma frame_int {A I s s'} v z :
  frame A I s s' -> existsb (key_eqb v) I = false -> ints s v = z -> ints s' v = z.
Proof. intros [_ H] Hv <-. by apply H. Qed.

Lemma frame_arr {A I s s'} a l :
  frame A I s s' -> existsb (key_eqb a) A = false -> arrs s a = l -> arrs s' a = l.
Proof. intros [H _] Ha <-. by apply H. Qed.

(** ** Shapes *)
Lemma sized_upd g a l : sized g -> zlen l = arr_size a -> sized (upd g a l).
Proof.
  intros Hg Hl b. destruct (key_eqb_spec a b) as [<- |].
  - by rewrite upd_eq.
  - by rewrite upd_ne.
Qed.

Lemma sized_splice g a off l :
  sized g -> 0 <= off -> off + zlen l <= arr_size a -> sized (upd g a (splice (g a) off l)).
Proof.
  intros Hg ? ?. apply sized_upd; [done |]. rewrite zlen_splice; rewrite ?Hg; done.
Qed.

Section Rules.
Implicit Types (s : st) (E : Z -> st -> Prop).

Lemma wp_write_sized a off l (Q : unit -> st -> Prop) E s :
  sized (arrs s) -> 0 <= off -> off + zlen l <= arr_size a ->
  (sized (upd (arrs s) a (splice (arrs s a) off l)) ->
   Q tt (set_arr s a (splice (arrs s a) off l))) ->
  wp (write_arr a off l) Q E s.
Proof.
  intros Hs ? ? HQ. apply wp_write_arr; [done | by rewrite Hs |].
  by apply HQ, sized_splice.
Qed.

Lemma wp_read_sized a off n (Q : list Z -> st -> Prop) E s :
  sized (arrs s) -> 0 <= off -> 0 <= n -> off + n <= arr_size a ->
  Q (slice (arrs s a) off n) s -> wp (read_arr a off n) Q E s.
Proof. intros Hs ? ? ? ?. apply wp_read_arr; rewrite ?Hs; done. Qed.

Lemma wp_load_sized a i (Q : Z -> st -> Prop) E s :
  sized (arrs s) -> 0 <= i < arr_size a ->
  Q (List.hd 0 (slice (arrs s a) i 1)) s -> wp (load a i) Q E s.
Proof. intros. unfold load. apply wp_bind, wp_read_sized; try lia; done. Qed.

Lemma wp_memset0_sized a n (Q : unit -> st -> Prop) E s :
  sized (arrs s) -> 0 <= n <= arr_size a ->
  (sized (upd (arrs s) a (splice (arrs s a) 0 (replicate (Z.to_nat n) 0))) ->
   Q tt (set_arr s a (splice (arrs s a) 0 (replicate (Z.to_nat n) 0)))) ->
  wp (memset0 a n) Q E s.
Proof.
  intros. apply wp_write_sized; try done. rewrite zlen_replicate; lia.
Qed.

Lemma wp_memcpy_sized dst doff src soff n (Q : unit -> st -> Prop) E s :
  sized (arrs s) -> 0 <= soff -> 0 <= n -> soff + n <= arr_size src ->
  0 <= doff -> doff + n <= arr_size dst ->
  (sized (upd (arrs s) dst (splice (arrs s dst) doff (slice (arrs s src) soff n))) ->
   Q tt (set_arr s dst (splice (arrs s dst) doff (slice (arrs s src) soff n)))) ->
  wp (memcpy dst doff src soff n) Q E s.
Proof.
  intros Hs ? ? ? ? ? HQ. apply wp_memcpy; rewrite ?Hs; try done.
  apply HQ, sized_splice; try done. rewrite zlen_slice; rewrite ?Hs; lia.
Qed.

(** A failing [sendto] exits with status 1: either it does not fail, or the exit
    is allowed in every state. *)
Definition may_send (o : env) E : Prop := send_ok o = true \/ forall s, E 1 s.

Lemma wp_sendto_any o n (Q : unit -> st -> Prop) E s :
  sized (arrs s) -> ints s size_sp = Some n -> 0 <= n <= 517 -> may_send o E ->
  Q tt (set_world s (add_sent (world s) (slice (arrs s send_pack) 0 n))) ->
  wp (sendto o) Q E s.
Proof.
  intros Hs Hn ? Ho HQ. unfold sendto. wp_step. eapply wp_geti; [done |].
  wp_step. apply wp_read_sized; try (simpl; lia); [done |].
  destruct (send_ok o) eqn:E1; [by wp_steps |]. wp_step. destruct Ho as [? | Ho]; [congruence |].
  apply Ho.
Qed.

Lemma wp_sendto o n (Q : unit -> st -> Prop) E s :
  sized (arrs s) -> ints s size_sp = Some n -> 0 <= n <= 517 -> send_ok o = true ->
  Q tt (set_world s (add_sent (world s) (slice (arrs s send_pack) 0 n))) ->
  wp (sendto o) Q E s.
Proof.
  intros. eapply wp_sendto_any; try done. by left.
Qed.

(** When [sendto] fails, the child exits with status 1. *)
Lemma sendto_fail o n s :
  sized (arrs s) -> ints s size_sp = Some n -> 0 <= n <= 517 -> send_ok o = false ->
  sendto o s = Exited 1 s.
Proof.
  intros Hs Hn ? Ho. unfold sendto, bind, geti. rewrite Hn. unfold read_arr.
  rewrite in_bounds_true by (rewrite ?Hs; simpl; lia). by rewrite Ho.
Qed.
End Rules.

(** Arithmetic on array sizes. *)
Ltac tlia := cbn [arr_size]; unfold MAXCHAR, NOBYTES, HEADER in *; zl; lia.

(** One statement of straight-line code on the child's arrays. *)
Ltac tstep :=
  match goal with
  | |- wp (bind _ _) _ _ _ => apply wp_bind
  | |- wp (ret _) _ _ _ => apply wp_ret
  | |- wp (seti _ _) _ _ _ => apply wp_seti
  | |- wp getw _ _ _ => apply wp_getw
  | |- wp (setw _) _ _ _ => apply wp_setw
  | |- wp (geti _) _ _ _ => eapply wp_geti; [csimp; first [reflexivity | eassumption] |]
  | |- wp (sprintf_c _ _) _ _ _ => unfold sprintf_c
  | |- wp (store _ _ _) _ _ _ => unfold store
  | |- wp (strcpy_lit _ _) _ _ _ => unfold strcpy_lit
  | |- wp (write_arr _ _ _) _ _ _ =>
      apply wp_write_sized; [assumption | lia | tlia | intro]
  | |- wp (memset0 _ _) _ _ _ =>
      apply wp_memset0_sized; [assumption | tlia | intro]
  | |- wp (memcpy _ _ _ _ _) _ _ _ =>
      apply wp_memcpy_sized;
      [assumption | lia | tlia | tlia | lia | tlia | intro]
  | |- wp (load _ _) _ _ _ => apply wp_load_sized; [assumption | tlia |]
  end; cbv beta iota.

Lemma zlen_take_packet d : zlen (take (Z.to_nat MAXCHAR) d) <= MAXCHAR.
Proof. unfold zlen, MAXCHAR. rewrite length_take. lia. Qed.

Lemma wp_recvfrom d (Q : unit -> st -> Prop) (E : Z -> st -> Prop) s :
  sized (arrs s) ->
  (sized (upd (arrs s) packet (splice (arrs s packet) 0 (take (Z.to_nat MAXCHAR) d))) ->
   Q tt (set_arr s packet (splice (arrs s packet) 0 (take (Z.to_nat MAXCHAR) d)))) ->
  wp (recvfrom d) Q E s.
Proof. intros. apply wp_write_sized; try done. apply zlen_take_packet. Qed.

(** ** Packets *)

(** The bytes [send_pack] holds after a packet [p] was copied to its start. *)
Definition holds (s : st) (p : list Z) : Prop :=
  ints s size_sp = Some (zlen p) /\ slice (arrs s send_pack) 0 (zlen p) = p.

Lemma slice_splice_0 l p n : n = zlen p -> slice (splice l 0 p) 0 n = p.
Proof. intros ->. rewrite splice_0. by apply slice_0_app. Qed.

Lemma slice_splice_str l t u : slice (splice l 0 (t ++ u)) 0 (zlen t) = t.
Proof. rewrite splice_0, <- app_assoc. by apply slice_0_app. Qed.

(** Writing a header of four bytes, a payload after it, and reading both back. *)
Lemma slice_header l h t p n :
  zlen h = 4 -> n = zlen p -> slice (splice (splice l 0 (h ++ t)) 4 p) 0 (n + 4) = h ++ p.
Proof.
  intros Hh ->. rewrite splice_0, <- app_assoc, splice_app by done.
  rewrite splice_0, app_assoc. apply slice_0_app. rewrite zlen_app. lia.
Qed.

(** The C string at the start of an array just written with a literal. *)
Lemma cstr_splice_lit l t :
  Forall (fun b => b <> 0) t -> cstr (drop (Z.to_nat 0) (splice l 0 (t ++ [0]))) = Some t.
Proof. intros. rewrite splice_0, drop_0, <- app_assoc. simpl. by apply cstr_app. Qed.

(** The four header bytes written by [sprintf] of two characters followed by the
    two assignments of the block number. *)
Lemma header_bytes l a b h i :
  4 <= zlen l -> splice (splice (splice l 0 ([a; b] ++ [0])) 2 [h]) 3 [i] = [a; b; h; i] ++ drop 4 l.
Proof.
  intros. destruct l as [| x0 [| x1 [| x2 [| x3 l]]]]; unfold zlen in *; simpl in *; try lia.
  done.
Qed.

Section Packets.
Implicit Types (s : st) (E : Z -> st -> Prop).

(** An error packet is 00 05 00 code and the text of the message. *)
Lemma wp_send_error_any o code text (Q : unit -> st -> Prop) E s :
  sized (arrs s) -> may_send o E ->
  forallb (fun b => negb (b =? 0)) (lit text) = true -> zlen (lit text) < 50 ->
  (forall s', sized (arrs s') ->
     frame [errmsg; msg; send_pack] [size_sp; stop_flag] s s' ->
     world s' = add_sent (world s) ([0; 5; 0; code] ++ lit text) ->
     ints s' stop_flag = Some 1 -> Q tt s') ->
  wp (send_error o code text) Q E s.
Proof.
  intros Hs Ho Hnz%nonzero_dec Hlen HQ.
  pose proof (zlen_nonneg (lit text)).
  unfold send_error, build_error, strlen. repeat tstep.
  eapply wp_read_str; [csimp | |].
  - rewrite zlen_splice; rewrite ?Hs; zl.
  - csimp. by apply cstr_splice_lit.
  - repeat tstep. eapply wp_sendto_any; [done | csimp; reflexivity | tlia | done |].
    repeat tstep. apply HQ; csimp; [done | frame_solve | | done].
    f_equal. f_equal. f_equal. unfold HEADER. rewrite slice_splice_str, slice_header by done.
    apply slice_splice_0. zl.
Qed.

Lemma wp_send_error o code text (Q : unit -> st -> Prop) E s :
  sized (arrs s) -> send_ok o = true ->
  forallb (fun b => negb (b =? 0)) (lit text) = true -> zlen (lit text) < 50 ->
  (forall s', sized (arrs s') ->
     frame [errmsg; msg; send_pack] [size_sp; stop_flag] s s' ->
     world s' = add_sent (world s) ([0; 5; 0; code] ++ lit text) ->
     ints s' stop_flag = Some 1 -> Q tt s') ->
  wp (send_error o code text) Q E s.
Proof. intros. eapply wp_send_error_any; try done. by left. Qed.

(** The first data packet carries block number 1. *)
Lemma wp_send_first_any o c (Q : unit -> st -> Prop) E s :
  sized (arrs s) -> may_send o E -> ints s count = Some c -> 0 <= c <= NOBYTES ->
  (forall s', sized (arrs s') ->
     frame [datapack; send_pack] [size_sp; block_number] s s' ->
     world s' = add_sent (world s) ([0; 3; 0; 1] ++ slice (arrs s data) 0 c) ->
     ints s' block_number = Some 1 ->
     holds s' ([0; 3; 0; 1] ++ slice (arrs s data) 0 c) -> Q tt s') ->
  wp (send_first o) Q E s.
Proof.
  intros Hs Ho Hc Hr HQ. unfold NOBYTES in Hr.
  assert (Hl : zlen (slice (arrs s data) 0 c) = c)
    by (apply zlen_slice; rewrite ?Hs; tlia).
  unfold send_first. repeat tstep.
  eapply wp_sendto_any; [done | csimp; reflexivity | tlia | done |].
  repeat tstep.
  match goal with |- Q tt ?x => assert (Hh : holds x ([0; 3; 0; 1] ++ slice (arrs s data) 0 c)) end.
  { split; csimp; [f_equal; unfold HEADER; zl |].
    unfold HEADER. rewrite slice_header by done. apply slice_splice_0. zl. }
  apply HQ; [done | frame_solve | | done | done].
  csimp. unfold HEADER. rewrite slice_header by done. rewrite slice_splice_0 by zl. done.
Qed.

Lemma wp_send_first o c (Q : unit -> st -> Prop) E s :
  sized (arrs s) -> send_ok o = true -> ints s count = Some c -> 0 <= c <= NOBYTES ->
  (forall s', sized (arrs s') ->
     frame [datapack; send_pack] [size_sp; block_number] s s' ->
     world s' = add_sent (world s) ([0; 3; 0; 1] ++ slice (arrs s data) 0 c) ->
     ints s' block_number = Some 1 ->
     holds s' ([0; 3; 0; 1] ++ slice (arrs s data) 0 c) -> Q tt s') ->
  wp (send_first o) Q E s.
Proof. intros. eapply wp_send_first_any; try done. by left. Qed.

(** The next data packet carries the successor of the current block number. *)
Lemma wp_send_next_any o c b (Q : unit -> st -> Prop) E s :
  sized (arrs s) -> may_send o E -> ints s count = Some c -> 0 <= c <= NOBYTES ->
  ints s block_number = Some b ->
  (forall s' p, sized (arrs s') ->
     p = [0; 3; hi_byte (u16 (b + 1)); lo_byte (u16 (b + 1))] ++ slice (arrs s data) 0 c ->
     frame [datapack; send_pack] [size_sp; block_number; sent_num] s s' ->
     world s' = add_sent (world s) p ->
     ints s' block_number = Some (u16 (b + 1)) -> holds s' p -> Q tt s') ->
  wp (send_next o) Q E s.
Proof.
  intros Hs Ho Hc Hr Hb HQ. unfold NOBYTES in Hr.
  assert (Hl : zlen (slice (arrs s data) 0 c) = c)
    by (apply zlen_slice; rewrite ?Hs; tlia).
  unfold send_next. repeat tstep.
  eapply wp_sendto_any; [done | csimp; reflexivity | tlia | done |].
  repeat tstep.
  assert (Hp : forall l, 4 <= zlen l ->
    slice (splice (splice (splice (splice l 0 ([0; 3] ++ [0])) 2 [u8 (hi_byte (u16 (b + 1)))]) 3
       [u8 (lo_byte (u16 (b + 1)))]) 4 (slice (arrs s data) 0 c)) 0 (c + 4)
    = [0; 3; hi_byte (u16 (b + 1)); lo_byte (u16 (b + 1))] ++ slice (arrs s data) 0 c).
  { intros l Hll. rewrite header_bytes, !u8_id by auto with bytes.
    rewrite splice_app, splice_0, app_assoc by done. apply slice_0_app. zl. }
  eapply HQ; [done | reflexivity | frame_solve | | done | split]; csimp;
    fold (u16 (b + 1)); unfold HEADER; rewrite ?Hp by (rewrite Hs; tlia).
  - rewrite slice_splice_0 by zl. done.
  - f_equal. zl.
  - apply slice_splice_0. zl.
Qed.

Lemma wp_send_next o c b (Q : unit -> st -> Prop) E s :
  sized (arrs s) -> send_ok o = true -> ints s count = Some c -> 0 <= c <= NOBYTES ->
  ints s block_number = Some b ->
  (forall s' p, sized (arrs s') ->
     p = [0; 3; hi_byte (u16 (b + 1)); lo_byte (u16 (b + 1))] ++ slice (arrs s data) 0 c ->
     frame [datapack; send_pack] [size_sp; block_number; sent_num] s s' ->
     world s' = add_sent (world s) p ->
     ints s' block_number = Some (u16 (b + 1)) -> holds s' p -> Q tt s') ->
  wp (send_next o) Q E s.
Proof. intros. eapply wp_send_next_any; try done. by left. Qed.
End Packets.


(** ** Requests *)

(** A request datagram: opcode, file name, mode, both NUL-terminated. *)
Definition request_packet (op : Z) (name mode : list Z) : list Z :=
  [0; op] ++ name ++ [0] ++ mode ++ [0].

(** The strings that [parse_request] leaves in [Filename] and [Mode]. *)
Definition parsed (s : st) (name mode : list Z) : Prop :=
  cstr (arrs s Filename) = Some name /\ cstr (arrs s Mode) = Some mode.

Section Requests.
Implicit Types (s : st) (E : Z -> st -> Prop).

Lemma wp_read_str_0 a t (Q : list Z -> st -> Prop) E s :
  cstr (arrs s a) = Some t -> Q t s -> wp (read_str a 0) Q E s.
Proof.
  intros Ht HQ. eapply wp_read_str; [| by rewrite drop_0 | done].
  pose proof (zlen_nonneg (arrs s a)). lia.
Qed.

Lemma wp_streq_lit a t u (Q : bool -> st -> Prop) E s :
  cstr (arrs s a) = Some t -> Q (bool_decide (t = u)) s -> wp (streq_lit a u) Q E s.
Proof. intros Ht HQ. unfold streq_lit. tstep. eapply wp_read_str_0; [done |]. by tstep. Qed.

Lemma wp_parse_request name mode x y junk (Q : unit -> st -> Prop) E s :
  sized (arrs s) -> arrs s packet = [x; y] ++ name ++ [0] ++ mode ++ [0] ++ junk ->
  nonzero name -> nonzero mode -> zlen name < 10 -> zlen mode < 10 ->
  (forall s', sized (arrs s') -> frame [Filename; Mode] [mode_offset] s s' ->
     world s' = world s -> parsed s' name mode -> Q tt s') ->
  wp parse_request Q E s.
Proof.
  intros Hs Hp Hn Hm Hln Hlm HQ.
  pose proof (zlen_nonneg name). pose proof (zlen_nonneg mode).
  assert (Hoff : drop (Z.to_nat (2 + zlen name + 1)) (arrs s packet) = mode ++ [0] ++ junk).
  { rewrite Hp. replace ([x; y] ++ name ++ [0] ++ mode ++ [0] ++ junk)
      with (([x; y] ++ name ++ [0]) ++ mode ++ [0] ++ junk) by (by rewrite <- !app_assoc).
    apply drop_zlen_app. zl. }
  assert (Hpl : zlen (arrs s packet) = MAXCHAR) by apply Hs.
  unfold parse_request, strcpy, strlen. repeat tstep.
  eapply (wp_read_str _ _ name); [rewrite Hpl; tlia | rewrite Hp; by apply cstr_app |].
  repeat tstep. eapply wp_read_str_0; [csimp; by apply cstr_splice_0 |].
  repeat tstep. eapply (wp_read_str _ _ mode); csimp.
  - rewrite Hpl. tlia.
  - rewrite Hoff. by apply cstr_app.
  - repeat tstep. apply HQ; csimp; [done | frame_solve | done |].
    split; csimp; by apply cstr_splice_0.
Qed.

(** A file name of ten bytes or more overruns [Filename]. *)
Lemma parse_request_overflow name x y junk s :
  sized (arrs s) -> arrs s packet = [x; y] ++ name ++ [0] ++ junk ->
  nonzero name -> 10 <= zlen name -> parse_request s = Undef OutOfBounds s.
Proof.
  intros Hs Hp Hn Hl. unfold parse_request, strcpy, bind at 1, read_str.
  assert (zlen (arrs s packet) = MAXCHAR) as Hpl by apply Hs. unfold MAXCHAR in Hpl.
  unfold bind at 1. rewrite in_bounds_true by lia. rewrite Hp at 1.
  change (drop (Z.to_nat 2) ([x; y] ++ name ++ [0] ++ junk)) with (name ++ 0 :: junk).
  rewrite cstr_app by done. unfold write_arr, in_bounds. rewrite (Hs Filename), zlen_app.
  change (zlen [0]) with 1. simpl arr_size.
  rewrite (proj2 (Z.leb_gt (0 + (zlen name + 1)) 10)) by lia. by rewrite andb_false_r.
Qed.
End Requests.

End TftpFacts.
