(* ===== verification/TftpRead.v ===== *)
(** * Serving a read request

    The abstract sender a reading client expects (a stop-and-wait sender of the
    512-byte blocks of a byte stream), the netascii translation, and the proof that
    the RRQ branch, the ACK branch and the retransmission of [tftps.c] implement
    it. *)

From S2P Require Import Prelude CMem TftpState TftpFacts.
From stdpp Require Import base list gmap.
From Stdlib Require Import ZArith Lia.
Open Scope Z_scope.

Module TftpRead.
Import Tftp TftpFacts.

(** ** The netascii translation: LF becomes CR LF, CR becomes CR NUL *)
Fixpoint netascii (l : list Z) : list Z :=
  match l with
  | [] => []
  | b :: r =>
      if b =? 10 then 13 :: 10 :: netascii r
      else if b =? 13 then 13 :: 0 :: netascii r
      else b :: netascii r
  end.

(** What a receiving client does: CR LF is LF, CR NUL is CR. *)
Fixpoint netascii_decode (l : list Z) : list Z :=
  match l with
  | [] => []
  | b :: r =>
      match r with
      | c :: r' =>
          if (b =? 13) && (c =? 10) then 10 :: netascii_decode r'
          else if (b =? 13) && (c =? 0) then 13 :: netascii_decode r'
          else b :: netascii_decode r
      | [] => [b]
      end
  end.

(** ** Blocks *)

(** The 512-byte blocks of a stream; the last one is shorter than 512. *)
Fixpoint chunks (n : nat) (l : list Z) : list (list Z) :=
  match n with
  | O => []
  | S n' => if zlen l <? NOBYTES then [l]
            else slice l 0 NOBYTES :: chunks n' (drop (Z.to_nat NOBYTES) l)
  end.
Definition blocks (l : list Z) : list (list Z) := chunks (S (length l)) l.

(** The data packets for a list of blocks, numbered from [b] on 16 bits. *)
Definition data_packet (b : Z) (l : list Z) : list Z :=
  [0; 3; hi_byte b; lo_byte b] ++ l.
Fixpoint number (b : Z) (bs : list (list Z)) : list (list Z) :=
  match bs with
  | [] => []
  | l :: bs' => data_packet b l :: number (u16 (b + 1)) bs'
  end.

(** What a client makes of the packets it received: the payloads, in order. *)
Definition payloads (ps : list (list Z)) : list Z := List.concat (List.map (drop 4) ps).

(** ** Facts about the specification *)
Lemma netascii_decode_other b r : b <> 13 -> netascii_decode (b :: r) = b :: netascii_decode r.
Proof. intros Hb. simpl. destruct r; [done |]. by rewrite (proj2 (Z.eqb_neq b 13)). Qed.

Lemma netascii_roundtrip l : netascii_decode (netascii l) = l.
Proof.
  induction l as [| b l IH]; simpl; [done |].
  destruct (Z.eqb_spec b 10) as [-> |]; [simpl; by rewrite IH |].
  destruct (Z.eqb_spec b 13) as [-> |]; [simpl; by rewrite IH |].
  by rewrite netascii_decode_other, IH.
Qed.

Lemma chunks_concat n l : (length l < n)%nat -> List.concat (chunks n l) = l.
Proof.
  revert l. induction n as [| n IH]; intros l Hl; [lia |]. simpl.
  destruct (Z.ltb_spec (zlen l) NOBYTES) as [| Hge]; simpl; [apply app_nil_r |].
  unfold zlen, NOBYTES in Hge. rewrite IH by (rewrite length_drop; unfold NOBYTES; lia).
  unfold slice. rewrite drop_0. apply firstn_skipn.
Qed.

Lemma chunks_S n l : (length l < n)%nat -> chunks (S n) l = chunks n l.
Proof.
  revert l. induction n as [| n IH]; intros l Hl; [lia |].
  simpl. destruct (Z.ltb_spec (zlen l) NOBYTES) as [| Hge]; [done |]. f_equal.
  unfold zlen, NOBYTES in Hge. apply IH. rewrite length_drop. unfold NOBYTES. lia.
Qed.

Lemma chunks_enough n m l : (length l < n)%nat -> (n <= m)%nat -> chunks m l = chunks n l.
Proof. intros Hl. induction 1 as [| m Hm IH]; [done |]. rewrite chunks_S by lia. done. Qed.

Lemma blocks_unfold l :
  blocks l = if zlen l <? NOBYTES then [l]
             else slice l 0 NOBYTES :: blocks (drop (Z.to_nat NOBYTES) l).
Proof.
  unfold blocks at 1. cbn [chunks]. destruct (Z.ltb_spec (zlen l) NOBYTES) as [| Hge]; [done |].
  f_equal. unfold zlen, NOBYTES in Hge. unfold blocks. apply chunks_enough;
  rewrite length_drop; unfold NOBYTES; lia.
Qed.

Lemma blocks_concat l : List.concat (blocks l) = l.
Proof. apply chunks_concat. lia. Qed.

Lemma payloads_number b bs : payloads (number b bs) = List.concat bs.
Proof.
  revert b. induction bs as [| l bs IH]; intros b; [done |].
  unfold payloads in *. simpl. by rewrite IH.
Qed.

Lemma length_number b bs : length (number b bs) = length bs.
Proof. revert b. induction bs as [| l bs IH]; intros b; simpl; [done |]. by rewrite IH. Qed.

(** Every block but the last is full, and the last one is short. *)
Definition block_shape (bs : list (list Z)) : Prop :=
  exists init last, bs = init ++ [last] /\
    Forall (fun l => zlen l = NOBYTES) init /\ zlen last < NOBYTES.

Lemma blocks_shape l : block_shape (blocks l).
Proof.
  remember (length l) as n eqn:Hn. revert l Hn.
  induction n as [n IH] using lt_wf_ind; intros l ->.
  rewrite blocks_unfold. destruct (Z.ltb_spec (zlen l) NOBYTES) as [| Hge].
  - exists [], l. done.
  - unfold zlen, NOBYTES in Hge.
    destruct (IH (length (drop (Z.to_nat NOBYTES) l))) with (l := drop (Z.to_nat NOBYTES) l)
      as (i & la & -> & Hi & Hla); [rewrite length_drop; unfold NOBYTES; lia | done |].
    exists (slice l 0 NOBYTES :: i), la. split; [done |]. split; [| done].
    constructor; [| done]. apply zlen_slice; unfold NOBYTES, zlen; lia.
Qed.

(** ** Bytes a netascii transfer can carry: 0xFF reads as EOF *)
Definition text_byte (b : Z) : Prop := 0 <= b < 255.

(** What is still to be sent when [n] is the pending character ([-1]: none) and
    [rest] is left in the file. *)
Definition tail_of (n : Z) (rest : list Z) : list Z :=
  if 0 <=? n then n :: netascii rest else netascii rest.

Definition pend (s : st) (P : list Z) : Prop :=
  exists n rest, ints s nextch = Some n /\ fp (world s) = FOpen (RStream rest) /\
    Forall text_byte rest /\ (-1 <= n < 128) /\ P = tail_of n rest.

(** The same network, file system and descriptor. *)
Definition same_net (s s' : st) : Prop :=
  fs (world s') = fs (world s) /\ read_fd (world s') = read_fd (world s) /\
  sent (world s') = sent (world s).

Lemma same_net_trans s1 s2 s3 : same_net s1 s2 -> same_net s2 s3 -> same_net s1 s3.
Proof. unfold same_net. intuition congruence. Qed.

(** ** The loops that fill [data] *)

(** What one round of either loop does with the next byte of the stream. *)
Definition fill_spec (body : C ctl) : Prop :=
  forall s P c (Q : ctl -> st -> Prop) E,
    sized (arrs s) -> ints s mode_flag = Some 1 -> ints s stop_flag = Some 0 ->
    ints s count = Some c -> 0 <= c < NOBYTES -> pend s P ->
    match P with
    | [] => forall s', frame [data] [nextch; ch; stop_flag] s s' -> same_net s s' ->
        sized (arrs s') -> arrs s' data = arrs s data -> pend s' [] ->
        ints s' stop_flag = Some 1 -> Q Brk s'
    | b :: P' => forall s', frame [data] [nextch; ch; stop_flag] s s' -> same_net s s' ->
        sized (arrs s') -> arrs s' data = splice (arrs s data) c [b] -> pend s' P' ->
        ints s' stop_flag = Some 0 -> Q Cont s'
    end -> wp body Q E s.

Lemma wp_getc_rest rest (Q : Z -> st -> Prop) E s :
  fp (world s) = FOpen (RStream rest) ->
  match rest with
  | [] => Q (-1) s
  | b :: r => Q b (set_world s (set_fp (world s) (FOpen (RStream r))))
  end -> wp getc Q E s.
Proof.
  intros Hf HQ. unfold getc. wp_steps. rewrite Hf. destruct rest; by wp_steps.
Qed.

(** [translate] puts the first byte of the translation in [ch] and the second, if
    any, in [nextch]. *)
Lemma wp_translate b rest (Q : unit -> st -> Prop) E s :
  text_byte b -> ints s ch = Some (s8 b) ->
  (forall s' y n, frame [data] [nextch; ch; stop_flag] s s' -> arrs s' = arrs s ->
     world s' = world s -> ints s' stop_flag = ints s stop_flag ->
     ints s' ch = Some y -> ints s' nextch = Some n -> -1 <= n < 128 ->
     netascii (b :: rest) = u8 y :: tail_of n rest -> Q tt s') ->
  wp (translate (s8 b)) Q E s.
Proof.
  unfold text_byte. intros Hb Hch HQ. unfold translate.
  rewrite !s8_eqb by (unfold is_byte; lia). simpl in HQ. unfold tail_of in HQ.
  destruct (Z.eqb_spec b 10); [| destruct (Z.eqb_spec b 13)].
  - repeat tstep. apply (HQ _ 13 10); csimp; try done; frame_solve.
  - repeat tstep. apply (HQ _ (s8 b) 0); csimp; try done; [frame_solve |]. by subst.
  - repeat tstep. apply (HQ _ (s8 b) (-1)); csimp; try done; [frame_solve |].
    rewrite u8_s8, u8_id by (unfold is_byte; lia). done.
Qed.

(** The pending character is stored without reading the file. *)
Lemma fill_pending s n rest c (Q : ctl -> st -> Prop) E :
  sized (arrs s) -> 0 <= n < 128 -> 0 <= c < 512 -> ints s stop_flag = Some 0 ->
  fp (world s) = FOpen (RStream rest) -> Forall text_byte rest ->
  (forall s', frame [data] [nextch; ch; stop_flag] s s' -> same_net s s' ->
     sized (arrs s') -> arrs s' data = splice (arrs s data) c [n] -> pend s' (netascii rest) ->
     ints s' stop_flag = Some 0 -> Q Cont s') ->
  wp (store data c n ;;; seti nextch (-1) ;;; ret Cont) Q E s.
Proof.
  intros Hs Hn Hc Hst Hf Hb HQ. repeat tstep.
  apply HQ; csimp; [frame_solve | done | done | | | done].
  - by rewrite u8_id by (unfold is_byte; lia).
  - exists (-1), rest. by repeat split.
Qed.

(** A byte of the file is read, translated and stored. *)
Lemma fill_byte s b rest c (Q : ctl -> st -> Prop) E (k : C ctl) :
  sized (arrs s) -> 0 <= c < 512 -> ints s stop_flag = Some 0 ->
  fp (world s) = FOpen (RStream (b :: rest)) -> text_byte b -> Forall text_byte rest ->
  (forall s' P', netascii (b :: rest) = hd 0 (netascii (b :: rest)) :: P' ->
     frame [data] [nextch; ch; stop_flag] s s' -> same_net s s' ->
     sized (arrs s') -> arrs s' data = splice (arrs s data) c [hd 0 (netascii (b :: rest))] ->
     pend s' P' -> ints s' stop_flag = Some 0 -> wp k Q E s') ->
  wp (translate (s8 b)) (fun _ => wp (let* y := geti ch in store data c y ;;; k) Q E) E
     (set_int (set_world s (set_fp (world s) (FOpen (RStream rest)))) ch (s8 b)).
Proof.
  intros Hs Hc Hst Hf Hb1 Hb2 HQ. eapply (wp_translate b rest); [done | done |].
  intros s' y n Hfr Ha Hw Hst' Hch Hnx Hn Heq. csimp.
  assert (sized (arrs s')) by (by rewrite Ha). repeat tstep.
  apply (HQ _ (tail_of n rest)); csimp.
  - by rewrite Heq.
  - eapply frame_trans; [| apply frame_set_arr; done].
    eapply frame_trans; [| exact Hfr]. frame_solve.
  - unfold same_net. csimp. by rewrite Hw.
  - done.
  - by rewrite Heq, Ha.
  - exists n, rest. csimp. by rewrite Hw.
  - by rewrite Hst', Hst.
Qed.

Lemma tail_of_cases n rest : -1 <= n < 128 ->
  (n = -1 /\ tail_of n rest = netascii rest) \/ (0 <= n < 128 /\ tail_of n rest = n :: netascii rest).
Proof. unfold tail_of. intros. bcase; [right | left]; split; try done; lia. Qed.

Lemma ack_char_fill : fill_spec ack_char.
Proof.
  intros s P c Q E Hs Hm Hst Hc Hr (n & rest & Hn & Hf & Hb & Hrn & ->) HQ.
  unfold NOBYTES in Hr. unfold ack_char. do 4 tstep.
  destruct (tail_of_cases n rest Hrn) as [[-> Heq] | [Hn' Heq]]; rewrite Heq in HQ.
  - simpl. tstep. eapply wp_getc_rest; [done |]. destruct rest as [| b rest].
    + repeat tstep. change (s8 (-1) =? -1) with true. repeat tstep.
      apply HQ; csimp; [frame_solve | done | done | done | | done].
      by exists (-1), [].
    + inversion Hb as [| ? ? Hb1 Hb2]; subst.
      repeat tstep. rewrite (proj2 (Z.eqb_neq (s8 b) (-1)))
        by (unfold text_byte in *; rewrite s8_eof; unfold is_byte; lia).
      tstep. eapply fill_byte; try done. intros s' P' HP. intros. rewrite HP in HQ.
      apply wp_ret. by apply HQ.
  - rewrite (proj2 (Z.leb_le 0 n)) by lia. eapply fill_pending; try done.
Qed.

Lemma rrq_char_fill : fill_spec rrq_char.
Proof.
  intros s P c Q E Hs Hm Hst Hc Hr (n & rest & Hn & Hf & Hb & Hrn & ->) HQ.
  unfold NOBYTES in Hr. unfold rrq_char. do 4 tstep.
  destruct (tail_of_cases n rest Hrn) as [[-> Heq] | [Hn' Heq]]; rewrite Heq in HQ.
  - simpl. tstep. eapply wp_getc_rest; [done |]. destruct rest as [| b rest].
    + repeat tstep. change (s8 (-1) =? -1) with true. repeat tstep.
      apply HQ; csimp; [frame_solve | done | done | done | | done].
      by exists (-1), [].
    + inversion Hb as [| ? ? Hb1 Hb2]; subst.
      repeat tstep. rewrite (proj2 (Z.eqb_neq (s8 b) (-1)))
        by (unfold text_byte in *; rewrite s8_eof; unfold is_byte; lia).
      repeat tstep. simpl.
      eapply fill_byte; try done. intros s' P' HP. intros. rewrite HP in HQ.
      repeat tstep. simpl. tstep. by apply HQ.
  - rewrite (proj2 (Z.leb_le 0 n)) by lia. eapply fill_pending; try done.
Qed.

Lemma slice_snoc l c b : 0 <= c < zlen l -> slice (splice l c [b]) 0 (c + 1) = slice l 0 c ++ [b].
Proof.
  unfold zlen, slice, splice. intros. rewrite !drop_0.
  replace (Z.to_nat (c + 1)) with (length (take (Z.to_nat c) l ++ [b]))
    by (rewrite length_app, length_take; simpl; lia).
  rewrite app_assoc. by rewrite take_app_length.
Qed.

Lemma slice_cons_pos b l k : 0 < k -> slice (b :: l) 0 k = b :: slice l 0 (k - 1).
Proof.
  intros. unfold slice. rewrite !drop_0. by replace (Z.to_nat k) with (S (Z.to_nat (k - 1))) by lia.
Qed.

Lemma drop_cons_pos (b : Z) l k : 0 < k -> drop (Z.to_nat k) (b :: l) = drop (Z.to_nat (k - 1)) l.
Proof. intros. by replace (Z.to_nat k) with (S (Z.to_nat (k - 1))) by lia. Qed.

(** A fill loop started with [count = c] stores the next [512 - c] bytes of the
    stream, or all of it and then raises [stop_flag]. *)
Lemma wp_fill body : fill_spec body -> forall n c s pre P (Q : unit -> st -> Prop) E,
  512 - c < Z.of_nat n -> 0 <= c <= 512 ->
  sized (arrs s) -> ints s mode_flag = Some 1 -> ints s stop_flag = Some 0 ->
  ints s count = Some c -> slice (arrs s data) 0 c = pre -> pend s P ->
  (forall s' p, p = pre ++ slice P 0 (512 - c) ->
     frame [data] [nextch; ch; stop_flag; count] s s' -> same_net s s' -> sized (arrs s') ->
     ints s' count = Some (zlen p) -> slice (arrs s' data) 0 (zlen p) = p ->
     pend s' (drop (Z.to_nat (512 - c)) P) ->
     ints s' stop_flag = Some (if zlen P <? 512 - c then 1 else 0) -> Q tt s') ->
  wp (for_fuel n (count_lt NOBYTES) count_incr body) Q E s.
Proof.
  intros Hbody. induction n as [| n IH]; intros c s pre P Q E Hn Hc Hs Hm Hst Hcn Hpre HP HQ; [lia |].
  assert (Hlp : zlen pre = c) by (subst; apply zlen_slice; rewrite ?Hs; tlia).
  apply wp_for. unfold count_lt. repeat tstep. change NOBYTES with 512.
  destruct (Z.ltb_spec c 512).
  - eapply Hbody; try done; [unfold NOBYTES; lia |]. destruct P as [| b P].
    + intros s' Hfr Hnet Hs' Hd HP' Hst'.
      apply (HQ s' pre); [| by eapply frame_weaken; [.. | exact Hfr] | done | done | | | |].
      * unfold slice. by rewrite drop_nil, take_nil, app_nil_r.
      * rewrite Hlp. by apply (frame_int count _ Hfr).
      * by rewrite Hlp, Hd.
      * by rewrite drop_nil.
      * rewrite Hst'. f_equal. rewrite zlen_nil. by bcase; [| lia].
    + intros s' Hfr Hnet Hs' Hd HP' Hst'. unfold count_incr.
      assert (Hcn' : ints s' count = Some c) by (by apply (frame_int count _ Hfr)).
      repeat tstep. eapply (IH (c + 1) _ (pre ++ [b]) P); csimp; try done; try lia.
      * by apply (frame_int mode_flag _ Hfr).
      * rewrite Hd, slice_snoc by (rewrite Hs; tlia). by rewrite Hpre.
      * intros s2 p Hp Hfr2 Hnet2 Hs2 Hcn2 Hd2 HP2 Hst2.
        apply (HQ s2 p); [| | | done | done | done | |].
        -- rewrite Hp, slice_cons_pos by lia. rewrite <- app_assoc. simpl.
           by replace (512 - (c + 1)) with (512 - c - 1) by lia.
        -- eapply frame_trans; [| exact Hfr2]. eapply frame_trans; [| apply frame_set_int; done].
           by eapply frame_weaken; [.. | exact Hfr].
        -- by eapply same_net_trans.
        -- rewrite drop_cons_pos by lia. by replace (512 - c - 1) with (512 - (c + 1)) by lia.
        -- rewrite Hst2, zlen_cons. f_equal. repeat bcase; try done; lia.
  - assert (c = 512) as -> by lia.
    apply (HQ s pre); [by rewrite app_nil_r | done | done | done | by rewrite Hlp | by rewrite Hlp | done |].
    rewrite Hst. f_equal. bcase; [| done]. pose proof (zlen_nonneg P). lia.
Qed.

(** ** A child that serves a read request *)

(** What is left to send: in octet mode what [read_fd] has left, in netascii mode
    the pending stream. *)
Definition source (s : st) (P : list Z) : Prop :=
  (ints s mode_flag = Some 0 /\ read_fd (world s) = Some P /\ fp (world s) = FUninit) \/
  (ints s mode_flag = Some 1 /\ pend s P).

Record reading (s : st) (P : list Z) (b : Z) (stop : bool) (cur : list Z) (t : Z) : Prop := {
  rd_sized : sized (arrs s);
  rd_read : ints s read_flag = Some 1;
  rd_write : ints s write_flag = Some 0;
  rd_stop : ints s stop_flag = Some (if stop then 1 else 0);
  rd_block : ints s block_number = Some b;
  rd_time : ints s time_count = Some t;
  rd_src : source s P;
  rd_cur : holds s cur /\ zlen cur <= 517
}.

Lemma source_frame A I s s' P :
  frame A I s s' -> existsb (key_eqb mode_flag) I = false ->
  existsb (key_eqb nextch) I = false -> world s' = world s -> source s P -> source s' P.
Proof.
  intros Hfr Hm Hn Hw [(H1 & H2 & H3) | (H1 & n & rest & H2 & H3)].
  - left. rewrite Hw. split; [by apply (frame_int mode_flag _ Hfr) | done].
  - right. split; [by apply (frame_int mode_flag _ Hfr) |]. exists n, rest. rewrite Hw.
    split; [by apply (frame_int nextch _ Hfr) | done].
Qed.

Lemma holds_frame A I s s' p :
  frame A I s s' -> existsb (key_eqb send_pack) A = false ->
  existsb (key_eqb size_sp) I = false -> holds s p -> holds s' p.
Proof.
  intros Hfr Ha Hi [H1 H2]. split; [by apply (frame_int size_sp _ Hfr) |].
  by rewrite (frame_arr send_pack _ Hfr Ha eq_refl).
Qed.

(** Statements that touch neither the flags nor [send_pack] keep the invariant. *)
Lemma reading_frame A I s s' P b stop cur t :
  frame A I s s' -> sized (arrs s') -> world s' = world s ->
  existsb (key_eqb send_pack) A = false ->
  existsb (fun v => existsb (key_eqb v) I)
    [read_flag; write_flag; stop_flag; block_number; time_count; mode_flag; nextch; size_sp] = false ->
  reading s P b stop cur t -> reading s' P b stop cur t.
Proof.
  intros Hfr Hs Hw Ha HI [? H1 H2 H3 H4 H5 H6 [H7 ?]].
  assert (forall v, In v [read_flag; write_flag; stop_flag; block_number; time_count; mode_flag; nextch; size_sp] ->
    existsb (key_eqb v) I = false) as Hv.
  { intros v Hin. apply not_true_is_false. intros Hv. apply (eq_true_false_abs _ (proj2 (existsb_exists _ _) (ex_intro _ v (conj Hin Hv))) HI). }
  split; try done.
  - apply (frame_int read_flag _ Hfr); [apply Hv; simpl; tauto | done].
  - apply (frame_int write_flag _ Hfr); [apply Hv; simpl; tauto | done].
  - apply (frame_int stop_flag _ Hfr); [apply Hv; simpl; tauto | done].
  - apply (frame_int block_number _ Hfr); [apply Hv; simpl; tauto | done].
  - apply (frame_int time_count _ Hfr); [apply Hv; simpl; tauto | done].
  - eapply source_frame; [exact Hfr | apply Hv; simpl; tauto | apply Hv; simpl; tauto | done | done].
  - split; [| done]. eapply holds_frame; [exact Hfr | done | apply Hv; simpl; tauto | done].
Qed.

(** [read_block] copies the next 512 bytes of the file to the start of [data]. *)
Lemma wp_read_block o rest (Q : unit -> st -> Prop) E s :
  sized (arrs s) -> read_ok o = true -> read_fd (world s) = Some rest ->
  (forall s', frame [data] [read_size] s s' -> sized (arrs s') ->
     world s' = set_read_fd (world s) (Some (drop (Z.to_nat NOBYTES) rest)) ->
     arrs s' data = splice (arrs s data) 0 (slice rest 0 NOBYTES) ->
     ints s' read_size = Some (zlen (slice rest 0 NOBYTES)) -> Q tt s') ->
  wp (read_block o) Q E s.
Proof.
  intros Hs Ho Hr HQ. unfold read_block. tstep. tstep. rewrite Hr, Ho.
  assert (zlen (take (Z.to_nat NOBYTES) rest) <= 512)
    by (unfold zlen, NOBYTES; rewrite length_take; lia).
  pose proof (zlen_nonneg (take (Z.to_nat NOBYTES) rest)).
  repeat tstep. apply HQ; csimp; try done. frame_solve.
Qed.

Lemma slice_all l n : zlen l <= n -> slice l 0 n = l.
Proof. intros. unfold slice, zlen in *. rewrite drop_0. apply take_ge. lia. Qed.

(** Both ways of reading fill [data] with the next block of the source. *)
Lemma wp_ack_read o P (Q : unit -> st -> Prop) E s :
  sized (arrs s) -> read_ok o = true -> ints s stop_flag = Some 0 ->
  source s P ->
  (forall s', frame [data] [nextch; ch; stop_flag; count; read_size] s s' -> sized (arrs s') ->
     fs (world s') = fs (world s) -> sent (world s') = sent (world s) ->
     ints s' count = Some (zlen (slice P 0 NOBYTES)) ->
     slice (arrs s' data) 0 (zlen (slice P 0 NOBYTES)) = slice P 0 NOBYTES ->
     source s' (drop (Z.to_nat NOBYTES) P) ->
     ints s' stop_flag = Some (if zlen P <? NOBYTES then 1 else 0) -> Q tt s') ->
  wp (ack_read o) Q E s.
Proof.
  intros Hs Ho Hst [(Hm & Hfd & Hfp) | (Hm & HP)] HQ; unfold ack_read; do 3 tstep; simpl.
  - unfold ack_read_octet. repeat tstep.
    eapply wp_read_block; [done | done | done |]. intros s1 Hfr Hs1 Hw1 Hd1 Hr1.
    assert (Hc1 : ints s1 count = Some NOBYTES) by (by apply (frame_int count _ Hfr)).
    assert (Hst1 : ints s1 stop_flag = Some 0) by (by apply (frame_int stop_flag _ Hfr)).
    assert (Hfr0 : frame [data] [nextch; ch; stop_flag; count; read_size] s s1).
    { eapply frame_trans; [| by eapply frame_weaken; [.. | exact Hfr]]. frame_solve. }
    assert (Hsl : slice (arrs s1 data) 0 (zlen (slice P 0 NOBYTES)) = slice P 0 NOBYTES)
      by (rewrite Hd1; by apply slice_splice_0).
    repeat tstep. destruct (Z.ltb_spec (zlen (slice P 0 NOBYTES)) NOBYTES) as [Hlt | Hge];
      repeat tstep; apply HQ; csimp; try done; try (by rewrite Hw1).
    + frame_solve.
    + left. csimp. rewrite Hw1. split; [by apply (frame_int mode_flag _ Hfr) | done].
    + destruct (Z.ltb_spec (zlen P) NOBYTES); [done |]. rewrite zlen_slice in Hlt; tlia.
    + rewrite Hc1. f_equal. revert Hge. unfold slice, zlen, NOBYTES. rewrite length_take. lia.
    + left. csimp. rewrite Hw1. split; [by apply (frame_int mode_flag _ Hfr) | done].
    + destruct (Z.ltb_spec (zlen P) NOBYTES); [| done]. rewrite slice_all in Hge by lia. lia.
  - unfold ack_read_netascii. repeat tstep.
    eapply (wp_fill ack_char ack_char_fill 513 0 _ [] P); csimp; try done.
    intros s1 p -> Hfr Hnet Hs1 Hc1 Hd1 HP1 Hst1. simpl in *.
    apply HQ; try done; try apply Hnet.
    + eapply frame_trans; [| by eapply frame_weaken; [.. | exact Hfr]]. frame_solve.
    + right. split; [by apply (frame_int mode_flag _ Hfr) | done].
Qed.

(** ** The ACK branch *)

Lemma wp_on_ack o P b cur t (Q : ctl -> st -> Prop) E s :
  reading s P b false cur t -> send_ok o = true -> read_ok o = true ->
  (forall s' p, p = data_packet (u16 (b + 1)) (slice P 0 NOBYTES) ->
     reading s' (drop (Z.to_nat NOBYTES) P) (u16 (b + 1)) (zlen P <? NOBYTES) p t ->
     ints s' mode_flag = ints s mode_flag ->
     fs (world s') = fs (world s) -> sent (world s') = sent (world s) ++ [p] -> Q Cont s') ->
  wp (on_ack o) Q E s.
Proof.
  intros [Hs Hr Hw Hst Hb Ht Hsrc Hcur] Ho1 Ho2 HQ. unfold on_ack.
  repeat tstep. simpl. repeat tstep. simpl. tstep.
  eapply (wp_ack_read o P); [done | done | done | |].
  { apply (source_frame [send_pack; BlockNo; data; ACK; datapack] [] s); try done. frame_solve. }
  intros s1 Hfr1 Hs1 Hfs1 Hsent1 Hc1 Hd1 Hsrc1 Hst1. tstep.
  assert (Hl : 0 <= zlen (slice P 0 NOBYTES) <= NOBYTES).
  { unfold zlen, slice, NOBYTES. rewrite length_take. lia. }
  eapply (wp_send_next o _ b); [done | done | exact Hc1 | done | by apply (frame_int block_number _ Hfr1) |].
  intros s2 p Hs2 -> Hfr2 Hw2 Hb2 Hh2. tstep. eapply HQ; [reflexivity | | | | ].
  - rewrite Hd1 in *. split; try done.
    + by apply (frame_int read_flag _ Hfr2), (frame_int read_flag _ Hfr1).
    + by apply (frame_int write_flag _ Hfr2), (frame_int write_flag _ Hfr1).
    + by apply (frame_int stop_flag _ Hfr2).
    + by apply (frame_int time_count _ Hfr2), (frame_int time_count _ Hfr1).
    + destruct Hsrc1 as [(Hx1 & Hx2 & Hx3) | (Hx1 & n & rest & Hx2 & Hx3)]; [left | right].
      * rewrite Hw2. split; [by apply (frame_int mode_flag _ Hfr2) | done].
      * split; [by apply (frame_int mode_flag _ Hfr2) |]. exists n, rest. rewrite Hw2.
        split; [by apply (frame_int nextch _ Hfr2) | done].
    + split; [done |]. unfold NOBYTES, data_packet in *. zl.
  - by apply (frame_int mode_flag _ Hfr2), (frame_int mode_flag _ Hfr1).
  - rewrite Hw2. csimp. done.
  - rewrite Hw2. csimp. rewrite Hsent1, Hd1. done.
Qed.

(** An ACK after the last block ends the loop. *)
Lemma wp_on_ack_last o P b cur t (Q : ctl -> st -> Prop) E s :
  reading s P b true cur t ->
  (forall s', sized (arrs s') -> ints s' stop_flag = Some 1 -> world s' = world s -> Q Brk s') ->
  wp (on_ack o) Q E s.
Proof.
  intros [Hs Hr Hw Hst Hb Ht Hsrc Hcur] HQ. unfold on_ack.
  repeat tstep. simpl. repeat tstep. simpl. tstep. by apply HQ.
Qed.
End TftpRead.
