(* ===== verification/TftpsRead.v ===== *)
(** * [tftps.c] serving a read request: refinement of a stop-and-wait sender *)

From S2P Require Import Prelude CMem TftpState Tftps TftpFacts TftpRead.
From stdpp Require Import base list gmap.
From Stdlib Require Import ZArith Lia.
From Stdlib Require String.
Import String.StringSyntax.
Open Scope Z_scope.

Module TftpsRead.
Import Tftp Tftps TftpFacts TftpRead.

(** ** The abstract sender

    It holds the packet last sent, the packets still to send, and how many
    timeouts happened in a row.  An acknowledgement sends the next packet or ends
    the transfer; a timeout sends the last packet again, and the tenth in a row
    ends the transfer. *)
Record sender := mk_sender { cur : list Z; todo : list (list Z); tries : Z }.
Inductive aevent := AAck | ATimeout.

Definition sender_step (e : aevent) (a : sender) : list (list Z) * option sender :=
  match e with
  | AAck =>
      match todo a with
      | [] => ([], None)
      | p :: r => ([p], Some (mk_sender p r 0))
      end
  | ATimeout =>
      ([cur a], if 10 <=? tries a + 1 then None
                else Some (mk_sender (cur a) (todo a) (tries a + 1)))
  end.

(** What a run sends, and whether it has ended. *)
Fixpoint sender_run (evs : list aevent) (a : sender) : list (list Z) * bool :=
  match evs with
  | [] => ([], false)
  | e :: evs' =>
      let '(out, next) := sender_step e a in
      match next with
      | None => (out, true)
      | Some a' => let '(outs, fin) := sender_run evs' a' in (out ++ outs, fin)
      end
  end.

(** ** The events of the concrete loop *)

(** An acknowledgement: opcode 4; the server does not look at the rest. *)
Definition is_ack (d : list Z) : Prop := exists x r, d = x :: 4 :: r.

Definition good (o : env) : Prop := send_ok o = true /\ read_ok o = true.

Inductive abs_event : event * env -> aevent -> Prop :=
| abs_timeout o : good o -> abs_event (EvTimeout, o) ATimeout
| abs_ack d o : good o -> is_ack d -> abs_event (EvRecv d, o) AAck.

(** The concrete state that corresponds to a sender, in octet or netascii mode. *)
Definition sim (octet : bool) (s : st) (a : sender) : Prop :=
  exists P b stop, reading s P b stop (cur a) (tries a) /\
    ints s mode_flag = Some (if octet then 0 else 1) /\
    todo a = if stop : bool then [] else number (u16 (b + 1)) (blocks P).

(** The state in which the loop is left. *)
Definition stopped (octet : bool) (s : st) : Prop :=
  sized (arrs s) /\ ints s stop_flag = Some 1 /\
  if octet then fp (world s) = FUninit else exists r, fp (world s) = FOpen (RStream r).

Lemma source_kind octet s P :
  source s P -> ints s mode_flag = Some (if octet : bool then 0 else 1) ->
  if octet then fp (world s) = FUninit else exists r, fp (world s) = FOpen (RStream r).
Proof.
  intros [(Hm & _ & Hf) | (Hm & n & r & _ & Hf & _)] Hm'; destruct octet; try congruence.
  by exists r.
Qed.

(** ** One round *)

(** The opcode of a datagram just received. *)
Lemma opcode_recv l x y r :
  zlen l = MAXCHAR ->
  List.hd 0 (slice (splice l 0 (take (Z.to_nat MAXCHAR) (x :: y :: r))) 1 1) = y.
Proof. done. Qed.

(** What one round of a server that reads for its client promises: the state after
    it corresponds to the abstract sender after the event. *)
Definition round (octet : bool) (a : sender) (ae : aevent) (s : st) (c : ctl) (s' : st) : Prop :=
  let '(out, next) := sender_step ae a in
  sent (world s') = sent (world s) ++ out /\ fs (world s') = fs (world s) /\
  match next, c with
  | None, Brk => stopped octet s'
  | Some a', Cont => sim octet s' a'
  | _, _ => False
  end.

Class ServesReads (step : event -> env -> C ctl) := serves_round :
  forall octet a e o ae s, sim octet s a -> abs_event (e, o) ae ->
  wp (step e o) (round octet a ae s) (fun _ _ => False) s.

(** A timeout: the code of both servers. *)
Lemma wp_retransmit octet a o s :
  sim octet s a -> good o ->
  wp (retransmit o) (round octet a ATimeout s) (fun _ _ => False) s.
Proof.
  intros (P & b & stop & Hrd & Hmode & Htodo) [Ho _].
  pose proof Hrd as [Hs Hr Hw Hst Hb Ht Hsrc [[Hsz Hcur] Hlen]].
  unfold retransmit. tstep.
  eapply wp_sendto; [done | done | pose proof (zlen_nonneg (cur a)); lia | done |].
  rewrite Hcur. repeat tstep. unfold round. cbn [sender_step].
  destruct (Z.leb_spec 10 (tries a + 1)); repeat tstep; csimp.
  - do 2 (split; [done |]). split; [done |]. split; [done |]. by eapply source_kind.
  - do 2 (split; [done |]). exists P, b, stop. split; [| by split]. by split.
Qed.

(** An acknowledgement, after the datagram was received. *)
Lemma wp_ack_round octet a o d s (Q : ctl -> st -> Prop) E :
  sim octet s a -> good o ->
  (forall c s', sized (arrs s') -> round octet a AAck s c s' -> Q c s') ->
  wp (on_ack o) Q E (set_int (set_arr s packet (splice (arrs s packet) 0 (take (Z.to_nat MAXCHAR) d)))
                       time_count 0).
Proof.
  intros (P & b & stop & Hrd & Hmode & Htodo) [Ho1 Ho2] HQ.
  pose proof (rd_sized _ _ _ _ _ _ Hrd) as Hs.
  match goal with |- wp _ _ _ ?s0 => assert (Hrd0 : reading s0 P b stop (cur a) 0) end.
  { destruct Hrd. split; csimp; try done. apply sized_splice; [done | lia | apply zlen_take_packet]. }
  unfold round in HQ. cbn [sender_step] in HQ. destruct stop.
  - eapply wp_on_ack_last; [exact Hrd0 |]. intros s' Hs' Hst' Hw'. apply HQ; [done |].
    rewrite Htodo, Hw'. csimp. rewrite app_nil_r.
    do 2 (split; [done |]). do 2 (split; [done |]). rewrite Hw'. csimp.
    eapply source_kind; [apply Hrd | done].
  - eapply wp_on_ack; [exact Hrd0 | done | done |]. intros s' p Hp Hrd' Hmode' Hfs' Hsent'.
    apply HQ; [by apply Hrd' |]. rewrite Htodo, blocks_unfold.
    destruct (Z.ltb_spec (zlen P) NOBYTES) as [Hlt | Hge]; cbn [number]; csimp.
    + rewrite slice_all in Hp by lia. rewrite Hfs', Hsent', Hp. do 2 (split; [done |]).
      exists (drop (Z.to_nat NOBYTES) P), (u16 (b + 1)), true.
      rewrite Hp in Hrd'. split; [done | split; [by rewrite Hmode' | done]].
    + rewrite Hfs', Hsent', Hp. do 2 (split; [done |]).
      exists (drop (Z.to_nat NOBYTES) P), (u16 (b + 1)), false.
      rewrite Hp in Hrd'. split; [done | split; [by rewrite Hmode' | done]].
Qed.

(** Clearing the packet array keeps the correspondence. *)
Lemma sim_packet octet s a l :
  sim octet s a -> sized (upd (arrs s) packet l) -> sim octet (set_arr s packet l) a.
Proof.
  intros (P & b & stop & Hrd & Hmode & Htodo) Hs. exists P, b, stop. split; [| by split].
  apply (reading_frame [packet] [] s); try done. frame_solve.
Qed.

#[export] Instance tftps_serves_reads : ServesReads Tftps.step.
Proof.
  intros octet a e o ae s Hsim He. inversion He as [? Ho | d ? Ho Hd]; subst; cbn [step].
  - destruct Hsim as (P & b & stop & Hrd & Hx). pose proof Hrd as [Hs Hr Hw _ _ _ _ _].
    unfold on_timeout. repeat tstep. simpl.
    eapply wp_mono; [apply (wp_retransmit octet a); [by exists P, b, stop | done] | | done].
    intros c s' H. by destruct c; repeat tstep.
  - destruct Hd as (x & r & ->).
    assert (Hs : sized (arrs s)) by (destruct Hsim as (? & ? & ? & Hrd & _); apply Hrd).
    unfold on_packet. tstep. apply wp_recvfrom; [done |]. intros Hs0. repeat tstep. csimp.
    rewrite opcode_recv by apply Hs. change (s8 4 =? 3) with false. change (s8 4 =? 4) with true.
    cbv iota. eapply wp_ack_round; [done | done |]. intros c s' Hs' Hround.
    destruct c; repeat tstep; [| done]. unfold round in *.
    destruct (sender_step AAck a) as [out [a' |]]; destruct Hround as (H1 & H2 & H3); [| done].
    split; [done |]. split; [done |]. by apply sim_packet.
Qed.

(** ** The loop of a server that serves reads refines the sender *)
Section Loop.
Context (step : event -> env -> C ctl) `{!ServesReads step}.

Lemma transfer_sim octet evs aevs a s :
  Forall2 abs_event evs aevs -> sim octet s a ->
  wp (transfer_loop step evs) (fun fin s' =>
     let '(outs, fin') := sender_run aevs a in
     fin = fin' /\ sent (world s') = sent (world s) ++ outs /\
     fs (world s') = fs (world s) /\ (fin = true -> stopped octet s'))
    (fun _ _ => False) s.
Proof.
  intros Hevs. revert a s. induction Hevs as [| [e o] ae evs aevs He Hevs IH]; intros a s Hsim.
  - simpl. tstep. by rewrite app_nil_r.
  - cbn [transfer_loop sender_run]. tstep.
    eapply wp_mono; [by eapply serves_round | | done].
    intros c s1. unfold round. destruct (sender_step ae a) as [out next].
    intros (Hsent & Hfs & Hc). destruct next as [a' |], c; try done.
    eapply wp_mono; [by apply IH | | done]. intros fin s2.
    destruct (sender_run aevs a') as [outs fin']. rewrite Hsent, Hfs, app_assoc. done.
Qed.
End Loop.

(** ** The RRQ branch *)

(** A child about to serve a request: the arrays [g], with the request in
    [packet], and the files it can open. *)
Definition requested (op : Z) (name mode : list Z) (g : arr -> list Z) : Prop :=
  sized g /\ nonzero name /\ zlen name < 10 /\ nonzero mode /\ zlen mode < 10 /\
  exists junk, g packet = request_packet op name mode ++ junk.

Definition octet_mode (m : list Z) : Prop := m = lit "octet" \/ m = lit "OCTET".
Definition netascii_mode (m : list Z) : Prop := m = lit "netascii" \/ m = lit "NETASCII".

(** The first data packet of an octet transfer: always 512 bytes, what a shorter
    file does not fill comes from the old contents of [data]. *)
Definition octet_first (old content : list Z) : list Z :=
  slice (splice old 0 (slice content 0 NOBYTES)) 0 NOBYTES.

Lemma octet_first_long old content :
  NOBYTES <= zlen content -> octet_first old content = slice content 0 NOBYTES.
Proof.
  intros. unfold octet_first. apply slice_splice_0.
  rewrite zlen_slice; unfold NOBYTES in *; lia.
Qed.

Lemma octet_first_short old content :
  zlen content < NOBYTES -> zlen old = MAXCHAR ->
  octet_first old content = content ++ slice old (zlen content) (NOBYTES - zlen content).
Proof.
  intros Hc Ho. pose proof (zlen_nonneg content). unfold octet_first. rewrite (slice_all content) by lia.
  rewrite splice_0. unfold slice, zlen, NOBYTES, MAXCHAR in *. rewrite drop_0.
  rewrite take_app_ge by lia.
  f_equal. rewrite Nat2Z.id. f_equal. lia.
Qed.

Lemma request_opcode op name mode junk :
  List.hd 0 (slice (request_packet op name mode ++ junk) 1 1) = op.
Proof. done. Qed.

Section Rrq.
Context (g : arr -> list Z) (files : gmap (list Z) (list Z)) (name mode content : list Z) (o : env).
Hypothesis Hreq : requested 1 name mode g.
Hypothesis Hfile : files !! name = Some content.
Hypothesis Ho : good o.

(** Up to the choice of the mode. *)
Lemma wp_request_rrq (Q : req -> st -> Prop) E :
  (forall s, sized (arrs s) -> parsed s name mode -> world s = world (init g files) ->
     frame [send_pack; Filename; Mode] [read_flag; write_flag; mode_offset] (init g files) s ->
     ints s read_flag = Some 1 -> ints s write_flag = Some 0 ->
     wp (let* m1 := streq_lit Mode (lit "octet") in
         let* m2 := streq_lit Mode (lit "OCTET") in
         if m1 || m2 then rrq_octet o
         else let* m3 := streq_lit Mode (lit "netascii") in
              let* m4 := streq_lit Mode (lit "NETASCII") in
              if m3 || m4 then rrq_netascii o
              else send_error o 4 "Illegal TFTP operation." ;;; ret Leave) Q E s) ->
  wp (request o) Q E (init g files).
Proof.
  intros HQ. destruct Hreq as (Hs & Hn & Hln & Hm & Hlm & junk & Hp).
  assert (sized (arrs (init g files))) by done.
  unfold request. repeat tstep. csimp. rewrite Hp, request_opcode.
  change (s8 1 =? 1) with true. cbv iota. unfold rrq. repeat tstep.
  eapply (wp_parse_request name mode); csimp; try done.
  { rewrite Hp. unfold request_packet. by rewrite <- !app_assoc. }
  intros s Hs1 Hfr Hw Hpar. apply HQ; try done.
  - eapply frame_trans; [| by eapply frame_weaken; [.. | exact Hfr]]. frame_solve.
  - by apply (frame_int read_flag _ Hfr).
  - by apply (frame_int write_flag _ Hfr).
Qed.

Lemma wp_rrq_octet :
  octet_mode mode ->
  wp (request o) (fun r s =>
    r = Transfer /\ fs (world s) = files /\
    let p := data_packet 1 (octet_first (g data) content) in
    sent (world s) = [p] /\
    sim true s (mk_sender p (number 2 (blocks (drop (Z.to_nat NOBYTES) content))) 0))
    (fun _ _ => False) (init g files).
Proof.
  intros Hmode. apply wp_request_rrq. intros s Hs [Hname Hmd] Hw Hfr Hrf Hwf.
  assert (Hoct : bool_decide (mode = lit "octet") || bool_decide (mode = lit "OCTET") = true).
  { destruct Hmode as [-> | ->]; done. }
  tstep. eapply wp_streq_lit; [done |]. tstep. eapply wp_streq_lit; [done |]. rewrite Hoct.
  unfold rrq_octet. repeat tstep. eapply wp_read_str_0; [done |]. repeat tstep.
  csimp. rewrite Hw. csimp. rewrite Hfile. repeat tstep.
  eapply (wp_read_block o content); [done | apply Ho | done |].
  intros s1 Hfr1 Hs1 Hw1 Hd1 Hr1. tstep.
  eapply (wp_send_first o NOBYTES); [done | apply Ho | by apply (frame_int count _ Hfr1) | done |].
  intros s2 Hs2 Hfr2 Hw2 Hb2 Hh2. tstep.
  assert (Hfirst : slice (arrs s1 data) 0 NOBYTES = octet_first (g data) content).
  { rewrite Hd1. csimp. unfold octet_first. by rewrite (frame_arr data _ Hfr eq_refl eq_refl). }
  rewrite Hfirst in *. split; [done |]. rewrite Hw2, Hw1. split; [done |]. split; [done |].
  exists (drop (Z.to_nat NOBYTES) content), 1, false.
  assert (Hmf : ints s2 mode_flag = Some 0)
    by (by apply (frame_int mode_flag _ Hfr2), (frame_int mode_flag _ Hfr1)).
  split; [split; try done | done].
  - by apply (frame_int read_flag _ Hfr2), (frame_int read_flag _ Hfr1).
  - by apply (frame_int write_flag _ Hfr2), (frame_int write_flag _ Hfr1).
  - by apply (frame_int stop_flag _ Hfr2), (frame_int stop_flag _ Hfr1), (frame_int stop_flag _ Hfr).
  - by apply (frame_int time_count _ Hfr2), (frame_int time_count _ Hfr1), (frame_int time_count _ Hfr).
  - left. rewrite Hw2, Hw1. done.
  - split; [done |]. cbn [cur]. unfold data_packet. rewrite zlen_app. change (zlen _) with 4 at 1.
    unfold octet_first, zlen, slice, NOBYTES. rewrite length_take. lia.
Qed.

Lemma wp_rrq_netascii :
  netascii_mode mode -> Forall text_byte content ->
  wp (request o) (fun r s =>
    r = Transfer /\ fs (world s) = files /\
    exists p ps, number 1 (blocks (netascii content)) = p :: ps /\
    sent (world s) = [p] /\ sim false s (mk_sender p ps 0))
    (fun _ _ => False) (init g files).
Proof.
  intros Hmode Htext. apply wp_request_rrq. intros s Hs [Hname Hmd] Hw Hfr Hrf Hwf.
  assert (bool_decide (mode = lit "octet") || bool_decide (mode = lit "OCTET") = false /\
    bool_decide (mode = lit "netascii") || bool_decide (mode = lit "NETASCII") = true) as [Hoct Hnet].
  { destruct Hmode as [-> | ->]; done. }
  tstep. eapply wp_streq_lit; [done |]. tstep. eapply wp_streq_lit; [done |]. rewrite Hoct.
  tstep. eapply wp_streq_lit; [done |]. tstep. eapply wp_streq_lit; [done |]. rewrite Hnet.
  unfold rrq_netascii. repeat tstep. eapply wp_read_str_0; [done |]. repeat tstep.
  csimp. rewrite Hw. csimp. rewrite Hfile. repeat tstep.
  eapply (wp_fill rrq_char rrq_char_fill 513 0 _ [] (netascii content)); csimp; try done.
  { by apply (frame_int stop_flag _ Hfr). }
  { exists (-1), content. csimp. split; [by apply (frame_int nextch _ Hfr) | done]. }
  intros s1 p Hp Hfr1 Hnet1 Hs1 Hc1 Hd1 HP1 Hst1. simpl in Hp. tstep.
  assert (0 <= zlen p <= NOBYTES).
  { subst p. unfold zlen, slice, NOBYTES. rewrite length_take. lia. }
  eapply (wp_send_first o (zlen p)); [done | apply Ho | done | done |].
  rewrite Hd1. intros s2 Hs2 Hfr2 Hw2 Hb2 Hh2. tstep.
  split; [done |]. destruct Hnet1 as (Hn1 & Hn2 & Hn3). csimp.
  split; [by rewrite Hw2 |].
  rewrite blocks_unfold. exists (data_packet 1 p).
  exists (if zlen (netascii content) <? NOBYTES then []
          else number 2 (blocks (drop (Z.to_nat NOBYTES) (netascii content)))).
  split.
  { subst p. destruct (Z.ltb_spec (zlen (netascii content)) NOBYTES); [| done].
    unfold NOBYTES in *. by rewrite slice_all by lia. }
  split; [rewrite Hw2; csimp; by rewrite Hn3 |].
  exists (drop (Z.to_nat NOBYTES) (netascii content)), 1, (zlen (netascii content) <? NOBYTES).
  assert (Hmf : ints s2 mode_flag = Some 1)
    by (by apply (frame_int mode_flag _ Hfr2), (frame_int mode_flag _ Hfr1)).
  split; [split; try done | done].
  - by apply (frame_int read_flag _ Hfr2), (frame_int read_flag _ Hfr1).
  - by apply (frame_int write_flag _ Hfr2), (frame_int write_flag _ Hfr1).
  - by apply (frame_int stop_flag _ Hfr2).
  - by apply (frame_int time_count _ Hfr2), (frame_int time_count _ Hfr1), (frame_int time_count _ Hfr).
  - right. split; [done |]. destruct HP1 as (n & r & Hx1 & Hx2).
    exists n, r. rewrite Hw2. split; [by apply (frame_int nextch _ Hfr2) | done].
  - split; [done |]. cbn [cur]. unfold data_packet, NOBYTES in *. zl.
Qed.
End Rrq.

(** ** The whole child *)

(** How a child that has left its loop ends: the clean-up closes [fp], which an
    octet transfer never opened. *)
Lemma cleanup_stopped octet s :
  stopped octet s ->
  exists s', cleanup s = (if octet : bool then Undef Uninitialised s' else Exited 0 s') /\
    sent (world s') = sent (world s) /\ fs (world s') = fs (world s).
Proof.
  intros (_ & Hst & Hk). unfold cleanup, bind at 1, geti. rewrite Hst. simpl.
  unfold fclose, bind, getw. destruct octet.
  - rewrite Hk. by exists s.
  - destruct Hk as [r Hk]. rewrite Hk. by eexists.
Qed.

Lemma child_sim step `{!ServesReads step} octet o evs aevs a s files outs fin :
  wp (request o) (fun r s => r = Transfer /\ fs (world s) = files /\
    sent (world s) = [cur a] /\ sim octet s a) (fun _ _ => False) s ->
  Forall2 abs_event evs aevs -> sender_run aevs a = (outs, fin) ->
  exists s', sent (world s') = cur a :: outs /\ fs (world s') = files /\
    child_process step o evs s = if fin : bool then (if octet then Undef Uninitialised s' else Exited 0 s')
                    else Done tt s'.
Proof.
  intros (r & s1 & Hreq & -> & Hfs & Hsent & Hsim)%wp_done Hevs Hrun.
  pose proof (transfer_sim step octet evs aevs a s1 Hevs Hsim) as Ht. rewrite Hrun in Ht.
  apply wp_done in Ht as (fin' & s2 & Htr & -> & Hsent2 & Hfs2 & Hstop).
  assert (Hc : child_process step o evs s = if fin then cleanup s2 else Done tt s2).
  { unfold child_process, bind. rewrite Hreq, Htr. by destruct fin. }
  rewrite Hc, Hsent in *. destruct fin.
  - destruct (cleanup_stopped octet s2) as (s' & -> & Hs' & Hf'); [by apply Hstop |].
    exists s'. by rewrite Hs', Hf', Hsent2, Hfs2.
  - exists s2. by rewrite Hsent2, Hfs2.
Qed.

(** Acknowledging every packet makes the sender send them all and stop. *)
Lemma sender_run_acks a :
  sender_run (replicate (S (length (todo a))) AAck) a = (todo a, true).
Proof.
  destruct a as [c td n]. simpl. revert c n.
  induction td as [| p td IH]; intros c n; [done |].
  cbn [length replicate sender_run sender_step todo]. by rewrite IH.
Qed.

(** A silent client gets the last packet ten more times. *)
Lemma sender_run_silent c td :
  sender_run (replicate 10 ATimeout) (mk_sender c td 0) = (replicate 10 c, true).
Proof. done. Qed.

Lemma acks_abs ds o :
  good o -> Forall is_ack ds ->
  Forall2 abs_event (List.map (fun d => (EvRecv d, o)) ds) (replicate (length ds) AAck).
Proof. intros Ho. induction 1; simpl; constructor; try done. by constructor. Qed.

Lemma timeouts_abs n o :
  good o -> Forall2 abs_event (replicate n (EvTimeout, o)) (replicate n ATimeout).
Proof. intros Ho. induction n; simpl; constructor; try done. by constructor. Qed.

Lemma number_blocks_cons b P :
  exists ps, number b (blocks P) = data_packet b (slice P 0 NOBYTES) :: ps /\
    ps = if zlen P <? NOBYTES then [] else number (u16 (b + 1)) (blocks (drop (Z.to_nat NOBYTES) P)).
Proof.
  eexists. split; [| reflexivity]. rewrite blocks_unfold.
  destruct (Z.ltb_spec (zlen P) NOBYTES); [| done]. by rewrite slice_all by lia.
Qed.

(** What a client waiting for [ps] gets from a child that sent [ps] in [s]: the
    stream [P], in blocks of 512 bytes of which only the last is shorter, numbered
    from 1. *)
Definition delivered (P : list Z) (s : st) : Prop :=
  exists bs, sent (world s) = number 1 bs /\ block_shape bs /\ payloads (sent (world s)) = P.

Lemma delivered_blocks P s : sent (world s) = number 1 (blocks P) -> delivered P s.
Proof.
  intros Hs. exists (blocks P). rewrite Hs. split; [done |]. split; [apply blocks_shape |].
  by rewrite payloads_number, blocks_concat.
Qed.

Section Served.
Context (step : event -> env -> C ctl) `{!ServesReads step}.
Context (g : arr -> list Z) (files : gmap (list Z) (list Z)) (name mode content : list Z) (o : env).
Hypothesis Hreq : requested 1 name mode g.
Hypothesis Hfile : files !! name = Some content.
Hypothesis Ho : good o.

Lemma octet_served evs aevs outs fin :
  octet_mode mode -> Forall2 abs_event evs aevs ->
  let p := data_packet 1 (octet_first (g data) content) in
  sender_run aevs (mk_sender p (number 2 (blocks (drop (Z.to_nat NOBYTES) content))) 0) = (outs, fin) ->
  exists s', sent (world s') = p :: outs /\ fs (world s') = files /\
    child_process step o evs (init g files) = if fin : bool then Undef Uninitialised s' else Done tt s'.
Proof.
  intros Hm Hevs p Hrun. eapply (child_sim step true o evs aevs (mk_sender p _ 0)); [| exact Hevs | exact Hrun].
  by eapply wp_mono; [eapply wp_rrq_octet; done | |].
Qed.

Lemma netascii_served evs aevs p ps outs fin :
  netascii_mode mode -> Forall text_byte content -> Forall2 abs_event evs aevs ->
  number 1 (blocks (netascii content)) = p :: ps ->
  sender_run aevs (mk_sender p ps 0) = (outs, fin) ->
  exists s', sent (world s') = p :: outs /\ fs (world s') = files /\
    child_process step o evs (init g files) = if fin : bool then Exited 0 s' else Done tt s'.
Proof.
  intros Hm Htext Hevs Hps Hrun.
  eapply (child_sim step false o evs aevs (mk_sender p ps 0)); [| exact Hevs | exact Hrun].
  eapply wp_mono; [eapply wp_rrq_netascii; done | | done].
  intros r s (Hr & Hfs & p' & ps' & Hps' & Hsent & Hsim). rewrite Hps in Hps'.
  injection Hps' as <- <-. done.
Qed.
End Served.

(** ** Properties *)

(** Samples for the witnesses: arrays holding a request and old bytes 77. *)
Definition sample_arrays (op : Z) (name mode : list Z) (a : arr) : list Z :=
  match a with
  | packet => request_packet op name mode ++
      replicate (Z.to_nat (MAXCHAR - zlen (request_packet op name mode))) 77
  | _ => replicate (Z.to_nat (arr_size a)) 77
  end.
Definition all_ok : env := {| send_ok := true; read_ok := true |}.

Ltac sample_request :=
  split; [intros []; reflexivity |]; split; [apply nonzero_dec; reflexivity |];
  split; [reflexivity |]; split; [apply nonzero_dec; reflexivity |];
  split; [reflexivity | by eexists].

(** C1: an octet read of a file of at least 512 bytes refines the stop-and-wait
    sender of the blocks of the file, numbered from 1: whatever the order of
    acknowledgements and timeouts, the child has sent exactly the packets the
    abstract sender sends, it changed no file, and it leaves its loop exactly when
    the abstract sender ends (after which the clean-up closes a stream it never
    opened). *)
Theorem octet_read_refines_sender g files name mode content o evs aevs p ps outs fin :
  requested 1 name mode g -> files !! name = Some content -> good o ->
  octet_mode mode -> NOBYTES <= zlen content -> Forall2 abs_event evs aevs ->
  number 1 (blocks content) = p :: ps ->
  sender_run aevs (mk_sender p ps 0) = (outs, fin) ->
  exists s', sent (world s') = p :: outs /\ fs (world s') = files /\
    child o evs (init g files) = if fin : bool then Undef Uninitialised s' else Done tt s'.
Proof.
  intros Hreq Hfile Ho Hm Hlen Hevs Hps Hrun.
  destruct (number_blocks_cons 1 content) as (ps' & Hps' & ->). rewrite Hps' in Hps.
  rewrite (proj2 (Z.ltb_ge (zlen content) NOBYTES)) in Hps by lia. injection Hps as <- <-.
  rewrite <- (octet_first_long (g data)) in * by done.
  by eapply (octet_served Tftps.step).
Qed.

(** C2: a netascii read of any file without a 0xFF byte refines the stop-and-wait
    sender of the blocks of the translated file; the child then exits with 0. *)
Theorem netascii_read_refines_sender g files name mode content o evs aevs p ps outs fin :
  requested 1 name mode g -> files !! name = Some content -> good o ->
  netascii_mode mode -> Forall text_byte content -> Forall2 abs_event evs aevs ->
  number 1 (blocks (netascii content)) = p :: ps ->
  sender_run aevs (mk_sender p ps 0) = (outs, fin) ->
  exists s', sent (world s') = p :: outs /\ fs (world s') = files /\
    child o evs (init g files) = if fin : bool then Exited 0 s' else Done tt s'.
Proof. intros. by eapply (netascii_served Tftps.step). Qed.

(** C3: when a netascii client acknowledges every packet of a file without a 0xFF byte
    (which [char ch == EOF] takes for its end), and no system call fails, the packets it
    received are well-formed blocks (all full but the last, numbered from 1 modulo 65536),
    decoding their payloads gives back the file, and the child exits with 0. *)
Theorem netascii_read_delivers g files name mode content o ds :
  requested 1 name mode g -> files !! name = Some content -> good o ->
  netascii_mode mode -> Forall text_byte content -> Forall is_ack ds ->
  length ds = length (blocks (netascii content)) ->
  exists s', child o (List.map (fun d => (EvRecv d, o)) ds) (init g files) = Exited 0 s' /\
    delivered (netascii content) s' /\ netascii_decode (payloads (sent (world s'))) = content.
Proof.
  intros Hreq Hfile Ho Hm Htext Hds Hlen.
  destruct (number_blocks_cons 1 (netascii content)) as (ps & Hps & _).
  set (p := data_packet 1 (slice (netascii content) 0 NOBYTES)) in *.
  assert (Hrun : sender_run (replicate (length ds) AAck) (mk_sender p ps 0) = (ps, true)).
  { rewrite Hlen, <- (length_number 1), Hps. apply (sender_run_acks (mk_sender p ps 0)). }
  destruct (netascii_served Tftps.step g files name mode content o Hreq Hfile Ho _ _ p ps ps true
    Hm Htext (acks_abs ds o Ho Hds) Hps Hrun) as (s' & Hs' & _ & Hc).
  exists s'. split; [done |]. rewrite <- Hps in Hs'.
  pose proof (delivered_blocks _ _ Hs') as Hd. split; [done |].
  destruct Hd as (bs & _ & _ & ->). apply netascii_roundtrip.
Qed.

(** The same for an octet read of a file of at least 512 bytes: the payloads
    are the file, but the child then closes the stream [fp] it never opened.*)
Lemma octet_read_delivers g files name mode content o ds :
  requested 1 name mode g -> files !! name = Some content -> good o ->
  octet_mode mode -> NOBYTES <= zlen content -> Forall is_ack ds ->
  length ds = length (blocks content) ->
  exists s', child o (List.map (fun d => (EvRecv d, o)) ds) (init g files) = Undef Uninitialised s' /\
    delivered content s'.
Proof.
  intros Hreq Hfile Ho Hm Hlong Hds Hlen.
  destruct (number_blocks_cons 1 content) as (ps & Hps & Hps').
  rewrite (proj2 (Z.ltb_ge (zlen content) NOBYTES)) in Hps' by lia.
  rewrite <- (octet_first_long (g data)) in Hps by done.
  set (p := data_packet 1 (octet_first (g data) content)) in *.
  assert (Hrun : sender_run (replicate (length ds) AAck) (mk_sender p ps 0) = (ps, true)).
  { rewrite Hlen, <- (length_number 1), Hps. apply (sender_run_acks (mk_sender p ps 0)). }
  rewrite Hps' in Hrun.
  destruct (octet_served Tftps.step g files name mode content o Hreq Hfile Ho _ _ _ true
    Hm (acks_abs ds o Ho Hds) Hrun) as (s' & Hs' & _ & Hc).
  exists s'. split; [done |]. apply delivered_blocks. by rewrite Hs', Hps, Hps'.
Qed.

(** An octet read of a file shorter than 512 bytes does not deliver the file:
    the first packet is padded to 512 bytes with the old contents of the [data]
    array, and an empty second block follows.*)
Lemma octet_read_short_leaks g files name mode content o d1 d2 :
  requested 1 name mode g -> files !! name = Some content -> good o ->
  octet_mode mode -> zlen content < NOBYTES -> is_ack d1 -> is_ack d2 ->
  exists s', child o [(EvRecv d1, o); (EvRecv d2, o)] (init g files) = Undef Uninitialised s' /\
    sent (world s') =
      [data_packet 1 (content ++ slice (g data) (zlen content) (NOBYTES - zlen content));
       data_packet 2 []].
Proof.
  intros Hreq Hfile Ho Hm Hshort H1 H2.
  rewrite <- (octet_first_short (g data)) by (try done; apply Hreq).
  assert (Hdrop : drop (Z.to_nat NOBYTES) content = []).
  { apply skipn_all2. unfold zlen, NOBYTES in *. lia. }
  destruct (octet_served Tftps.step g files name mode content o Hreq Hfile Ho
    [(EvRecv d1, o); (EvRecv d2, o)] [AAck; AAck] [data_packet 2 []] true) as (s' & Hs' & _ & Hc);
    [done | | by rewrite Hdrop |].
  { apply (acks_abs [d1; d2]); [done |]. constructor; [done | constructor; done]. }
  by exists s'.
Qed.

(** C4: a client that never answers a netascii read of a file without a 0xFF byte gets the
    first packet eleven times in all, one second apart: the child gives up at the tenth
    timeout, not when the timeouts exceed ten, and exits with 0. *)
Theorem silent_reader_ends g files name mode content o :
  requested 1 name mode g -> files !! name = Some content -> good o ->
  netascii_mode mode -> Forall text_byte content ->
  exists s', child o (replicate 10 (EvTimeout, o)) (init g files) = Exited 0 s' /\
    sent (world s') = replicate 11 (data_packet 1 (slice (netascii content) 0 NOBYTES)).
Proof.
  intros Hreq Hfile Ho Hm Htext.
  destruct (number_blocks_cons 1 (netascii content)) as (ps & Hps & _).
  destruct (netascii_served Tftps.step g files name mode content o Hreq Hfile Ho _ _ _ ps _ true
    Hm Htext (timeouts_abs 10 o Ho) Hps (sender_run_silent _ ps)) as (s' & Hs' & _ & Hc).
  by exists s'.
Qed.

(** *** Witnesses *)
Lemma octet_read_refines_sender_witness :
  exists s', sent (world s') = number 1 (blocks (replicate 600 65)) /\
    child all_ok [(EvRecv [0; 4; 0; 1], all_ok)]
      (init (sample_arrays 1 (lit "f") (lit "octet")) {[lit "f" := replicate 600 65]}) = Done tt s'.
Proof.
  destruct (octet_read_refines_sender (sample_arrays 1 (lit "f") (lit "octet"))
    {[lit "f" := replicate 600 65]} (lit "f") (lit "octet") (replicate 600 65) all_ok
    [(EvRecv [0; 4; 0; 1], all_ok)] [AAck] (hd [] (number 1 (blocks (replicate 600 65))))
    (tl (number 1 (blocks (replicate 600 65)))) (tl (number 1 (blocks (replicate 600 65)))) false)
    as (s' & Hs & _ & Hc).
  - sample_request.
  - reflexivity.
  - done.
  - by left.
  - by vm_compute.
  - apply (acks_abs [[0; 4; 0; 1]]); [done |]. constructor; [by eexists _, _ | constructor].
  - vm_compute. reflexivity.
  - vm_compute. reflexivity.
  - exists s'. split; [rewrite Hs; vm_compute; reflexivity | exact Hc].
Defined.

Lemma netascii_read_refines_sender_witness :
  exists s', sent (world s') = replicate 2 [0; 3; 0; 1; 65; 13; 10] /\
    child all_ok [(EvTimeout, all_ok); (EvRecv [0; 4; 0; 1], all_ok)]
      (init (sample_arrays 1 (lit "f") (lit "netascii")) {[lit "f" := [65; 10]]}) = Exited 0 s'.
Proof.
  destruct (netascii_read_refines_sender (sample_arrays 1 (lit "f") (lit "netascii"))
    {[lit "f" := [65; 10]]} (lit "f") (lit "netascii") [65; 10] all_ok
    [(EvTimeout, all_ok); (EvRecv [0; 4; 0; 1], all_ok)] [ATimeout; AAck] [0; 3; 0; 1; 65; 13; 10] []
    [[0; 3; 0; 1; 65; 13; 10]] true) as (s' & Hs & _ & Hc).
  - sample_request.
  - reflexivity.
  - done.
  - by left.
  - unfold text_byte; repeat constructor; lia.
  - constructor; [by constructor | constructor; [constructor; [done | by eexists _, _] | constructor]].
  - vm_compute. reflexivity.
  - vm_compute. reflexivity.
  - exists s'. split; [exact Hs | exact Hc].
Defined.

Lemma netascii_read_delivers_witness :
  exists s', child all_ok [(EvRecv [0; 4; 0; 1], all_ok)]
      (init (sample_arrays 1 (lit "f") (lit "NETASCII")) {[lit "f" := [13; 10; 200]]}) = Exited 0 s' /\
    delivered [13; 0; 13; 10; 200] s' /\ netascii_decode (payloads (sent (world s'))) = [13; 10; 200].
Proof.
  apply (netascii_read_delivers (sample_arrays 1 (lit "f") (lit "NETASCII"))
    {[lit "f" := [13; 10; 200]]} (lit "f") (lit "NETASCII") [13; 10; 200] all_ok [[0; 4; 0; 1]]).
  - sample_request.
  - reflexivity.
  - done.
  - by right.
  - unfold text_byte; repeat constructor; lia.
  - constructor; [by eexists _, _ | constructor].
  - reflexivity.
Defined.

Lemma octet_read_delivers_witness :
  exists s', child all_ok [(EvRecv [0; 4; 0; 1], all_ok); (EvRecv [0; 4; 0; 2], all_ok)]
      (init (sample_arrays 1 (lit "f") (lit "octet")) {[lit "f" := replicate 512 255]})
      = Undef Uninitialised s' /\ delivered (replicate 512 255) s'.
Proof.
  apply (octet_read_delivers (sample_arrays 1 (lit "f") (lit "octet"))
    {[lit "f" := replicate 512 255]} (lit "f") (lit "octet") (replicate 512 255) all_ok
    [[0; 4; 0; 1]; [0; 4; 0; 2]]).
  - sample_request.
  - reflexivity.
  - done.
  - by left.
  - by vm_compute.
  - constructor; [by eexists _, _ | constructor; [by eexists _, _ | constructor]].
  - by vm_compute.
Defined.

Lemma octet_read_short_leaks_witness :
  exists s', child all_ok [(EvRecv [0; 4; 0; 1], all_ok); (EvRecv [0; 4; 0; 2], all_ok)]
      (init (sample_arrays 1 (lit "f") (lit "octet")) {[lit "f" := lit "hello"]})
      = Undef Uninitialised s' /\
    sent (world s') = [data_packet 1 (lit "hello" ++ replicate 507 77); data_packet 2 []].
Proof.
  destruct (octet_read_short_leaks (sample_arrays 1 (lit "f") (lit "octet"))
    {[lit "f" := lit "hello"]} (lit "f") (lit "octet") (lit "hello") all_ok
    [0; 4; 0; 1] [0; 4; 0; 2]) as (s' & Hc & Hs).
  - sample_request.
  - reflexivity.
  - done.
  - by left.
  - by vm_compute.
  - by eexists _, _.
  - by eexists _, _.
  - exists s'. split; [exact Hc | rewrite Hs; vm_compute; reflexivity].
Defined.

Lemma silent_reader_ends_witness :
  exists s', child all_ok (replicate 10 (EvTimeout, all_ok))
      (init (sample_arrays 1 (lit "f") (lit "netascii")) {[lit "f" := lit "hi"]}) = Exited 0 s' /\
    sent (world s') = replicate 11 ([0; 3; 0; 1] ++ lit "hi").
Proof.
  apply (silent_reader_ends (sample_arrays 1 (lit "f") (lit "netascii"))
    {[lit "f" := lit "hi"]} (lit "f") (lit "netascii") (lit "hi") all_ok).
  - sample_request.
  - reflexivity.
  - done.
  - by left.
  - unfold text_byte; repeat constructor; lia.
Defined.
End TftpsRead.
