(* ===== verification/TftpsWrite.v ===== *)
(** * [tftps.c] serving a write request

    The DATA branch stores the C string that starts the payload and acknowledges
    its own block counter; two timeouts in a row end the transfer.  For blocks
    without NUL and 0xFF bytes this refines an abstract receiver, provided the
    packet array holds nothing behind the block: that is so after the first round,
    which clears the array, but the first block is followed by what is left of the
    request. *)

From S2P Require Import Prelude CMem TftpState Tftps TftpFacts TftpRead TftpsRead.
From stdpp Require Import base list gmap.
From Stdlib Require Import ZArith Lia.
From Stdlib Require String.
Import String.StringSyntax.
Open Scope Z_scope.

Module TftpsWrite.
Import Tftp Tftps TftpFacts TftpRead TftpsRead.

(** ** The state of a child that serves a write request for [f] *)
Record writing (s : st) (f content : list Z) (b t : Z) (stop : bool) : Prop := {
  wr_sized : sized (arrs s);
  wr_read : ints s read_flag = Some 0;
  wr_write : ints s write_flag = Some 1;
  wr_stop : ints s stop_flag = Some (if stop then 1 else 0);
  wr_mode : ints s mode_flag = Some (-1);
  wr_next : ints s nextch = Some (-1);
  wr_block : ints s block_number = Some b;
  wr_time : ints s time_count = Some t;
  wr_fp : fp (world s) = FOpen (WStream f);
  wr_file : fs (world s) !! f = Some content
}.

(** Only the file [f] may differ. *)
Definition same_but (f : list Z) (m m' : gmap (list Z) (list Z)) : Prop :=
  forall k, k <> f -> m' !! k = m !! k.

Lemma same_but_insert f m x : same_but f m (<[f := x]> m).
Proof. intros k Hk. by rewrite lookup_insert_ne. Qed.

Lemma same_but_trans f m1 m2 m3 : same_but f m1 m2 -> same_but f m2 m3 -> same_but f m1 m3.
Proof. intros H1 H2 k Hk. by rewrite H2, H1. Qed.

Definition has_eof (l : list Z) : bool := existsb (Z.eqb 255) l.

(** ** Storing one byte *)
Lemma wp_putc c f content (Q : unit -> st -> Prop) E s :
  fp (world s) = FOpen (WStream f) -> fs (world s) !! f = Some content ->
  Q tt (set_world s (set_fs (world s) (<[f := content ++ [u8 c]]> (fs (world s))))) ->
  wp (putc c) Q E s.
Proof.
  intros Hf Hc HQ. unfold putc. repeat tstep. rewrite Hf. repeat tstep.
  rewrite (lookup_total_correct _ _ _ Hc). done.
Qed.

Lemma slice_lookup l i : 0 <= i < zlen l -> exists x, slice l i 1 = [x] /\ l !! Z.to_nat i = Some x.
Proof.
  intros. unfold zlen in *. destruct (lookup_lt_is_Some_2 l (Z.to_nat i)) as [x Hx]; [lia |].
  exists x. split; [| done]. unfold slice. change (Z.to_nat 1) with 1%nat.
  rewrite <- (Nat.add_0_r (Z.to_nat i)) in Hx. rewrite <- lookup_drop in Hx.
  destruct (drop (Z.to_nat i) l); simpl in *; [done |]. injection Hx as ->. by rewrite take_0.
Qed.

(** One round of the storing loop. *)
Lemma wp_data_char s f content b t stop c x text (Q : ctl -> st -> Prop) E :
  writing s f content b t stop -> ints s count = Some c -> 0 <= c ->
  cstr (arrs s data) = Some text -> text !! Z.to_nat c = Some x -> is_byte x ->
  (forall s', writing s' f (content ++ [x]) b t (stop || (x =? 255)) ->
     frame [] [ch; stop_flag] s s' -> sent (world s') = sent (world s) ->
     same_but f (fs (world s)) (fs (world s')) -> Q Cont s') ->
  wp data_char Q E s.
Proof.
  intros [Hs Hr Hw Hst Hm Hn Hb Ht Hf Hfile] Hc Hc0 Htext Hx Hbyte HQ.
  destruct (cstr_Some _ _ Htext) as (r & Hd & _).
  assert (Hxl : arrs s data !! Z.to_nat c = Some x) by (rewrite Hd; by apply lookup_app_l_Some).
  pose proof (lookup_lt_Some _ _ _ Hxl). pose proof (Hs data) as Hsd. unfold zlen in Hsd.
  simpl in Hsd.
  unfold data_char. repeat tstep. simpl. repeat tstep.
  destruct (slice_lookup (arrs s data) c) as (x' & -> & Hx'); [unfold zlen; lia |].
  assert (x' = x) as -> by congruence. cbn [hd]. repeat tstep.
  assert (Heof : (s8 x =? -1) = (x =? 255)).
  { apply Bool.eq_true_iff_eq. rewrite !Z.eqb_eq. by apply s8_eof. }
  rewrite Heof. destruct (Z.eqb_spec x 255) as [Hx255 | Hx255]; repeat tstep; simpl; repeat tstep;
    (eapply wp_putc; [done | csimp; exact Hfile |]); repeat tstep;
    (apply HQ; [| frame_solve | done | apply same_but_insert]);
    split; csimp; rewrite ?u8_s8, ?u8_id, ?lookup_insert_eq by done; by destruct stop.
Qed.

(** The storing loop appends the whole string. *)
Lemma wp_store_loop f b t text n : forall c s content stop (Q : unit -> st -> Prop) E,
  zlen text - c < Z.of_nat n -> 0 <= c <= zlen text -> Forall is_byte text ->
  writing s f content b t stop -> ints s count = Some c -> cstr (arrs s data) = Some text ->
  (forall s', writing s' f (content ++ drop (Z.to_nat c) text) b t
       (stop || has_eof (drop (Z.to_nat c) text)) ->
     frame [] [ch; stop_flag; count] s s' -> sent (world s') = sent (world s) ->
     same_but f (fs (world s)) (fs (world s')) -> Q tt s') ->
  wp (for_fuel n count_lt_strlen count_incr data_char) Q E s.
Proof.
  induction n as [| n IH]; intros c s content stop Q E Hn Hc Hb Hwr Hcn Htext HQ; [lia |].
  apply wp_for. unfold count_lt_strlen, strlen. repeat tstep.
  eapply wp_read_str_0; [done |]. repeat tstep.
  destruct (Z.ltb_spec c (zlen text)) as [Hlt | Hge].
  - destruct (lookup_lt_is_Some_2 text (Z.to_nat c)) as [x Hx]; [unfold zlen in *; lia |].
    assert (Hbx : is_byte x) by (eapply Forall_lookup_1; done).
    eapply wp_data_char; try done; [lia |]. intros s1 Hwr1 Hfr1 Hsent1 Hfs1.
    assert (Hcn1 : ints s1 count = Some c) by (by apply (frame_int count _ Hfr1)).
    unfold count_incr. repeat tstep.
    eapply (IH (c + 1) _ (content ++ [x]) (stop || (x =? 255))); csimp; try done; try lia.
    + destruct Hwr1. by split.
    + by rewrite (frame_arr data _ Hfr1 eq_refl eq_refl).
    + intros s2 Hwr2 Hfr2 Hsent2 Hfs2. apply HQ.
      * rewrite (drop_S _ _ _ Hx). cbn [has_eof existsb].
        replace (S (Z.to_nat c)) with (Z.to_nat (c + 1)) by lia.
        rewrite <- app_assoc, <- orb_assoc, Z.eqb_sym in Hwr2. exact Hwr2.
      * eapply frame_trans; [| exact Hfr2]. eapply frame_trans; [| apply frame_set_int; done].
        by eapply frame_weaken; [.. | exact Hfr1].
      * by rewrite Hsent2, Hsent1.
      * by eapply same_but_trans.
  - assert (Hd : drop (Z.to_nat c) text = []) by (apply skipn_all2; unfold zlen in *; lia).
    rewrite Hd, app_nil_r, orb_false_r in HQ. by apply HQ.
Qed.

(** ** The DATA branch *)

(** What is stored of the datagram that was just received. *)
Definition stored (s : st) : option (list Z) :=
  cstr (slice (arrs s packet) 4 (MAXCHAR - 4) ++ [0; 0; 0; 0]).

Definition ack_packet (b : Z) : list Z := [0; 4; hi_byte b; lo_byte b].

Lemma data_copy old l :
  zlen old = MAXCHAR -> zlen l = MAXCHAR - 4 ->
  splice (splice old 0 (replicate (Z.to_nat MAXCHAR) 0)) 0 l = l ++ [0; 0; 0; 0].
Proof.
  intros Ho Hl. unfold zlen, MAXCHAR in *. rewrite !splice_0.
  rewrite length_replicate. rewrite (skipn_all2 old) by lia. rewrite app_nil_r.
  f_equal. rewrite drop_replicate.
  replace (Z.to_nat 1000 - length l)%nat with 4%nat by lia. done.
Qed.

Lemma cstr_bound l t : cstr l = Some t -> zlen t < zlen l.
Proof.
  intros (r & -> & _)%cstr_Some. zl. pose proof (zlen_nonneg r). lia.
Qed.

Lemma wp_on_data o s f content b t text (Q : ctl -> st -> Prop) E :
  writing s f content b t false -> 0 <= b < 65536 -> send_ok o = true ->
  stored s = Some text -> Forall is_byte text ->
  (forall s', writing s' f (content ++ text) (u16 (b + 1)) t (has_eof text) ->
     sent (world s') = sent (world s) ++ [ack_packet b] -> arrs s' packet = arrs s packet ->
     same_but f (fs (world s)) (fs (world s')) ->
     Q (if has_eof text then Brk else Cont) s') ->
  wp (on_data o) Q E s.
Proof.
  intros Hwr Hbr Ho Htext Hbytes HQ.
  pose proof Hwr as [Hs Hr Hw Hst Hm Hn Hb Ht Hf Hfile].
  unfold on_data. repeat tstep. simpl. repeat tstep.
  assert (Hlen : zlen text < 1000).
  { apply cstr_bound in Htext. rewrite zlen_app in Htext. change (zlen [0; 0; 0; 0]) with 4 in Htext.
    rewrite zlen_slice in Htext; rewrite ?Hs; tlia. }
  pose proof (zlen_nonneg text).
  eapply (wp_store_loop f b t text 1001 0 _ content false); csimp; try done; try lia.
  { rewrite data_copy; [exact Htext | apply Hs |]. apply zlen_slice; rewrite ?Hs; tlia. }
  rewrite drop_0. intros s1 Hwr1 Hfr1 Hsent1 Hfs1. csimp. simpl orb in Hwr1.
  pose proof Hwr1 as [Hs1 Hr1 Hw1 Hst1 Hm1 Hn1 Hb1 Ht1 Hf1 Hfile1].
  repeat tstep. eapply wp_sendto; [done | csimp; reflexivity | lia | done |].
  repeat tstep.
  assert (Hq : forall s' c, c = (if has_eof text then Brk else Cont) ->
    writing s' f (content ++ text) (u16 (b + 1)) t (has_eof text) ->
    world s' = add_sent (world s1) (ack_packet b) -> arrs s' packet = arrs s1 packet -> Q c s').
  { intros s' c -> Hwr' Hw' Hp'. apply HQ; [done | | | by rewrite Hw'].
    - rewrite Hw'. csimp. by rewrite Hsent1.
    - rewrite Hp'. by rewrite (frame_arr packet _ Hfr1 eq_refl eq_refl). }
  destruct (has_eof text); cbn [Z.eqb Pos.eqb]; tstep; (apply Hq; [done | | | done]).
  1, 3: by split; csimp.
  all: csimp; unfold HEADER; rewrite header_bytes, !u8_id by (auto with bytes; rewrite Hs1; tlia);
    rewrite (Z.mod_small b) by lia; rewrite slice_0_app by done; by rewrite slice_splice_0.
Qed.

(** ** Datagrams *)

(** Bytes that survive the trip: neither NUL nor 0xFF. *)
Definition plain (l : list Z) : Prop := Forall (fun b => 0 < b < 255) l.

(** A DATA datagram with payload [l]; the block number in it is not looked at. *)
Definition is_data (d l : list Z) : Prop := exists x y z, d = [x; 3; y; z] ++ l.

Lemma plain_nonzero l : plain l -> nonzero l.
Proof. intros H. eapply Forall_impl; [exact H |]. simpl. lia. Qed.
Lemma plain_bytes l : plain l -> Forall is_byte l.
Proof. intros H. eapply Forall_impl; [exact H |]. unfold is_byte. simpl. lia. Qed.
Lemma plain_no_eof l : plain l -> has_eof l = false.
Proof.
  induction 1 as [| b l Hb _ IH]; [done |]. unfold has_eof in *. cbn [existsb].
  rewrite IH, orb_false_r. apply Z.eqb_neq. lia.
Qed.

Lemma cstr_app_r l r : nonzero l -> cstr (l ++ r) = app l <$> cstr r.
Proof.
  induction 1 as [| b l Hb _ IH]; simpl; [by destruct (cstr r) |].
  rewrite (proj2 (Z.eqb_neq b 0)) by done. rewrite IH. by destruct (cstr r).
Qed.

(** Only what precedes the first NUL counts. *)
Lemma cstr_nul l z : cstr (l ++ 0 :: z) = cstr (l ++ [0]).
Proof.
  induction l as [| b l IH]; simpl; [done |]. by rewrite IH.
Qed.

Lemma cstr_bytes l t : Forall is_byte l -> cstr (l ++ [0]) = Some t -> Forall is_byte t.
Proof.
  intros Hl (r & Heq & _)%cstr_Some.
  assert (H : Forall is_byte (l ++ [0])).
  { apply Forall_app. split; [done |]. repeat constructor; unfold is_byte; lia. }
  rewrite Heq in H. by apply Forall_app in H as [].
Qed.

(** The payload part of [packet] after a DATA datagram was received. *)
Lemma recv_payload old d l :
  zlen old = MAXCHAR -> is_data d l -> zlen l <= 512 ->
  slice (splice old 0 (take (Z.to_nat MAXCHAR) d)) 4 (MAXCHAR - 4)
  = l ++ drop (Z.to_nat (4 + zlen l)) old.
Proof.
  intros Ho (x & y & z & ->) Hl. unfold zlen, MAXCHAR in *.
  rewrite take_ge by (rewrite length_app; simpl; lia).
  rewrite splice_0, <- app_assoc, slice_app by done. unfold slice.
  rewrite drop_0, take_ge.
  - f_equal. rewrite length_app. f_equal. simpl. lia.
  - rewrite length_app, length_drop, length_app. simpl. lia.
Qed.

Lemma opcode_data old d l :
  is_data d l -> List.hd 0 (slice (splice old 0 (take (Z.to_nat MAXCHAR) d)) 1 1) = 3.
Proof. by intros (x & y & z & ->). Qed.

(** Receiving a block [l]: what is stored is the C string that starts with [l] and
    runs on into what the packet array holds behind it. *)
Lemma wp_on_packet_text o s f content b t d l text (Q : ctl -> st -> Prop) E :
  writing s f content b t false -> 0 <= b < 65536 -> send_ok o = true ->
  is_data d l -> zlen l <= 512 ->
  cstr (l ++ drop (Z.to_nat (4 + zlen l)) (arrs s packet) ++ [0; 0; 0; 0]) = Some text ->
  Forall is_byte text ->
  (forall s', writing s' f (content ++ text) (u16 (b + 1)) 0 (has_eof text) ->
     sent (world s') = sent (world s) ++ [ack_packet b] ->
     (has_eof text = false -> arrs s' packet = replicate (Z.to_nat MAXCHAR) 0) ->
     same_but f (fs (world s)) (fs (world s')) -> Q (if has_eof text then Brk else Cont) s') ->
  wp (on_packet o d) Q E s.
Proof.
  intros Hwr Hb Ho Hd Hlen Htext Hbytes HQ. pose proof (wr_sized _ _ _ _ _ _ Hwr) as Hs.
  unfold on_packet. tstep. apply wp_recvfrom; [done |]. intros Hs0. repeat tstep. csimp.
  rewrite (opcode_data _ _ l) by done. change (s8 3 =? 3) with true. cbv iota.
  eapply (wp_on_data _ _ f content b 0 text); try done.
  - destruct Hwr. split; csimp; done.
  - unfold stored. csimp. rewrite (recv_payload _ _ l) by (try done; apply Hs).
    by rewrite <- app_assoc.
  - intros s' Hwr' Hsent' Hp' Hfs'. csimp.
    pose proof (wr_sized _ _ _ _ _ _ Hwr') as Hs'.
    destruct (has_eof text) eqn:He; repeat tstep; apply HQ; csimp; try done.
    + destruct Hwr'. split; csimp; done.
    + intros _. rewrite splice_0, length_replicate, skipn_all2, app_nil_r; [done |].
      pose proof (Hs' packet) as Hz. unfold zlen, MAXCHAR in Hz. simpl in Hz. lia.
Qed.

(** The same for plain bytes. *)
Lemma wp_on_packet_data o s f content b t d l r (Q : ctl -> st -> Prop) E :
  writing s f content b t false -> 0 <= b < 65536 -> send_ok o = true ->
  is_data d l -> plain l -> zlen l <= 512 ->
  cstr (drop (Z.to_nat (4 + zlen l)) (arrs s packet) ++ [0; 0; 0; 0]) = Some r ->
  plain r ->
  (forall s', writing s' f (content ++ l ++ r) (u16 (b + 1)) 0 false ->
     sent (world s') = sent (world s) ++ [ack_packet b] ->
     arrs s' packet = replicate (Z.to_nat MAXCHAR) 0 ->
     same_but f (fs (world s)) (fs (world s')) -> Q Cont s') ->
  wp (on_packet o d) Q E s.
Proof.
  intros Hwr Hb Ho Hd Hl Hlen Hr Hpr HQ.
  assert (He : has_eof (l ++ r) = false) by (apply plain_no_eof; by apply Forall_app).
  eapply (wp_on_packet_text _ _ f content b t d l (l ++ r)); try done.
  - rewrite cstr_app_r by (by apply plain_nonzero). by rewrite Hr.
  - apply Forall_app. split; by apply plain_bytes.
  - rewrite He. intros. apply HQ; try done. by auto.
Qed.

(** ** The abstract receiver *)
Record receiver := mk_receiver { rcontent : list Z; rblock : Z; rtries : Z }.
Inductive revent := RBlock (l : list Z) | RTimeout.

Definition receiver_step (e : revent) (a : receiver) : list (list Z) * bool * receiver :=
  match e with
  | RBlock l => ([ack_packet (rblock a)], false,
                 mk_receiver (rcontent a ++ l) (u16 (rblock a + 1)) 0)
  | RTimeout => ([], 2 <=? rtries a + 1,
                 mk_receiver (rcontent a) (rblock a) (rtries a + 1))
  end.

Fixpoint receiver_run (evs : list revent) (a : receiver) : list (list Z) * bool * receiver :=
  match evs with
  | [] => ([], false, a)
  | e :: evs' =>
      let '(out, fin, a') := receiver_step e a in
      if fin : bool then (out, true, a')
      else let '(outs, fin', a'') := receiver_run evs' a' in (out ++ outs, fin', a'')
  end.

Inductive abs_write : event * env -> revent -> Prop :=
| abs_wtimeout o : abs_write (EvTimeout, o) RTimeout
| abs_block d l o : send_ok o = true -> is_data d l -> plain l -> zlen l <= 512 ->
    abs_write (EvRecv d, o) (RBlock l).

(** Nothing but zeros behind the header of the packet array. *)
Definition clean (s : st) : Prop := slice (arrs s packet) 4 (MAXCHAR - 4) = replicate 996 0.

Definition wsim (f : list Z) (s : st) (a : receiver) : Prop :=
  writing s f (rcontent a) (rblock a) (rtries a) false /\ 0 <= rblock a < 65536 /\ clean s.

Lemma clean_behind_zero s n :
  sized (arrs s) -> clean s -> 0 <= n <= 512 ->
  exists z, drop (Z.to_nat (4 + n)) (arrs s packet) ++ [0; 0; 0; 0] = 0 :: z.
Proof.
  intros Hs Hc Hn. unfold clean, slice in Hc. pose proof (Hs packet) as Hp.
  unfold zlen, MAXCHAR in *. simpl arr_size in Hp. unfold MAXCHAR in Hp.
  rewrite take_ge in Hc by (rewrite length_drop; lia).
  replace (Z.to_nat (4 + n)) with (Z.to_nat 4 + Z.to_nat n)%nat by lia.
  rewrite <- drop_drop, Hc, drop_replicate.
  destruct (996 - Z.to_nat n)%nat eqn:He; [lia |]. by eexists.
Qed.

Lemma clean_behind s n :
  sized (arrs s) -> clean s -> 0 <= n <= 512 ->
  cstr (drop (Z.to_nat (4 + n)) (arrs s packet) ++ [0; 0; 0; 0]) = Some [].
Proof. intros Hs Hc Hn. by destruct (clean_behind_zero s n Hs Hc Hn) as (z & ->). Qed.

(** The empty block a timeout leaves in the packet array. *)
Lemma clean_header l a b h i :
  zlen l = MAXCHAR -> slice l 4 (MAXCHAR - 4) = replicate 996 0 ->
  slice (splice (splice (splice (splice l 0 ([a; b] ++ [0])) 2 [h]) 3 [i]) 4 [u8 0]) 4 (MAXCHAR - 4)
  = replicate 996 0.
Proof.
  intros Hl Hc. rewrite header_bytes by (unfold MAXCHAR in *; lia).
  rewrite splice_app, slice_app by done.
  unfold slice in Hc. rewrite take_ge in Hc
    by (unfold zlen, MAXCHAR in *; rewrite length_drop; lia).
  change (Z.to_nat 4) with 4%nat in Hc. by rewrite Hc.
Qed.

Lemma step_wtimeout_sim f a o s :
  wsim f s a ->
  wp (on_timeout o) (fun c s' =>
     let '(out, fin, a') := receiver_step RTimeout a in
     sent (world s') = sent (world s) ++ out /\ fs (world s') = fs (world s) /\
     if fin : bool then c = Brk /\ writing s' f (rcontent a') (rblock a') (rtries a') true
     else c = Cont /\ wsim f s' a') (fun _ _ => False) s.
Proof.
  intros (Hwr & Hb & Hcl). pose proof Hwr as [Hs Hr Hw Hst Hm Hn Hbl Ht Hf Hfile].
  unfold on_timeout. repeat tstep. simpl. repeat tstep. simpl. unfold write_timeout.
  repeat tstep. cbn [receiver_step].
  destruct (Z.leb_spec 2 (rtries a + 1)); repeat tstep; rewrite app_nil_r;
    (do 2 (split; [done |])); (split; [done |]).
  - split; csimp; done.
  - split; [split; csimp; done |]. split; [done |].
    unfold clean in *. csimp. apply clean_header; [apply Hs | exact Hcl].
Qed.

(** How one round relates to the receiver. *)
Definition wround (f : list Z) (a : receiver) (e : revent) (s : st) (c : ctl) (s' : st) : Prop :=
  let '(out, fin, a') := receiver_step e a in
  sent (world s') = sent (world s) ++ out /\ same_but f (fs (world s)) (fs (world s')) /\
  if fin : bool then c = Brk /\ writing s' f (rcontent a') (rblock a') (rtries a') true
  else c = Cont /\ wsim f s' a'.

Lemma clean_zeros s : arrs s packet = replicate (Z.to_nat MAXCHAR) 0 -> clean s.
Proof. intros H. unfold clean. by rewrite H. Qed.

Lemma step_wsim f a e o ev s :
  wsim f s a -> abs_write (ev, o) e ->
  wp (step ev o) (wround f a e s) (fun _ _ => False) s.
Proof.
  intros Hsim He. inversion He as [| d l ? Ho Hd Hpl Hlen]; subst.
  - eapply wp_mono; [by apply (step_wtimeout_sim f a) | | done].
    intros c s' H. unfold wround. cbn [receiver_step] in *. destruct H as (H1 & H2 & H3).
    split; [done |]. split; [by rewrite H2 | done].
  - destruct Hsim as (Hwr & Hb & Hcl). cbn [step].
    eapply (wp_on_packet_data _ _ f _ _ _ _ l []); try done.
    { apply clean_behind; [apply Hwr | done |]. pose proof (zlen_nonneg l). lia. }
    { constructor. }
    rewrite app_nil_r. intros s' Hwr' Hsent' Hp' Hfs'. split; [done |]. split; [done |].
    split; [done |]. split; [done |]. split; [apply u16_range | by apply clean_zeros].
Qed.

(** ** The loop refines the receiver *)
Lemma transfer_wsim f evs aevs a s :
  Forall2 abs_write evs aevs -> wsim f s a ->
  wp (transfer evs) (fun fin s' =>
     let '(outs, fin', a') := receiver_run aevs a in
     fin = fin' /\ sent (world s') = sent (world s) ++ outs /\
     same_but f (fs (world s)) (fs (world s')) /\
     writing s' f (rcontent a') (rblock a') (rtries a') fin)
    (fun _ _ => False) s.
Proof.
  intros Hevs. revert a s. induction Hevs as [| [e o] ae evs aevs He Hevs IH]; intros a s Hsim.
  - simpl. tstep. rewrite app_nil_r. do 3 (split; [done |]). apply Hsim.
  - unfold transfer in *; cbn [transfer_loop receiver_run]. tstep. eapply wp_mono; [by eapply step_wsim | | done].
    intros c s1. unfold wround. destruct (receiver_step ae a) as [[out fin] a'].
    intros (Hsent & Hfs & Hfin). destruct fin; destruct Hfin as [-> Hnext].
    + by tstep.
    + eapply wp_mono; [by apply IH | | done]. intros fin s2.
      destruct (receiver_run aevs a') as [[outs fin'] a'']. intros (H1 & H2 & H3 & H4).
      rewrite H2, Hsent, app_assoc. do 2 (split; [done |]). split; [| done].
      by eapply same_but_trans.
Qed.

(** ** The WRQ branch *)
Section Wrq.
Context (g : arr -> list Z) (files : gmap (list Z) (list Z)) (name mode : list Z) (o : env).
Hypothesis Hreq : requested 2 name mode g.

(** Up to the attempt to create the file. *)
Lemma wp_request_wrq (Q : req -> st -> Prop) E :
  (forall s, sized (arrs s) -> parsed s name mode -> world s = world (init g files) ->
     frame [send_pack; Filename; Mode] [read_flag; write_flag; mode_offset] (init g files) s ->
     ints s read_flag = Some 0 -> ints s write_flag = Some 1 ->
     wp (match files !! name with
         | Some _ =>
             setw (set_fp (world s) FNull) ;;;
             send_error o 6 "File already exists." ;;; ret Leave
         | None =>
             setw (set_fp (set_fs (world s) (<[name := []]> files)) (FOpen (WStream name))) ;;;
             sprintf_c ACK [0; 4; 0; 0] ;;;
             memcpy send_pack 0 ACK 0 HEADER ;;;
             seti size_sp HEADER ;;;
             sendto o ;;;
             seti block_number 1 ;;;
             ret Transfer
         end) Q E s) ->
  wp (request o) Q E (init g files).
Proof.
  intros HQ. destruct Hreq as (Hs & Hn & Hln & Hm & Hlm & junk & Hp).
  assert (sized (arrs (init g files))) by done.
  unfold request. repeat tstep. csimp. rewrite Hp, request_opcode.
  change (s8 2 =? 1) with false. change (s8 2 =? 2) with true. cbv iota. unfold wrq. repeat tstep.
  eapply (wp_parse_request name mode); csimp; try done.
  { rewrite Hp. unfold request_packet. by rewrite <- !app_assoc. }
  intros s Hs1 Hfr Hw [Hpar1 Hpar2]. repeat tstep. eapply wp_read_str_0; [done |].
  repeat tstep. csimp.
  match goal with |- wp _ _ _ ?x => specialize (HQ x) end. csimp.
  replace (fs (world s)) with files by (by rewrite Hw).
  apply HQ; try done.
  - frame_solve. eapply frame_trans; [| by eapply frame_weaken; [.. | exact Hfr]]. frame_solve.
  - by apply (frame_int read_flag _ Hfr).
  - by apply (frame_int write_flag _ Hfr).
Qed.

Lemma wp_wrq_new :
  files !! name = None -> send_ok o = true ->
  wp (request o) (fun r s => r = Transfer /\ writing s name [] 1 0 false /\
    sent (world s) = [ack_packet 0] /\ arrs s packet = g packet /\
    same_but name files (fs (world s)) /\ holds s (ack_packet 0)) (fun _ _ => False) (init g files).
Proof.
  intros Hnew Ho. apply wp_request_wrq. intros s Hs _ Hw Hfr Hr Hwf. rewrite Hnew.
  repeat tstep. eapply wp_sendto; [done | csimp; reflexivity | tlia | done |]. repeat tstep.
  split; [done |]. rewrite Hw. csimp. split; [split; csimp; try done |].
  - by apply (frame_int stop_flag _ Hfr).
  - by apply (frame_int mode_flag _ Hfr).
  - by apply (frame_int nextch _ Hfr).
  - by apply (frame_int time_count _ Hfr).
  - by rewrite lookup_insert_eq.
  - assert (Hack : slice (splice (arrs s send_pack) 0
        (slice (splice (arrs s ACK) 0 ([0; 4; 0; 0] ++ [0])) 0 HEADER)) 0 HEADER = ack_packet 0).
    { rewrite slice_splice_0; [by rewrite slice_splice_str |].
      symmetry. apply zlen_slice; unfold HEADER; try lia.
      rewrite zlen_splice; rewrite ?Hs; tlia. }
    split; [by rewrite <- Hack |]. split; [by apply (frame_arr packet _ Hfr) |].
    split; [apply same_but_insert |]. split; [done |]. csimp. exact Hack.
Qed.
End Wrq.

(** ** The whole child *)
Lemma cleanup_writing s f content b t :
  writing s f content b t true ->
  exists s', cleanup s = Exited 0 s' /\ sent (world s') = sent (world s) /\
    fs (world s') = fs (world s).
Proof.
  intros Hwr. unfold cleanup, bind at 1, geti. rewrite (wr_stop _ _ _ _ _ _ Hwr). simpl.
  unfold fclose, bind, getw. rewrite (wr_fp _ _ _ _ _ _ Hwr). by eexists.
Qed.

(** What follows the payload of a first block of length [n] in the packet array,
    up to the next NUL. *)
Definition behind (g : arr -> list Z) (n : Z) (r : list Z) : Prop :=
  cstr (drop (Z.to_nat (4 + n)) (g packet) ++ [0; 0; 0; 0]) = Some r.

Lemma write_served g files name mode o d1 l1 r evs aevs outs fin a' :
  requested 2 name mode g -> files !! name = None -> send_ok o = true ->
  is_data d1 l1 -> plain l1 -> zlen l1 <= 512 -> behind g (zlen l1) r -> plain r ->
  Forall2 abs_write evs aevs ->
  receiver_run aevs (mk_receiver (l1 ++ r) 2 0) = (outs, fin, a') ->
  exists s', sent (world s') = [ack_packet 0; ack_packet 1] ++ outs /\
    fs (world s') !! name = Some (rcontent a') /\ same_but name files (fs (world s')) /\
    child o ((EvRecv d1, o) :: evs) (init g files) = if fin : bool then Exited 0 s' else Done tt s'.
Proof.
  intros Hreq Hnew Ho Hd Hl Hlen Hbeh Hr Hevs Hrun.
  assert (Hall : wp (request o ;;; transfer ((EvRecv d1, o) :: evs)) (fun c s' =>
    c = fin /\ sent (world s') = [ack_packet 0; ack_packet 1] ++ outs /\
    same_but name files (fs (world s')) /\
    exists b t, writing s' name (rcontent a') b t fin) (fun _ _ => False) (init g files)).
  { tstep. eapply wp_mono; [by eapply wp_wrq_new | | done].
    intros ? s1 (_ & Hwr & Hsent & Hp & Hfs & _). unfold transfer; cbn [transfer_loop step]. tstep.
    eapply (wp_on_packet_data _ _ name [] 1 0 d1 l1 r); try done.
    { by rewrite Hp. }
    intros s2 Hwr2 Hsent2 Hp2 Hfs2.
    assert (Hsim : wsim name s2 (mk_receiver (l1 ++ r) 2 0)).
    { split; [done |]. split; [simpl; lia | by apply clean_zeros]. }
    eapply wp_mono; [by eapply transfer_wsim | | done].
    - intros c s3. rewrite Hrun. intros (-> & Hsent3 & Hfs3 & Hwr3).
      split; [done |]. rewrite Hsent3, Hsent2, Hsent. split; [done |].
      split; [by eapply same_but_trans; [| eapply same_but_trans] | by eexists _, _]. }
  assert (Hreqd : exists s1, request o (init g files) = Done Transfer s1).
  { pose proof (wp_wrq_new g files name mode o Hreq Hnew Ho) as H.
    apply wp_done in H as (? & s1 & H & -> & _). by exists s1. }
  destruct Hreqd as (s1 & Hreqd). apply wp_done in Hall as (c & s2 & Hrun2 & -> & Hsent & Hfs & b & t & Hwr).
  assert (Hc : child o ((EvRecv d1, o) :: evs) (init g files) = if fin then cleanup s2 else Done tt s2).
  { unfold child, child_process, transfer, bind in *. rewrite Hreqd in *. rewrite Hrun2. by destruct fin. }
  rewrite Hc. destruct fin.
  - destruct (cleanup_writing _ _ _ _ _ Hwr) as (s' & -> & H1 & H2). exists s'.
    rewrite H1, H2. split; [done |]. split; [apply Hwr | done].
  - exists s2. split; [done |]. split; [apply Hwr | done].
Qed.

(** ** Runs of the receiver *)

(** [n] acknowledgements numbered from [b], modulo 65536. *)
Fixpoint acks (b : Z) (n : nat) : list (list Z) :=
  match n with O => [] | S n' => ack_packet b :: acks (u16 (b + 1)) n' end.

Lemma receiver_run_blocks ls : forall a, rtries a = 0 ->
  exists a', receiver_run (List.map RBlock ls ++ [RTimeout; RTimeout]) a
    = (acks (rblock a) (length ls), true, a') /\ rcontent a' = rcontent a ++ concat ls.
Proof.
  induction ls as [| l ls IH]; intros [c b t] Ht; simpl in Ht; subst t.
  - eexists. split; [reflexivity |]. simpl. by rewrite app_nil_r.
  - simpl.
    destruct (IH (mk_receiver (c ++ l) (u16 (b + 1)) 0) eq_refl) as (a' & -> & Ha').
    exists a'. split; [done |]. rewrite Ha'. simpl. by rewrite app_assoc.
Qed.

Definition good_block (d l : list Z) : Prop := is_data d l /\ plain l /\ zlen l <= 512.

Lemma blocks_abs ds ls o :
  send_ok o = true -> Forall2 good_block ds ls ->
  Forall2 abs_write (List.map (fun d => (EvRecv d, o)) ds ++ [(EvTimeout, o); (EvTimeout, o)])
    (List.map RBlock ls ++ [RTimeout; RTimeout]).
Proof.
  intros Ho. induction 1 as [| d l ds ls (Hd & Hp & Hl) _ IH]; simpl;
    [repeat constructor | constructor; [by constructor | done]].
Qed.

(** ** Properties *)


(** C6: when the array behind the first block is clean, a client that sends its blocks of
    plain bytes (no NUL, at which the block would be cut, and no 0xFF, which would be taken
    for the end of the file) and then falls silent has its file stored byte for byte, is
    sent the acknowledgements 0, 1, 2, ... (modulo 65536), and the child exits with 0. *)
Theorem write_stores_blocks g files name mode o d1 l1 ds ls :
  requested 2 name mode g -> files !! name = None -> send_ok o = true ->
  Forall2 good_block (d1 :: ds) (l1 :: ls) -> behind g (zlen l1) [] ->
  exists s', child o (List.map (fun d => (EvRecv d, o)) (d1 :: ds) ++ [(EvTimeout, o); (EvTimeout, o)])
      (init g files) = Exited 0 s' /\
    fs (world s') !! name = Some (concat (l1 :: ls)) /\ same_but name files (fs (world s')) /\
    sent (world s') = acks 0 (2 + length ls).
Proof.
  intros Hreq Hnew Ho Hbl Hbeh. inversion Hbl as [| ? ? ? ? (Hd & Hp & Hl) Hrest]; subst.
  destruct (receiver_run_blocks ls (mk_receiver (l1 ++ []) 2 0) eq_refl) as (a' & Hrun & Ha').
  destruct (write_served g files name mode o d1 l1 [] _ _ _ true a' Hreq Hnew Ho Hd Hp Hl Hbeh
    ltac:(constructor) (blocks_abs ds ls o Ho Hrest) Hrun) as (s' & Hs & Hf & Hsame & Hc).
  exists s'. split; [exact Hc |]. rewrite Hf, Ha', app_nil_r. done.
Qed.

(** The first block of a write is stored together with the rest of the request:
    a block that ends inside the mode string of the request is followed, in the
    file, by what is left of that string. *)
Lemma short_write_stores_request g files name mode o d1 l1 :
  requested 2 name mode g -> files !! name = None -> send_ok o = true ->
  good_block d1 l1 -> plain mode -> zlen name <= 1 + zlen l1 < zlen name + zlen mode ->
  exists s', child o [(EvRecv d1, o); (EvTimeout, o); (EvTimeout, o)] (init g files) = Exited 0 s' /\
    fs (world s') !! name = Some (l1 ++ drop (Z.to_nat (1 + zlen l1 - zlen name)) mode).
Proof.
  intros Hreq Hnew Ho (Hd & Hp & Hl) Hmode Hle.
  assert (Hbeh : behind g (zlen l1) (drop (Z.to_nat (1 + zlen l1 - zlen name)) mode)).
  { destruct Hreq as (_ & _ & _ & Hnz & _ & junk & Hpk). unfold behind. rewrite Hpk.
    unfold request_packet. rewrite <- !app_assoc, (app_assoc name), (app_assoc [0; 2]).
    replace (Z.to_nat (4 + zlen l1)) with
      (length ([0; 2] ++ (name ++ [0]))%Z + Z.to_nat (1 + zlen l1 - zlen name))%nat
      by (unfold zlen in *; rewrite !length_app; simpl; lia).
    rewrite drop_app_add, drop_app_le by (unfold zlen in *; lia).
    rewrite <- app_assoc. apply cstr_app. by apply Forall_take_drop. }
  destruct (write_served g files name mode o d1 l1 _ [(EvTimeout, o); (EvTimeout, o)]
    [RTimeout; RTimeout] [] true
    (mk_receiver (l1 ++ drop (Z.to_nat (1 + zlen l1 - zlen name)) mode) 2 2) Hreq Hnew Ho Hd Hp Hl Hbeh) as (s' & Hs & Hf & Hsame & Hc).
  - by apply Forall_take_drop.
  - repeat constructor.
  - reflexivity.
  - by exists s'.
Qed.

(** A later block of arbitrary bytes is stored only up to its first NUL byte; a
    0xFF byte before it is stored too, but ends the transfer after this block as if
    it were the end of the file.*)
Lemma block_stored_up_to_nul f s a o d l text :
  wsim f s a -> send_ok o = true -> is_data d l -> zlen l <= 512 -> Forall is_byte l ->
  cstr (l ++ [0]) = Some text ->
  exists s', on_packet o d s = Done (if has_eof text then Brk else Cont) s' /\
    fs (world s') !! f = Some (rcontent a ++ text) /\ same_but f (fs (world s)) (fs (world s')) /\
    sent (world s') = sent (world s) ++ [ack_packet (rblock a)].
Proof.
  intros (Hwr & Hb & Hcl) Ho Hd Hlen Hbytes Htext.
  destruct (clean_behind_zero s (zlen l) (wr_sized _ _ _ _ _ _ Hwr) Hcl) as (z & Hz);
    [pose proof (zlen_nonneg l); lia |].
  assert (Hw : wp (on_packet o d) (fun c s' =>
     c = (if has_eof text then Brk else Cont) /\ fs (world s') !! f = Some (rcontent a ++ text) /\
     same_but f (fs (world s)) (fs (world s')) /\
     sent (world s') = sent (world s) ++ [ack_packet (rblock a)]) (fun _ _ => False) s).
  { eapply (wp_on_packet_text _ _ f _ _ _ d l text); try done.
    - rewrite Hz, <- Htext. apply cstr_nul.
    - by eapply cstr_bytes.
    - intros s' Hwr' Hsent' _ Hfs'. by destruct Hwr'. }
  apply wp_done in Hw as (c & s' & Hrun & -> & H). by exists s'.
Qed.

(** *** Witnesses *)

(** Arrays with a request followed by zeros. *)
Definition clean_arrays (op : Z) (name mode : list Z) (a : arr) : list Z :=
  match a with
  | packet => request_packet op name mode ++
      replicate (Z.to_nat (MAXCHAR - zlen (request_packet op name mode))) 0
  | _ => replicate (Z.to_nat (arr_size a)) 0
  end.

Ltac sample_block :=
  split; [by eexists _, _, _ |]; split; [unfold plain; repeat constructor; lia | by vm_compute].


Lemma write_stores_blocks_witness :
  exists s', child all_ok (List.map (fun d => (EvRecv d, all_ok))
        (([0; 3; 0; 1] ++ lit "hello, world") :: [[0; 3; 0; 2] ++ lit "again"])
        ++ [(EvTimeout, all_ok); (EvTimeout, all_ok)])
      (init (clean_arrays 2 (lit "f") (lit "octet")) ∅) = Exited 0 s' /\
    fs (world s') !! lit "f" = Some (concat (lit "hello, world" :: [lit "again"])) /\
    same_but (lit "f") ∅ (fs (world s')) /\ sent (world s') = acks 0 (2 + length [lit "again"]).
Proof.
  apply (write_stores_blocks (clean_arrays 2 (lit "f") (lit "octet")) ∅ (lit "f") (lit "octet")
    all_ok ([0; 3; 0; 1] ++ lit "hello, world") (lit "hello, world")
    [[0; 3; 0; 2] ++ lit "again"] [lit "again"]).
  - sample_request.
  - reflexivity.
  - reflexivity.
  - constructor; [sample_block | constructor; [sample_block | constructor]].
  - reflexivity.
Defined.

Lemma short_write_stores_request_witness :
  exists s', child all_ok [(EvRecv ([0; 3; 0; 1] ++ lit "hi"), all_ok); (EvTimeout, all_ok);
      (EvTimeout, all_ok)] (init (clean_arrays 2 (lit "f") (lit "octet")) ∅) = Exited 0 s' /\
    fs (world s') !! lit "f" = Some (lit "hitet").
Proof.
  apply (short_write_stores_request (clean_arrays 2 (lit "f") (lit "octet")) ∅ (lit "f")
    (lit "octet") all_ok ([0; 3; 0; 1] ++ lit "hi") (lit "hi")).
  - sample_request.
  - reflexivity.
  - reflexivity.
  - sample_block.
  - unfold plain; repeat constructor; lia.
  - by vm_compute.
Defined.

(** A child that has stored the block "ab" and waits for block 2. *)
Definition sample_writing : st :=
  mk_cstate (fun a => replicate (Z.to_nat (arr_size a)) 0)
    (fun v => match v with
              | write_flag => Some 1
              | block_number => Some 2
              | size_sp => Some 4
              | _ => init_ints v
              end)
    (mk_world {[lit "f" := lit "ab"]} (FOpen (WStream (lit "f"))) None []).

Lemma block_stored_up_to_nul_witness :
  exists s', on_packet all_ok [0; 3; 0; 2; 99; 255; 0; 100] sample_writing = Done Brk s' /\
    fs (world s') !! lit "f" = Some (lit "ab" ++ [99; 255]) /\
    same_but (lit "f") {[lit "f" := lit "ab"]} (fs (world s')) /\
    sent (world s') = [[0; 4; 0; 2]].
Proof.
  apply (block_stored_up_to_nul (lit "f") sample_writing (mk_receiver (lit "ab") 2 0) all_ok
    [0; 3; 0; 2; 99; 255; 0; 100] [99; 255; 0; 100] [99; 255]).
  - split; [split; try reflexivity; intros []; reflexivity |]. split; [simpl; lia | reflexivity].
  - reflexivity.
  - by eexists _, _, _.
  - by vm_compute.
  - unfold is_byte. repeat constructor; lia.
  - reflexivity.
Defined.
End TftpsWrite.
