(* ===== verification/TftpSafety.v ===== *)
(** * Memory safety of a TFTP child

    The invariant [alive] of a child in its transfer loop, for each of the four
    roles the request gives it, and that the branches shared by the two servers
    keep it for every datagram, every file and every answer of the environment:
    no array is overrun, no indeterminate scalar or null pointer is used, the
    loops end, and the only early exit has status 1. *)

From S2P Require Import Prelude CMem TftpState Tftps TftpFacts TftpRead TftpsRead TftpsWrite.
From stdpp Require Import base list gmap.
From Stdlib Require Import ZArith Lia.
From Stdlib Require String.
Import String.StringSyntax.
Open Scope Z_scope.

Module TftpSafety.
Import Tftp Tftps TftpFacts TftpRead TftpsRead TftpsWrite.

(** ** The invariant *)
Inductive role :=
| Octet | Netascii | Writer   (* serving a transfer *)
| Idle                        (* the request was neither RRQ nor WRQ *)
| Opening.                    (* netascii, before the first packet is built *)

Definition settled (r : role) : Prop := r <> Opening.

(** The roles in which a packet was sent, so that [send_pack] can be sent again. *)
Definition answered (r : role) : Prop :=
  match r with Octet | Netascii | Writer => True | _ => False end.

Definition has (s : st) (v : ivar) (lo hi : Z) : Prop :=
  exists z, ints s v = Some z /\ lo <= z <= hi.

Definition role_world (r : role) (w : tworld) : Prop :=
  match r with
  | Octet => fp w = FUninit /\ exists rest, read_fd w = Some rest
  | Netascii | Opening => exists rest, fp w = FOpen (RStream rest)
  | Writer => exists f, fp w = FOpen (WStream f)
  | Idle => fp w = FUninit
  end.

Definition role_flag (r : role) : Z := match r with Octet | Netascii | Opening => 1 | _ => 0 end.
Definition role_wflag (r : role) : Z := match r with Writer => 1 | _ => 0 end.
Definition role_mode (r : role) : Z := match r with Octet => 0 | Netascii | Opening => 1 | _ => -1 end.

Record alive (r : role) (s : st) : Prop := {
  al_sized : sized (arrs s);
  al_read : ints s read_flag = Some (role_flag r);
  al_write : ints s write_flag = Some (role_wflag r);
  al_mode : ints s mode_flag = Some (role_mode r);
  al_stop : has s stop_flag 0 1;
  al_next : has s nextch (-1) 127;
  al_block : has s block_number 0 65535;
  al_time : exists t, ints s time_count = Some t;
  al_size : answered r -> has s size_sp 0 517;
  al_world : role_world r (world s)
}.

(** Values that may be assigned to a variable. *)
Definition assignable (v : ivar) (z : Z) : Prop :=
  match v with
  | read_flag | write_flag | mode_flag => False
  | stop_flag => 0 <= z <= 1
  | nextch => -1 <= z <= 127
  | block_number => 0 <= z <= 65535
  | size_sp => 0 <= z <= 517
  | _ => True
  end.

Lemma has_set_same s v z lo hi : lo <= z <= hi -> has (set_int s v z) v lo hi.
Proof. exists z. split; [| done]. apply upd_eq. Qed.

Lemma has_set_other s v v' z lo hi :
  has s v lo hi -> key_eqb v' v = false -> has (set_int s v' z) v lo hi.
Proof.
  intros (y & Hy & ?) Hne. exists y. split; [| done]. simpl. rewrite upd_ne; [done |].
  intros ->. by destruct (key_eqb_spec v v).
Qed.

Section Alive.
Context (r : role).
Implicit Type s : st.

Lemma alive_seti s v z : alive r s -> assignable v z -> alive r (set_int s v z).
Proof.
  intros [? ? ? ? ? ? ? [t Ht] ? ?] Hz.
  destruct v; simpl in Hz; try done; split; try done;
    try (by apply has_set_same); try (by apply has_set_other); try (by eexists);
    intros Hr; try (by apply has_set_same); apply has_set_other; try done; auto.
Qed.

Lemma alive_set_arr s a l : alive r s -> sized (upd (arrs s) a l) -> alive r (set_arr s a l).
Proof. intros [] Hs. by split. Qed.

Lemma alive_set_world s w : alive r s -> role_world r w -> alive r (set_world s w).
Proof. intros [] Hw. by split. Qed.

(** A framed statement that keeps the world keeps the invariant. *)
Lemma alive_frame A I s s' :
  alive r s -> frame A I s s' -> sized (arrs s') -> role_world r (world s') ->
  forallb (fun v => negb (existsb (key_eqb v) I))
    [read_flag; write_flag; mode_flag; nextch; time_count] = true ->
  has s' stop_flag 0 1 -> has s' block_number 0 65535 ->
  (answered r -> has s' size_sp 0 517) -> alive r s'.
Proof.
  intros [? H1 H2 H3 H4 H5 H6 H7 H8 H9] [_ Hfr] Hs Hw HI Hst Hb Hsz.
  rewrite forallb_forall in HI.
  assert (Hk : forall v, In v [read_flag; write_flag; mode_flag; nextch; time_count] ->
    ints s' v = ints s v) by (intros v Hv; apply Hfr, negb_true_iff, HI, Hv).
  split; unfold has; rewrite ?Hk by (simpl; tauto); done.
Qed.
End Alive.

(** Solves [alive r s'] for a state built by updates. *)
Ltac alive_solve :=
  repeat first
    [ eassumption
    | apply alive_set_arr; [| csimp; assumption]
    | apply alive_seti; [| simpl; solve [exact I | lia]]
    | apply alive_set_world; [| csimp; first [eassumption | done | by eexists | split; [done | by eexists]]] ].

Definition exit1 : Z -> st -> Prop := fun code _ => code = 1.

Lemma exit1_send o : may_send o exit1.
Proof. by right. Qed.

(** After a round the invariant holds, or the loop is left with [stop_flag] set. *)
Definition safe_round (r : role) (c : ctl) (s : st) : Prop :=
  match c with
  | Cont => alive r s
  | Brk => ints s stop_flag = Some 1 /\ role_world r (world s)
  end.

Lemma role_world_sent r w d : role_world r w -> role_world r (add_sent w d).
Proof. by destruct r. Qed.

(** ** Statements *)
Section Statements.
Context (r : role).
Implicit Type s : st.

Lemma send_error_safe o code text s :
  alive r s -> forallb (fun b => negb (b =? 0)) (lit text) = true -> zlen (lit text) < 50 ->
  wp (send_error o code text ;;; ret Brk) (safe_round r) exit1 s.
Proof.
  intros Hal Hnz Hl. tstep. eapply wp_send_error_any; try done; [apply Hal | apply exit1_send |].
  intros s' Hs' Hfr Hw Hst. tstep. split; [done |]. rewrite Hw. apply role_world_sent, Hal.
Qed.

Lemma send_next_safe o c s :
  alive r s -> ints s count = Some c -> 0 <= c <= NOBYTES ->
  wp (send_next o ;;; ret Cont) (safe_round r) exit1 s.
Proof.
  intros Hal Hc Hr. pose proof (al_block _ _ Hal) as (b & Hb & ?). tstep.
  eapply (wp_send_next_any o c b); try done; [apply Hal | apply exit1_send |].
  intros s' p Hs' Hp Hfr Hw Hb' [Hsz _]. tstep.
  eapply (alive_frame r _ _ s); [done | exact Hfr | done | | done | | |].
  - rewrite Hw. apply role_world_sent, Hal.
  - destruct (al_stop _ _ Hal) as (z & Hz & ?). exists z. by rewrite (frame_int stop_flag _ Hfr eq_refl eq_refl).
  - exists (u16 (b + 1)). split; [done |]. pose proof (u16_range (b + 1)). lia.
  - intros _. exists (zlen p). split; [done |]. subst p. pose proof (zlen_nonneg (slice (arrs s data) 0 c)).
    rewrite zlen_app. rewrite zlen_slice; [| lia | lia |]; rewrite ?(al_sized _ _ Hal);
      unfold NOBYTES in *; cbn [arr_size]; unfold MAXCHAR; zl.
Qed.

Lemma translate_safe x s (Q : unit -> st -> Prop) E :
  alive r s -> ints s ch = Some x ->
  (forall s' y, alive r s' -> frame [] [ch; nextch] s s' -> world s' = world s ->
     ints s' ch = Some y -> Q tt s') ->
  wp (translate x) Q E s.
Proof.
  intros Hal Hx HQ. unfold translate. repeat bcase; repeat tstep;
    (eapply HQ; [alive_solve | frame_solve | done | csimp; done]).
Qed.

(** A loop [for (count = c; count < 512; count++)] whose body keeps the invariant
    and [count]. *)
Lemma fill_safe body E :
  (forall s c, alive r s -> ints s count = Some c -> 0 <= c < 512 ->
     wp body (fun _ s' => alive r s' /\ ints s' count = Some c) E s) ->
  forall n c s, 512 - c < Z.of_nat n -> 0 <= c <= 512 -> alive r s -> ints s count = Some c ->
  wp (for_fuel n (count_lt NOBYTES) count_incr body)
     (fun _ s' => alive r s' /\ has s' count 0 512) E s.
Proof.
  intros Hbody. induction n as [| n IH]; intros c s Hn Hc Hal Hcn; [lia |].
  apply wp_for. unfold count_lt. repeat tstep. change NOBYTES with 512.
  destruct (Z.ltb_spec c 512).
  - eapply wp_mono; [apply Hbody; try done; lia | | done]. intros k s' [Hal' Hc'].
    destruct k.
    + unfold count_incr. repeat tstep. apply (IH (c + 1)); try lia; [alive_solve | done].
    + split; [done |]. exists c. split; [done | lia].
  - split; [done |]. by exists c.
Qed.
End Statements.

(** ** Reading the next block *)
Lemma getc_safe r s (Q : Z -> st -> Prop) E :
  alive r s -> role_mode r = 1 ->
  (forall z s', alive r s' -> frame [] [] s s' -> Q z s') -> wp getc Q E s.
Proof.
  intros Hal Hr HQ. unfold getc. repeat tstep.
  assert (exists rest, fp (world s) = FOpen (RStream rest)) as [rest Hf]
    by (pose proof (al_world _ _ Hal); by destruct r).
  rewrite Hf.
  destruct rest as [| b rest]; repeat tstep; [by apply HQ |].
  apply HQ; [| frame_solve]. apply alive_set_world; [done |]. destruct r; try done; by eexists.
Qed.

(** The bodies of the two netascii loops. *)
Definition char_safe (body : C ctl) : Prop :=
  forall r, role_mode r = 1 -> forall s c, alive r s -> ints s count = Some c -> 0 <= c < 512 ->
  wp body (fun _ s' => alive r s' /\ ints s' count = Some c) exit1 s.

Lemma ack_char_safe : char_safe ack_char.
Proof.
  intros r Hrm s c Hal Hc Hr. pose proof (al_sized _ _ Hal). destruct (al_next _ _ Hal) as (n & Hn & ?).
  unfold ack_char. repeat tstep. bcase.
  - repeat tstep. split; [alive_solve | done].
  - tstep. apply (getc_safe r); [done | done |]. intros z s1 Hal1 Hfr1. repeat tstep. bcase; repeat tstep.
    + split; [alive_solve | csimp]. by apply (frame_int count _ Hfr1).
    + eapply translate_safe; [alive_solve | done |]. intros s2 y Hal2 Hfr2 Hw2 Hch2.
      pose proof (al_sized _ _ Hal2). repeat tstep. split; [alive_solve |].
      csimp. apply (frame_int count _ Hfr2); [done |]. csimp. by apply (frame_int count _ Hfr1).
Qed.

Lemma rrq_char_safe : char_safe rrq_char.
Proof.
  intros r Hrm s c Hal Hc Hr. pose proof (al_sized _ _ Hal). destruct (al_next _ _ Hal) as (n & Hn & ?).
  unfold rrq_char. repeat tstep. bcase.
  - repeat tstep. split; [alive_solve | done].
  - tstep. apply (getc_safe r); [done | done |]. intros z s1 Hal1 Hfr1. repeat tstep. bcase; repeat tstep.
    + split; [alive_solve | csimp]. by apply (frame_int count _ Hfr1).
    + pose proof (al_mode _ _ Hal1) as Hm1. rewrite Hrm in Hm1. repeat tstep. simpl.
      eapply translate_safe; [alive_solve | done |]. intros s2 y Hal2 Hfr2 Hw2 Hch2.
      pose proof (al_sized _ _ Hal2). destruct (al_stop _ _ Hal2) as (st2 & Hst2 & ?). repeat tstep.
      assert (ints s2 count = Some c).
      { apply (frame_int count _ Hfr2); [done |]. csimp. by apply (frame_int count _ Hfr1). }
      bcase; tstep; (split; [alive_solve | done]).
Qed.

Lemma read_block_safe o s (Q : unit -> st -> Prop) :
  alive Octet s ->
  (forall s' n, alive Octet s' -> frame [data] [read_size] s s' -> ints s' read_size = Some n ->
     0 <= n <= 512 -> Q tt s') -> wp (read_block o) Q exit1 s.
Proof.
  intros Hal HQ. pose proof (al_sized _ _ Hal). unfold read_block. do 2 tstep.
  destruct (al_world _ _ Hal) as [Hf [rest Hr]]. rewrite Hr. destruct (read_ok o); [| by apply wp_exit].
  assert (0 <= zlen (take (Z.to_nat NOBYTES) rest) <= 512)
    by (unfold zlen, NOBYTES; rewrite length_take; lia).
  repeat tstep. eapply HQ; [alive_solve | frame_solve | done | done].
Qed.

Lemma ack_read_safe r o s :
  alive r s -> settled r -> role_flag r = 1 ->
  wp (ack_read o) (fun _ s' => alive r s' /\ has s' count 0 512) exit1 s.
Proof.
  intros Hal Hset Hr. pose proof (al_mode _ _ Hal) as Hm. unfold ack_read. do 3 tstep.
  destruct r; try done; simpl.
  - unfold ack_read_octet. repeat tstep. eapply read_block_safe; [alive_solve |].
    intros s1 n Hal1 Hfr1 Hn1 Hn. repeat tstep. unfold NOBYTES.
    destruct (Z.ltb_spec n 512); repeat tstep; simpl; repeat tstep.
    + split; [alive_solve |]. exists n. csimp. split; [done | lia].
    + split; [done |]. exists 512. split; [by apply (frame_int count _ Hfr1) | lia].
  - tstep. unfold ack_read_netascii. repeat tstep.
    eapply (fill_safe Netascii ack_char _ (ack_char_safe Netascii eq_refl) 513 0); [lia | lia | alive_solve | done].
Qed.

(** ** The branches of the loop *)
Lemma on_ack_safe r o s : alive r s -> settled r -> wp (on_ack o) (safe_round r) exit1 s.
Proof.
  intros Hal Hset. pose proof (al_sized _ _ Hal). pose proof (al_read _ _ Hal). pose proof (al_write _ _ Hal).
  destruct (al_stop _ _ Hal) as (z & Hz & ?). unfold on_ack. repeat tstep.
  destruct (decide (role_flag r = 1)) as [Hr | Hr].
  - replace ((role_flag r =? 0) || (role_wflag r =? 1)) with false by (by destruct r).
    repeat tstep. bcase.
    + tstep. eapply wp_mono; [apply (ack_read_safe r); [alive_solve | done | done] | | done].
      intros _ s' (Hal' & c & Hc & ?). by eapply send_next_safe.
    + tstep. split; [csimp; rewrite Hz; f_equal; lia | apply Hal].
  - replace ((role_flag r =? 0) || (role_wflag r =? 1)) with true by (by destruct r).
    apply send_error_safe; [alive_solve | done | done].
Qed.

Lemma retransmit_safe r o s :
  alive r s -> answered r -> wp (retransmit o) (safe_round r) exit1 s.
Proof.
  intros Hal Hr. destruct (al_size _ _ Hal Hr) as (n & Hn & ?). destruct (al_time _ _ Hal) as (t & Ht).
  unfold retransmit. tstep. eapply wp_sendto_any; [apply Hal | done | done | apply exit1_send |].
  assert (role_world r (add_sent (world s) (slice (arrs s send_pack) 0 n)))
    by apply role_world_sent, Hal.
  repeat tstep. bcase; repeat tstep; [done |]. alive_solve.
Qed.

(** ** The request *)

(** The request leaves the child in its loop in some role, or on its way out. *)
Definition started (op : Z) (q : req) (s : st) : Prop :=
  q = Transfer -> exists r, settled r /\ alive r s /\ (r = Idle -> op <> 1 /\ op <> 2).

Section Request.
Context (g : arr -> list Z) (files : gmap (list Z) (list Z)) (op : Z) (name mode : list Z) (o : env).
Hypothesis Hreq : requested op name mode g.

Lemma init_has s v z : frame [send_pack; Filename; Mode] [read_flag; write_flag; mode_offset]
    (init g files) s -> existsb (key_eqb v) [read_flag; write_flag; mode_offset] = false ->
  init_ints v = Some z -> ints s v = Some z.
Proof. intros Hfr Hv Hz. by apply (frame_int v _ Hfr). Qed.

Lemma parsed_alive r s :
  sized (arrs s) ->
  frame [send_pack; Filename; Mode] [read_flag; write_flag; mode_offset] (init g files) s ->
  ints s read_flag = Some (role_flag r) -> ints s write_flag = Some (role_wflag r) ->
  forall s', sized (arrs s') ->
  frame [data; ACK; send_pack; datapack] [mode_flag; count; read_size; size_sp; block_number; ch; nextch; stop_flag] s s' ->
  ints s' mode_flag = Some (role_mode r) -> has s' stop_flag 0 1 -> has s' nextch (-1) 127 ->
  has s' block_number 0 65535 -> (answered r -> has s' size_sp 0 517) ->
  role_world r (world s') -> alive r s'.
Proof.
  intros Hs Hfr Hr Hw s' Hs' Hfr' Hm Hst Hn Hb Hsz Hwd. split; try done.
  - by apply (frame_int read_flag _ Hfr').
  - by apply (frame_int write_flag _ Hfr').
  - exists 0. apply (frame_int time_count _ Hfr'); [done |]. by eapply init_has.
Qed.

Lemma refuse_safe code text s :
  sized (arrs s) -> forallb (fun b => negb (b =? 0)) (lit text) = true -> zlen (lit text) < 50 ->
  wp (send_error o code text) (fun _ => wp (ret Leave) (started op) exit1) exit1 s.
Proof.
  intros. eapply wp_send_error_any; try done. apply exit1_send.
Qed.

Lemma send_first_safe r s c :
  settled r -> r <> Idle -> sized (arrs s) -> ints s count = Some c -> 0 <= c <= NOBYTES ->
  (forall s', sized (arrs s') -> frame [datapack; send_pack] [size_sp; block_number] s s' ->
     has s' block_number 0 65535 -> has s' size_sp 0 517 -> role_world r (world s) ->
     role_world r (world s') -> alive r s') ->
  role_world r (world s) ->
  wp (send_first o) (fun _ => wp (ret Transfer) (started op) exit1) exit1 s.
Proof.
  intros Hr Hi Hs Hc Hcr HQ Hw. eapply (wp_send_first_any o c); try done; [apply exit1_send |].
  intros s' Hs' Hfr Hw' Hb [Hsz _]. tstep. intros _. exists r. split; [done |]. split; [| done]. apply HQ; try done.
  - exists 1. split; [done | lia].
  - eexists. split; [exact Hsz |]. unfold NOBYTES in *. rewrite zlen_app.
    rewrite zlen_slice; rewrite ?Hs; cbn [arr_size]; unfold MAXCHAR; try lia. zl.
  - rewrite Hw'. by apply role_world_sent.
Qed.

Lemma rrq_safe : op = 1 -> wp (request o) (started op) exit1 (init g files).
Proof.
  intros Hop. assert (Hreq1 : requested 1 name mode g) by (by rewrite <- Hop).
  apply (wp_request_rrq g files name mode o Hreq1).
  intros s Hs [Hname Hmd] Hw Hfr Hrf Hwf.
  pose proof (init_has s nextch (-1) Hfr eq_refl eq_refl) as Hnx.
  pose proof (init_has s stop_flag 0 Hfr eq_refl eq_refl) as Hst.
  pose proof (init_has s time_count 0 Hfr eq_refl eq_refl) as Htc.
  pose proof (init_has s block_number 0 Hfr eq_refl eq_refl) as Hbn.
  tstep. eapply wp_streq_lit; [done |]. tstep. eapply wp_streq_lit; [done |].
  destruct (_ || _).
  - unfold rrq_octet. repeat tstep. eapply wp_read_str_0; [done |]. repeat tstep.
    csimp. rewrite Hw. csimp. destruct (files !! name) as [content |]; [| by apply wp_exit].
    unfold read_block. repeat tstep. csimp. destruct (read_ok o); [| by apply wp_exit].
    assert (0 <= zlen (take (Z.to_nat NOBYTES) content) <= 512)
      by (unfold zlen, NOBYTES; rewrite length_take; lia).
    repeat tstep. eapply (send_first_safe Octet _ NOBYTES); try done.
    + intros s' Hs' Hfr' Hb' Hz' _ Hw'.
      eapply (parsed_alive Octet s); try done.
      * eapply frame_trans; [| by eapply frame_weaken; [.. | exact Hfr']]. frame_solve.
      * by apply (frame_int mode_flag _ Hfr').
      * exists 0. split; [by apply (frame_int stop_flag _ Hfr') | lia].
      * exists (-1). split; [by apply (frame_int nextch _ Hfr') | lia].
    + split; [done | by eexists].
  - tstep. eapply wp_streq_lit; [done |]. tstep. eapply wp_streq_lit; [done |].
    destruct (_ || _); [| tstep; by apply refuse_safe].
    unfold rrq_netascii. repeat tstep. eapply wp_read_str_0; [done |]. repeat tstep.
    csimp. rewrite Hw. csimp. destruct (files !! name) as [content |]; repeat tstep;
      [| by apply refuse_safe].
    assert (Hal : alive Opening (set_int (set_world (set_int s mode_flag 1)
       (set_fp (mk_world files FUninit None []) (FOpen (RStream content)))) count 0)).
    { split; csimp; try done; try (eexists; split; [eassumption | lia]); by eexists. }
    eapply wp_mono; [eapply (fill_safe Opening rrq_char _ (rrq_char_safe Opening eq_refl) 513 0);
      [lia | lia | exact Hal | done] | | done].
    clear Hal. intros _ s1 (Hal & c & Hc & Hcr).
    pose proof Hal as [Hs1 Hr1 Hw1 Hm1 Hst1 Hn1 Hb1 Ht1 _ Hwd1]. tstep.
    eapply (send_first_safe Netascii _ c); try done.
    intros s' Hs' Hfr' Hb' Hz' _ Hw'. destruct Hst1 as (z1 & Hz1 & ?), Hn1 as (n1 & Hn1 & ?), Ht1 as (t1 & Ht1).
    split; try done.
    + by apply (frame_int read_flag _ Hfr').
    + by apply (frame_int write_flag _ Hfr').
    + by apply (frame_int mode_flag _ Hfr').
    + exists z1. split; [by apply (frame_int stop_flag _ Hfr') | lia].
    + exists n1. split; [by apply (frame_int nextch _ Hfr') | lia].
    + exists t1. by apply (frame_int time_count _ Hfr').
Qed.

Lemma wrq_safe : op = 2 -> wp (request o) (started op) exit1 (init g files).
Proof.
  intros Hop. assert (Hreq2 : requested 2 name mode g) by (by rewrite <- Hop).
  apply (wp_request_wrq g files name mode o Hreq2).
  intros s Hs _ Hw Hfr Hrf Hwf.
  pose proof (init_has s nextch (-1) Hfr eq_refl eq_refl) as Hnx.
  pose proof (init_has s stop_flag 0 Hfr eq_refl eq_refl) as Hst.
  pose proof (init_has s mode_flag (-1) Hfr eq_refl eq_refl) as Hmf.
  destruct (files !! name) as [content |]; repeat tstep; [by apply refuse_safe |].
  eapply wp_sendto_any; [done | csimp; reflexivity | tlia | apply exit1_send |]. repeat tstep.
  intros _. exists Writer. split; [done |]. split; [| done].
  eapply (parsed_alive Writer s Hs Hfr Hrf Hwf); csimp; try done.
  - frame_solve.
  - exists 0. split; [done | lia].
  - exists (-1). split; [done | lia].
  - exists 1. split; [done | lia].
  - intros _. exists 4. split; [done | lia].
  - by exists name.
Qed.

Lemma other_safe : s8 op <> 1 -> s8 op <> 2 -> wp (request o) (started op) exit1 (init g files).
Proof.
  intros H1 H2. destruct Hreq as (Hs & _ & _ & _ & _ & junk & Hp).
  assert (sized (arrs (init g files))) by done.
  unfold request. repeat tstep. csimp. rewrite Hp, request_opcode.
  rewrite !(proj2 (Z.eqb_neq _ _)) by done. tstep. intros _. exists Idle. split; [done |].
  split; [| intros _; split; intros ->; done].
  split; csimp; try done; try (eexists; split; [reflexivity | lia]). by eexists.
Qed.

Lemma request_safe : is_byte op -> wp (request o) (started op) exit1 (init g files).
Proof.
  intros Hb. destruct (Z.eq_dec op 1); [by apply rrq_safe |].
  destruct (Z.eq_dec op 2); [by apply wrq_safe |].
  apply other_safe; unfold s8; rewrite u8_id by done; unfold is_byte in Hb; bcase; lia.
Qed.
End Request.

(** ** A whole child, for a server whose rounds keep the invariant *)

(** An ERROR datagram: both servers copy 996 bytes of it into an array of 50. *)
Definition is_error (e : event) : bool :=
  match e with
  | EvRecv (_ :: op :: _) => op =? 5
  | _ => false
  end.

(** A datagram of at least two bytes: shorter ones leave the opcode of an earlier
    one in place. *)
Definition proper (e : event) : Prop :=
  match e with
  | EvRecv d => exists x op r, d = x :: op :: r /\ is_byte op /\ op <> 5
  | _ => True
  end.

(** [idle]: the rounds are safe also after a request that is neither RRQ nor WRQ. *)
Class SafeRounds (idle : bool) (step : event -> env -> C ctl) := safe_step :
  forall r e o s, alive r s -> settled r -> (r = Idle -> idle = true) -> proper e -> wp (step e o) (safe_round r) exit1 s.

(** How a child may end: waiting for events, by exiting with 0 or 1, or in the
    clean-up that closes a stream it never opened. *)
Definition acceptable (out : outcome st unit) : Prop :=
  match out with
  | Done _ _ => True
  | Exited code _ => code = 0 \/ code = 1
  | Undef w s => w = Uninitialised /\ ints s stop_flag = Some 1 /\ fp (world s) = FUninit
  end.

Section SafeChild.
Context (idle : bool) (step : event -> env -> C ctl) `{!SafeRounds idle step}.

Lemma transfer_safe r evs s :
  alive r s -> settled r -> (r = Idle -> idle = true) -> Forall (fun eo => proper eo.1) evs ->
  wp (transfer_loop step evs) (fun fin s' =>
    fin = true -> ints s' stop_flag = Some 1 /\ role_world r (world s')) exit1 s.
Proof.
  intros Hal Hset Hidle Hevs. revert s Hal. induction Hevs as [| [e o] evs He _ IH]; intros s Hal; simpl.
  - by tstep.
  - tstep. eapply wp_mono; [by eapply safe_step | | done]. intros [] s' H; [by apply IH |].
    by tstep.
Qed.

Lemma cleanup_acceptable r s :
  ints s stop_flag = Some 1 -> role_world r (world s) -> acceptable (cleanup s).
Proof.
  intros Hst Hw. unfold cleanup, bind at 1, geti. rewrite Hst. simpl.
  unfold fclose, bind, getw.
  destruct r; simpl in Hw; destruct_and?;
    repeat match goal with H : exists _, _ |- _ => destruct H as [? H] end;
    match goal with H : fp _ = _ |- _ => rewrite H end; simpl; auto.
Qed.

Lemma child_safe g files op name mode o evs :
  requested op name mode g -> is_byte op -> (idle = true \/ op = 1 \/ op = 2) -> Forall (fun eo => proper eo.1) evs ->
  acceptable (child_process step o evs (init g files)).
Proof.
  intros Hreq Hop Hidle Hevs. pose proof (request_safe g files op name mode o Hreq Hop) as Hr.
  unfold child_process, bind. unfold wp in Hr.
  destruct (request o (init g files)) as [q s1 | c s1 | w s1]; [| by right | done].
  destruct q; [| by left]. destruct (Hr eq_refl) as (r & Hset & Hal & Hi).
  pose proof (transfer_safe r evs s1 Hal Hset ltac:(intros; tauto) Hevs) as Ht. unfold wp in Ht.
  destruct (transfer_loop step evs s1) as [fin s2 | c s2 | w s2]; [| by right | done].
  destruct fin; [| done]. destruct Ht as [H1 H2]; [done |]. by eapply cleanup_acceptable.
Qed.
End SafeChild.
End TftpSafety.
