(* ===== verification/TftpsErrors.v ===== *)
(** * [tftps.c]: memory safety and the error paths

    Every round of the loop keeps the invariant of [TftpSafety.v] unless the
    datagram is an ERROR packet, whose handling overruns an array; and what each
    refusal of the server sends. *)

From S2P Require Import Prelude CMem TftpState Tftps TftpFacts TftpRead TftpsRead TftpsWrite TftpSafety.
From stdpp Require Import base list gmap.
From Stdlib Require Import ZArith Lia.
From Stdlib Require String.
Import String.StringSyntax.
Open Scope Z_scope.

Module TftpsErrors.
Import Tftp Tftps TftpFacts TftpRead TftpsRead TftpsWrite TftpSafety.

(** ** The DATA branch *)
Lemma putc_safe c s (Q : unit -> st -> Prop) E :
  alive Writer s -> (forall s', alive Writer s' -> frame [] [] s s' -> Q tt s') -> wp (putc c) Q E s.
Proof.
  intros Hal HQ. unfold putc. repeat tstep. destruct (al_world _ _ Hal) as [f Hf]. rewrite Hf.
  repeat tstep. apply HQ; [| frame_solve]. apply alive_set_world; [done |]. by exists f.
Qed.

Lemma data_char_safe s c :
  alive Writer s -> ints s count = Some c -> 0 <= c < MAXCHAR ->
  wp data_char (fun _ s' => alive Writer s' /\ ints s' count = Some c /\ arrs s' data = arrs s data)
    exit1 s.
Proof.
  intros Hal Hc Hr. pose proof (al_sized _ _ Hal). destruct (al_next _ _ Hal) as (n & Hn & ?).
  pose proof (al_mode _ _ Hal) as Hm. simpl in Hm. unfold data_char. repeat tstep. bcase.
  - tstep. apply putc_safe; [done |]. intros s1 Hal1 Hfr1. repeat tstep.
    split; [alive_solve |]. csimp.
    split; [by apply (frame_int count _ Hfr1) | by apply (frame_arr data _ Hfr1)].
  - repeat tstep. bcase; repeat tstep; simpl; repeat tstep; (apply putc_safe; [alive_solve |]);
      intros s1 Hal1 Hfr1; repeat tstep; (split; [done |]);
      (split; [by apply (frame_int count _ Hfr1) | by apply (frame_arr data _ Hfr1)]).
Qed.

Lemma store_loop_safe text n : forall c s,
  zlen text - c < Z.of_nat n -> 0 <= c <= zlen text -> zlen text < MAXCHAR ->
  alive Writer s -> ints s count = Some c -> cstr (arrs s data) = Some text ->
  wp (for_fuel n count_lt_strlen count_incr data_char) (fun _ s' => alive Writer s') exit1 s.
Proof.
  induction n as [| n IH]; intros c s Hn Hc Hl Hal Hcn Htext; [lia |].
  apply wp_for. unfold count_lt_strlen, strlen. repeat tstep.
  eapply wp_read_str_0; [done |]. repeat tstep. destruct (Z.ltb_spec c (zlen text)); [| done].
  eapply wp_mono; [by apply (data_char_safe s c); [| | lia] | | done].
  intros k s1 (Hal1 & Hc1 & Hd1). destruct k; [| done]. unfold count_incr. repeat tstep.
  apply (IH (c + 1)); try lia; [alive_solve | done |]. csimp. by rewrite Hd1.
Qed.

Lemma stored_Some s : sized (arrs s) -> exists text, stored s = Some text /\ zlen text < MAXCHAR.
Proof.
  intros Hs. unfold stored.
  assert (Hz : forall l, exists t, cstr (l ++ [0; 0; 0; 0]) = Some t).
  { induction l as [| b l [t IH]]; [by exists [] |]. simpl. rewrite IH. bcase; by eexists. }
  destruct (Hz (slice (arrs s packet) 4 (MAXCHAR - 4))) as (t & Ht). exists t. split; [done |].
  apply cstr_bound in Ht. rewrite zlen_app, zlen_slice in Ht; rewrite ?Hs;
    unfold MAXCHAR in *; cbn [arr_size]; unfold MAXCHAR; try lia.
  change (zlen [0; 0; 0; 0]) with 4 in Ht. lia.
Qed.

Lemma on_data_safe r o s : alive r s -> wp (on_data o) (safe_round r) exit1 s.
Proof.
  intros Hal. pose proof (al_sized _ _ Hal) as Hs. pose proof (al_read _ _ Hal). pose proof (al_write _ _ Hal).
  unfold on_data. repeat tstep.
  destruct r; simpl; try (apply send_error_safe; [alive_solve | done | done]).
  destruct (stored_Some s Hs) as (text & Htext & Hlen). pose proof (zlen_nonneg text).
  repeat tstep. eapply wp_mono; [apply (store_loop_safe text 1001 0); try lia | | done].
  - unfold MAXCHAR in *. lia.
  - alive_solve.
  - done.
  - csimp. rewrite data_copy; [exact Htext | apply Hs |]. apply zlen_slice; rewrite ?Hs; tlia.
  - intros ? s1 Hal1. pose proof (al_sized _ _ Hal1). destruct (al_block _ _ Hal1) as (b & Hb & ?).
    destruct (al_stop _ _ Hal1) as (z & Hz & ?).
    repeat tstep. eapply wp_sendto_any; [done | csimp; reflexivity | lia | apply exit1_send |].
    pose proof (u16_range (b + 1)). pose proof (al_world _ _ Hal1).
    repeat tstep. bcase; tstep; [split; [by subst | done] |]. alive_solve.
Qed.

#[export] Instance tftps_safe : SafeRounds true Tftps.step.
Proof.
  intros r e o s Hal Hset _ He. pose proof (al_sized _ _ Hal) as Hs. destruct e as [| d |]; cbn [step].
  - pose proof (al_read _ _ Hal). pose proof (al_write _ _ Hal). destruct (al_time _ _ Hal) as (t & Ht).
    destruct (al_block _ _ Hal) as (b & Hb & ?).
    unfold on_timeout. repeat tstep. destruct r; simpl; try done.
    1, 2: eapply wp_mono; [by apply retransmit_safe | | done]; intros [] s'; by intros; repeat tstep.
    tstep. unfold write_timeout. repeat tstep. bcase; repeat tstep; [split; [done | apply Hal] |].
      alive_solve.
  - destruct He as (x & op & rest & -> & Hop & Hne).
    unfold on_packet. tstep. apply wp_recvfrom; [done |]. intros Hs0. repeat tstep. csimp.
    rewrite opcode_recv by apply Hs. rewrite !s8_eqb by (done || lia).
    assert (Hal0 : alive r (set_int (set_arr s packet
      (splice (arrs s packet) 0 (take (Z.to_nat MAXCHAR) (x :: op :: rest)))) time_count 0)) by alive_solve.
    assert (Hend : forall c s', safe_round r c s' -> wp (match c with
        | Brk => ret Brk | Cont => memset0 packet MAXCHAR ;;; ret Cont end) (safe_round r) exit1 s').
    { intros [] s' H; [| by tstep]. pose proof (al_sized _ _ H). repeat tstep. alive_solve. }
    destruct (Z.eqb_spec op 3); [eapply wp_mono; [by apply on_data_safe | exact Hend | done] |].
    destruct (Z.eqb_spec op 4); [eapply wp_mono; [by apply on_ack_safe | exact Hend | done] |].
    rewrite (proj2 (Z.eqb_neq op 5)) by done. tstep. by apply (Hend Cont).
  - by apply wp_exit.
Qed.

(** ** Properties *)

(** C7: memory safety.  A child that serves a request whose name and mode fit their
    arrays never leaves the bounds of an array, never uses a null pointer or an
    indeterminate scalar and never loops without end, whatever the files, the
    datagrams (other than ERROR packets and datagrams of fewer than two bytes), the
    timeouts and the failures of [sendto], [read] and [recvfrom]: it is still
    waiting, has exited with 0 or 1, or closes the stream it never opened after an
    octet transfer. *)
Theorem tftps_child_safe g files op name mode o evs :
  requested op name mode g -> is_byte op -> Forall (fun eo => proper eo.1) evs ->
  acceptable (child o evs (init g files)).
Proof. intros Hreq Hop. apply (child_safe true step _ _ op name mode); try done. by left. Qed.

(** Every ERROR packet from the client overruns [ErrMsg]: 996 bytes are copied
    into 50, whatever the state of the transfer.*)
Lemma error_packet_overruns o x rest s :
  sized (arrs s) ->
  fails (on_packet o (x :: 5 :: rest)) OutOfBounds s.
Proof.
  intros Hs. unfold on_packet. apply fails_bind. apply wp_recvfrom; [done |]. intros Hs0.
  apply fails_bind. tstep. apply fails_bind. tstep. csimp. rewrite opcode_recv by apply Hs.
  apply fails_first. change (s8 5 =? 3) with false. change (s8 5 =? 4) with false.
  change (s8 5 =? 5) with true. cbv iota. unfold on_error.
  do 3 (apply fails_bind; tstep). apply fails_first.
  match goal with H : sized (upd _ ErrorCode _) |- fails _ _ ?x => assert (Hx : sized (arrs x)) by done end.
  apply fails_memcpy; rewrite ?Hx; unfold MAXCHAR; cbn [arr_size]; unfold MAXCHAR; lia.
Qed.

(** A read or write request for a file name of ten bytes or more overruns
    [Filename], before anything is sent.*)
Lemma long_name_overruns g files op name junk o evs :
  sized g -> g packet = [0; op] ++ name ++ [0] ++ junk -> op = 1 \/ op = 2 ->
  nonzero name -> 10 <= zlen name ->
  fails (child o evs) OutOfBounds (init g files).
Proof.
  intros Hs Hp Hop Hn Hl. assert (Hs0 : sized (arrs (init g files))) by done.
  apply fails_first. unfold request. apply fails_bind. tstep. csimp. rewrite Hp.
  change (List.hd 0 (slice ([0; op] ++ name ++ [0] ++ junk) 1 1)) with op.
  destruct Hop as [-> | ->]; [change (s8 1 =? 1) with true | change (s8 2 =? 1) with false;
    change (s8 2 =? 2) with true]; cbv iota; [unfold rrq | unfold wrq].
  - do 3 (apply fails_bind; tstep). apply fails_first. eexists.
    eapply parse_request_overflow; csimp; [done | exact Hp | done | done].
  - do 2 (apply fails_bind; tstep). apply fails_first. eexists.
    eapply parse_request_overflow; csimp; [done | exact Hp | done | done].
Qed.

(** The requests that are refused, with the code and text of the error packet. *)
Inductive refusal (files : gmap (list Z) (list Z)) (name mode : list Z) : Z -> Z -> list Z -> Prop :=
| refuse_missing : netascii_mode mode -> files !! name = None ->
    refusal files name mode 1 1 (lit "File not found")
| refuse_mode : ~ octet_mode mode -> ~ netascii_mode mode ->
    refusal files name mode 1 4 (lit "Illegal TFTP operation.")
| refuse_existing content : files !! name = Some content ->
    refusal files name mode 2 6 (lit "File already exists.").

Lemma mode_test (P1 P2 mode : list Z) : ~ (mode = P1 \/ mode = P2) ->
  bool_decide (mode = P1) || bool_decide (mode = P2) = false.
Proof. intros H. rewrite !bool_decide_false; tauto. Qed.

Lemma mode_test_true (P1 P2 mode : list Z) : mode = P1 \/ mode = P2 ->
  bool_decide (mode = P1) || bool_decide (mode = P2) = true.
Proof. intros [H | H]; apply orb_true_iff; [left | right]; by apply bool_decide_eq_true. Qed.

Lemma netascii_not_octet mode : netascii_mode mode -> ~ octet_mode mode.
Proof. intros [-> | ->] [H | H]; discriminate H. Qed.

Lemma refused_request g files op name mode code text o :
  requested op name mode g -> refusal files name mode op code text -> send_ok o = true ->
  wp (request o) (fun q s => q = Leave /\ sent (world s) = [[0; 5; 0; code] ++ text] /\
    fs (world s) = files) (fun _ _ => False) (init g files).
Proof.
  intros Hreq Hrf Ho. destruct Hrf as [Hm Hf | Hm1 Hm2 | content Hf].
  - apply (wp_request_rrq g files name mode o Hreq). intros s Hs [Hname Hmd] Hw _ _ _.
    do 2 (tstep; eapply wp_streq_lit; [done |]). rewrite mode_test by (by apply netascii_not_octet).
    do 2 (tstep; eapply wp_streq_lit; [done |]). rewrite mode_test_true by done.
    unfold rrq_netascii. repeat tstep. eapply wp_read_str_0; [done |]. repeat tstep. csimp.
    rewrite Hw. csimp. rewrite Hf. repeat tstep. eapply wp_send_error; try done.
    intros s' _ _ Hw' _. tstep. by rewrite Hw'.
  - apply (wp_request_rrq g files name mode o Hreq). intros s Hs [Hname Hmd] Hw _ _ _.
    do 2 (tstep; eapply wp_streq_lit; [done |]). rewrite mode_test by done.
    do 2 (tstep; eapply wp_streq_lit; [done |]). rewrite mode_test by done.
    tstep. eapply wp_send_error; try done. intros s' _ _ Hw' _. tstep. by rewrite Hw', Hw.
  - apply (wp_request_wrq g files name mode o Hreq). intros s Hs _ Hw _ _ _. rewrite Hf.
    repeat tstep. eapply wp_send_error; try done. intros s' _ _ Hw' _. tstep. csimp.
    by rewrite Hw', Hw.
Qed.

(** C8: a refused request (a missing file read in netascii mode, an unknown mode, a
    write to an existing file) is answered with exactly one error packet of the
    right code, no file is created or changed, and the child exits with 0 without
    waiting for anything. *)
Theorem refused_request_answered g files op name mode code text o evs :
  requested op name mode g -> refusal files name mode op code text -> send_ok o = true ->
  exists s', child o evs (init g files) = Exited 0 s' /\
    sent (world s') = [[0; 5; 0; code] ++ text] /\ fs (world s') = files.
Proof.
  intros Hreq Hrf Ho. pose proof (refused_request _ _ _ _ _ _ _ _ Hreq Hrf Ho) as Hw.
  apply wp_done in Hw as (q & s' & Hrun & -> & H). exists s'. split; [| done].
  unfold child, child_process, bind. by rewrite Hrun.
Qed.

(** A missing file read in octet mode is not answered at all: the child exits
    with status 1 and the client is left to time out. *)
Lemma missing_octet_file_silent g files name mode o evs :
  requested 1 name mode g -> octet_mode mode -> files !! name = None ->
  exists s', child o evs (init g files) = Exited 1 s' /\ sent (world s') = [].
Proof.
  intros Hreq Hm Hf.
  assert (Hw : wp (request o) (fun _ _ => False) (fun c s => c = 1 /\ sent (world s) = [])
    (init g files)).
  { apply (wp_request_rrq g files name mode o Hreq). intros s Hs [Hname Hmd] Hw _ _ _.
    do 2 (tstep; eapply wp_streq_lit; [done |]). rewrite mode_test_true by done.
    unfold rrq_octet. repeat tstep. eapply wp_read_str_0; [done |]. repeat tstep. csimp.
    rewrite Hw. csimp. rewrite Hf. apply wp_exit. csimp. by rewrite Hw. }
  unfold wp in Hw. unfold child, child_process, bind.
  destruct (request o (init g files)) as [| c s' |]; try done. destruct Hw as [-> Hs'].
  by exists s'.
Qed.

(** The opcode that the other kind of transfer expects, and the code of the answer. *)
Definition misdirected (r : role) (op code : Z) : Prop :=
  (r <> Writer /\ op = 3 /\ code = 0) \/ (role_flag r = 0 /\ op = 4 /\ code = 2).

(** A DATA packet sent to a child that does not write, or an ACK sent to one that
    does not read, is answered with one "Access violation." error packet (code 0 for
    DATA, 2 for ACK), changes no file and ends the transfer.*)
Lemma misdirected_packet_refused r op code o x rest s :
  alive r s -> settled r -> misdirected r op code -> send_ok o = true ->
  exists s', on_packet o (x :: op :: rest) s = Done Brk s' /\
    sent (world s') = sent (world s) ++ [[0; 5; 0; code] ++ lit "Access violation."] /\
    fs (world s') = fs (world s) /\ ints s' stop_flag = Some 1.
Proof.
  intros Hal Hset Hd Ho. pose proof (al_sized _ _ Hal) as Hs.
  pose proof (al_read _ _ Hal). pose proof (al_write _ _ Hal).
  assert (Hw : wp (on_packet o (x :: op :: rest)) (fun c s' => c = Brk /\
    sent (world s') = sent (world s) ++ [[0; 5; 0; code] ++ lit "Access violation."] /\
    fs (world s') = fs (world s) /\ ints s' stop_flag = Some 1) (fun _ _ => False) s).
  { unfold on_packet. tstep. apply wp_recvfrom; [done |]. intros Hs0. repeat tstep. csimp.
    rewrite opcode_recv by apply Hs.
    destruct Hd as [(Hr & -> & ->) | (Hr & -> & ->)].
    - change (s8 3 =? 3) with true. cbv iota. unfold on_data. repeat tstep.
      replace ((role_flag r =? 1) || (role_wflag r =? 0)) with true by (by destruct r).
      tstep. eapply wp_send_error; try done. intros s' _ _ Hw' Hst'. repeat tstep. by rewrite Hw'.
    - change (s8 4 =? 3) with false. change (s8 4 =? 4) with true. cbv iota. unfold on_ack. repeat tstep.
      replace ((role_flag r =? 0) || (role_wflag r =? 1)) with true by (by destruct r).
      tstep. eapply wp_send_error; try done. intros s' _ _ Hw' Hst'. repeat tstep. by rewrite Hw'. }
  apply wp_done in Hw as (c & s' & Hrun & -> & H'). by exists s'.
Qed.

Lemma idle_timeouts n o s :
  ints s read_flag = Some 0 -> ints s write_flag = Some 0 ->
  transfer_loop step (replicate n (EvTimeout, o)) s = Done false s.
Proof.
  intros Hr Hw. induction n as [| n IH]; [done |]. cbn [replicate transfer_loop step].
  unfold on_timeout, bind, geti. rewrite Hr, Hw. simpl. exact IH.
Qed.

(** A child forked for a datagram that is neither a read nor a write request
    never gives up: any number of timeouts leaves it waiting, having sent nothing.*)
Lemma unknown_request_waits_forever g files op junk o n :
  sized g -> g packet = [0; op] ++ junk -> is_byte op -> op <> 1 -> op <> 2 ->
  child o (replicate n (EvTimeout, o)) (init g files) = Done tt (init g files).
Proof.
  intros Hs Hp Hop H1 H2. assert (sized (arrs (init g files))) by done.
  assert (Hr : request o (init g files) = Done Transfer (init g files)).
  { assert (Hw : wp (request o) (fun q s => q = Transfer /\ s = init g files) (fun _ _ => False)
      (init g files)).
    { unfold request. repeat tstep. csimp. rewrite Hp.
      change (List.hd 0 (slice ([0; op] ++ junk) 1 1)) with op. rewrite !s8_eqb by (done || lia).
      rewrite (proj2 (Z.eqb_neq op 1)), (proj2 (Z.eqb_neq op 2)) by done. by tstep. }
    apply wp_done in Hw as (q & s' & Hrun & -> & ->). done. }
  unfold child, child_process, bind. by rewrite Hr, idle_timeouts.
Qed.

(** *** Witnesses *)
Lemma tftps_child_safe_witness :
  acceptable (child all_ok [(EvTimeout, all_ok); (EvRecv [0; 3; 0; 1; 0; 255], all_ok); (EvRecvErr, all_ok)]
    (init (sample_arrays 2 (lit "f") (lit "mail")) ∅)).
Proof.
  apply (tftps_child_safe (sample_arrays 2 (lit "f") (lit "mail")) ∅ 2 (lit "f") (lit "mail") all_ok
    [(EvTimeout, all_ok); (EvRecv [0; 3; 0; 1; 0; 255], all_ok); (EvRecvErr, all_ok)]).
  - sample_request.
  - unfold is_byte; lia.
  - repeat constructor. exists 0, 3, [0; 1; 0; 255]. unfold is_byte. split; [done | lia].
Defined.

Lemma error_packet_overruns_witness :
  fails (on_packet all_ok [0; 5; 0; 0; 0]) OutOfBounds
    (init (sample_arrays 1 (lit "f") (lit "octet")) ∅).
Proof.
  apply (error_packet_overruns all_ok 0 [0; 0; 0]). intros []; reflexivity.
Defined.

Lemma long_name_overruns_witness :
  fails (child all_ok []) OutOfBounds (init (sample_arrays 1 (lit "lecture.txt") (lit "octet")) ∅).
Proof.
  apply (long_name_overruns (sample_arrays 1 (lit "lecture.txt") (lit "octet")) ∅ 1 (lit "lecture.txt")
    (lit "octet" ++ 0 :: replicate 980 77) all_ok []).
  - intros []; reflexivity.
  - reflexivity.
  - by left.
  - apply nonzero_dec. reflexivity.
  - by vm_compute.
Defined.

Lemma refused_request_answered_witness :
  exists s', child all_ok [] (init (sample_arrays 2 (lit "f") (lit "octet")) {[lit "f" := [1; 2]]})
      = Exited 0 s' /\
    sent (world s') = [[0; 5; 0; 6] ++ lit "File already exists."] /\
    fs (world s') = {[lit "f" := [1; 2]]}.
Proof.
  apply (refused_request_answered (sample_arrays 2 (lit "f") (lit "octet")) {[lit "f" := [1; 2]]} 2
    (lit "f") (lit "octet") 6 (lit "File already exists.") all_ok []).
  - sample_request.
  - by apply (refuse_existing _ _ _ [1; 2]).
  - reflexivity.
Defined.

Lemma missing_octet_file_silent_witness :
  exists s', child all_ok [] (init (sample_arrays 1 (lit "f") (lit "octet")) ∅) = Exited 1 s' /\
    sent (world s') = [].
Proof.
  apply (missing_octet_file_silent (sample_arrays 1 (lit "f") (lit "octet")) ∅ (lit "f") (lit "octet")
    all_ok []).
  - sample_request.
  - by left.
  - reflexivity.
Defined.

Lemma misdirected_packet_refused_witness :
  exists s', on_packet all_ok [0; 4; 0; 0] sample_writing = Done Brk s' /\
    sent (world s') = [] ++ [[0; 5; 0; 2] ++ lit "Access violation."] /\
    fs (world s') = {[lit "f" := lit "ab"]} /\ ints s' stop_flag = Some 1.
Proof.
  apply (misdirected_packet_refused Writer 4 2 all_ok 0 [0; 0] sample_writing).
  - split; try done; try (by eexists); try (intros; eexists; split; [reflexivity | lia]);
      [intros []; reflexivity].
  - done.
  - by right.
  - reflexivity.
Defined.

Lemma unknown_request_waits_forever_witness :
  child all_ok (replicate 1000 (EvTimeout, all_ok)) (init (sample_arrays 4 (lit "f") (lit "octet")) ∅)
  = Done tt (init (sample_arrays 4 (lit "f") (lit "octet")) ∅).
Proof.
  apply (unknown_request_waits_forever (sample_arrays 4 (lit "f") (lit "octet")) ∅ 4
    (drop 2 (sample_arrays 4 (lit "f") (lit "octet") packet)) all_ok 1000).
  - intros []; reflexivity.
  - reflexivity.
  - unfold is_byte; lia.
  - lia.
  - lia.
Defined.
End TftpsErrors.
