(* ===== verification/TftpServer.v ===== *)
(** * [server.c]: the earlier version of the TFTP server

    The request branch, the ACK branch, the ERROR branch and the clean-up of
    [server.c] are, statement for statement, those of [tftps.c]; they are named
    here after the lines of [server.c] they stand for.  What differs is the
    transfer loop: a timeout always sends the last packet again, the DATA branch
    stores 512 bytes of every block whatever its length, acknowledges the number
    after the block's, and the packet array is never cleared. *)

From S2P Require Import Prelude CMem TftpState Tftps TftpFacts TftpRead TftpsRead TftpsWrite TftpSafety TftpsErrors.
From stdpp Require Import base list gmap.
From Stdlib Require Import ZArith Lia.
From Stdlib Require String.
Import String.StringSyntax.
Open Scope Z_scope.

Module TftpServer.
Import Tftp TftpFacts TftpRead TftpsRead TftpsWrite TftpSafety.

(** ** The branches shared with [tftps.c] *)
Definition server_rrq : env -> C req := rrq.
Definition server_wrq : env -> C req := wrq.
Definition server_request : env -> C req := request.
Definition server_on_ack : env -> C ctl := on_ack.
Definition server_on_error : C ctl := on_error.
Definition server_cleanup : C unit := cleanup.

(** ** One second without a datagram *)
Definition on_timeout (o : env) : C ctl :=
  sendto o ;;;
  let* t := geti time_count in
  seti time_count (t + 1) ;;;
  if 10 <=? t + 1 then seti stop_flag 1 ;;; ret Brk else ret Cont.

(** ** The DATA branch *)

(** [final], which is never assigned after its initialisation. *)
Definition final_block : Z := -1.

(** Body of the loop that writes the received bytes to the file. *)
Definition data_char : C ctl :=
  let* n := geti nextch in
  let* c := geti count in
  if 0 <=? n then putc n ;;; seti nextch (-1) ;;; ret Cont
  else
    let* b := load data c in
    seti ch (s8 b) ;;;
    let* x := geti ch in
    if x =? -1 then seti stop_flag 1 ;;; ret Brk
    else
      let* m := geti mode_flag in
      (if m =? 1 then translate x else ret tt) ;;;
      let* y := geti ch in
      putc y ;;; ret Cont.

Definition on_data (o : env) : C ctl :=
  memset0 send_pack 517 ;;;
  memset0 BlockNo 10 ;;;
  memset0 data MAXCHAR ;;;
  memset0 ACK 10 ;;;
  let* r := geti read_flag in
  let* w := geti write_flag in
  if (r =? 1) || (w =? 0) then
    send_error o 0 "Access violation." ;;; ret Brk
  else
    memcpy BlockNo 0 packet 2 2 ;;;
    memcpy data 0 packet 4 (MAXCHAR - 4) ;;;
    seti count 0 ;;;
    for_fuel 513 (count_lt NOBYTES) count_incr data_char ;;;
    sprintf_c ACK [0; 4] ;;;
    let* b := geti block_number in
    seti sent_num ((b + 1) mod 65536) ;;;
    let* n := geti sent_num in
    store send_pack 2 (hi_byte n) ;;;
    store send_pack 3 (lo_byte n) ;;;
    memcpy send_pack 0 ACK 0 2 ;;;
    seti size_sp 4 ;;;
    sendto o ;;;
    if b =? final_block then seti stop_flag 1 ;;; ret Brk
    else seti block_number (u16 (b + 1)) ;;; ret Cont.

(** ** One round of the transfer loop *)
Definition on_packet (o : env) (dgram : list Z) : C ctl :=
  recvfrom dgram ;;;
  seti time_count 0 ;;;
  let* op := load packet 1 in
  if s8 op =? 3 then on_data o
  else if s8 op =? 4 then server_on_ack o
  else if s8 op =? 5 then server_on_error
  else ret Cont.

Definition step (e : event) (o : env) : C ctl :=
  match e with
  | EvTimeout => on_timeout o
  | EvRecvErr => exit 1
  | EvRecv d => on_packet o d
  end.

Definition transfer : list (event * env) -> C bool := transfer_loop step.
Definition child : env -> list (event * env) -> C unit := child_process step.

(** ** Serving reads *)
#[export] Instance server_serves_reads : ServesReads step.
Proof.
  intros octet a e o ae s Hsim He. inversion He as [? Ho | d ? Ho Hd]; subst; cbn [step].
  - by apply wp_retransmit.
  - destruct Hd as (x & r & ->).
    assert (Hs : sized (arrs s)) by (destruct Hsim as (? & ? & ? & Hrd & _); apply Hrd).
    unfold on_packet. tstep. apply wp_recvfrom; [done |]. intros Hs0. repeat tstep. csimp.
    rewrite opcode_recv by apply Hs. change (s8 4 =? 3) with false. change (s8 4 =? 4) with true.
    cbv iota. by eapply wp_ack_round.
Qed.

(** ** Storing 512 bytes of a block *)

(** What precedes the first 0xFF byte. *)
Fixpoint before_eof (l : list Z) : list Z :=
  match l with [] => [] | b :: l' => if b =? 255 then [] else b :: before_eof l' end.

Lemma wp_server_data_char s f content b t stop c x (Q : ctl -> st -> Prop) E :
  writing s f content b t stop -> ints s count = Some c -> 0 <= c < MAXCHAR ->
  arrs s data !! Z.to_nat c = Some x -> is_byte x ->
  (forall s', frame [] [ch; stop_flag] s s' -> sent (world s') = sent (world s) ->
     same_but f (fs (world s)) (fs (world s')) ->
     writing s' f (if x =? 255 then content else content ++ [x]) b t (stop || (x =? 255)) ->
     Q (if x =? 255 then Brk else Cont) s') ->
  wp data_char Q E s.
Proof.
  intros [Hs Hr Hw Hst Hm Hn Hb Ht Hf Hfile] Hc Hc0 Hx Hbyte HQ.
  unfold data_char. repeat tstep. simpl. repeat tstep.
  destruct (slice_lookup (arrs s data) c) as (x' & -> & Hx'); [rewrite Hs; tlia |].
  assert (x' = x) as -> by congruence. cbn [hd]. repeat tstep.
  assert (Heof : (s8 x =? -1) = (x =? 255)).
  { apply Bool.eq_true_iff_eq. rewrite !Z.eqb_eq. by apply s8_eof. }
  rewrite Heof. destruct (Z.eqb_spec x 255) as [Hx255 | Hx255]; repeat tstep.
  - apply HQ; [frame_solve | done | done |]. split; csimp; by rewrite ?orb_true_r.
  - simpl. repeat tstep. eapply wp_putc; [done | csimp; exact Hfile |]. repeat tstep.
    apply HQ; [frame_solve | done | apply same_but_insert |].
    split; csimp; rewrite ?u8_s8, ?u8_id, ?lookup_insert_eq, ?orb_false_r by done; done.
Qed.

Lemma wp_server_store_loop f b t D n : forall c s content stop (Q : unit -> st -> Prop) E,
  512 - c < Z.of_nat n -> 0 <= c <= 512 -> zlen D = 512 -> Forall is_byte D ->
  slice (arrs s data) 0 512 = D ->
  writing s f content b t stop -> ints s count = Some c ->
  (forall s', writing s' f (content ++ before_eof (drop (Z.to_nat c) D)) b t
       (stop || has_eof (drop (Z.to_nat c) D)) ->
     frame [] [ch; stop_flag; count] s s' -> sent (world s') = sent (world s) ->
     same_but f (fs (world s)) (fs (world s')) -> Q tt s') ->
  wp (for_fuel n (count_lt NOBYTES) count_incr data_char) Q E s.
Proof.
  induction n as [| n IH]; intros c s content stop Q E Hn Hc HD Hb Hd Hwr Hcn HQ; [lia |].
  apply wp_for. unfold count_lt. repeat tstep. change NOBYTES with 512.
  destruct (Z.ltb_spec c 512) as [Hlt | Hge].
  - destruct (lookup_lt_is_Some_2 D (Z.to_nat c)) as [x Hx]; [unfold zlen in *; lia |].
    assert (Hbx : is_byte x) by (eapply Forall_lookup_1; done).
    assert (Hxd : arrs s data !! Z.to_nat c = Some x).
    { rewrite <- Hd in Hx. unfold slice in Hx. rewrite drop_0, lookup_take_lt in Hx by lia. done. }
    eapply wp_server_data_char; try done; [unfold MAXCHAR; lia |]. intros s1 Hfr1 Hsent1 Hfs1 Hwr1.
    rewrite (drop_S _ _ _ Hx) in HQ. cbn [before_eof has_eof existsb] in HQ. rewrite (Z.eqb_sym 255 x) in HQ.
    assert (Hcn1 : ints s1 count = Some c) by (by apply (frame_int count _ Hfr1)).
    destruct (x =? 255).
    + apply HQ; [rewrite app_nil_r; exact Hwr1 |
        by eapply frame_weaken; [.. | exact Hfr1] | done | done].
    + unfold count_incr. repeat tstep.
      eapply (IH (c + 1) _ (content ++ [x]) stop); csimp; try done; try lia.
      * by rewrite (frame_arr data _ Hfr1 eq_refl eq_refl).
      * rewrite orb_false_r in Hwr1. destruct Hwr1. by split.
      * intros s2 Hwr2 Hfr2 Hsent2 Hfs2. apply HQ.
        -- replace (S (Z.to_nat c)) with (Z.to_nat (c + 1)) by lia.
           rewrite <- app_assoc in Hwr2. exact Hwr2.
        -- eapply frame_trans; [| exact Hfr2]. eapply frame_trans; [| apply frame_set_int; done].
           by eapply frame_weaken; [.. | exact Hfr1].
        -- by rewrite Hsent2, Hsent1.
        -- by eapply same_but_trans.
  - assert (Hdr : drop (Z.to_nat c) D = []) by (apply skipn_all2; unfold zlen in *; lia).
    rewrite Hdr in HQ. simpl in HQ. rewrite app_nil_r, orb_false_r in HQ. by apply HQ.
Qed.

(** ** The DATA branch *)

(** The 512 bytes of the packet array in which a payload arrives. *)
Definition window (s : st) : list Z := slice (arrs s packet) 4 512.

Lemma ack_bytes l a h i :
  4 <= zlen l -> zlen a = 2 ->
  slice (splice (splice (splice l 2 [h]) 3 [i]) 0 a) 0 4 = a ++ [h; i].
Proof.
  intros Hl Ha. destruct l as [| x0 [| x1 [| x2 [| x3 l]]]]; unfold zlen in *; simpl in Hl; try lia.
  destruct a as [| a0 [| a1 [| ]]]; simpl in Ha; try lia. done.
Qed.

Lemma wp_server_on_data o s f content b t stop (Q : ctl -> st -> Prop) E :
  writing s f content b t stop -> 0 <= b < 65536 -> send_ok o = true ->
  Forall is_byte (window s) ->
  (forall s', writing s' f (content ++ before_eof (window s)) (u16 (b + 1)) t (stop || has_eof (window s)) ->
     sent (world s') = sent (world s) ++ [ack_packet (u16 (b + 1))] ->
     arrs s' packet = arrs s packet -> holds s' (ack_packet (u16 (b + 1))) ->
     same_but f (fs (world s)) (fs (world s')) -> Q Cont s') ->
  wp (on_data o) Q E s.
Proof.
  intros Hwr Hbr Ho Hbytes HQ. pose proof Hwr as [Hs Hr Hw Hst Hm Hn Hb Ht Hf Hfile].
  unfold on_data. repeat tstep. simpl. repeat tstep.
  assert (HD : zlen (window s) = 512) by (apply zlen_slice; rewrite ?Hs; tlia).
  eapply (wp_server_store_loop f b t (window s) 513 0 _ content stop); csimp; try done; try lia.
  { rewrite data_copy; [| apply Hs | apply zlen_slice; rewrite ?Hs; tlia].
    unfold window, slice. rewrite drop_0, take_app_le, take_take.
    - done.
    - rewrite length_take, length_drop. pose proof (Hs packet) as Hp. unfold zlen, MAXCHAR in *.
      simpl in Hp. unfold MAXCHAR in Hp. lia. }
  rewrite drop_0. intros s1 Hwr1 Hfr1 Hsent1 Hfs1. csimp.
  pose proof Hwr1 as [Hs1 Hr1 Hw1 Hst1 Hm1 Hn1 Hb1 Ht1 Hf1 Hfile1].
  repeat tstep. eapply wp_sendto; [done | csimp; reflexivity | lia | done |].
  assert (Hack : slice (splice (splice (splice (arrs s1 send_pack) 2 [u8 (hi_byte (u16 (b + 1)))]) 3
      [u8 (lo_byte (u16 (b + 1)))]) 0 (slice (splice (arrs s1 ACK) 0 ([0; 4] ++ [0])) 0 2)) 0 4
      = ack_packet (u16 (b + 1))).
  { rewrite (slice_splice_str _ [0; 4]), ack_bytes by (rewrite ?Hs1; tlia).
    by rewrite !u8_id by auto with bytes. }
  unfold final_block. rewrite (proj2 (Z.eqb_neq b (-1))) by lia. repeat tstep.
  apply HQ; csimp; fold (u16 (b + 1)); try done.
  - by rewrite Hack, Hsent1.
  - by rewrite (frame_arr packet _ Hfr1 eq_refl eq_refl).
Qed.

(** ** The abstract receiver

    It keeps a window of 512 bytes; a block overwrites the start of the window, and
    the whole window is appended to the file. *)
Record wreceiver := mk_wreceiver {
  wcontent : list Z; wwindow : list Z; wblock : Z; wlast : list Z; wtries : Z }.

Definition overwrite (w l : list Z) : list Z := l ++ drop (length l) w.

Definition wreceiver_step (e : revent) (a : wreceiver) : list (list Z) * bool * wreceiver :=
  match e with
  | RBlock l =>
      let w := overwrite (wwindow a) l in
      let p := ack_packet (u16 (wblock a + 1)) in
      ([p], false, mk_wreceiver (wcontent a ++ w) w (u16 (wblock a + 1)) p 0)
  | RTimeout =>
      ([wlast a], 10 <=? wtries a + 1,
       mk_wreceiver (wcontent a) (wwindow a) (wblock a) (wlast a) (wtries a + 1))
  end.

Fixpoint wreceiver_run (evs : list revent) (a : wreceiver) : list (list Z) * bool * wreceiver :=
  match evs with
  | [] => ([], false, a)
  | e :: evs' =>
      let '(out, fin, a') := wreceiver_step e a in
      if fin : bool then (out, true, a')
      else let '(outs, fin', a'') := wreceiver_run evs' a' in (out ++ outs, fin', a'')
  end.

(** Bytes other than 0xFF, NUL included. *)
Definition binary (l : list Z) : Prop := Forall (fun b => 0 <= b < 255) l.

Inductive abs_event_w : event * env -> revent -> Prop :=
| abs_w_timeout o : send_ok o = true -> abs_event_w (EvTimeout, o) RTimeout
| abs_w_block d l o : send_ok o = true -> is_data d l -> binary l -> zlen l <= 512 ->
    abs_event_w (EvRecv d, o) (RBlock l).

Definition wwsim (f : list Z) (s : st) (a : wreceiver) : Prop :=
  writing s f (wcontent a) (wblock a) (wtries a) false /\ 0 <= wblock a < 65536 /\
  window s = wwindow a /\ binary (wwindow a) /\ holds s (wlast a) /\ zlen (wlast a) = 4.

Lemma binary_bytes l : binary l -> Forall is_byte l.
Proof. intros H. eapply Forall_impl; [exact H |]. unfold is_byte. simpl. lia. Qed.

Lemma binary_before l : binary l -> before_eof l = l /\ has_eof l = false.
Proof.
  induction 1 as [| b l Hb _ [IH1 IH2]]; [done |]. cbn [before_eof]. unfold has_eof in *.
  cbn [existsb]. rewrite (proj2 (Z.eqb_neq b 255)), (proj2 (Z.eqb_neq 255 b)), IH1, IH2 by lia. done.
Qed.

Lemma binary_overwrite w l : binary w -> binary l -> binary (overwrite w l).
Proof. intros. apply Forall_app. split; [done |]. by apply Forall_take_drop. Qed.

(** Receiving a datagram overwrites the start of the window. *)
Lemma window_recv old d l :
  zlen old = MAXCHAR -> is_data d l -> zlen l <= 512 ->
  slice (splice old 0 (take (Z.to_nat MAXCHAR) d)) 4 512 = overwrite (slice old 4 512) l.
Proof.
  intros Ho (x & y & z & ->) Hl. unfold zlen, MAXCHAR, overwrite in *.
  rewrite take_ge by (rewrite length_app; simpl; lia).
  rewrite splice_0, <- app_assoc, slice_app by done. unfold slice.
  rewrite drop_0, take_app_ge by lia. f_equal.
  rewrite skipn_firstn_comm, drop_drop, length_app. do 2 f_equal; simpl; lia.
Qed.

Definition wwround (f : list Z) (a : wreceiver) (e : revent) (s : st) (c : ctl) (s' : st) : Prop :=
  let '(out, fin, a') := wreceiver_step e a in
  sent (world s') = sent (world s) ++ out /\ same_but f (fs (world s)) (fs (world s')) /\
  if fin : bool then c = Brk /\ writing s' f (wcontent a') (wblock a') (wtries a') true
  else c = Cont /\ wwsim f s' a'.

Lemma step_wwsim f a e o ev s :
  wwsim f s a -> abs_event_w (ev, o) e ->
  wp (step ev o) (wwround f a e s) (fun _ _ => False) s.
Proof.
  intros (Hwr & Hb & Hwin & Hbin & Hh & Hlast) He.
  pose proof Hwr as [Hs Hr Hw Hst Hm Hn Hbl Ht Hf Hfile].
  inversion He as [? Ho | d l ? Ho Hd Hl Hlen]; subst; cbn [step]; unfold wwround; cbn [wreceiver_step].
  - destruct Hh as [Hh1 Hh2]. unfold on_timeout. tstep.
    eapply wp_sendto; [done | exact Hh1 | lia | done |]. rewrite Hh2. repeat tstep.
    destruct (Z.leb_spec 10 (wtries a + 1)); repeat tstep; (do 2 (split; [done |])); (split; [done |]).
    + by split.
    + split; [by split |]. do 4 (split; [done |]). done.
  - unfold on_packet. tstep. apply wp_recvfrom; [done |]. intros Hs0. repeat tstep. csimp.
    rewrite (opcode_data _ _ l) by done. change (s8 3 =? 3) with true. cbv iota.
    assert (Hwin' : window (set_int (set_arr s packet (splice (arrs s packet) 0
        (take (Z.to_nat MAXCHAR) d))) time_count 0) = overwrite (wwindow a) l).
    { unfold window in *. csimp. by rewrite (window_recv _ _ l), Hwin by (try done; apply Hs). }
    pose proof (binary_overwrite _ _ Hbin Hl) as Hbin'. destruct (binary_before _ Hbin') as [Hbe Hhe].
    eapply (wp_server_on_data _ _ f (wcontent a) (wblock a) 0 false); [| done | done | |].
    + by split.
    + rewrite Hwin'. by apply binary_bytes.
    + rewrite Hwin', Hbe, Hhe. intros s' Hwr' Hsent' Hp' Hh' Hfs'. csimp.
      do 2 (split; [done |]). split; [done |]. split; [done |]. split; [apply u16_range |].
      split; [| split; [done | split; [done | done]]].
      rewrite <- Hwin'. unfold window. by rewrite Hp'.
Qed.

Lemma transfer_wwsim f evs aevs a s :
  Forall2 abs_event_w evs aevs -> wwsim f s a ->
  wp (transfer evs) (fun fin s' =>
     let '(outs, fin', a') := wreceiver_run aevs a in
     fin = fin' /\ sent (world s') = sent (world s) ++ outs /\
     same_but f (fs (world s)) (fs (world s')) /\
     writing s' f (wcontent a') (wblock a') (wtries a') fin)
    (fun _ _ => False) s.
Proof.
  unfold transfer. intros Hevs. revert a s.
  induction Hevs as [| [e o] ae evs aevs He Hevs IH]; intros a s Hsim.
  - simpl. tstep. rewrite app_nil_r. do 3 (split; [done |]). apply Hsim.
  - cbn [transfer_loop wreceiver_run]. tstep. eapply wp_mono; [by eapply step_wwsim | | done].
    intros c s1. unfold wwround. destruct (wreceiver_step ae a) as [[out fin] a'].
    intros (Hsent & Hfs & Hfin). destruct fin; destruct Hfin as [-> Hnext].
    + by tstep.
    + eapply wp_mono; [by apply IH | | done]. intros fin s2.
      destruct (wreceiver_run aevs a') as [[outs fin'] a'']. intros (H1 & H2 & H3 & H4).
      rewrite H2, Hsent, app_assoc. do 2 (split; [done |]). split; [| done].
      by eapply same_but_trans.
Qed.

(** The receiver a write request starts: its window is what the request left in the
    packet array. *)
Definition first_receiver (g : arr -> list Z) : wreceiver :=
  mk_wreceiver [] (slice (g packet) 4 512) 1 (ack_packet 0) 0.

Lemma server_write_served g files name mode o evs aevs outs fin a' :
  requested 2 name mode g -> files !! name = None -> send_ok o = true ->
  binary (slice (g packet) 4 512) -> Forall2 abs_event_w evs aevs ->
  wreceiver_run aevs (first_receiver g) = (outs, fin, a') ->
  exists s', sent (world s') = ack_packet 0 :: outs /\
    fs (world s') !! name = Some (wcontent a') /\ same_but name files (fs (world s')) /\
    child o evs (init g files) = if fin : bool then Exited 0 s' else Done tt s'.
Proof.
  intros Hreq Hnew Ho Hbin Hevs Hrun.
  pose proof (wp_wrq_new g files name mode o Hreq Hnew Ho) as Hq.
  apply wp_done in Hq as (q & s1 & Hq & -> & Hwr & Hsent & Hp & Hfs & Hh).
  assert (Hsim : wwsim name s1 (first_receiver g)).
  { split; [done |]. split; [simpl; lia |]. split; [unfold window; by rewrite Hp | done]. }
  pose proof (transfer_wwsim name evs aevs _ s1 Hevs Hsim) as Ht. rewrite Hrun in Ht.
  apply wp_done in Ht as (c & s2 & Ht & -> & Hsent2 & Hfs2 & Hwr2).
  assert (Hc : child o evs (init g files) = if fin then cleanup s2 else Done tt s2).
  { unfold child, child_process, transfer, bind in *. rewrite Hq, Ht. by destruct fin. }
  rewrite Hc, Hsent in *. pose proof (same_but_trans _ _ _ _ Hfs Hfs2). destruct fin.
  - destruct (cleanup_writing _ _ _ _ _ Hwr2) as (s' & -> & H1 & H2). exists s'.
    rewrite H1, H2, Hsent2. split; [done |]. split; [apply Hwr2 | done].
  - exists s2. rewrite Hsent2. split; [done |]. split; [apply Hwr2 | done].
Qed.

(** ** Runs of the receiver *)
Definition full_block (d l : list Z) : Prop := is_data d l /\ binary l /\ zlen l = 512.

Lemma overwrite_full w l : zlen w <= zlen l -> overwrite w l = l.
Proof.
  intros. unfold overwrite, zlen in *. rewrite skipn_all2, app_nil_r by lia. done.
Qed.

Lemma wreceiver_run_app evs1 evs2 a outs a' :
  wreceiver_run evs1 a = (outs, false, a') ->
  wreceiver_run (evs1 ++ evs2) a =
    let '(outs2, fin, a2) := wreceiver_run evs2 a' in (outs ++ outs2, fin, a2).
Proof.
  revert a outs. induction evs1 as [| e evs1 IH]; intros a outs; simpl.
  - intros [= <- <-]. simpl. by destruct (wreceiver_run evs2 a) as [[? ?] ?].
  - destruct (wreceiver_step e a) as [[out fin] a1]. destruct fin; [done |].
    destruct (wreceiver_run evs1 a1) as [[o1 f1] a2] eqn:E1. intros [= <- -> ->].
    rewrite (IH _ _ E1). destruct (wreceiver_run evs2 a') as [[? ?] ?]. by rewrite app_assoc.
Qed.

Lemma last_default {A} (x : A) l d : List.last (x :: l) d = List.last l x.
Proof.
  revert x d. induction l as [| y l IH]; intros x d; [done |].
  change (List.last (y :: l) d = List.last (y :: l) x). by rewrite !IH.
Qed.

Lemma wreceiver_run_full ls : forall a,
  zlen (wwindow a) = 512 -> Forall (fun l => zlen l = 512) ls ->
  exists a', wreceiver_run (List.map RBlock ls) a = (acks (u16 (wblock a + 1)) (length ls), false, a') /\
    wcontent a' = wcontent a ++ concat ls /\
    wlast a' = List.last (acks (u16 (wblock a + 1)) (length ls)) (wlast a) /\
    (wtries a = 0 -> wtries a' = 0).
Proof.
  induction ls as [| l ls IH]; intros a Hw Hls.
  - exists a. simpl. by rewrite app_nil_r.
  - inversion Hls as [| ? ? Hl Hls']; subst. cbn [List.map wreceiver_run wreceiver_step].
    rewrite overwrite_full by lia.
    destruct (IH (mk_wreceiver (wcontent a ++ l) l (u16 (wblock a + 1)) (ack_packet (u16 (wblock a + 1))) 0))
      as (a' & -> & Hc & Hlast & Ht); [done | done |].
    exists a'. split; [done |]. rewrite Hc, Hlast. split; [simpl; by rewrite app_assoc |].
    split; [| by auto]. cbn [acks length wlast wblock]. by rewrite last_default.
Qed.

Lemma wreceiver_run_silent a :
  wtries a = 0 -> exists a', wreceiver_run (replicate 10 RTimeout) a = (replicate 10 (wlast a), true, a') /\
    wcontent a' = wcontent a.
Proof.
  intros Ht. destruct a as [c w b l t]. simpl in Ht. subst t.
  eexists. split; [cbn; reflexivity | reflexivity].
Qed.

Lemma full_blocks_abs ds ls o :
  send_ok o = true -> Forall2 full_block ds ls ->
  Forall2 abs_event_w (List.map (fun d => (EvRecv d, o)) ds ++ replicate 10 (EvTimeout, o))
    (List.map RBlock ls ++ replicate 10 RTimeout).
Proof.
  intros Ho. induction 1 as [| d l ds ls (Hd & Hp & Hl) _ IH]; simpl;
    [repeat (constructor; [by constructor |]); constructor | constructor; [| done]].
  constructor; try done. lia.
Qed.

(** ** Memory safety *)
Lemma server_data_char_safe s c :
  alive Writer s -> ints s count = Some c -> 0 <= c < 512 ->
  wp data_char (fun _ s' => alive Writer s' /\ ints s' count = Some c) exit1 s.
Proof.
  intros Hal Hc Hr. pose proof (al_sized _ _ Hal). destruct (al_next _ _ Hal) as (n & Hn & ?).
  pose proof (al_mode _ _ Hal) as Hm. simpl in Hm. unfold data_char. repeat tstep. bcase.
  - tstep. apply TftpsErrors.putc_safe; [done |]. intros s1 Hal1 Hfr1. repeat tstep.
    split; [alive_solve |]. csimp. by apply (frame_int count _ Hfr1).
  - repeat tstep. bcase; repeat tstep; [split; [alive_solve | done] |]. simpl. repeat tstep.
    apply TftpsErrors.putc_safe; [alive_solve |].
    intros s1 Hal1 Hfr1; repeat tstep. split; [done |]. by apply (frame_int count _ Hfr1).
Qed.

Lemma server_on_data_safe r o s : alive r s -> wp (on_data o) (safe_round r) exit1 s.
Proof.
  intros Hal. pose proof (al_sized _ _ Hal) as Hs. pose proof (al_read _ _ Hal). pose proof (al_write _ _ Hal).
  unfold on_data. repeat tstep.
  destruct r; simpl; try (apply send_error_safe; [alive_solve | done | done]).
  repeat tstep. eapply wp_mono; [apply (fill_safe Writer data_char exit1 server_data_char_safe 513 0); try lia | | done].
  - alive_solve.
  - done.
  - intros ? s1 [Hal1 _]. pose proof (al_sized _ _ Hal1). destruct (al_block _ _ Hal1) as (b & Hb & ?).
    repeat tstep. eapply wp_sendto_any; [done | csimp; reflexivity | lia | apply exit1_send |].
    pose proof (u16_range (b + 1)). pose proof (al_world _ _ Hal1).
    bcase; repeat tstep; [split; done |]. alive_solve.
Qed.

#[export] Instance server_safe : SafeRounds false step.
Proof.
  intros r e o s Hal Hset Hidle He. pose proof (al_sized _ _ Hal) as Hs.
  assert (Hans : answered r) by (destruct r; try done; by specialize (Hidle eq_refl)).
  destruct e as [| d |]; cbn [step].
  - by apply retransmit_safe.
  - destruct He as (x & op & rest & -> & Hop & Hne).
    unfold on_packet. tstep. apply wp_recvfrom; [done |]. intros Hs0. repeat tstep. csimp.
    rewrite opcode_recv by apply Hs. rewrite !s8_eqb by (done || lia).
    assert (Hal0 : alive r (set_int (set_arr s packet
      (splice (arrs s packet) 0 (take (Z.to_nat MAXCHAR) (x :: op :: rest)))) time_count 0)) by alive_solve.
    destruct (Z.eqb_spec op 3); [by apply server_on_data_safe |].
    destruct (Z.eqb_spec op 4); [by apply on_ack_safe |].
    rewrite (proj2 (Z.eqb_neq op 5)) by done. by tstep.
  - by apply wp_exit.
Qed.

(** ** Properties *)

(** The kind of read a request asks for, the stream it delivers and the files for
    which it delivers it. *)
Definition read_mode (octet : bool) (mode : list Z) : Prop :=
  if octet then octet_mode mode else netascii_mode mode.
Definition read_stream (octet : bool) (content : list Z) : list Z :=
  if octet then content else netascii content.
Definition readable (octet : bool) (content : list Z) : Prop :=
  if octet then NOBYTES <= zlen content else Forall text_byte content.

(** C9: reads served by [server.c] refine the same stop-and-wait sender as those of
    [tftps.c]: octet reads of a file of at least 512 bytes, and netascii reads of a file
    without a 0xFF byte. After an octet read the child closes a stream it never opened. *)
Theorem server_read_refines_sender octet g files name mode content o evs aevs p ps outs fin :
  requested 1 name mode g -> files !! name = Some content -> good o ->
  read_mode octet mode -> readable octet content -> Forall2 abs_event evs aevs ->
  number 1 (blocks (read_stream octet content)) = p :: ps ->
  sender_run aevs (mk_sender p ps 0) = (outs, fin) ->
  exists s', sent (world s') = p :: outs /\ fs (world s') = files /\
    child o evs (init g files) =
      if fin : bool then (if octet then Undef Uninitialised s' else Exited 0 s') else Done tt s'.
Proof.
  intros Hreq Hfile Ho Hm Hc Hevs Hps Hrun. destruct octet; simpl in *.
  - destruct (number_blocks_cons 1 content) as (ps' & Hps' & ->). rewrite Hps' in Hps.
    rewrite (proj2 (Z.ltb_ge (zlen content) NOBYTES)) in Hps by lia. injection Hps as <- <-.
    rewrite <- (octet_first_long (g data)) in * by done. by eapply (octet_served step).
  - by eapply (netascii_served step).
Qed.

(** C10: a write served by [server.c] refines a receiver with a window of 512 bytes, when
    neither the blocks nor what the packet array holds behind the request contain a 0xFF
    byte: each block overwrites the start of the window, the whole window is appended to the
    file, and the number after the block's is acknowledged; a timeout sends the last
    acknowledgement again and the tenth in a row ends the transfer. *)
Theorem server_write_refines_window g files name mode o evs aevs outs fin a' :
  requested 2 name mode g -> files !! name = None -> send_ok o = true ->
  binary (slice (g packet) 4 512) -> Forall2 abs_event_w evs aevs ->
  wreceiver_run aevs (first_receiver g) = (outs, fin, a') ->
  exists s', sent (world s') = ack_packet 0 :: outs /\
    fs (world s') !! name = Some (wcontent a') /\ same_but name files (fs (world s')) /\
    child o evs (init g files) = if fin : bool then Exited 0 s' else Done tt s'.
Proof. intros. by eapply server_write_served. Qed.

(** Blocks of exactly 512 bytes are stored byte for byte, NUL bytes included; but
    the acknowledgements are numbered 0, 2, 3, ...: block 1 is never acknowledged
    under its own number; and the transfer ends only after ten more timeouts, each of
    which sends the last acknowledgement again.*)
Lemma server_write_full_blocks g files name mode o ds ls :
  requested 2 name mode g -> files !! name = None -> send_ok o = true ->
  binary (slice (g packet) 4 512) -> Forall2 full_block ds ls ->
  exists s', child o (List.map (fun d => (EvRecv d, o)) ds ++ replicate 10 (EvTimeout, o))
      (init g files) = Exited 0 s' /\
    fs (world s') !! name = Some (concat ls) /\
    sent (world s') = ack_packet 0 :: acks 2 (length ls) ++
      replicate 10 (List.last (acks 2 (length ls)) (ack_packet 0)).
Proof.
  intros Hreq Hnew Ho Hbin Hbl.
  assert (Hw : zlen (wwindow (first_receiver g)) = 512).
  { apply zlen_slice; try lia. destruct Hreq as (Hs & _). rewrite (Hs packet). done. }
  assert (Hls : Forall (fun l => zlen l = 512) ls).
  { clear -Hbl. induction Hbl as [| ? ? ? ? (_ & _ & Hl)]; by constructor. }
  destruct (wreceiver_run_full ls _ Hw Hls) as (a1 & Hrun1 & Hc1 & Hl1 & Ht1).
  destruct (wreceiver_run_silent a1 (Ht1 eq_refl)) as (a2 & Hrun2 & Hc2).
  pose proof (wreceiver_run_app _ (replicate 10 RTimeout) _ _ _ Hrun1) as Hrun. rewrite Hrun2 in Hrun.
  destruct (server_write_served g files name mode o _ _ _ true a2 Hreq Hnew Ho Hbin
    (full_blocks_abs ds ls o Ho Hbl) Hrun) as (s' & Hs & Hf & _ & Hc).
  exists s'. split; [exact Hc |]. rewrite Hs, Hf, Hc2, Hc1, Hl1. done.
Qed.

(** A last block shorter than 512 bytes is not stored as it was sent: it is
    completed, in the file, with the bytes of the block before it. *)
Lemma server_short_block_repeats_old g files name mode o d1 l1 d2 l2 :
  requested 2 name mode g -> files !! name = None -> send_ok o = true ->
  binary (slice (g packet) 4 512) -> full_block d1 l1 ->
  is_data d2 l2 -> binary l2 -> zlen l2 < 512 ->
  exists s', child o [(EvRecv d1, o); (EvRecv d2, o)] (init g files) = Done tt s' /\
    fs (world s') !! name = Some (l1 ++ l2 ++ drop (length l2) l1) /\
    zlen (l2 ++ drop (length l2) l1) = 512.
Proof.
  intros Hreq Hnew Ho Hbin (Hd1 & Hb1 & Hl1) Hd2 Hb2 Hl2.
  assert (Hw : zlen (slice (g packet) 4 512) = 512).
  { apply zlen_slice; try lia. destruct Hreq as (Hs & _). rewrite (Hs packet). done. }
  assert (Hrun : wreceiver_run [RBlock l1; RBlock l2] (first_receiver g) =
    ([ack_packet 2; ack_packet 3], false,
     mk_wreceiver (l1 ++ overwrite l1 l2) (overwrite l1 l2) 3 (ack_packet 3) 0)).
  { unfold first_receiver. cbn [wreceiver_run wreceiver_step wwindow wcontent wblock].
    by rewrite !(overwrite_full _ l1) by lia. }
  assert (Hevs : Forall2 abs_event_w [(EvRecv d1, o); (EvRecv d2, o)] [RBlock l1; RBlock l2]).
  { constructor; [constructor; try done; lia | constructor; [constructor; try done; lia | constructor]]. }
  destruct (server_write_served _ _ _ _ _ _ _ _ _ _ Hreq Hnew Ho Hbin Hevs Hrun)
    as (s' & Hs & Hf & _ & Hc).
  exists s'. split; [exact Hc |]. split; [exact Hf |].
  unfold zlen in *. rewrite length_app, length_drop. lia.
Qed.

(** C11: memory safety of [server.c], for requests that are reads or writes: the guarantee
    of [tftps.c], for datagrams of at least two bytes that are no ERROR packets. *)
Theorem server_child_safe g files op name mode o evs :
  requested op name mode g -> op = 1 \/ op = 2 -> Forall (fun eo => proper eo.1) evs ->
  acceptable (child o evs (init g files)).
Proof.
  intros Hreq Hop. apply (child_safe false step _ _ op name mode); try done; [| by right].
  destruct Hop as [-> | ->]; unfold is_byte; lia.
Qed.

(** After any other request the first timeout sends a packet whose length
    [size_sp] was never assigned. *)
Lemma server_unknown_request_undefined g files op junk o evs :
  sized g -> g packet = [0; op] ++ junk -> is_byte op -> op <> 1 -> op <> 2 ->
  fails (child o ((EvTimeout, o) :: evs)) Uninitialised (init g files).
Proof.
  intros Hs Hp Hop H1 H2. assert (sized (arrs (init g files))) by done.
  unfold child, child_process. apply fails_bind. unfold request. repeat tstep. csimp. rewrite Hp.
  change (List.hd 0 (slice ([0; op] ++ junk) 1 1)) with op. rewrite !s8_eqb by (done || lia).
  rewrite (proj2 (Z.eqb_neq op 1)), (proj2 (Z.eqb_neq op 2)) by done. tstep.
  do 4 apply fails_first. by eexists.
Qed.

(** *** Witnesses *)
Lemma server_read_refines_sender_witness :
  exists s', sent (world s') = replicate 2 [0; 3; 0; 1; 65; 13; 10] /\
    child all_ok [(EvTimeout, all_ok); (EvRecv [0; 4; 0; 1], all_ok)]
      (init (sample_arrays 1 (lit "f") (lit "netascii")) {[lit "f" := [65; 10]]}) = Exited 0 s'.
Proof.
  destruct (server_read_refines_sender false (sample_arrays 1 (lit "f") (lit "netascii"))
    {[lit "f" := [65; 10]]} (lit "f") (lit "netascii") [65; 10] all_ok
    [(EvTimeout, all_ok); (EvRecv [0; 4; 0; 1], all_ok)] [ATimeout; AAck] [0; 3; 0; 1; 65; 13; 10] []
    [[0; 3; 0; 1; 65; 13; 10]] true) as (s' & Hs & _ & Hc).
  - sample_request.
  - reflexivity.
  - done.
  - by left.
  - simpl. unfold text_byte; repeat constructor; lia.
  - constructor; [by constructor | constructor; [constructor; [done | by eexists _, _] | constructor]].
  - vm_compute. reflexivity.
  - vm_compute. reflexivity.
  - exists s'. split; [exact Hs | exact Hc].
Defined.

Lemma sample_binary op name mode :
  forallb (fun b => (0 <=? b) && (b <? 255)) (slice (sample_arrays op name mode packet) 4 512) = true ->
  binary (slice (sample_arrays op name mode packet) 4 512).
Proof.
  generalize (slice (sample_arrays op name mode packet) 4 512). induction l as [| b l IH]; simpl; [constructor |].
  intros [Hb Hl]%andb_prop. apply andb_prop in Hb as [H1%Z.leb_le H2%Z.ltb_lt].
  constructor; [lia | by apply IH].
Qed.

Ltac sample_data := by eexists _, _, _.
Ltac sample_bin := unfold binary; repeat constructor; lia.

Lemma server_write_refines_window_witness :
  exists s', sent (world s') = ack_packet 0 :: [ack_packet 2] /\
    fs (world s') !! lit "f" = Some (lit "hitet" ++ [0] ++ replicate 506 77) /\
    same_but (lit "f") ∅ (fs (world s')) /\
    child all_ok [(EvRecv ([0; 3; 0; 1] ++ lit "hi"), all_ok)]
      (init (sample_arrays 2 (lit "f") (lit "octet")) ∅) = Done tt s'.
Proof.
  apply (server_write_refines_window (sample_arrays 2 (lit "f") (lit "octet")) ∅ (lit "f") (lit "octet")
    all_ok [(EvRecv ([0; 3; 0; 1] ++ lit "hi"), all_ok)] [RBlock (lit "hi")] [ack_packet 2] false
    (mk_wreceiver (lit "hitet" ++ [0] ++ replicate 506 77) (lit "hitet" ++ [0] ++ replicate 506 77) 2
       (ack_packet 2) 0)).
  - sample_request.
  - reflexivity.
  - reflexivity.
  - apply sample_binary. reflexivity.
  - constructor; [constructor; [done | sample_data | sample_bin | by vm_compute] | constructor].
  - reflexivity.
Defined.

Lemma server_write_full_blocks_witness :
  exists s', child all_ok (List.map (fun d => (EvRecv d, all_ok)) [[0; 3; 0; 1] ++ replicate 512 7]
        ++ replicate 10 (EvTimeout, all_ok))
      (init (sample_arrays 2 (lit "f") (lit "octet")) ∅) = Exited 0 s' /\
    fs (world s') !! lit "f" = Some (concat [replicate 512 7]) /\
    sent (world s') = ack_packet 0 :: acks 2 (length [replicate 512 7]) ++
      replicate 10 (List.last (acks 2 (length [replicate 512 7])) (ack_packet 0)).
Proof.
  apply (server_write_full_blocks (sample_arrays 2 (lit "f") (lit "octet")) ∅ (lit "f") (lit "octet")
    all_ok [[0; 3; 0; 1] ++ replicate 512 7] [replicate 512 7]).
  - sample_request.
  - reflexivity.
  - reflexivity.
  - apply sample_binary. reflexivity.
  - constructor; [split; [sample_data | split; [apply Forall_replicate; lia | reflexivity]] | constructor].
Defined.

Lemma server_short_block_repeats_old_witness :
  exists s', child all_ok [(EvRecv ([0; 3; 0; 1] ++ replicate 512 7), all_ok);
      (EvRecv ([0; 3; 0; 2] ++ [1; 2]), all_ok)] (init (sample_arrays 2 (lit "f") (lit "octet")) ∅)
      = Done tt s' /\
    fs (world s') !! lit "f" = Some (replicate 512 7 ++ [1; 2] ++ drop (length [1; 2]) (replicate 512 7)) /\
    zlen ([1; 2] ++ drop (length [1; 2]) (replicate 512 7)) = 512.
Proof.
  apply (server_short_block_repeats_old (sample_arrays 2 (lit "f") (lit "octet")) ∅ (lit "f") (lit "octet")
    all_ok ([0; 3; 0; 1] ++ replicate 512 7) (replicate 512 7) ([0; 3; 0; 2] ++ [1; 2]) [1; 2]).
  - sample_request.
  - reflexivity.
  - reflexivity.
  - apply sample_binary. reflexivity.
  - split; [sample_data | split; [apply Forall_replicate; lia | reflexivity]].
  - sample_data.
  - sample_bin.
  - by vm_compute.
Defined.

Lemma server_child_safe_witness :
  acceptable (child all_ok [(EvTimeout, all_ok); (EvRecv [0; 3; 0; 1; 0; 255], all_ok); (EvRecvErr, all_ok)]
    (init (sample_arrays 2 (lit "f") (lit "mail")) ∅)).
Proof.
  apply (server_child_safe (sample_arrays 2 (lit "f") (lit "mail")) ∅ 2 (lit "f") (lit "mail") all_ok
    [(EvTimeout, all_ok); (EvRecv [0; 3; 0; 1; 0; 255], all_ok); (EvRecvErr, all_ok)]).
  - sample_request.
  - by right.
  - repeat constructor. exists 0, 3, [0; 1; 0; 255]. unfold is_byte. split; [done | lia].
Defined.

Lemma server_unknown_request_undefined_witness :
  fails (child all_ok [(EvTimeout, all_ok)]) Uninitialised
    (init (sample_arrays 4 (lit "f") (lit "octet")) ∅).
Proof.
  apply (server_unknown_request_undefined (sample_arrays 4 (lit "f") (lit "octet")) ∅ 4
    (drop 2 (sample_arrays 4 (lit "f") (lit "octet") packet)) all_ok []).
  - intros []; reflexivity.
  - reflexivity.
  - unfold is_byte; lia.
  - lia.
  - lia.
Defined.
End TftpServer.
