(* ===== verification/TftpListener.v ===== *)
(** * [tftps.c] and [server.c]: start-up and the listening process

    The loop that binds the first usable address, the loop that receives requests and
    forks one child per request, and the sockets a child creates before it serves its
    client.  The theorem connects them with the children of the other files: every
    well-formed request that reaches the listener starts a child in the state the
    theorems on reads and writes assume. *)

From S2P Require Import Prelude CMem TftpState Tftps TftpFacts TftpRead TftpsRead.
From stdpp Require Import base list gmap.
From Stdlib Require Import ZArith Lia.
From Stdlib Require String.
Import String.StringSyntax.
Open Scope Z_scope.

Module TftpListener.
Import Tftp TftpFacts TftpRead TftpsRead.

(** ** Binding *)

(** The answers of [socket] and [bind] for one address of the list. *)
Record addr_ans := { socket_ok : bool; bind_ok : bool }.

(** The index of the address that was bound, and the indices whose socket was closed
    again; [None]: the list was exhausted. *)
Fixpoint bind_loop (i : nat) (servinfo : list addr_ans) (closed : list nat) : option nat * list nat :=
  match servinfo with
  | [] => (None, closed)
  | res :: rest =>
      if negb (socket_ok res) then bind_loop (S i) rest closed
      else if negb (bind_ok res) then bind_loop (S i) rest (closed ++ [i])
      else (Some i, closed)
  end.

(** The start of [main]: the exit status, or the bound address.  [servinfo] is the
    answer of [getaddrinfo], [None] for an error. *)
Definition setup (servinfo : option (list addr_ans)) (sigaction_ok : bool) : Z + nat :=
  match servinfo with
  | None => inl 1
  | Some l =>
      match bind_loop 0 l [] with
      | (None, _) => inl 2
      | (Some i, _) => if sigaction_ok then inr i else inl 1
      end
  end.

(** ** The sockets of a child: the status it exits with, or [None] to go on *)
Definition child_setup (socket_ok setsockopt_ok bind_ok : bool) : option Z :=
  if negb socket_ok then Some 1
  else if negb setsockopt_ok then Some 1
  else if negb bind_ok then Some 1
  else None.

(** ** The listening loop *)

(** What [recvfrom] gives the listener, and whether [fork] succeeds: a failing [fork]
    returns -1, which the program takes for the parent's result. *)
Inductive lrecv := LRecv (dgram : list Z) (fork_ok : bool) | LRecvErr.

(** The arrays of the listener after a datagram; a child starts with a copy. *)
Definition received (g : arr -> list Z) (dgram : list Z) : arr -> list Z :=
  upd g packet (splice (g packet) 0 (take (Z.to_nat MAXCHAR) dgram)).

(** The arrays the children start with, and the exit status once [recvfrom] failed. *)
Fixpoint listen (g : arr -> list Z) (evs : list lrecv) : list (arr -> list Z) * option Z :=
  match evs with
  | [] => ([], None)
  | LRecvErr :: _ => ([], Some 1)
  | LRecv d ok :: evs' =>
      let g' := received g d in
      let '(kids, st) := listen g' evs' in
      (if ok then g' :: kids else kids, st)
  end.

(** [dec2bin], a helper for printing: the five low bits of [num], and the NUL. *)
Fixpoint bits (mask : Z) (n : nat) (num : Z) : list Z :=
  match n with
  | O => []
  | S n' =>
      let mask' := Z.shiftr mask 1 in
      ((if Z.land mask' num =? 0 then 0 else 1) + 48) :: bits mask' n' num
  end.
Definition dec2bin (num : Z) : list Z := bits (Z.shiftl 0x10 1) 5 num ++ [0].

(** ** [server.c] has the same start-up, listening loop and helper *)
Definition server_setup := setup.
Definition server_child_setup := child_setup.
Definition server_listen := listen.
Definition server_dec2bin := dec2bin.

(** ** Facts *)

(** The address that is bound is the first usable one; none is bound only when none is
    usable. *)
Lemma bind_loop_first l : forall i closed,
  match (bind_loop i l closed).1 with
  | Some j => exists k, j = (i + k)%nat /\
      (exists res, l !! k = Some res /\ socket_ok res = true /\ bind_ok res = true) /\
      forall k' res, (k' < k)%nat -> l !! k' = Some res -> socket_ok res && bind_ok res = false
  | None => forall res, res ∈ l -> socket_ok res && bind_ok res = false
  end.
Proof.
  induction l as [| res l IH]; intros i closed; simpl.
  - intros res H. inversion H.
  - assert (Hskip : forall closed', socket_ok res && bind_ok res = false ->
      match (bind_loop (S i) l closed').1 with
      | Some j => exists k, j = (i + k)%nat /\
          (exists r, (res :: l) !! k = Some r /\ socket_ok r = true /\ bind_ok r = true) /\
          forall k' r, (k' < k)%nat -> (res :: l) !! k' = Some r -> socket_ok r && bind_ok r = false
      | None => forall r, r ∈ res :: l -> socket_ok r && bind_ok r = false
      end).
    { intros closed' Hres. specialize (IH (S i) closed'). destruct (bind_loop (S i) l closed').1.
      - destruct IH as (k & -> & Hk & Hlt). exists (S k). split; [lia |]. split; [done |].
        intros [| k'] r Hk' Hr; [by injection Hr as <- |]. apply (Hlt k'); [lia | done].
      - intros r [-> | Hr]%elem_of_cons; [done | by apply IH]. }
    destruct (socket_ok res) eqn:Es; [| by apply Hskip]. simpl.
    destruct (bind_ok res) eqn:Eb; [| by apply Hskip]. simpl.
    exists 0%nat. split; [lia |]. split; [by exists res |]. lia.
Qed.

Lemma sized_received g d : sized g -> sized (received g d).
Proof. intros Hg. apply sized_splice; [done | lia | apply zlen_take_packet]. Qed.

(** A request in a datagram is the request its child sees. *)
Lemma requested_received g op name mode :
  sized g -> nonzero name -> zlen name < 10 -> nonzero mode -> zlen mode < 10 ->
  requested op name mode (received g (request_packet op name mode)).
Proof.
  intros Hg Hn Hln Hm Hlm. split; [by apply sized_received |]. do 4 (split; [done |]).
  unfold received. rewrite upd_eq, splice_0, take_ge; [by eexists |].
  unfold request_packet, zlen, MAXCHAR in *. rewrite !length_app. simpl. lia.
Qed.

Definition arrived (e : lrecv) : Prop := match e with LRecv _ _ => True | LRecvErr => False end.
Definition forked (e : lrecv) : bool := match e with LRecv _ ok => ok | LRecvErr => false end.

Lemma listen_app pre : forall g evs,
  Forall arrived pre ->
  exists g' kids, (sized g -> sized g') /\ length kids = length (List.filter forked pre) /\
    (listen g (pre ++ evs)).1 = kids ++ (listen g' evs).1 /\ (listen g (pre ++ evs)).2 = (listen g' evs).2.
Proof.
  induction pre as [| [d ok |] pre IH]; intros g evs Hpre; inversion Hpre as [| ? ? Hd Hrest]; subst; [| | done].
  - by exists g, [].
  - destruct (IH (received g d) evs Hrest) as (g' & kids & Hs & Hl & H1 & H2).
    exists g', (if ok then received g d :: kids else kids).
    split; [intros; by apply Hs, sized_received |]. cbn [app listen].
    destruct (listen (received g d) (pre ++ evs)) as [ks st]. simpl in *. subst.
    destruct ok; simpl; by rewrite ?Hl.
Qed.

(** ** Properties *)

(** C12: whatever datagrams the listener received before, a read or write request whose
    name and mode fit starts, after all children forked so far, a child whose state
    is the one assumed by the theorems on reads and writes, and the listener goes on
    listening. *)
Theorem listener_starts_child g pre op name mode :
  sized g -> Forall arrived pre ->
  nonzero name -> zlen name < 10 -> nonzero mode -> zlen mode < 10 ->
  exists kids g', listen g (pre ++ [LRecv (request_packet op name mode) true]) = (kids ++ [g'], None) /\
    length kids = length (List.filter forked pre) /\ requested op name mode g'.
Proof.
  intros Hg Hpre Hn Hln Hm Hlm.
  destruct (listen_app pre g [LRecv (request_packet op name mode) true] Hpre) as (g1 & kids & Hs & Hl & H1 & H2).
  exists kids, (received g1 (request_packet op name mode)). split; [| split; [done |]].
  - destruct (listen g _) as [ks st]. simpl in *. by subst.
  - apply requested_received; auto.
Qed.

(** *** Witness *)
Lemma listener_starts_child_witness :
  exists kids g', listen (sample_arrays 1 (lit "old") (lit "octet"))
      ([LRecv [0; 9] true; LRecv [] false] ++ [LRecv (request_packet 2 (lit "f") (lit "octet")) true])
      = (kids ++ [g'], None) /\
    length kids = 1%nat /\ requested 2 (lit "f") (lit "octet") g'.
Proof.
  apply (listener_starts_child (sample_arrays 1 (lit "old") (lit "octet"))
    [LRecv [0; 9] true; LRecv [] false] 2 (lit "f") (lit "octet")).
  - intros []; reflexivity.
  - repeat constructor.
  - apply nonzero_dec. reflexivity.
  - reflexivity.
  - apply nonzero_dec. reflexivity.
  - reflexivity.
Defined.
End TftpListener.
