(* ===== verification/TftpShare.v ===== *)
(** * Several transfers at once

    The listener forks a child for every request and goes on; the children run at the
    same time and share nothing but the files.  Here the rounds of any number of
    children are interleaved in any order over one file system, and the theorem says
    that transfers of different files do not notice each other: every child ends up
    where it would alone, and its file with it.

    A statement is [local] when it looks at no file but one, and changes no other; a
    round of both servers is, and [LocalRounds] is the interface between the statements
    and the interleaving.  The unit of the interleaving is a round of a child (a request,
    a datagram or a timeout). *)

From S2P Require Import Prelude CMem TftpState Tftps TftpFacts TftpRead TftpsRead TftpServer TftpListener.
From stdpp Require Import base list gmap.
From Stdlib Require Import ZArith Lia.
From Stdlib Require String.
Import String.StringSyntax.
Open Scope Z_scope.

Module TftpShare.
Import Tftp TftpFacts TftpsRead TftpListener.

(** ** Statements that touch one file *)
Abbreviation files := (gmap (list Z) (list Z)).

(** [overlay f a b]: the file [f] as in [a], all others as in [b]. *)
Definition overlay (f : list Z) (a b : files) : files := partial_alter (fun _ => a !! f) f b.

Lemma overlay_own f a b : overlay f a b !! f = a !! f.
Proof. apply lookup_partial_alter_eq. Qed.
Lemma overlay_other f a b n : n <> f -> overlay f a b !! n = b !! n.
Proof. intros. by apply lookup_partial_alter_ne. Qed.
Lemma overlay_insert f a b c : overlay f (<[f := c]> a) b = <[f := c]> (overlay f a b).
Proof.
  apply map_eq. intros n. destruct (decide (n = f)) as [-> | Hn].
  - by rewrite overlay_own, !lookup_insert_eq.
  - by rewrite overlay_other, !lookup_insert_ne, overlay_other by done.
Qed.
Lemma overlay_same f a b : a !! f = b !! f -> overlay f a b = b.
Proof.
  intros H. apply map_eq. intros n. destruct (decide (n = f)) as [-> | Hn]; [by rewrite overlay_own | by rewrite overlay_other].
Qed.
Lemma overlay_total f a b : overlay f a b !!! f = a !!! f.
Proof. by rewrite !lookup_total_alt, overlay_own. Qed.

(** The state [s] in a file system that agrees with its own on [f] only. *)
Definition graft (f : list Z) (b : files) (s : st) : st := set_world s (set_fs (world s) (overlay f (fs (world s)) b)).

Definition over {A} (h : st -> st) (o : outcome st A) : outcome st A :=
  match o with Done a s => Done a (h s) | Exited c s => Exited c (h s) | Undef w s => Undef w (h s) end.

Section Local.
(** The file of the child, and whether the child may write it. *)
Variables (f : list Z) (wr : bool).

(** The stream of the child, if it writes, is its own file. *)
Definition tied (s : st) : Prop := match fp (world s) with FOpen (WStream n) => wr = true /\ n = f | _ => True end.

Definition local_at {A} (P : st -> Prop) (m : C A) : Prop := forall s, P s -> tied s ->
  (forall b, m (graft f b s) = over (graft f b) (m s)) /\ tied (final (m s)) /\ (wr = false -> fs (world (final (m s))) = fs (world s)).
Definition local {A} : C A -> Prop := local_at (fun _ => True).

Lemma local_weaken {A} P (m : C A) : local m -> local_at P m.
Proof. intros H s _ Ht. by apply H. Qed.

Lemma local_bind_at {A B} P (Q : A -> st -> Prop) (m : C A) (k : A -> C B) :
  local_at P m -> (forall a, local_at (Q a) (k a)) -> (forall s a s', P s -> m s = Done a s' -> Q a s') -> local_at P (bind m k).
Proof.
  intros Hm Hk HQ s HP Ht. destruct (Hm s HP Ht) as (Hg & Ht' & Hf). unfold bind.
  destruct (m s) as [a s1 | c s1 | w s1] eqn:Hrun; cbn [final] in *.
  - destruct (Hk a s1 (HQ s a s1 HP Hrun) Ht') as (Hg1 & Ht1 & Hf1). split; [| split; [done |]].
    + intros b. rewrite Hg. cbn [over]. apply Hg1.
    + intros Hw. by rewrite Hf1, Hf.
  - split; [| done]. intros b. by rewrite Hg.
  - split; [| done]. intros b. by rewrite Hg.
Qed.

Lemma local_bind {A B} (m : C A) (k : A -> C B) : local m -> (forall a, local (k a)) -> local (bind m k).
Proof. intros Hm Hk. by apply (local_bind_at _ (fun _ _ => True)). Qed.

Lemma local_ret {A} (a : A) : local (ret a).
Proof. by intros s _ Ht. Qed.
Lemma local_exit {A} c : local (exit (A := A) c).
Proof. by intros s _ Ht. Qed.
Lemma local_undef {A} w : local (undef (A := A) w).
Proof. by intros s _ Ht. Qed.
Lemma local_geti v : local (geti v).
Proof. intros s _ Ht. unfold geti. cbn [ints graft set_world]. by destruct (ints s v). Qed.
Lemma local_seti v z : local (seti v z).
Proof. by intros s _ Ht. Qed.
Lemma local_read_arr a off n : local (read_arr a off n).
Proof. intros s _ Ht. unfold read_arr. cbn [arrs graft set_world]. by destruct (in_bounds _ _ _). Qed.
Lemma local_write_arr a off l : local (write_arr a off l).
Proof. intros s _ Ht. unfold write_arr. cbn [arrs graft set_world]. by destruct (in_bounds _ _ _). Qed.
Lemma local_read_str a off : local (read_str a off).
Proof. intros s _ Ht. unfold read_str. cbn [arrs graft set_world]. destruct (in_bounds _ _ _); [| done]. by destruct (cstr _). Qed.

Lemma local_for n guard incr body : local guard -> local incr -> local body -> local (for_fuel n guard incr body).
Proof.
  intros Hg Hi Hb. induction n as [| n IH]; [apply local_undef |]. cbn [for_fuel]. apply local_bind; [done |]. intros [].
  - apply local_bind; [done |]. intros []; [by apply local_bind | apply local_ret].
  - apply local_ret.
Qed.
End Local.

Create HintDb local.
#[export] Hint Resolve local_ret local_exit local_undef local_geti local_seti local_read_arr local_write_arr local_read_str : local.

(** Statements put together from local ones: unfold, split sequences and branches. *)
Ltac local_go :=
  repeat first [solve [auto with local] | match goal with
  | |- local _ _ (bind _ _) => apply local_bind; [| intros ?]
  | |- local _ _ (for_fuel _ _ _ _) => apply local_for
  | |- local _ _ (if ?b then _ else _) => destruct b
  | |- local _ _ (match ?b with Cont => _ | Brk => _ end) => destruct b
  end].

Section Statements.
Variables (f : list Z) (wr : bool).
Abbreviation local := (local f wr).

Lemma local_load a i : local (load a i).
Proof. unfold load. local_go. Qed.
Lemma local_memcpy d doff a off n : local (memcpy d doff a off n).
Proof. unfold memcpy. local_go. Qed.
Lemma local_memset0 a n : local (memset0 a n).
Proof. unfold memset0. local_go. Qed.
Lemma local_store a i v : local (store a i v).
Proof. unfold store. local_go. Qed.
Lemma local_strlen a off : local (strlen a off).
Proof. unfold strlen. local_go. Qed.
Lemma local_strcpy d a off : local (strcpy d a off).
Proof. unfold strcpy. local_go. Qed.
Lemma local_strcpy_lit d t : local (strcpy_lit d t).
Proof. unfold strcpy_lit. local_go. Qed.
Lemma local_streq_lit a t : local (streq_lit a t).
Proof. unfold streq_lit. local_go. Qed.
Lemma local_sprintf_c a t : local (sprintf_c a t).
Proof. unfold sprintf_c. local_go. Qed.
End Statements.
#[export] Hint Resolve local_load local_memcpy local_memset0 local_store local_strlen local_strcpy local_strcpy_lit local_streq_lit local_sprintf_c : local.

(** ** The files and the socket *)
Section World.
Variables (f : list Z) (wr : bool).
Abbreviation local := (local f wr).

Lemma local_add_sent d : local (let* w := getw in setw (add_sent w d)).
Proof. by intros s _ Ht. Qed.
Hint Resolve local_add_sent : local.
Lemma local_sendto o : local (sendto o).
Proof. unfold sendto. local_go. Qed.

Lemma local_getc : local getc.
Proof.
  intros s _ Ht. unfold getc, bind, getw. cbn [world graft set_world set_fs fp]. unfold tied in *.
  destruct (fp (world s)) as [| | [[| x l] | n]] eqn:Hfp; cbn; rewrite ?Hfp; done.
Qed.
Lemma local_fclose : local fclose.
Proof.
  intros s _ Ht. unfold fclose, bind, getw. cbn [world graft set_world set_fs fp]. unfold tied in *.
  destruct (fp (world s)) as [| | [l | n]] eqn:Hfp; cbn; rewrite ?Hfp; done.
Qed.
Lemma local_putc c : local (putc c).
Proof.
  intros s _ Ht. unfold putc, bind, getw. cbn [world graft set_world set_fs fp]. unfold tied in *.
  destruct (fp (world s)) as [| | [l | n]] eqn:Hfp; cbn; rewrite ?Hfp; try done.
  destruct Ht as [Hw ->]. split; [| split; [done | by rewrite Hw]].
  intros b. unfold setw, over, graft. cbn. by rewrite overlay_total, overlay_insert.
Qed.
Lemma local_read_block o : local (read_block o).
Proof.
  intros s _ Ht. unfold read_block, bind, getw. cbn [world graft set_world set_fs read_fd].
  destruct (read_fd (world s)) as [l |]; [| done]. destruct (read_ok o); [| done].
  unfold write_arr. cbn [arrs graft set_world]. by destruct (in_bounds _ _ _).
Qed.
Lemma local_close : local (let* w := getw in setw (set_read_fd w None)).
Proof. by intros s _ Ht. Qed.
End World.
#[export] Hint Resolve local_sendto local_getc local_fclose local_putc local_read_block local_close : local.

(** ** The rounds *)
Section Rounds.
Variables (f : list Z) (wr : bool).
Abbreviation local := (local f wr).

Lemma local_send_error o code text : local (send_error o code text).
Proof. unfold send_error, build_error. local_go. Qed.
Lemma local_send_first o : local (send_first o).
Proof. unfold send_first. local_go. Qed.
Lemma local_send_next o : local (send_next o).
Proof. unfold send_next. local_go. Qed.
Lemma local_translate c : local (translate c).
Proof. unfold translate. local_go. Qed.
Lemma local_count_lt n : local (count_lt n).
Proof. unfold count_lt. local_go. Qed.
Lemma local_count_incr : local count_incr.
Proof. unfold count_incr. local_go. Qed.
Hint Resolve local_send_error local_send_first local_send_next local_translate local_count_lt local_count_incr : local.

Lemma local_rrq_char : local rrq_char.
Proof. unfold rrq_char. local_go. Qed.
Lemma local_ack_char : local ack_char.
Proof. unfold ack_char. local_go. Qed.
Hint Resolve local_ack_char : local.
Lemma local_ack_read o : local (ack_read o).
Proof. unfold ack_read, ack_read_octet, ack_read_netascii. local_go. Qed.
Hint Resolve local_ack_read : local.
Lemma local_on_ack o : local (on_ack o).
Proof. unfold on_ack. local_go. Qed.
Lemma local_on_error : local on_error.
Proof. unfold on_error. local_go. Qed.
Lemma local_cleanup : local cleanup.
Proof. unfold cleanup. local_go. Qed.
Lemma local_recvfrom d : local (recvfrom d).
Proof. unfold recvfrom. local_go. Qed.
Hint Resolve local_on_ack local_on_error local_recvfrom : local.

Lemma local_tftps_step e o : local (Tftps.step e o).
Proof.
  destruct e; cbn [Tftps.step]; unfold Tftps.on_timeout, Tftps.retransmit, Tftps.write_timeout, Tftps.on_packet, Tftps.on_data,
    Tftps.count_lt_strlen, Tftps.data_char; local_go.
Qed.
Lemma local_server_step e o : local (TftpServer.step e o).
Proof.
  destruct e; cbn [TftpServer.step]; unfold TftpServer.on_timeout, TftpServer.on_packet, TftpServer.on_data, TftpServer.data_char,
    TftpServer.server_on_ack, TftpServer.server_on_error; local_go.
Qed.

(** *** The request: the file it names *)
Definition named (s : st) : Prop := cstr (arrs s Filename) = Some f.
(** What the request in [packet] asks for. *)
Definition asks (s : st) : Prop := forall n, cstr (drop 2 (arrs s packet)) = Some n -> n = f.

(** Statements that leave the array [Filename] alone. *)
Definition spares {A} (m : C A) : Prop := forall s a s', m s = Done a s' -> arrs s' Filename = arrs s Filename.

Lemma named_bind {A B} (m : C A) (k : A -> C B) : local m -> spares m -> (forall a, local_at f wr named (k a)) -> local_at f wr named (bind m k).
Proof.
  intros Hm Hs Hk. apply (local_bind_at f wr _ (fun _ => named)); [by apply local_weaken | done |].
  intros s a s' HP Hrun. unfold named. by rewrite (Hs s a s' Hrun).
Qed.

Lemma spares_write a off l : a <> Filename -> spares (write_arr a off l).
Proof.
  intros Ha s u s'. unfold write_arr. destruct (in_bounds _ _ _); [| done]. intros [= _ <-]. cbn [arrs set_arr]. by rewrite upd_ne.
Qed.
Lemma spares_bind {A B} (m : C A) (k : A -> C B) : spares m -> (forall a, spares (k a)) -> spares (bind m k).
Proof. intros Hm Hk s b s'. unfold bind. destruct (m s) as [a s1 | |] eqn:Hrun; [| done..]. intros Hr. by rewrite (Hk _ _ _ _ Hr), (Hm _ _ _ Hrun). Qed.
Lemma spares_ret {A} (a : A) : spares (ret a).
Proof. by intros s ? ? [= _ <-]. Qed.
Lemma spares_geti v : spares (geti v).
Proof. intros s ? ?. unfold geti. destruct (ints s v); [| done]. by intros [= _ <-]. Qed.
Lemma spares_seti v z : spares (seti v z).
Proof. by intros s ? ? [= _ <-]. Qed.
Lemma spares_read_str a off : spares (read_str a off).
Proof. intros s u s'. unfold read_str. destruct (in_bounds _ _ _); [| done]. destruct (cstr _); [| done]. by intros [= _ <-]. Qed.
Hint Resolve spares_bind spares_ret spares_geti spares_seti spares_read_str : local.
Lemma spares_streq a t : spares (streq_lit a t).
Proof. unfold streq_lit. auto with local. Qed.

(** Opening the file: what happens depends on this file only. *)
Lemma named_open {A} (K : list Z -> tworld -> C A) :
  (forall s, named s -> tied f wr s -> (forall b, K f (world (graft f b s)) (graft f b s) = over (graft f b) (K f (world s) s)) /\
    tied f wr (final (K f (world s) s)) /\ (wr = false -> fs (world (final (K f (world s) s))) = fs (world s))) ->
  local_at f wr named (let* n := read_str Filename 0 in let* w := getw in K n w).
Proof.
  intros HK s Hn Ht. destruct (HK s Hn Ht) as (H1 & H2 & H3).
  assert (Hr : forall s', named s' -> (let* n := read_str Filename 0 in let* w := getw in K n w) s' = K f (world s') s').
  { intros s' Hs'. unfold bind, read_str, getw. rewrite in_bounds_true by (pose proof (zlen_nonneg (arrs s' Filename)); lia).
    rewrite drop_0. by rewrite Hs'. }
  rewrite (Hr s Hn). split; [| done]. intros b. rewrite Hr by done. apply H1.
Qed.

(** What follows a change of the world. *)
Lemma local_after {A} (s s1 : st) (rest : C A) : local rest -> tied f wr s1 -> (wr = false -> fs (world s1) = fs (world s)) ->
  (forall b, rest (graft f b s1) = over (graft f b) (rest s1)) /\ tied f wr (final (rest s1)) /\
  (wr = false -> fs (world (final (rest s1))) = fs (world s)).
Proof. intros Hl Ht Hf. destruct (Hl s1 I Ht) as (H1 & H2 & H3). split; [done |]. split; [done |]. intros Hw. by rewrite H3, Hf. Qed.

Lemma named_rrq_octet o : local_at f wr named (rrq_octet o).
Proof.
  unfold rrq_octet. apply named_bind; [local_go | by intros s a s' [= _ <-] |]. intros _. apply named_open.
  intros s Hn Ht. cbn [world graft set_world set_fs fs]. destruct (fs (world s) !! f) as [content |] eqn:Hc.
  - destruct (local_after s (set_world s (set_read_fd (world s) (Some content)))
      (seti count NOBYTES ;;; read_block o ;;; send_first o ;;; ret Transfer)) as (H1 & H2); [local_go | done | done |].
    split; [| exact H2]. intros b. rewrite overlay_own, Hc. apply H1.
  - split; [| done]. intros b. by rewrite overlay_own, Hc.
Qed.

Lemma named_rrq_netascii o : local_at f wr named (rrq_netascii o).
Proof.
  unfold rrq_netascii. apply named_bind; [local_go | by intros s a s' [= _ <-] |]. intros _. apply named_open.
  intros s Hn Ht. cbn [world graft set_world set_fs fs]. destruct (fs (world s) !! f) as [content |] eqn:Hc.
  - destruct (local_after s (set_world s (set_fp (world s) (FOpen (RStream content))))
      (seti count 0 ;;; for_fuel 513 (count_lt NOBYTES) count_incr rrq_char ;;; send_first o ;;; ret Transfer)) as (H1 & H2);
      [pose proof local_rrq_char; local_go | done | done |].
    split; [| exact H2]. intros b. rewrite overlay_own, Hc. apply H1.
  - destruct (local_after s (set_world s (set_fp (world s) FNull)) (send_error o 1 "File not found" ;;; ret Leave)) as (H1 & H2); [local_go | done | done |].
    split; [| exact H2]. intros b. rewrite overlay_own, Hc. apply H1.
Qed.

(** After the name has been copied. *)
Lemma parse_named {A} (k : C A) : local_at f wr named k -> local_at f wr asks (parse_request ;;; k).
Proof.
  intros Hk. apply (local_bind_at f wr _ (fun _ => named)); [apply local_weaken; unfold parse_request; local_go | done |].
  intros s [] s' Hs. unfold parse_request, strcpy at 1, bind, read_str at 1. destruct (in_bounds _ _ _); [| done].
  change (Z.to_nat 2) with 2%nat. destruct (cstr (drop 2 (arrs s packet))) as [n |] eqn:Hn; [| done]. pose proof (Hs n Hn) as ->.
  unfold write_arr at 1. destruct (in_bounds _ _ _); [| done]. set (s1 := set_arr s Filename _). intros Hrun.
  assert (Hn1 : named s1).
  { unfold named, s1. cbn [arrs set_arr]. rewrite upd_eq. apply cstr_splice_0. by apply (cstr_nonzero (drop 2 (arrs s packet))). }
  unfold named in *. rewrite <- Hn1. f_equal.
  assert (Hsp : spares (let* n := strlen Filename 0 in seti mode_offset (2 + n + 1) ;;; let* m := geti mode_offset in strcpy Mode packet m)).
  { unfold strlen, strcpy. repeat (apply spares_bind; [| intros ?]); auto with local. by apply spares_write. }
  exact (Hsp s1 tt s' Hrun).
Qed.

Lemma local_rrq o : local_at f wr asks (rrq o).
Proof.
  unfold rrq. apply (local_bind_at f wr _ (fun _ => asks)); [apply local_weaken; local_go | intros _ | by intros s a s' Hs [= _ <-]].
  apply (local_bind_at f wr _ (fun _ => asks)); [apply local_weaken; local_go | intros _ | by intros s a s' Hs [= _ <-]].
  apply (local_bind_at f wr _ (fun _ => asks)); [apply local_weaken; local_go | intros _ |].
  - apply parse_named. do 2 (apply named_bind; [local_go | apply spares_streq | intros ?]).
    destruct (_ || _); [apply named_rrq_octet |]. do 2 (apply named_bind; [local_go | apply spares_streq | intros ?]).
    destruct (_ || _); [apply named_rrq_netascii |]. apply local_weaken. local_go.
  - intros s a s' Hs. unfold memset0, write_arr. destruct (in_bounds _ _ _); [| done]. by intros [= _ <-].
Qed.

Lemma local_wrq o : wr = true -> local_at f wr asks (wrq o).
Proof.
  intros Hw. unfold wrq. do 2 (apply (local_bind_at f wr _ (fun _ => asks)); [apply local_weaken; local_go | intros _ | by intros s a s' Hs [= _ <-]]).
  apply parse_named. apply named_bind; [local_go | by apply spares_write |]. intros _. apply named_open.
  intros s Hn Ht. cbn [world graft set_world set_fs fs]. destruct (fs (world s) !! f) as [content |] eqn:Hc.
  - destruct (local_after s (set_world s (set_fp (world s) FNull)) (send_error o 6 "File already exists." ;;; ret Leave)) as (H1 & H2); [local_go | done | done |].
    split; [| exact H2]. intros b. rewrite overlay_own, Hc. apply H1.
  - destruct (local_after s (set_world s (set_fp (set_fs (world s) (<[f := []]> (fs (world s)))) (FOpen (WStream f))))
      (sprintf_c ACK [0; 4; 0; 0] ;;; memcpy send_pack 0 ACK 0 HEADER ;;; seti size_sp HEADER ;;; sendto o ;;; seti block_number 1 ;;; ret Transfer))
      as (H1 & H2); [local_go | done | congruence |].
    split; [| exact H2]. intros b. rewrite overlay_own, Hc, <- H1. unfold graft. cbn. by rewrite overlay_insert.
Qed.

(** A child whose request asks for [f], and for writing only if [wr]. *)
Definition request_of (s : st) : Prop := asks s /\ (s8 (List.hd 0 (slice (arrs s packet) 1 1)) = 2 -> wr = true).

Lemma local_request o : local_at f wr request_of (request o).
Proof.
  unfold request. apply (local_bind_at f wr _ (fun op s => asks s /\ (s8 op = 2 -> wr = true))); [apply local_weaken; local_go | |].
  - intros op. destruct (Z.eqb_spec (s8 op) 1); [intros s [Hs _]; by apply local_rrq |].
    destruct (Z.eqb_spec (s8 op) 2); [| apply local_weaken; local_go]. intros s [Hs Hw]. apply local_wrq; auto.
  - intros s op s' Hs. unfold load, bind, read_arr. destruct (in_bounds _ _ _); [| done]. by intros [= <- <-].
Qed.
End Rounds.

(** ** One child, round by round *)

(** What a round of a server promises to the interleaving. *)
Class LocalRounds (step : event -> env -> C ctl) := local_round : forall f wr e o, local f wr (step e o).
#[export] Instance tftps_local : LocalRounds Tftps.step := local_tftps_step.
#[export] Instance server_local : LocalRounds TftpServer.step := local_server_step.

Inductive act := Serve (o : env) | Round (e : event) (o : env).
Inductive status := Requesting | Serving | Outside | Gone (code : Z) | Crashed (w : fault).
Definition kid : Type := status * st.

Definition settle {A} (k : A -> st -> kid) (o : outcome st A) : kid :=
  match o with Done a s => k a s | Exited c s => (Gone c, s) | Undef w s => (Crashed w, s) end.

(** How a child ended, if it did. *)
Definition report (k : kid) : outcome st unit :=
  match k.1 with Gone c => Exited c k.2 | Crashed w => Undef w k.2 | _ => Done tt k.2 end.

Definition in_fs (b : files) (s : st) : st := set_world s (set_fs (world s) b).

Section System.
Context (step : event -> env -> C ctl) {HL : LocalRounds step}.

Definition after_request (q : req) (s : st) : kid := match q with Transfer => (Serving, s) | Leave => (Gone 0, s) end.
Definition after_round (c : ctl) (s : st) : kid :=
  match c with Cont => (Serving, s) | Brk => settle (fun _ s => (Outside, s)) (cleanup s) end.

Definition kid_step (k : kid) (a : act) : kid :=
  match k.1, a with
  | Requesting, Serve o => settle after_request (request o k.2)
  | Serving, Round e o => settle after_round (step e o k.2)
  | _, _ => k
  end.
Definition kid_run (acts : list act) (k : kid) : kid := fold_left kid_step acts k.

Definition rounds (evs : list (event * env)) : list act := List.map (fun eo => Round eo.1 eo.2) evs.

Lemma kid_run_over evs k : k.1 <> Serving -> fold_left kid_step (List.map (fun eo : event * env => Round eo.1 eo.2) evs) k = k.
Proof. revert k. induction evs as [| eo evs IH]; intros [q s] Hk; [done |]. cbn. destruct q; done || by apply IH. Qed.

(** The rounds of a child on its own are its process. *)
Lemma kid_run_child o evs s : report (kid_run (Serve o :: rounds evs) (Requesting, s)) = child_process step o evs s.
Proof.
  unfold child_process, bind, kid_run, rounds. cbn [fold_left]. unfold kid_step at 2. cbn [fst snd].
  destruct (request o s) as [[] s1 | c s1 | w s1]; cbn [settle after_request]; try (by rewrite kid_run_over).
  revert s1. induction evs as [| [e o'] evs IH]; intros s1; [done |]. cbn [List.map fold_left transfer_loop]. unfold kid_step at 2, bind. cbn [fst snd].
  destruct (step e o' s1) as [[] s2 | c s2 | w s2]; cbn [settle after_round]; [apply IH | | by rewrite kid_run_over | by rewrite kid_run_over].
  cbn [ret]. destruct (cleanup s2) as [[] s3 | c s3 | w s3]; cbn [settle]; by rewrite kid_run_over.
Qed.

(** *** A round in another file system *)
Definition fit (f : list Z) (wr : bool) (k : kid) : Prop := tied f wr k.2 /\ (k.1 = Requesting -> request_of f wr k.2).

Definition move (h : st -> st) (k : kid) : kid := (k.1, h k.2).

(** Settling a local statement. *)
Lemma settle_local {A} f wr P (m : C A) (k : A -> st -> kid) s :
  local_at f wr P m -> P s -> tied f wr s ->
  (forall a s', tied f wr s' -> (forall b, k a (graft f b s') = move (graft f b) (k a s')) /\ fit f wr (k a s') /\
    (wr = false -> fs (world (k a s').2) = fs (world s'))) ->
  (forall b, settle k (m (graft f b s)) = move (graft f b) (settle k (m s))) /\ fit f wr (settle k (m s)) /\
  (wr = false -> fs (world (settle k (m s)).2) = fs (world s)).
Proof.
  intros Hm HP Ht Hk. destruct (Hm s HP Ht) as (H1 & H2 & H3). destruct (m s) as [a s1 | c s1 | w s1]; cbn [final settle] in *.
  - destruct (Hk a s1 H2) as (K1 & K2 & K3). split; [| split; [done |]]; [intros b; rewrite H1; apply K1 |].
    intros Hw. by rewrite K3, H3.
  - split; [| by split]. intros b. by rewrite H1.
  - split; [| by split]. intros b. by rewrite H1.
Qed.

Lemma kid_step_local f wr a k : fit f wr k ->
  (forall b, kid_step (move (graft f b) k) a = move (graft f b) (kid_step k a)) /\ fit f wr (kid_step k a) /\
  (wr = false -> fs (world (kid_step k a).2) = fs (world k.2)).
Proof.
  destruct k as [q s]. intros [Ht Hq]. cbn [fst snd] in *. destruct q, a as [o | e o]; try (split; [done | by split]); unfold kid_step, move; cbn [fst snd].
  - apply (settle_local f wr (request_of f wr)); [apply local_request | by apply Hq | done |]. intros [] s1 Ht1; (split; [done | by split]).
  - apply (settle_local f wr (fun _ => True)); [apply local_round | done | done |]. intros [] s1 Ht1; [split; [done | by split] |].
    apply (settle_local f wr (fun _ => True)); [apply local_cleanup | done | done |]. intros [] s2 Ht2. split; [done | by split].
Qed.

(** ** All children *)
Record sys := mk_sys { shared : files; kids : list kid }.

(** Child [i] takes a round, in the file system as it is now. *)
Definition sys_step (y : sys) (ia : nat * act) : sys :=
  match kids y !! ia.1 with
  | Some k => let k' := kid_step (move (in_fs (shared y)) k) ia.2 in mk_sys (fs (world k'.2)) (<[ia.1 := k']> (kids y))
  | None => y
  end.
Definition sys_run (sched : list (nat * act)) (y : sys) : sys := fold_left sys_step sched y.

(** The rounds of child [i] in a schedule. *)
Definition own (i : nat) (sched : list (nat * act)) : list act := List.map snd (List.filter (fun ia => Nat.eqb ia.1 i) sched).

(** Who asked for what: the file of each child and whether it writes it. *)
Section Owners.
Variable os : list (list Z * bool).
Hypothesis Hapart : forall i j fi wi fj wj, os !! i = Some (fi, wi) -> os !! j = Some (fj, wj) -> i <> j -> fi <> fj \/ (wi = false /\ wj = false).

(** Child by child, the system agrees with the children on their own. *)
Definition agrees (base : files) (y : sys) (solo : nat -> kid) : Prop :=
  (forall i f wr, os !! i = Some (f, wr) -> fit f wr (solo i) /\ shared y !! f = fs (world (solo i).2) !! f /\
    exists k, kids y !! i = Some k /\ move (in_fs (shared y)) k = move (in_fs (shared y)) (solo i)) /\
  (forall n, (forall i f, os !! i = Some (f, true) -> n <> f) -> shared y !! n = base !! n).

Lemma in_fs_graft f b s : b !! f = fs (world s) !! f -> in_fs b s = graft f b s.
Proof. intros H. unfold in_fs, graft. by rewrite overlay_same. Qed.

Lemma move_in_fs b b' k k' : move (in_fs b) k = move (in_fs b) k' -> move (in_fs b') k = move (in_fs b') k'.
Proof. destruct k as [q s], k' as [q' s']. intros H. apply (f_equal (move (in_fs b'))) in H. exact H. Qed.

Lemma agrees_step base y solo i f wr a : agrees base y solo -> os !! i = Some (f, wr) ->
  agrees base (sys_step y (i, a)) (fun j => if Nat.eqb j i then kid_step (solo j) a else solo j).
Proof.
  intros [Hkids Hrest] Hi. destruct (Hkids i f wr Hi) as (Hfit & Hfile & k & Hk & Hmove).
  destruct (kid_step_local f wr a (solo i) Hfit) as (Hg & Hfit' & Hro). unfold sys_step. cbn [fst snd]. rewrite Hk, Hmove.
  assert (Hin : move (in_fs (shared y)) (solo i) = move (graft f (shared y)) (solo i)) by (unfold move; by rewrite (in_fs_graft f)).
  rewrite Hin, Hg. set (s1 := kid_step (solo i) a) in *.
  change (fs (world (move (graft f (shared y)) s1).2)) with (overlay f (fs (world s1.2)) (shared y)).
  assert (Hother : forall n, n <> f \/ wr = false -> overlay f (fs (world s1.2)) (shared y) !! n = shared y !! n).
  { intros n Hn. destruct (decide (n = f)) as [-> | Hne]; [| by apply overlay_other]. destruct Hn as [? | Hw]; [done |].
    by rewrite overlay_own, (Hro Hw). }
  split; cbn [shared kids].
  - intros j fj wj Hj. destruct (Nat.eqb_spec j i) as [-> | Hne].
    + rewrite Hi in Hj. injection Hj as <- <-. split; [done |]. split; [apply overlay_own |].
      eexists. split; [by apply list_lookup_insert_eq, (lookup_lt_Some _ _ _ Hk) | done].
    + destruct (Hkids j fj wj Hj) as (Hfj & Hsj & kj & Hkj & Hmj). split; [done |]. split.
      * rewrite Hother; [done |]. destruct (Hapart j i fj wj f wr Hj Hi Hne) as [? | [_ ?]]; [by left | by right].
      * exists kj. split; [by rewrite list_lookup_insert_ne | by eapply move_in_fs].
  - intros n Hn. rewrite Hother; [by apply Hrest |]. destruct wr; [left; by apply (Hn i f) | by right].
Qed.

Lemma agrees_run base sched : forall y solo, length (kids y) = length os -> agrees base y solo ->
  agrees base (sys_run sched y) (fun i => kid_run (own i sched) (solo i)).
Proof.
  induction sched as [| [i a] sched IH]; intros y solo Hlen Hy; [done |]. cbn [sys_run fold_left].
  destruct (os !! i) as [[f wr] |] eqn:Hi.
  - pose proof (agrees_step base y solo i f wr a Hy Hi) as H1. apply IH in H1.
    + destruct H1 as [Hk Hr]. split; [| done]. intros j fj wj Hj. specialize (Hk j fj wj Hj).
      unfold own. cbn [List.filter fst]. rewrite (Nat.eqb_sym i j). destruct (Nat.eqb j i); exact Hk.
    + unfold sys_step. cbn [fst]. destruct (kids y !! i); [cbn [kids]; by rewrite length_insert | done].
  - assert (Hk : kids y !! i = None) by (apply lookup_ge_None; apply lookup_ge_None in Hi; lia).
    assert (Hskip : sys_step y (i, a) = y) by (unfold sys_step; cbn [fst]; by rewrite Hk).
    rewrite Hskip. destruct (IH y solo Hlen Hy) as [Hks Hr]. split; [| done]. intros j fj wj Hj. specialize (Hks j fj wj Hj).
    unfold own. cbn [List.filter fst]. destruct (Nat.eqb_spec i j) as [-> | _]; [congruence | exact Hks].
Qed.
End Owners.
End System.

(** ** Requests *)

(** Two runs of a child that differ only in the files. *)
Definition alike (o o' : outcome st unit) : Prop := over (in_fs ∅) o = over (in_fs ∅) o'.

Lemma alike_report b k k' : move (in_fs b) k = move (in_fs b) k' -> alike (report k) (report k').
Proof.
  intros H%(move_in_fs b ∅). pose proof (f_equal fst H) as Hq. pose proof (f_equal snd H) as Hs. destruct k as [q s], k' as [q' s'].
  cbn [fst snd move] in *. subst q'. unfold alike, report. cbn [fst snd]. destruct q; cbn [over]; by rewrite Hs.
Qed.

(** A request: opcode, name and mode. *)
Definition req3 : Type := (Z * list Z * list Z)%type.
Definition owner (r : req3) : list Z * bool := (r.1.2, s8 r.1.1 =? 2).
Definition apart (rs : list req3) : Prop := forall i j ri rj, rs !! i = Some ri -> rs !! j = Some rj -> i <> j ->
  (owner ri).1 <> (owner rj).1 \/ ((owner ri).2 = false /\ (owner rj).2 = false).
Definition start (fs0 : files) (gs : list (arr -> list Z)) : sys := mk_sys fs0 (List.map (fun g => (Requesting, init g fs0)) gs).

Lemma requested_fit op name mode g fs0 : requested op name mode g -> fit name (s8 op =? 2) (Requesting, init g fs0).
Proof.
  intros (_ & Hn & _ & _ & _ & junk & Hp). split; [done |]. intros _. unfold request_of, asks. cbn [arrs init snd]. rewrite Hp. split.
  - intros n. unfold request_packet. rewrite <- !app_assoc. cbn. rewrite drop_0, cstr_app by done. by intros [= ->].
  - cbn. intros H. by apply Z.eqb_eq.
Qed.

Lemma start_agrees (rs : list req3) gs fs0 :
  Forall2 (fun (r : req3) g => requested r.1.1 r.1.2 r.2 g) rs gs ->
  agrees (owner <$> rs) fs0 (start fs0 gs) (fun i => match gs !! i with Some g => (Requesting, init g fs0) | None => (Outside, init (fun _ => []) fs0) end).
Proof.
  intros Hrs. split; [| done]. intros i f wr. rewrite list_lookup_fmap. destruct (rs !! i) as [r |] eqn:Hr; [| done].
  intros [= <- <-]. destruct (Forall2_lookup_l _ _ _ _ _ Hrs Hr) as (g & Hg & Hreq). rewrite Hg.
  split; [by eapply requested_fit |]. split; [done |]. exists (Requesting, init g fs0). split; [| done].
  cbn [kids start]. rewrite list_lookup_fmap, Hg. done.
Qed.

(** The requests as the listener gets them, and the children it forks. *)
Definition well_formed (r : req3) : Prop := nonzero r.1.2 /\ zlen r.1.2 < 10 /\ nonzero r.2 /\ zlen r.2 < 10.
Definition arrivals (rs : list req3) : list lrecv := List.map (fun r : req3 => LRecv (request_packet r.1.1 r.1.2 r.2) true) rs.
Definition forks (g : arr -> list Z) (rs : list req3) : list (arr -> list Z) := (listen g (arrivals rs)).1.

Lemma forks_requested rs : forall g, sized g -> Forall well_formed rs -> Forall2 (fun (r : req3) g => requested r.1.1 r.1.2 r.2 g) rs (forks g rs).
Proof.
  induction rs as [| r rs IH]; intros g Hg Hw; [constructor |]. inversion Hw as [| ? ? (H1 & H2 & H3 & H4) Hrest]; subst.
  unfold forks. cbn [arrivals List.map listen]. specialize (IH (received g (request_packet r.1.1 r.1.2 r.2)) (sized_received _ _ Hg) Hrest).
  unfold forks, arrivals in IH. destruct (listen _ _) as [ks e]. constructor; [by apply requested_received | done].
Qed.

Lemma requests_independent step (rs : list req3) gs fs0 sched : LocalRounds step ->
  Forall2 (fun (r : req3) g => requested r.1.1 r.1.2 r.2 g) rs gs -> apart rs ->
  let y := sys_run step sched (start fs0 gs) in
  (forall i (r : req3) g o evs, rs !! i = Some r -> gs !! i = Some g -> own i sched = Serve o :: rounds evs ->
    exists k, kids y !! i = Some k /\ alike (report k) (child_process step o evs (init g fs0)) /\
      shared y !! r.1.2 = fs (world (final (child_process step o evs (init g fs0)))) !! r.1.2) /\
  (forall n, (forall i (r : req3), rs !! i = Some r -> (owner r).2 = true -> n <> r.1.2) -> shared y !! n = fs0 !! n).
Proof.
  intros HL Hrs Hapart y.
  assert (Hos : forall i j fi wi fj wj, (owner <$> rs) !! i = Some (fi, wi) -> (owner <$> rs) !! j = Some (fj, wj) -> i <> j -> fi <> fj \/ (wi = false /\ wj = false)).
  { intros i j fi wi fj wj. rewrite !list_lookup_fmap. destruct (rs !! i) as [ri |] eqn:Hi, (rs !! j) as [rj |] eqn:Hj; try done.
    intros [= <- <-] [= <- <-] Hne. by apply (Hapart i j ri rj). }
  assert (Hlen : length (kids (start fs0 gs)) = length (owner <$> rs)).
  { cbn [kids start]. rewrite length_map, length_fmap. symmetry. by apply (Forall2_length _ _ _ Hrs). }
  destruct (agrees_run step (owner <$> rs) Hos fs0 sched _ _ Hlen (start_agrees rs gs fs0 Hrs)) as [Hk Hr].
  split.
  - intros i r g o evs Hi Hg Hown. destruct (Hk i r.1.2 (s8 r.1.1 =? 2)) as (_ & Hfile & k & Hki & Hmove); [by rewrite list_lookup_fmap, Hi |].
    rewrite Hg, Hown in *. exists k. split; [done |]. rewrite <- (kid_run_child step o evs). split; [by eapply alike_report |].
    fold y in Hfile. rewrite Hfile. unfold report. by destruct (kid_run _ _ _) as [[] ?].
  - intros n Hn. apply Hr. intros i f. rewrite list_lookup_fmap. destruct (rs !! i) as [r |] eqn:Hi; [| done]. intros [= <- Hw]. by apply (Hn i r).
Qed.

(** C13: any number of well-formed requests that reach the listener, served by the children of
    either server at the same time, their rounds interleaved in any order over one file
    system.  If no two of them name the same file, unless both read it, then every child
    runs exactly as it would alone in the file system at the start: the same state and
    packets, the same end, the same contents of its file; and a file that none of them
    writes is not changed. *)
Theorem transfers_independent step g (rs : list req3) fs0 sched : step = Tftps.step \/ step = TftpServer.step ->
  sized g -> Forall well_formed rs -> apart rs ->
  let gs := forks g rs in
  let y := sys_run step sched (start fs0 gs) in
  length gs = length rs /\
  (forall i (r : req3) gi o evs, rs !! i = Some r -> gs !! i = Some gi -> own i sched = Serve o :: rounds evs ->
    exists k, kids y !! i = Some k /\ alike (report k) (child_process step o evs (init gi fs0)) /\
      shared y !! r.1.2 = fs (world (final (child_process step o evs (init gi fs0)))) !! r.1.2) /\
  (forall n, (forall i (r : req3), rs !! i = Some r -> (owner r).2 = true -> n <> r.1.2) -> shared y !! n = fs0 !! n).
Proof.
  intros Hstep Hg Hrs Hapart gs y. pose proof (forks_requested rs g Hg Hrs) as Hreq. split; [symmetry; by apply (Forall2_length _ _ _ Hreq) |].
  assert (HL : LocalRounds step) by (destruct Hstep as [-> | ->]; apply _). exact (requests_independent step rs gs fs0 sched HL Hreq Hapart).
Qed.

(** ** Instance: a read and a write, round by round in turn *)
Definition two : list req3 := [(1, lit "f", lit "netascii"); (2, lit "g", lit "octet")].
Definition listener_arrays : arr -> list Z := sample_arrays 9 [] [].
Definition turns : list (nat * act) :=
  [(0%nat, Serve all_ok); (1%nat, Serve all_ok); (1%nat, Round (EvRecv [0; 3; 0; 1; 65; 66; 0]) all_ok); (0%nat, Round EvTimeout all_ok);
   (1%nat, Round EvTimeout all_ok); (0%nat, Round (EvRecv [0; 4; 0; 1]) all_ok); (1%nat, Round EvTimeout all_ok)].

Lemma transfers_independent_witness : exists gi k,
  forks listener_arrays two !! 0%nat = Some gi /\
  kids (sys_run Tftps.step turns (start {[lit "f" := [65; 10]]} (forks listener_arrays two))) !! 0%nat = Some k /\
  alike (report k) (Tftps.child all_ok [(EvTimeout, all_ok); (EvRecv [0; 4; 0; 1], all_ok)] (init gi {[lit "f" := [65; 10]]})).
Proof.
  destruct (transfers_independent Tftps.step listener_arrays two {[lit "f" := [65; 10]]} turns ltac:(by left)) as (_ & H & _).
  - intros []; reflexivity.
  - repeat constructor; discriminate.
  - intros [| [| i]] [| [| j]] ri rj Hi Hj Hne; try done; injection Hi as <-; injection Hj as <-; left; discriminate.
  - set (gi := received listener_arrays (request_packet 1 (lit "f") (lit "netascii"))). exists gi.
    destruct (H 0%nat (1, lit "f", lit "netascii") gi all_ok
      [(EvTimeout, all_ok); (EvRecv [0; 4; 0; 1], all_ok)] eq_refl eq_refl eq_refl) as (k & Hk & Ha & _).
    exists k. split; [reflexivity |]. split; [exact Hk | exact Ha].
Defined.
End TftpShare.
