(* ===== verification/Reaper.v ===== *)
(** * Children that have ended

    The TFTP servers fork a child for every request and collect the children that ended
    in a handler for SIGCHLD: [sigchld_handler] of [tftps.c] and [server.c].  The echo
    server has the same loop in the method [handler], which it never installs.

    A process is the children that run, those that ended and were not collected, whether
    the signal is pending (several signals become one), [errno], and the handler when it
    runs.  The step relation lets children end at any time, also between two calls of
    [waitpid] inside the handler. *)

From S2P Require Import Prelude CMem.
From stdpp Require Import base list.
From Stdlib Require Import ZArith Lia Relations.
Open Scope Z_scope.

Module Reaper.

Definition ECHILD : Z := 10.

Record proc := mk_proc {
  running : list Z;
  zombies : list Z;             (* in the order in which they ended *)
  pending : bool;
  errno : Z;
  saved_errno : option Z        (* [Some]: inside the handler *)
}.
Abbreviation P := (M proc).

Definition set_errno (e : Z) : P unit := fun s => Done tt (mk_proc (running s) (zombies s) (pending s) e (saved_errno s)).

(** [waitpid(-1, NULL, WNOHANG)] *)
Definition waitpid : P Z := fun s =>
  match zombies s, running s with
  | pid :: rest, _ => Done pid (mk_proc (running s) rest (pending s) (errno s) (saved_errno s))
  | [], [] => Done (-1) (mk_proc [] [] (pending s) ECHILD (saved_errno s))
  | [], _ => Done 0 s
  end.

(** [while (waitpid(-1, NULL, WNOHANG) > 0);] *)
Fixpoint reap_loop (fuel : nat) : P unit :=
  match fuel with
  | O => undef NoFuel
  | S n => let* pid := waitpid in if 0 <? pid then reap_loop n else ret tt
  end.

(** The handler, when no child ends while it runs. *)
Definition sigchld_handler : P unit := fun s =>
  (reap_loop (S (length (zombies s))) ;;; set_errno (errno s)) s.

(** The handler of the echo server prints each child and leaves [errno] as it is. *)
Definition handler : P unit := fun s => reap_loop (S (length (zombies s))) s.

(** ** Interleaving

    [installed]: the process has set the handler; the default is to ignore the signal. *)
Inductive step (installed : bool) : proc -> proc -> Prop :=
| forks s pid : 0 < pid -> pid ∉ running s -> pid ∉ zombies s -> saved_errno s = None ->
    step installed s (mk_proc (running s ++ [pid]) (zombies s) (pending s) (errno s) None)
| calls s e : saved_errno s = None ->
    step installed s (mk_proc (running s) (zombies s) (pending s) e None)
| child_ends s pid l l' : running s = l ++ pid :: l' ->
    step installed s (mk_proc (l ++ l') (zombies s ++ [pid]) installed (errno s) (saved_errno s))
| enters s : installed = true -> pending s = true -> saved_errno s = None ->
    step installed s (mk_proc (running s) (zombies s) false (errno s) (Some (errno s)))
| reaps s pid s' e : saved_errno s = Some e -> waitpid s = Done pid s' -> 0 < pid ->
    step installed s s'
| returns s pid s' e : saved_errno s = Some e -> waitpid s = Done pid s' -> pid <= 0 ->
    step installed s (mk_proc (running s') (zombies s') (pending s') e None).

Definition fresh_process : proc := mk_proc [] [] false 0 None.
Definition reachable (installed : bool) : proc -> Prop := clos_refl_trans_1n proc (step installed) fresh_process.

(** ** Invariant *)
Record inv (installed : bool) (s : proc) : Prop := {
  inv_pids : Forall (fun pid => 0 < pid) (running s ++ zombies s);
  inv_collected : installed = true -> zombies s <> [] -> pending s = true \/ is_Some (saved_errno s);
  inv_ignored : installed = false -> pending s = false /\ saved_errno s = None
}.

Lemma waitpid_cases s : exists pid s', waitpid s = Done pid s' /\ running s' = running s /\ pending s' = pending s /\ saved_errno s' = saved_errno s /\
  ((exists rest, zombies s = pid :: rest /\ zombies s' = rest) \/ (pid <= 0 /\ zombies s = [] /\ zombies s' = [])).
Proof.
  unfold waitpid. destruct (zombies s) as [| z zs] eqn:Hz.
  - destruct (running s) as [| r rs] eqn:Hr; do 2 eexists; (split; [done |]); rewrite ?Hz, ?Hr; repeat split; by right.
  - do 2 eexists. split; [done |]. repeat split. left. by eexists.
Qed.

Lemma step_inv installed s s' : inv installed s -> step installed s s' -> inv installed s'.
Proof.
  intros [Hp Hc Hi] Hs.
  destruct Hs as [s pid Hpid Hr Hz Hh | s e Hh | s pid l l' Hr | s Hin Hpend Hh | s pid s' e Hh Hw Hpid | s pid s' e Hh Hw Hpid].
  - split; cbn; [| rewrite Hh in Hc; exact Hc | rewrite Hh in Hi; exact Hi].
    apply Forall_app in Hp as [H1 H2]. rewrite !Forall_app. repeat split; [done | by constructor | done].
  - split; cbn; [done | rewrite Hh in Hc; exact Hc | rewrite Hh in Hi; exact Hi].
  - rewrite Hr in Hp. split; cbn.
    + rewrite !Forall_app, list.Forall_cons in *. naive_solver.
    + intros -> _. by left.
    + intros Hoff. destruct (Hi Hoff). by subst.
  - split; cbn; [done | intros _ _; right; by eexists | congruence].
  - destruct (waitpid_cases s) as (q & w & Hw' & Hrun & Hpend & Hsav & Hcase). rewrite Hw' in Hw. injection Hw as -> ->.
    assert (installed = true) as -> by (destruct installed; [done | destruct (Hi eq_refl); congruence]).
    destruct Hcase as [(rest & Hz & Hz') | (? & _)]; [| lia]. split; [| rewrite Hsav, Hh; intros _ _; right; by eexists | done].
    rewrite Hrun, Hz'. rewrite Hz, !Forall_app, list.Forall_cons in Hp. rewrite Forall_app. naive_solver.
  - destruct (waitpid_cases s) as (q & w & Hw' & Hrun & Hpend & Hsav & Hcase). rewrite Hw' in Hw. injection Hw as -> ->.
    assert (installed = true) as -> by (destruct installed; [done | destruct (Hi eq_refl); congruence]).
    destruct Hcase as [(rest & Hz & Hz') | (_ & Hz & Hz')].
    + rewrite Hz, Forall_app, list.Forall_cons in Hp. lia.
    + split; cbn; [rewrite Hrun, Hz', <- Hz; done | congruence | done].
Qed.

Lemma reached_inv installed s : reachable installed s -> inv installed s.
Proof.
  enough (H : forall a, clos_refl_trans_1n proc (step installed) a s -> inv installed a -> inv installed s).
  { intros Hr. apply (H _ Hr). by split. }
  intros a Hr. induction Hr as [| a b c Hab _ IH]; [done |]. intros Ha. apply IH. by eapply step_inv.
Qed.

(** ** The handler on its own *)
Lemma reap_loop_ok : forall n s, length (zombies s) = n -> Forall (fun pid => 0 < pid) (zombies s) ->
  exists s', reap_loop (S n) s = Done tt s' /\ running s' = running s /\ zombies s' = [] /\ pending s' = pending s /\ saved_errno s' = saved_errno s.
Proof.
  induction n as [| n IH]; intros s Hn Hz; cbn [reap_loop]; unfold bind, waitpid.
  - apply nil_length_inv in Hn. rewrite Hn. destruct (running s) eqn:Hr; cbn; eexists; by repeat split.
  - destruct (zombies s) as [| z zs] eqn:He; [done |]. injection Hn as Hn. apply list.Forall_cons in Hz as [Hz Hzs].
    rewrite (proj2 (Z.ltb_lt _ _)) by done. apply (IH (mk_proc (running s) zs (pending s) (errno s) (saved_errno s))); done.
Qed.

Lemma sigchld_handler_ok s : Forall (fun pid => 0 < pid) (zombies s) ->
  sigchld_handler s = Done tt (mk_proc (running s) [] (pending s) (errno s) (saved_errno s)).
Proof.
  intros Hz. unfold sigchld_handler, bind. destruct (reap_loop_ok _ s eq_refl Hz) as (s' & -> & Hr & Hz' & Hp & Hs).
  unfold set_errno. by rewrite Hr, Hz', Hp, Hs.
Qed.

(** Its steps, when no child ends in between. *)
Lemma handler_finishes e : forall n s, length (zombies s) = n -> Forall (fun pid => 0 < pid) (zombies s) -> saved_errno s = Some e ->
  clos_refl_trans_1n proc (step true) s (mk_proc (running s) [] (pending s) e None).
Proof.
  induction n as [| n IH]; intros s Hn Hz Hh; destruct (waitpid_cases s) as (q & s' & Hw & Hr & Hp & Hs & Hcase).
  - apply nil_length_inv in Hn. destruct Hcase as [(rest & He & _) | (Hq & _ & Hz')]; [congruence |].
    econstructor; [by eapply returns |]. rewrite Hr, Hz', Hp. constructor.
  - destruct Hcase as [(rest & He & Hz') | (_ & He & _)]; rewrite He in Hn, Hz; [| done]. injection Hn as Hn.
    apply list.Forall_cons in Hz as [Hq Hrest]. econstructor; [by eapply reaps |]. rewrite <- Hr, <- Hp.
    apply IH; [by rewrite Hz' | by rewrite Hz' | congruence].
Qed.

(** C14: no child of a TFTP server stays uncollected.  Whatever the order of forks, ends of
    children, signals (several of which may become one) and calls of the handler, also
    with children that end while the handler runs: as soon as no signal is pending and the
    handler is not running, no ended child is left; once entered, the handler comes to
    its end when no further child ends, and then the main program finds its [errno]
    again; run without interference it is the function [sigchld_handler].  In the echo server, which does not
    install its handler, no child is ever collected. *)
Theorem children_collected :
  (forall s, reachable true s -> pending s = false -> saved_errno s = None -> zombies s = []) /\
  (forall s e, reachable true s -> saved_errno s = Some e ->
     clos_refl_trans_1n proc (step true) s (mk_proc (running s) [] (pending s) e None)) /\
  (forall s, reachable true s -> sigchld_handler s = Done tt (mk_proc (running s) [] (pending s) (errno s) (saved_errno s))) /\
  (forall s s', reachable false s -> step false s s' -> zombies s `prefix_of` zombies s').
Proof.
  split; [| split; [| split]].
  - intros s Hr Hp Hs. destruct (reached_inv _ _ Hr) as [_ Hc _]. destruct (zombies s) eqn:Hz; [done |].
    destruct (Hc eq_refl ltac:(done)) as [Ht | [? Ht]]; congruence.
  - intros s e Hr Hs. destruct (reached_inv _ _ Hr) as [Hpid _ _]. apply Forall_app in Hpid as [_ Hz].
    by apply (handler_finishes e (length (zombies s))).
  - intros s Hr. destruct (reached_inv _ _ Hr) as [Hpid _ _]. apply Forall_app in Hpid as [_ Hz]. by apply sigchld_handler_ok.
  - intros s s' Hr Hst. destruct (reached_inv _ _ Hr) as [_ _ Hi]. destruct (Hi eq_refl) as [_ Hn].
    destruct Hst; cbn; (done || congruence || by apply prefix_app_r || idtac).
Qed.

(** *** Witness: a child ends and the handler is entered *)
Definition entered : proc := mk_proc [] [5] false 0 (Some 0).
Lemma entered_reachable : reachable true entered.
Proof.
  unfold reachable. eapply Relation_Operators.rt1n_trans; [apply (forks true fresh_process 5); (done || apply not_elem_of_nil) |].
  eapply Relation_Operators.rt1n_trans; [apply (child_ends true _ 5 [] []); reflexivity |].
  eapply Relation_Operators.rt1n_trans; [by apply (enters true) |]. constructor.
Qed.
Lemma children_collected_witness : clos_refl_trans_1n proc (step true) entered (mk_proc [] [] false 0 None).
Proof. exact (proj1 (proj2 children_collected) entered 0 entered_reachable eq_refl). Defined.

End Reaper.
