(* ===== verification/MsgQueue.v ===== *)
(** * [msg_queue.h]: the circular message queue of the IR driver

    The queue is an array of [QUEUE_LEN] messages with a head index (the cell before
    the oldest message), a tail index (the newest message) and a size.  The file
    holds its operations and the refinement of a bounded FIFO, up to the
    hundredth successful [dequeue], which reads one cell past the array. *)

From S2P Require Import Prelude CMem.
From stdpp Require Import base list.
From Stdlib Require Import ZArith Lia.
Open Scope Z_scope.

Module MsgQueue.

(** ** Data *)
Definition QUEUE_LEN : Z := 100.

Record ir_msg := mk_msg { byte_low : Z; byte_high : Z }.

(** [ir_msg_new(high, low)], once its allocation succeeded. *)
Definition ir_msg_new (high low : Z) : ir_msg := mk_msg (u8 low) (u8 high).

Record msg_queue := mk_queue {
  head_idx : Z; tail_idx : Z; size : Z; capacity : Z;
  msg_array : option (list (option ir_msg))  (* [None]: NULL; cells: [None] until written *)
}.

(** A [msg_queue] pointer. *)
Inductive qptr := QNull | QFreed | QLive (q : msg_queue).

Abbreviation C := (M qptr).

(** ** Operations *)

(** [msg_queue_new(cap)]; [ok1], [ok2]: whether its two allocations succeed.  The
    array always has [QUEUE_LEN] cells. *)
Definition msg_queue_new (ok1 ok2 : bool) (cap : Z) : C unit := fun p =>
  if ok1 then
    Done tt (QLive (mk_queue 0 0 0 cap
      (if ok2 then Some (replicate (Z.to_nat QUEUE_LEN) None) else None)))
  else Undef NullPointer p.

Definition msg_queue_destroy : C unit := fun p =>
  match p with
  | QNull => Done tt p
  | QFreed => Undef UseAfterFree p
  | QLive _ => Done tt QFreed
  end.

(** The functions that take a queue start with a test for NULL, which returns -2. *)
Definition with_queue {A} (null : A) (k : msg_queue -> C A) : C A := fun p =>
  match p with
  | QNull => Done null p
  | QFreed => Undef UseAfterFree p
  | QLive q => k q p
  end.

Definition is_full : C Z :=
  with_queue (-2) (fun q => ret (if size q =? capacity q then 1 else 0)).

Definition is_empty : C Z :=
  with_queue (-2) (fun q => ret (if size q =? 0 then 1 else 0)).

(** [msg_array[i]] and [msg_array[i] = m]. *)
Definition cell (q : msg_queue) (i : Z) : C ir_msg := fun p =>
  match msg_array q with
  | None => Undef NullPointer p
  | Some a =>
      if (0 <=? i) && (i <? Z.of_nat (length a)) then
        match a !! Z.to_nat i with
        | Some (Some m) => Done m p
        | _ => Undef Uninitialised p
        end
      else Undef OutOfBounds p
  end.

Definition set_cell (q : msg_queue) (i : Z) (m : ir_msg) : C msg_queue := fun p =>
  match msg_array q with
  | None => Undef NullPointer p
  | Some a =>
      if (0 <=? i) && (i <? Z.of_nat (length a)) then
        Done (mk_queue (head_idx q) (tail_idx q) (size q) (capacity q)
                (Some (<[Z.to_nat i := Some m]> a))) p
      else Undef OutOfBounds p
  end.

Definition put (q : msg_queue) : C unit := fun _ => Done tt (QLive q).

(** [enqueue(queue, &m)]: the new size, -1 when the queue is full. *)
Definition enqueue (m : ir_msg) : C Z :=
  with_queue (-2) (fun q =>
    let* full := is_full in
    if negb (full =? 0) then ret (-1)
    else
      let tail := Z.rem (tail_idx q + 1) (capacity q) in
      let* q' := set_cell (mk_queue (head_idx q) tail (size q) (capacity q) (msg_array q)) tail m in
      let q'' := mk_queue (head_idx q') (tail_idx q') (size q' + 1) (capacity q') (msg_array q') in
      put q'' ;;; ret (size q'')).

(** [dequeue(queue, &out)]: the new size and the message, -1 when the queue is
    empty ([out] is then left as it was). *)
Definition dequeue : C (Z * option ir_msg) :=
  with_queue (-2, None) (fun q =>
    let* empty := is_empty in
    if negb (empty =? 0) then ret (-1, None)
    else
      let* m := cell q (head_idx q + 1) in
      let q' := mk_queue (Z.rem (head_idx q + 1) (capacity q)) (tail_idx q) (size q - 1)
                  (capacity q) (msg_array q) in
      put q' ;;; ret (size q', Some m)).

(** [print_queue]: the messages it prints, for the debug builds. *)
Fixpoint print_range (q : msg_queue) (i : Z) (n : nat) : C (list ir_msg) :=
  match n with
  | O => ret []
  | S n' => let* m := cell q i in let* l := print_range q (i + 1) n' in ret (m :: l)
  end.

Definition print_queue : C (list ir_msg) :=
  with_queue [] (fun q =>
    let* empty := is_empty in
    if negb (empty =? 0) then ret []
    else if head_idx q <=? tail_idx q
      then print_range q (head_idx q) (Z.to_nat (tail_idx q - head_idx q + 1))
      else print_range q (tail_idx q) (Z.to_nat (head_idx q - tail_idx q + 1))).

(** ** The invariant and the abstract contents *)

(** The cell of the [i]-th oldest message. *)
Definition slot (q : msg_queue) (i : nat) : nat :=
  Z.to_nat ((head_idx q + 1 + Z.of_nat i) mod QUEUE_LEN).

(** [q] holds the messages [l], oldest first. *)
Record holds (q : msg_queue) (l : list ir_msg) : Prop := {
  h_cap : capacity q = QUEUE_LEN;
  h_head : 0 <= head_idx q < QUEUE_LEN;
  h_size : size q = Z.of_nat (length l) /\ (length l <= 100)%nat;
  h_tail : tail_idx q = (head_idx q + size q) mod QUEUE_LEN;
  h_array : exists a, msg_array q = Some a /\ length a = 100%nat /\
    forall i m, l !! i = Some m -> a !! slot q i = Some (Some m)
}.

Lemma rem_mod z : 0 <= z -> Z.rem z QUEUE_LEN = z mod QUEUE_LEN.
Proof. intros. apply Z.rem_mod_nonneg; [done | unfold QUEUE_LEN; lia]. Qed.

Lemma new_holds : exists q, msg_queue_new true true QUEUE_LEN QNull = Done tt (QLive q) /\ holds q [] /\
  head_idx q = 0.
Proof.
  eexists. split; [reflexivity |]. split; [| done]. split; simpl; try done.
  - split; [done | lia].
  - eexists. split; [reflexivity |]. by split.
Qed.

Lemma mod_case z : 0 <= z < 200 ->
  (z < 100 /\ z mod QUEUE_LEN = z) \/ (100 <= z /\ z mod QUEUE_LEN = z - 100).
Proof.
  intros. unfold QUEUE_LEN. destruct (Z.lt_ge_cases z 100); [left | right]; split; try done.
  - apply Z.mod_small. lia.
  - replace z with (z - 100 + 1 * 100) at 1 by lia. rewrite Z.mod_add by lia. apply Z.mod_small. lia.
Qed.

(** ** [enqueue] appends *)
Lemma enqueue_spec q l m :
  holds q l -> (length l < 100)%nat ->
  exists q', enqueue m (QLive q) = Done (Z.of_nat (length l) + 1) (QLive q') /\
    holds q' (l ++ [m]) /\ head_idx q' = head_idx q.
Proof.
  intros [Hc Hh [Hs Hl] Ht (a & Ha & Hal & Hcells)] Hlt.
  unfold enqueue, with_queue, is_full, bind, ret. simpl. rewrite Hs, Hc.
  rewrite (proj2 (Z.eqb_neq _ QUEUE_LEN)) by (unfold QUEUE_LEN; lia). simpl.
  assert (Htr : 0 <= tail_idx q < 100) by (rewrite Ht; apply Z.mod_pos_bound; done).
  rewrite rem_mod by lia. unfold set_cell. simpl. rewrite Ha, Hal.
  set (t := (tail_idx q + 1) mod QUEUE_LEN).
  assert (Htr' : 0 <= t < 100) by (apply Z.mod_pos_bound; done).
  rewrite (proj2 (Z.leb_le 0 t)), (proj2 (Z.ltb_lt t _)) by lia. simpl.
  assert (Htt : t = (head_idx q + (Z.of_nat (length l) + 1)) mod QUEUE_LEN).
  { unfold t. rewrite Ht, Hs, Zplus_mod_idemp_l. f_equal. lia. }
  eexists. split; [reflexivity |]. split; [| done]. split; simpl; try done.
  - rewrite length_app. simpl. lia.
  - eexists. split; [reflexivity |]. split; [by rewrite length_insert |]. intros i x Hx.
    unfold slot. simpl. apply lookup_app_Some in Hx as [Hx | [Hi Hx]].
    + pose proof (lookup_lt_Some _ _ _ Hx). rewrite list_lookup_insert_ne; [by apply Hcells |].
      rewrite Htt. unfold QUEUE_LEN in Hh.
      pose proof (mod_case (head_idx q + (Z.of_nat (length l) + 1)) ltac:(lia)).
      pose proof (mod_case (head_idx q + 1 + Z.of_nat i) ltac:(lia)). lia.
    + apply list_lookup_singleton_Some in Hx as [Hi0 <-].
      replace (head_idx q + 1 + Z.of_nat i) with (head_idx q + (Z.of_nat (length l) + 1)) by lia.
      rewrite <- Htt. apply list_lookup_insert_eq. lia.
Qed.

Lemma enqueue_full q l m : holds q l -> length l = 100%nat -> enqueue m (QLive q) = Done (-1) (QLive q).
Proof.
  intros [Hc _ [Hs _] _ _] Hl. unfold enqueue, with_queue, is_full, bind, ret. simpl.
  by rewrite Hs, Hc, Hl.
Qed.

(** ** [dequeue] removes the oldest message, unless the head is at the last cell *)
Lemma dequeue_empty q : holds q [] -> dequeue (QLive q) = Done (-1, None) (QLive q).
Proof.
  intros [_ _ [Hs _] _ _]. unfold dequeue, with_queue, is_empty, bind, ret. simpl. by rewrite Hs.
Qed.

Lemma nonempty_test q m l :
  holds q (m :: l) -> is_empty (QLive q) = Done 0 (QLive q).
Proof.
  intros [_ _ [Hs _] _ _]. unfold is_empty, with_queue, ret. rewrite Hs.
  by rewrite (proj2 (Z.eqb_neq _ 0)) by (simpl; lia).
Qed.

Lemma dequeue_spec q m l :
  holds q (m :: l) -> head_idx q < 99 ->
  exists q', dequeue (QLive q) = Done (Z.of_nat (length l), Some m) (QLive q') /\
    holds q' l /\ head_idx q' = head_idx q + 1.
Proof.
  intros Hq Hlt. pose proof (nonempty_test _ _ _ Hq) as He.
  destruct Hq as [Hc Hh [Hs Hl] Ht (a & Ha & Hal & Hcells)]. simpl in Hs, Hl.
  assert (Hm : a !! Z.to_nat (head_idx q + 1) = Some (Some m)).
  { specialize (Hcells 0%nat m eq_refl). unfold slot in Hcells. revert Hcells.
    by rewrite Z.add_0_r, Z.mod_small by (unfold QUEUE_LEN; lia). }
  unfold dequeue, bind. cbn [with_queue]. rewrite He. simpl. unfold cell. rewrite Ha, Hal.
  rewrite (proj2 (Z.leb_le 0 _)), (proj2 (Z.ltb_lt (head_idx q + 1) _)) by lia. simpl.
  rewrite Hm. simpl. unfold ret. rewrite Hs, Hc, rem_mod by lia.
  rewrite Z.mod_small by (unfold QUEUE_LEN; lia).
  replace (Z.of_nat (S (length l)) - 1) with (Z.of_nat (length l)) by lia.
  eexists. split; [reflexivity |]. split; [| done]. split; simpl; try done.
  - unfold QUEUE_LEN. lia.
  - split; [done | lia].
  - rewrite Ht, Hs. f_equal. lia.
  - exists a. split; [done |]. split; [done |]. intros i x Hx.
    specialize (Hcells (S i) x Hx). unfold slot in *. simpl. rewrite <- Hcells. do 3 f_equal. lia.
Qed.

(** The read of the cell after the last one. *)
Lemma dequeue_overrun q m l :
  holds q (m :: l) -> head_idx q = 99 -> dequeue (QLive q) = Undef OutOfBounds (QLive q).
Proof.
  intros Hq Hh. pose proof (nonempty_test _ _ _ Hq) as He.
  destruct Hq as [_ _ _ _ (a & Ha & Hal & _)].
  unfold dequeue, bind. cbn [with_queue]. rewrite He. simpl. unfold cell. by rewrite Ha, Hal, Hh.
Qed.

(** ** Sequences of operations *)
Inductive op := Enq (m : ir_msg) | Deq.
Inductive answer := AnsEnq (r : Z) | AnsDeq (r : Z) (m : option ir_msg).

Definition do_op (o : op) : C answer :=
  match o with
  | Enq m => let* r := enqueue m in ret (AnsEnq r)
  | Deq => let* rm := dequeue in ret (AnsDeq rm.1 rm.2)
  end.

Fixpoint do_ops (os : list op) : C (list answer) :=
  match os with
  | [] => ret []
  | o :: os' => let* a := do_op o in let* l := do_ops os' in ret (a :: l)
  end.

(** The abstract queue: a list of at most 100 messages; the answer, the new list,
    and whether a message was removed. *)
Definition fifo_op (o : op) (l : list ir_msg) : answer * list ir_msg * bool :=
  match o with
  | Enq m => if (length l =? 100)%nat then (AnsEnq (-1), l, false)
             else (AnsEnq (Z.of_nat (length l) + 1), l ++ [m], false)
  | Deq => match l with
           | [] => (AnsDeq (-1) None, [], false)
           | m :: l' => (AnsDeq (Z.of_nat (length l')) (Some m), l', true)
           end
  end.

(** The answers, the final list and the number of messages removed. *)
Fixpoint fifo_ops (os : list op) (l : list ir_msg) : list answer * list ir_msg * Z :=
  match os with
  | [] => ([], l, 0)
  | o :: os' =>
      let '(a, l1, removed) := fifo_op o l in
      let '(ans, l2, n) := fifo_ops os' l1 in (a :: ans, l2, (if removed : bool then 1 else 0) + n)
  end.

Lemma fifo_ops_nonneg os l : 0 <= (fifo_ops os l).2.
Proof.
  revert l. induction os as [| o os IH]; intros l; simpl; [done |].
  destruct (fifo_op o l) as [[a l1] removed]. specialize (IH l1).
  destruct (fifo_ops os l1) as [[ans l2] n]. simpl in *. destruct removed; lia.
Qed.

Lemma do_op_spec o q l a l1 removed :
  holds q l -> fifo_op o l = (a, l1, removed) -> head_idx q + (if removed : bool then 1 else 0) <= 99 ->
  exists q', do_op o (QLive q) = Done a (QLive q') /\ holds q' l1 /\
    head_idx q' = head_idx q + (if removed then 1 else 0).
Proof.
  intros Hq Ha Hr. destruct o as [m |]; simpl in Ha; unfold do_op, bind, ret.
  - destruct (Nat.eqb_spec (length l) 100) as [He | He]; injection Ha as <- <- <-.
    + exists q. rewrite (enqueue_full q l) by done. by rewrite Z.add_0_r.
    + destruct (enqueue_spec q l m) as (q' & -> & Hq' & Hh'); [done | |].
      * destruct Hq as [_ _ [_ Hl] _ _]. lia.
      * exists q'. by rewrite Hh', Z.add_0_r.
  - destruct l as [| m l]; injection Ha as <- <- <-.
    + exists q. rewrite dequeue_empty by done. by rewrite Z.add_0_r.
    + destruct (dequeue_spec q m l) as (q' & -> & Hq' & Hh'); [done | lia |].
      by exists q'.
Qed.

Lemma do_ops_spec os : forall q l ans l' n,
  holds q l -> fifo_ops os l = (ans, l', n) -> head_idx q + n <= 99 ->
  exists q', do_ops os (QLive q) = Done ans (QLive q') /\ holds q' l' /\ head_idx q' = head_idx q + n.
Proof.
  induction os as [| o os IH]; intros q l ans l' n Hq Hrun Hn; simpl in Hrun.
  - injection Hrun as <- <- <-. exists q. by rewrite Z.add_0_r.
  - destruct (fifo_op o l) as [[a l1] removed] eqn:Ho.
    pose proof (fifo_ops_nonneg os l1) as Hnn.
    destruct (fifo_ops os l1) as [[ans1 l2] n1] eqn:Hrest. simpl in Hnn. injection Hrun as <- <- <-.
    destruct (do_op_spec o q l a l1 removed) as (q1 & Hrun1 & Hq1 & Hh1); [done | done | lia |].
    destruct (IH q1 l1 ans1 l2 n1) as (q2 & Hrun2 & Hq2 & Hh2); [done | done | lia |].
    exists q2. simpl. unfold bind. rewrite Hrun1, Hrun2. split; [done |]. split; [done | lia].
Qed.

(** ** Properties *)

(** C15: any sequence of [enqueue] and [dequeue] calls on a new queue that removes at
    most 99 messages gives the answers of a FIFO bounded by 100 messages: sizes,
    refusals with -1 when full or empty, and messages in the order they came in. *)
Theorem queue_refines_fifo os ans l n :
  fifo_ops os [] = (ans, l, n) -> n <= 99 ->
  exists q, (msg_queue_new true true QUEUE_LEN ;;; do_ops os) QNull = Done ans (QLive q) /\ holds q l.
Proof.
  intros Hrun Hn. destruct new_holds as (q0 & Hnew & Hq0 & Hh0).
  destruct (do_ops_spec os q0 [] ans l n Hq0 Hrun) as (q & Hrun' & Hq & _); [lia |].
  exists q. split; [| done]. unfold bind. by rewrite Hnew.
Qed.

(** The hundredth message cannot be taken out: once 99 messages were removed from a
    queue, the next [dequeue] of a non-empty queue reads past the end of the array
    (the index is not reduced modulo the capacity). *)
Lemma hundredth_dequeue_overruns os ans m l :
  fifo_ops os [] = (ans, m :: l, 99) ->
  fails (msg_queue_new true true QUEUE_LEN ;;; do_ops os ;;; dequeue) OutOfBounds QNull.
Proof.
  intros Hrun. destruct new_holds as (q0 & Hnew & Hq0 & Hh0).
  destruct (do_ops_spec os q0 [] ans (m :: l) 99 Hq0 Hrun) as (q & Hrun' & Hq & Hh); [lia |].
  exists (QLive q). unfold bind. rewrite Hnew, Hrun'. apply (dequeue_overrun q m l); [done | lia].
Qed.

(** *** Witnesses *)
Lemma queue_refines_fifo_witness :
  exists q, (msg_queue_new true true QUEUE_LEN ;;; do_ops [Enq (mk_msg 1 2); Deq; Deq]) QNull
    = Done [AnsEnq 1; AnsDeq 0 (Some (mk_msg 1 2)); AnsDeq (-1) None] (QLive q) /\ holds q [].
Proof.
  apply (queue_refines_fifo [Enq (mk_msg 1 2); Deq; Deq]
    [AnsEnq 1; AnsDeq 0 (Some (mk_msg 1 2)); AnsDeq (-1) None] [] 1); [reflexivity | lia].
Defined.

Lemma hundredth_dequeue_overruns_witness :
  fails (msg_queue_new true true QUEUE_LEN ;;;
    do_ops (replicate 100 (Enq (mk_msg 1 2)) ++ replicate 99 Deq) ;;; dequeue) OutOfBounds QNull.
Proof.
  apply (hundredth_dequeue_overruns (replicate 100 (Enq (mk_msg 1 2)) ++ replicate 99 Deq)
    (fifo_ops (replicate 100 (Enq (mk_msg 1 2)) ++ replicate 99 Deq) []).1.1 (mk_msg 1 2) []).
  vm_compute. reflexivity.
Defined.
End MsgQueue.
