(* ===== verification/IrDev.v ===== *)
(** * [ir_dev.c]: the interrupt-driven IR character device

    The state of the driver, its file operations and its interrupt handler, on top
    of the queue of [MsgQueue.v], and the test program's reading of what the device
    returns.  The calls of the kernel that can fail, the data register and the reset
    register of the demodulator are inputs of the operations. *)

From S2P Require Import Prelude CMem MsgQueue.
From stdpp Require Import base list.
From Stdlib Require Import ZArith Lia.
Open Scope Z_scope.

Module IrDev.
Import MsgQueue.

(** ** State *)
Definition ERESTARTSYS : Z := 512.
Definition EBUSY : Z := 16.
Definition EINVAL : Z := 22.

Record driver := mk_driver {
  Device_Open : Z;
  sem : Z;                    (* 1: free *)
  irq_set : bool;             (* [irq_handler] is registered for the interrupt *)
  mod_uses : Z;
  msg_queue_Ptr : qptr;
  interrupt_counter : Z;
  live_msgs : Z;              (* messages allocated by [ir_msg_new] and not freed *)
  iowrites : list (Z * Z);    (* offset and value of every [iowrite16] *)
  mapped : bool;
  registered : bool
}.

(** The globals before the module is loaded. *)
Definition unloaded : driver := mk_driver 0 0 false 0 QNull 0 0 [] false false.

Abbreviation D := (M driver).

Definition get : D driver := fun d => Done d d.
Definition set_Device_Open (z : Z) : D unit := fun d => Done tt
  (mk_driver z (sem d) (irq_set d) (mod_uses d) (msg_queue_Ptr d) (interrupt_counter d)
     (live_msgs d) (iowrites d) (mapped d) (registered d)).
Definition set_sem (z : Z) : D unit := fun d => Done tt
  (mk_driver (Device_Open d) z (irq_set d) (mod_uses d) (msg_queue_Ptr d) (interrupt_counter d)
     (live_msgs d) (iowrites d) (mapped d) (registered d)).
Definition set_irq (b : bool) : D unit := fun d => Done tt
  (mk_driver (Device_Open d) (sem d) b (mod_uses d) (msg_queue_Ptr d) (interrupt_counter d)
     (live_msgs d) (iowrites d) (mapped d) (registered d)).
Definition set_uses (z : Z) : D unit := fun d => Done tt
  (mk_driver (Device_Open d) (sem d) (irq_set d) z (msg_queue_Ptr d) (interrupt_counter d)
     (live_msgs d) (iowrites d) (mapped d) (registered d)).
Definition set_queue (d : driver) (p : qptr) : driver :=
  mk_driver (Device_Open d) (sem d) (irq_set d) (mod_uses d) p (interrupt_counter d)
     (live_msgs d) (iowrites d) (mapped d) (registered d).
Definition set_mapped (m r : bool) : D unit := fun d => Done tt
  (mk_driver (Device_Open d) (sem d) (irq_set d) (mod_uses d) (msg_queue_Ptr d) (interrupt_counter d)
     (live_msgs d) (iowrites d) m r).
Definition count_irq : D unit := fun d => Done tt
  (mk_driver (Device_Open d) (sem d) (irq_set d) (mod_uses d) (msg_queue_Ptr d)
     (interrupt_counter d + 1) (live_msgs d) (iowrites d) (mapped d) (registered d)).
Definition count_msg : D unit := fun d => Done tt
  (mk_driver (Device_Open d) (sem d) (irq_set d) (mod_uses d) (msg_queue_Ptr d)
     (interrupt_counter d) (live_msgs d + 1) (iowrites d) (mapped d) (registered d)).
Definition iowrite (off v : Z) : D unit := fun d => Done tt
  (mk_driver (Device_Open d) (sem d) (irq_set d) (mod_uses d) (msg_queue_Ptr d) (interrupt_counter d)
     (live_msgs d) (iowrites d ++ [(off, v)]) (mapped d) (registered d)).

(** A queue operation on [msg_queue_Ptr]. *)
Definition on_queue {A} (m : M qptr A) : D A := fun d =>
  match m (msg_queue_Ptr d) with
  | Done a p => Done a (set_queue d p)
  | Exited c p => Exited c (set_queue d p)
  | Undef w p => Undef w (set_queue d p)
  end.

(** ** Loading and unloading; [major] is the answer of [register_chrdev]. *)
Definition my_init (major : Z) : D Z :=
  set_mapped true false ;;;
  set_sem 1 ;;;
  if major <? 0 then ret major else set_mapped true true ;;; ret 0.

Definition my_cleanup : D unit := set_mapped false false.

(** ** [device_open] *)

(** The answers of [down_interruptible], [request_irq] and the two [kmalloc]. *)
Record open_env := { interrupted : bool; irq_ret : Z; alloc_queue : bool; alloc_array : bool }.

(** The section that the semaphore protects: an error to return, or [None]. *)
Definition claim (interrupted : bool) : D (option Z) :=
  if interrupted then ret (Some (- ERESTARTSYS))
  else
    let* d := get in
    set_sem (sem d - 1) ;;;
    if negb (Device_Open d =? 0) then
      set_sem (sem d) ;;; ret (Some (- EBUSY))
    else
      set_Device_Open (Device_Open d + 1) ;;;
      set_sem (sem d) ;;;
      ret None.

Definition request (irq_ret : Z) : D (option Z) :=
  if irq_ret <? 0 then ret (Some irq_ret) else set_irq true ;;; ret None.

(** Up to the registration of the handler. *)
Definition open_claim (e : open_env) : D (option Z) :=
  let* r := claim (interrupted e) in
  match r with Some err => ret (Some err) | None => request (irq_ret e) end.

(** The rest: the use count and the queue. *)
Definition try_module_get : D unit := let* d := get in set_uses (mod_uses d + 1).
Definition new_queue (ok1 ok2 : bool) : D unit := on_queue (msg_queue_new ok1 ok2 QUEUE_LEN).
Definition open_setup (e : open_env) : D Z :=
  try_module_get ;;; new_queue (alloc_queue e) (alloc_array e) ;;; ret 0.

Definition device_open (e : open_env) : D Z :=
  let* r := open_claim e in
  match r with Some err => ret err | None => open_setup e end.

Definition unclaim : D unit := let* d := get in set_Device_Open (Device_Open d - 1).
Definition free_irq : D unit := set_irq false.
Definition destroy_queue : D unit := on_queue msg_queue_destroy.
Definition module_put : D unit := let* d := get in set_uses (mod_uses d - 1).

Definition device_release : D Z :=
  unclaim ;;; free_irq ;;; destroy_queue ;;; module_put ;;; ret 0.

(** ** [device_read]: [bytes_read] and the bytes put into the user's buffer *)
Fixpoint read_loop (length : nat) (bytes_read : Z) (out : list Z) : D (Z * list Z) :=
  match length with
  | O => ret (bytes_read, out)
  | S length' =>
      let* rm := on_queue dequeue in
      if 0 <=? rm.1 then
        match rm.2 with
        | Some m => read_loop length' (bytes_read + 1) (out ++ [byte_low m; byte_high m])
        | None => undef Uninitialised
        end
      else ret (bytes_read, out)
  end.

Definition device_read (length : nat) : D (Z * list Z) := read_loop length 0 [].

Definition device_write : D Z := ret (- EINVAL).

(** ** [irq_handler] *)

(** [while (ioread32(virt_addr + 8) & 0x8000);] on the values the register takes;
    [NoFuel]: still waiting after the last of them. *)
Fixpoint wait_reset (polls : list Z) : D unit :=
  match polls with
  | [] => undef NoFuel
  | p :: ps => if Z.land p 0x8000 =? 0 then ret tt else wait_reset ps
  end.

Definition decode (raw : Z) : ir_msg :=
  ir_msg_new (Z.land (Z.shiftr raw 8) 0xff) (Z.land raw 0xff).

(** [raw]: the data register; [alloc]: whether [kmalloc] succeeds. *)
Definition irq_handler (alloc : bool) (raw : Z) (polls : list Z) : D unit :=
  count_irq ;;;
  (if alloc then count_msg else undef NullPointer) ;;;
  on_queue (enqueue (decode raw)) ;;;
  iowrite 8 1 ;;;
  wait_reset polls ;;;
  iowrite 8 0.

(** ** [devtest.c]: the numbers it prints for [n] messages read into [buf] *)
Fixpoint devtest_show (n : nat) (buf : list Z) : list Z :=
  match n, buf with
  | S n', lo :: hi :: buf' => Z.land (lo + 256 * hi) 0xfff :: devtest_show n' buf'
  | _, _ => []
  end.

(** ** Reading *)

(** The bytes of messages, in the order [device_read] puts them. *)
Definition bytes (l : list ir_msg) : list Z := flat_map (fun m => [byte_low m; byte_high m]) l.

Lemma length_bytes l : length (bytes l) = (2 * length l)%nat.
Proof. induction l; simpl; lia. Qed.

Lemma on_queue_done {A} (m : M qptr A) d a p :
  m (msg_queue_Ptr d) = Done a p -> on_queue m d = Done a (set_queue d p).
Proof. intros H. unfold on_queue. by rewrite H. Qed.

Lemma set_queue_twice d p p' : set_queue (set_queue d p) p' = set_queue d p'.
Proof. done. Qed.

Lemma set_queue_same d : set_queue d (msg_queue_Ptr d) = d.
Proof. by destruct d. Qed.

Lemma read_loop_spec len : forall n out d q l,
  msg_queue_Ptr d = QLive q -> holds q l -> head_idx q + Z.of_nat (Nat.min len (length l)) <= 99 ->
  exists q', read_loop len n out d =
      Done (n + Z.of_nat (Nat.min len (length l)), out ++ bytes (take len l)) (set_queue d (QLive q')) /\
    holds q' (drop len l) /\ head_idx q' = head_idx q + Z.of_nat (Nat.min len (length l)).
Proof.
  induction len as [| len IH]; intros n out d q l Hd Hq Hh.
  - exists q. simpl. rewrite <- Hd, set_queue_same, app_nil_r, !Z.add_0_r. done.
  - cbn [read_loop]. unfold bind. destruct l as [| m l].
    + rewrite (on_queue_done _ _ (-1, None) (QLive q)) by (rewrite Hd; by apply dequeue_empty).
      exists q. simpl. by rewrite app_nil_r, !Z.add_0_r.
    + simpl in Hh. destruct (dequeue_spec q m l) as (q1 & Hrun & Hq1 & Hh1); [done | lia |].
      rewrite (on_queue_done _ _ (Z.of_nat (length l), Some m) (QLive q1)) by (by rewrite Hd).
      simpl. rewrite (proj2 (Z.leb_le 0 _)) by lia.
      destruct (IH (n + 1) (out ++ [byte_low m; byte_high m]) (set_queue d (QLive q1)) q1 l)
        as (q2 & -> & Hq2 & Hh2); [done | done | lia |].
      exists q2. rewrite set_queue_twice. rewrite <- app_assoc.
      replace (n + Z.of_nat (S (Nat.min len (length l)))) with (n + 1 + Z.of_nat (Nat.min len (length l))) by lia.
      split; [done |]. split; [done | lia].
Qed.

(** The read that would remove the hundredth message. *)
Lemma read_loop_overrun len : forall n out d q l,
  msg_queue_Ptr d = QLive q -> holds q l -> (Z.to_nat (99 - head_idx q) < len)%nat ->
  (Z.to_nat (99 - head_idx q) < length l)%nat ->
  fails (read_loop len n out) OutOfBounds d.
Proof.
  induction len as [| len IH]; intros n out d q l Hd Hq Hlen Hl; [lia |].
  destruct l as [| m l]; [simpl in Hl; lia |]. pose proof (h_head _ _ Hq) as Hhd. unfold QUEUE_LEN in Hhd.
  destruct (Z.eq_dec (head_idx q) 99) as [He | Hne].
  - apply fails_first. eexists. unfold on_queue. rewrite Hd, (dequeue_overrun q m l) by done. done.
  - destruct (dequeue_spec q m l) as (q1 & Hrun & Hq1 & Hh1); [done | lia |].
    cbn [read_loop]. apply fails_bind. unfold wp.
    rewrite (on_queue_done _ _ (Z.of_nat (length l), Some m) (QLive q1)) by (by rewrite Hd).
    simpl. rewrite (proj2 (Z.leb_le 0 _)) by lia. simpl in Hl.
    apply (IH _ _ _ q1 l); try done; lia.
Qed.

(** ** Interrupts *)
Definition clears (polls : list Z) : Prop := Exists (fun p => Z.land p 0x8000 = 0) polls.

Lemma wait_reset_done polls d : clears polls -> wait_reset polls d = Done tt d.
Proof.
  induction 1 as [p ps Hp | p ps _ IH]; simpl; [by rewrite Hp |]. by destruct (Z.land p 0x8000 =? 0).
Qed.

(** A series of interrupts, each with its data and its reset register. *)
Fixpoint irqs (rs : list (Z * list Z)) : D unit :=
  match rs with
  | [] => ret tt
  | (raw, polls) :: rs' => irq_handler true raw polls ;;; irqs rs'
  end.

(** The part of the state that interrupts leave alone. *)
Definition same_device (d d' : driver) : Prop :=
  Device_Open d' = Device_Open d /\ sem d' = sem d /\ irq_set d' = irq_set d /\ mod_uses d' = mod_uses d.

Lemma irq_spec raw polls d q l :
  msg_queue_Ptr d = QLive q -> holds q l -> clears polls ->
  exists d' q', irq_handler true raw polls d = Done tt d' /\ msg_queue_Ptr d' = QLive q' /\
    holds q' (take 100 (l ++ [decode raw])) /\ head_idx q' = head_idx q /\ same_device d d' /\
    live_msgs d' = live_msgs d + 1 /\ interrupt_counter d' = interrupt_counter d + 1 /\
    iowrites d' = iowrites d ++ [(8, 1); (8, 0)].
Proof.
  intros Hd Hq Hcl. destruct (h_size _ _ Hq) as [_ Hl].
  assert (He : exists z q', enqueue (decode raw) (QLive q) = Done z (QLive q') /\
    holds q' (take 100 (l ++ [decode raw])) /\ head_idx q' = head_idx q).
  { destruct (Nat.eq_dec (length l) 100) as [H100 | Hlt].
    - exists (-1), q. rewrite (enqueue_full q l) by done. rewrite take_app_le by lia.
      by rewrite take_ge by lia.
    - destruct (enqueue_spec q l (decode raw)) as (q' & H1 & H2 & H3); [done | lia |].
      exists (Z.of_nat (length l) + 1), q'. split; [done |]. rewrite take_ge; [done |].
      rewrite length_app. simpl. lia. }
  destruct He as (z & q' & He & Hq' & Hh').
  unfold irq_handler, bind, count_irq, count_msg, on_queue. cbn [msg_queue_Ptr]. rewrite Hd, He.
  unfold iowrite at 1. rewrite wait_reset_done by done. unfold iowrite.
  eexists _, q'. split; [reflexivity |]. simpl. rewrite <- app_assoc. done.
Qed.

Lemma take_take_app {A} (l : list A) n x r : take n (take n (l ++ [x]) ++ r) = take n (l ++ x :: r).
Proof.
  change (x :: r) with ([x] ++ r). rewrite (app_assoc l).
  generalize (l ++ [x]). intros l'. destruct (Nat.le_gt_cases n (length l')).
  - rewrite (take_app_le l') by done. rewrite take_app_le by (rewrite length_take; lia).
    by rewrite take_take, Nat.min_id.
  - by rewrite (take_ge l') by lia.
Qed.

Lemma irqs_spec rs : forall d q l,
  msg_queue_Ptr d = QLive q -> holds q l -> Forall (fun r => clears r.2) rs ->
  exists d' q', irqs rs d = Done tt d' /\ msg_queue_Ptr d' = QLive q' /\
    holds q' (take 100 (l ++ List.map (fun r => decode r.1) rs)) /\ head_idx q' = head_idx q /\
    same_device d d' /\ live_msgs d' = live_msgs d + Z.of_nat (length rs).
Proof.
  induction rs as [| [raw polls] rs IH]; intros d q l Hd Hq Hcl.
  - exists d, q. simpl. rewrite app_nil_r, Z.add_0_r, take_ge by (by apply (h_size _ _ Hq)). done.
  - inversion Hcl as [| ? ? Hp Hrest]; subst. simpl in Hp.
    destruct (irq_spec raw polls d q l Hd Hq Hp) as (d1 & q1 & Hrun1 & Hd1 & Hq1 & Hh1 & Hs1 & Hm1 & _).
    destruct (IH d1 q1 _ Hd1 Hq1 Hrest) as (d2 & q2 & Hrun2 & Hd2 & Hq2 & Hh2 & Hs2 & Hm2).
    exists d2, q2. simpl. unfold bind. rewrite Hrun1, Hrun2. split; [done |]. split; [done |].
    rewrite take_take_app in Hq2. split; [done |]. split; [lia |].
    split; [| lia]. destruct Hs1 as (? & ? & ? & ?), Hs2 as (? & ? & ? & ?). repeat split; congruence.
Qed.

(** ** What the test program shows *)
Lemma show_decode raw : Z.land (byte_low (decode raw) + 256 * byte_high (decode raw)) 0xfff = Z.land raw 0xfff.
Proof.
  unfold decode, ir_msg_new. cbn [byte_low byte_high].
  change 0xff with (Z.ones 8). change 0xfff with (Z.ones 12). rewrite !Z.land_ones by lia.
  rewrite Z.shiftr_div_pow2 by lia. unfold u8. change (2 ^ 8) with 256. change (2 ^ 12) with 4096.
  rewrite !Z.mod_mod by lia.
  replace (raw mod 256 + 256 * ((raw / 256) mod 256)) with (raw mod (256 * 256))
    by (rewrite Z.rem_mul_r by lia; lia).
  apply Z.mod_mod_divide. by exists 16.
Qed.

Lemma devtest_show_bytes rs :
  devtest_show (length rs) (bytes (List.map decode rs)) = List.map (fun r => Z.land r 0xfff) rs.
Proof.
  induction rs as [| r rs IH]; [done |]. cbn [length List.map bytes flat_map app devtest_show].
  rewrite show_decode. f_equal. exact IH.
Qed.

(** ** Opening *)
Definition open_ok (e : open_env) : Prop :=
  interrupted e = false /\ 0 <= irq_ret e /\ alloc_queue e = true /\ alloc_array e = true.

Lemma device_open_ok e d :
  open_ok e -> Device_Open d = 0 ->
  exists d' q, device_open e d = Done 0 d' /\ msg_queue_Ptr d' = QLive q /\ holds q [] /\ head_idx q = 0 /\
    Device_Open d' = 1 /\ sem d' = sem d /\ irq_set d' = true /\ mod_uses d' = mod_uses d + 1 /\
    live_msgs d' = live_msgs d.
Proof.
  intros (Hi & Hr & H1 & H2) Hd. destruct new_holds as (q & Hq & Hh & Hh0).
  unfold device_open, open_claim, claim, request. rewrite Hi. unfold bind, get, set_sem. rewrite Hd. simpl.
  rewrite (proj2 (Z.ltb_ge (irq_ret e) 0)) by lia. unfold open_setup, try_module_get, new_queue, bind, get, on_queue. simpl.
  rewrite H1, H2. eexists _, q. split; [reflexivity |]. simpl. injection Hq as <-. done.
Qed.

Lemma device_open_busy e d :
  interrupted e = false -> Device_Open d <> 0 -> device_open e d = Done (- EBUSY) d.
Proof.
  intros Hi Hd. unfold device_open, open_claim, claim, request. rewrite Hi. unfold bind, get, set_sem.
  rewrite (proj2 (Z.eqb_neq (Device_Open d) 0)) by done. simpl. by destruct d.
Qed.

Definition loaded (major : Z) : driver := mk_driver 0 1 false 0 QNull 0 0 [] true true.

Lemma opened_irqs major e rs :
  0 <= major -> open_ok e -> Forall (fun r => clears r.2) rs ->
  exists d q, (my_init major ;;; device_open e ;;; irqs rs) unloaded = Done tt d /\
    msg_queue_Ptr d = QLive q /\ holds q (take 100 (List.map (fun r => decode r.1) rs)) /\
    head_idx q = 0 /\ Device_Open d = 1 /\ live_msgs d = Z.of_nat (length rs).
Proof.
  intros Hm He Hrs. assert (Hinit : my_init major unloaded = Done 0 (loaded major)).
  { unfold my_init, bind. simpl. by rewrite (proj2 (Z.ltb_ge major 0)) by lia. }
  destruct (device_open_ok e (loaded major) He eq_refl)
    as (d1 & q1 & Hopen & Hd1 & Hq1 & Hh1 & Ho1 & _ & _ & _ & Hl1).
  destruct (irqs_spec rs d1 q1 [] Hd1 Hq1 Hrs) as (d2 & q2 & Hirqs & Hd2 & Hq2 & Hh2 & Hs2 & Hl2).
  exists d2, q2. unfold bind. rewrite Hinit, Hopen, Hirqs. split; [done |]. split; [done |].
  split; [done |]. split; [lia |]. destruct Hs2 as [-> _]. split; [done |]. rewrite Hl2, Hl1. done.
Qed.

(** ** Runs that end *)
Lemma wait_reset_inv polls d d' : wait_reset polls d = Done tt d' -> clears polls.
Proof.
  induction polls as [| p ps IH]; simpl; [done |].
  destruct (Z.eqb_spec (Z.land p 0x8000) 0); [by left |]. intros H. right. by apply IH.
Qed.

Lemma irq_done raw polls d d' : irq_handler true raw polls d = Done tt d' -> clears polls.
Proof.
  unfold irq_handler, bind, count_irq, count_msg. destruct (on_queue _ _) as [z d1 | |]; try done.
  unfold iowrite at 1. destruct (wait_reset polls _) as [[] d2 | |] eqn:Hw; try done.
  intros _. by eapply wait_reset_inv.
Qed.

Lemma read_inv len n out d r d' q l :
  msg_queue_Ptr d = QLive q -> holds q l -> read_loop len n out d = Done r d' ->
  exists q' l', d' = set_queue d (QLive q') /\ holds q' l'.
Proof.
  intros Hd Hq Hrun.
  destruct (Z.le_gt_cases (head_idx q + Z.of_nat (Nat.min len (length l))) 99) as [Hle | Hgt].
  - destruct (read_loop_spec len n out d q l Hd Hq Hle) as (q' & Hrun' & Hq' & _).
    rewrite Hrun' in Hrun. injection Hrun as _ <-. by exists q', (drop len l).
  - pose proof (h_head _ _ Hq) as Hh. unfold QUEUE_LEN in Hh.
    destruct (read_loop_overrun len n out d q l Hd Hq) as (s' & Hs); [lia | lia |]. congruence.
Qed.

(** ** Properties *)

(** End to end, from loading the module to the test program: after an open and a
    series of interrupts, a read delivers the messages in the order of the
    interrupts (those after the hundredth are dropped), and the test program shows
    the low 12 bits of each data word; fewer than a hundred messages are read.*)
Lemma driver_delivers major e rs len n :
  0 <= major -> open_ok e -> Forall (fun r => clears r.2) rs ->
  n = Nat.min len (Nat.min 100 (length rs)) -> (n < 100)%nat ->
  exists d, (my_init major ;;; device_open e ;;; irqs rs ;;; device_read len) unloaded =
      Done (Z.of_nat n, bytes (take n (List.map (fun r => decode r.1) rs))) d /\
    devtest_show n (bytes (take n (List.map (fun r => decode r.1) rs)))
      = List.map (fun r => Z.land r.1 0xfff) (take n rs).
Proof.
  intros Hm He Hrs -> Hn.
  destruct (opened_irqs major e rs Hm He Hrs) as (d & q & Hrun & Hd & Hq & Hh & _).
  set (ms := List.map (fun r => decode r.1) rs) in *.
  assert (Hlen : length ms = length rs) by apply length_map.
  destruct (read_loop_spec len 0 [] d q _ Hd Hq) as (q' & Hread & _ & _).
  { rewrite length_take, Hlen. lia. }
  rewrite length_take, take_take, Hlen in Hread.
  assert (Htk : take (Nat.min len 100) ms = take (Nat.min len (Nat.min 100 (length rs))) ms).
  { destruct (Nat.le_gt_cases (length rs) (Nat.min len 100)).
    - by rewrite !take_ge by lia.
    - f_equal. lia. }
  eexists. split.
  - unfold bind in Hrun |- *. destruct (my_init major unloaded) as [? d1 | |]; try done.
    destruct (device_open e d1) as [? d2 | |]; try done. rewrite Hrun. unfold device_read.
    rewrite Hread, Htk. reflexivity.
  - set (n := Nat.min len (Nat.min 100 (length rs))).
    replace n with (length (take n (List.map fst rs))) at 1 by (rewrite length_take, length_map; lia).
    replace (take n ms) with (List.map decode (take n (List.map fst rs)))
      by (unfold ms; by rewrite <- firstn_map, map_map).
    rewrite devtest_show_bytes, !firstn_map, map_map. done.
Qed.

(** A read of a hundred or more messages after a hundred interrupts, the
    capacity of the queue, reads past the end of its array. *)
Lemma full_read_overruns major e rs len :
  0 <= major -> open_ok e -> Forall (fun r => clears r.2) rs ->
  (100 <= length rs)%nat -> (100 <= len)%nat ->
  fails (my_init major ;;; device_open e ;;; irqs rs ;;; device_read len) OutOfBounds unloaded.
Proof.
  intros Hm He Hrs Hl Hlen.
  destruct (opened_irqs major e rs Hm He Hrs) as (d & q & Hrun & Hd & Hq & Hh & _).
  destruct (read_loop_overrun len 0 [] d q _ Hd Hq) as (d' & Hd').
  - rewrite Hh. change (Z.to_nat (99 - 0)) with 99%nat. lia.
  - rewrite Hh, length_take, length_map. change (Z.to_nat (99 - 0)) with 99%nat. lia.
  - exists d'. unfold bind in Hrun |- *. destruct (my_init major unloaded) as [? d1 | |]; try done.
    destruct (device_open e d1) as [? d2 | |]; try done. by rewrite Hrun.
Qed.

(** [device_read] counts messages where the system call counts bytes: with enough
    messages, a read into a buffer of [len] bytes returns [len] but writes [2 * len]
    bytes. *)
Lemma read_overfills_buffer len d q l :
  msg_queue_Ptr d = QLive q -> holds q l -> (0 < len <= length l)%nat ->
  head_idx q + Z.of_nat len <= 99 ->
  exists out d', device_read len d = Done (Z.of_nat len, out) d' /\ length out = (2 * len)%nat /\
    (len < length out)%nat.
Proof.
  intros Hd Hq Hlen Hh. destruct (read_loop_spec len 0 [] d q l Hd Hq) as (q' & Hrun & _ & _).
  { rewrite Nat.min_l by lia. done. }
  rewrite Nat.min_l in Hrun by lia. eexists _, _. split; [exact Hrun |].
  simpl. rewrite length_bytes, length_take, Nat.min_l by lia. lia.
Qed.

(** An open whose [request_irq] fails leaves [Device_Open] set: every later open
    fails with EBUSY, although no process holds the device.*)
Lemma failed_irq_locks_device e e' d :
  interrupted e = false -> Device_Open d = 0 -> irq_ret e < 0 -> interrupted e' = false ->
  exists d', device_open e d = Done (irq_ret e) d' /\ irq_set d' = irq_set d /\
    device_open e' d' = Done (- EBUSY) d'.
Proof.
  intros Hi Hd Hr Hi'.
  assert (Hrun : exists d', device_open e d = Done (irq_ret e) d' /\ irq_set d' = irq_set d /\ Device_Open d' = 1).
  { unfold device_open, open_claim, claim, request. rewrite Hi. unfold bind, get, set_sem. rewrite Hd. simpl.
    rewrite (proj2 (Z.ltb_lt _ 0)) by done. by eexists. }
  destruct Hrun as (d' & Hrun & Hirq & Ho). exists d'. split; [done |]. split; [done |].
  apply device_open_busy; [done | lia].
Qed.

(** The handler is registered before the queue is allocated: an interrupt that
    arrives in between, when the device is opened for the second time, uses the
    queue freed by the first close.*)
Lemma early_interrupt_uses_freed_queue e d raw polls :
  interrupted e = false -> 0 <= irq_ret e -> Device_Open d = 0 -> msg_queue_Ptr d = QFreed ->
  fails (open_claim e ;;; irq_handler true raw polls ;;; open_setup e) UseAfterFree d.
Proof.
  intros Hi Hr Hd Hq. unfold open_claim, claim, request. rewrite Hi. unfold fails, bind, get, set_sem. rewrite Hd. simpl.
  rewrite (proj2 (Z.ltb_ge _ 0)) by lia. simpl. unfold irq_handler, bind, count_irq, count_msg, on_queue.
  simpl. rewrite Hq. by eexists.
Qed.

(** *** Witnesses *)
Definition sample_open : open_env :=
  {| interrupted := false; irq_ret := 0; alloc_queue := true; alloc_array := true |}.

Lemma driver_delivers_witness :
  exists d, (my_init 244 ;;; device_open sample_open ;;; irqs [(0x1234, [0x8000; 0]); (0xffff, [0])] ;;;
      device_read 5) unloaded = Done (2, [0x34; 0x12; 0xff; 0xff]) d /\
    devtest_show 2 [0x34; 0x12; 0xff; 0xff] = [0x234; 0xfff].
Proof.
  apply (driver_delivers 244 sample_open [(0x1234, [0x8000; 0]); (0xffff, [0])] 5 2).
  - lia.
  - done.
  - constructor; [right; by left | constructor; [by left | constructor]].
  - reflexivity.
  - lia.
Defined.

Lemma full_read_overruns_witness :
  fails (my_init 244 ;;; device_open sample_open ;;; irqs (replicate 100 (7, [0])) ;;; device_read 100)
    OutOfBounds unloaded.
Proof.
  apply (full_read_overruns 244 sample_open (replicate 100 (7, [0])) 100).
  - lia.
  - done.
  - apply Forall_replicate. by left.
  - rewrite length_replicate. lia.
  - lia.
Defined.

(** A driver that holds the messages 1, 2. *)
Definition sample_driver : driver :=
  match (my_init 244 ;;; device_open sample_open ;;; irqs [(1, [0]); (2, [0])]) unloaded with
  | Done _ d => d
  | _ => unloaded
  end.

Lemma read_overfills_buffer_witness :
  exists out d', device_read 1 sample_driver = Done (1, out) d' /\ length out = 2%nat /\
    (1 < length out)%nat.
Proof.
  destruct (opened_irqs 244 sample_open [(1, [0]); (2, [0])]) as (d & q & Hrun & Hd & Hq & Hh & _);
    [lia | done | constructor; [by left | constructor; [by left | constructor]] |].
  assert (Hs : sample_driver = d) by (unfold sample_driver; by rewrite Hrun). rewrite Hs.
  apply (read_overfills_buffer 1 d q _ Hd Hq); [simpl; lia | rewrite Hh; lia].
Defined.

Lemma failed_irq_locks_device_witness :
  exists d', device_open {| interrupted := false; irq_ret := -16; alloc_queue := true; alloc_array := true |}
      (loaded 244) = Done (-16) d' /\ irq_set d' = false /\ device_open sample_open d' = Done (-16) d'.
Proof.
  apply (failed_irq_locks_device
    {| interrupted := false; irq_ret := -16; alloc_queue := true; alloc_array := true |}
    sample_open (loaded 244)); [done | done | simpl; lia | done].
Defined.

Lemma early_interrupt_uses_freed_queue_witness :
  fails (open_claim sample_open ;;; irq_handler true 5 [0] ;;; open_setup sample_open) UseAfterFree
    (set_queue (loaded 244) QFreed).
Proof.
  apply (early_interrupt_uses_freed_queue sample_open (set_queue (loaded 244) QFreed) 5 [0]);
    [done | simpl; lia | done | done].
Defined.
End IrDev.
