(* ===== verification/IrOpen.v ===== *)
(** * Opening and closing the IR device, statement by statement

    [device_open] and [device_release] of [ir_dev.c] run in the processes that use the
    device; interrupts, and other processes, come between any two of their statements.  The
    state is the driver and the stage that every process is in.  The test and the increment
    of [Device_Open] are one step: the semaphore keeps other openers out, and a process that
    closes the device changes [Device_Open] only when it is 1, which an opener takes for
    busy. *)

From S2P Require Import Prelude CMem MsgQueue IrDev.
From stdpp Require Import base list.
From Stdlib Require Import ZArith Lia.
Open Scope Z_scope.

Module IrOpen.
Import MsgQueue IrDev.

(** ** Processes *)

(** What a process does next: [request_irq], [try_module_get] and the allocation of the queue
    in [device_open]; reads, or closing the file; [free_irq], the destruction of the queue and
    [module_put] in [device_release]. *)
Inductive proc := Requesting | Using | Allocating | Holding | Freeing | Destroying | Putting.

Record sys := mk_sys {
  drv : driver;
  procs : list proc;
  overlapped : bool        (* an open began before an earlier close had ended *)
}.

Definition booted (d : driver) : sys := mk_sys d [] false.

(** [request_irq] refuses a line that already has a handler. *)
Inductive step (s : sys) : sys -> Prop :=
| step_refused i r d' : claim i (drv s) = Done (Some r) d' -> step s (mk_sys d' (procs s) (overlapped s))
| step_claim i d' : claim i (drv s) = Done None d' ->
    step s (mk_sys d' (Requesting :: procs s) (overlapped s || negb (bool_decide (procs s = []))))
| step_no_irq l1 l2 z r d' : procs s = l1 ++ Requesting :: l2 -> request z (drv s) = Done (Some r) d' ->
    step s (mk_sys d' (l1 ++ l2) (overlapped s))
| step_request l1 l2 z d' : procs s = l1 ++ Requesting :: l2 -> irq_set (drv s) = false -> request z (drv s) = Done None d' ->
    step s (mk_sys d' (l1 ++ Using :: l2) (overlapped s))
| step_get l1 l2 d' : procs s = l1 ++ Using :: l2 -> try_module_get (drv s) = Done tt d' ->
    step s (mk_sys d' (l1 ++ Allocating :: l2) (overlapped s))
| step_alloc l1 l2 ok1 ok2 d' : procs s = l1 ++ Allocating :: l2 -> new_queue ok1 ok2 (drv s) = Done tt d' ->
    step s (mk_sys d' (l1 ++ Holding :: l2) (overlapped s))
| step_read l1 l2 len r d' : procs s = l1 ++ Holding :: l2 -> device_read len (drv s) = Done r d' ->
    step s (mk_sys d' (l1 ++ Holding :: l2) (overlapped s))
| step_close l1 l2 d' : procs s = l1 ++ Holding :: l2 -> unclaim (drv s) = Done tt d' ->
    step s (mk_sys d' (l1 ++ Freeing :: l2) (overlapped s))
| step_free l1 l2 d' : procs s = l1 ++ Freeing :: l2 -> free_irq (drv s) = Done tt d' ->
    step s (mk_sys d' (l1 ++ Destroying :: l2) (overlapped s))
| step_destroy l1 l2 d' : procs s = l1 ++ Destroying :: l2 -> destroy_queue (drv s) = Done tt d' ->
    step s (mk_sys d' (l1 ++ Putting :: l2) (overlapped s))
| step_put l1 l2 d' : procs s = l1 ++ Putting :: l2 -> module_put (drv s) = Done tt d' ->
    step s (mk_sys d' (l1 ++ l2) (overlapped s))
| step_irq raw polls d' : irq_set (drv s) = true -> irq_handler true raw polls (drv s) = Done tt d' ->
    step s (mk_sys d' (procs s) (overlapped s)).

(** From the loaded module on. *)
Inductive reachable : sys -> Prop :=
| reach_load major d : 0 <= major -> my_init major unloaded = Done 0 d -> reachable (booted d)
| reach_step s s' : reachable s -> step s s' -> reachable s'.

(** ** The invariant *)

(** Between the two changes of [Device_Open], of the registration and of the use count. *)
Definition claims (p : proc) : Z := match p with Requesting | Using | Allocating | Holding => 1 | _ => 0 end.
Definition owns (p : proc) : Z := match p with Using | Allocating | Holding | Freeing => 1 | _ => 0 end.
Definition uses (p : proc) : Z := match p with Allocating | Holding | Freeing | Destroying | Putting => 1 | _ => 0 end.

Fixpoint count (f : proc -> Z) (l : list proc) : Z := match l with [] => 0 | p :: l' => f p + count f l' end.

Lemma count_app f l1 l2 : count f (l1 ++ l2) = count f l1 + count f l2.
Proof. induction l1; cbn [app count]; lia. Qed.
Lemma count_mid f l1 p l2 : count f (l1 ++ p :: l2) = count f (l1 ++ l2) + f p.
Proof. rewrite !count_app. cbn [count]. lia. Qed.
Lemma count_claims l : 0 <= count claims l.
Proof. induction l as [| [] l]; cbn [count claims]; lia. Qed.
Lemma count_owns l : 0 <= count owns l.
Proof. induction l as [| [] l]; cbn [count owns]; lia. Qed.

(** A queue in use: it holds messages, or its array could not be allocated. *)
Definition no_array (p : qptr) : Prop := exists q, p = QLive q /\ msg_array q = None /\ size q = 0 /\ capacity q = QUEUE_LEN.
Definition well_formed (p : qptr) : Prop := exists q l, p = QLive q /\ holds q l.
Definition in_use (p : qptr) : Prop := well_formed p \/ no_array p.
Definition not_in_use (p : qptr) : Prop := p = QNull \/ p = QFreed.

Definition queue_at (p : proc) (q : qptr) : Prop :=
  match p with Holding | Freeing | Destroying => in_use q | _ => not_in_use q end.

Record driver_inv (s : sys) : Prop := {
  di_sem : sem (drv s) = 1;
  di_open : Device_Open (drv s) = 0 \/ Device_Open (drv s) = 1;
  di_claims : count claims (procs s) <= Device_Open (drv s);
  di_owns : count owns (procs s) = if irq_set (drv s) then 1 else 0;
  di_uses : count uses (procs s) = mod_uses (drv s);
  di_queue : overlapped s = false ->
    match procs s with [] => not_in_use (msg_queue_Ptr (drv s)) | [p] => queue_at p (msg_queue_Ptr (drv s)) | _ => False end
}.

(** ** The statements *)
Lemma claim_refused i d r d' : claim i d = Done (Some r) d' -> d' = d.
Proof.
  unfold claim, bind, get, set_sem, ret. destruct i; [by injection 1 |].
  destruct (Device_Open d =? 0); cbn; [done |]. injection 1 as _ <-. by destruct d.
Qed.

Lemma claim_done i d d' : claim i d = Done None d' -> Device_Open d = 0 /\ Device_Open d' = 1 /\ sem d' = sem d /\ irq_set d' = irq_set d /\
  mod_uses d' = mod_uses d /\ msg_queue_Ptr d' = msg_queue_Ptr d.
Proof.
  unfold claim, bind, get, set_sem, set_Device_Open, ret. destruct i; [done |].
  destruct (Z.eqb_spec (Device_Open d) 0) as [E | E]; cbn; [| done]. injection 1 as <-. cbn. by rewrite E.
Qed.

Lemma read_keeps len n out d r d' : in_use (msg_queue_Ptr d) -> read_loop len n out d = Done r d' ->
  exists p, d' = set_queue d p /\ in_use p.
Proof.
  intros [(q & l & Hq & Hl) | (q & Hq & Ha & Hs & Hc)] Hrun.
  - destruct (read_inv _ _ _ _ _ _ _ _ Hq Hl Hrun) as (q' & l' & -> & Hl'). exists (QLive q'). split; [done |]. left. by exists q', l'.
  - destruct len as [| len]; cbn [read_loop] in Hrun.
    + injection Hrun as _ <-. exists (msg_queue_Ptr d). rewrite set_queue_same. split; [done |]. right. by exists q.
    + unfold bind, on_queue, dequeue, with_queue, is_empty in Hrun. rewrite Hq in Hrun. cbn in Hrun. rewrite Hs in Hrun. cbn in Hrun.
      injection Hrun as _ <-. exists (QLive q). split; [done |]. right. by exists q.
Qed.

Lemma read_queue_only len : forall n out d r d', read_loop len n out d = Done r d' -> exists p, d' = set_queue d p.
Proof.
  induction len as [| len IH]; intros n out d r d' Hrun; cbn [read_loop] in Hrun.
  - injection Hrun as _ <-. exists (msg_queue_Ptr d). by rewrite set_queue_same.
  - unfold bind, on_queue in Hrun. destruct (dequeue (msg_queue_Ptr d)) as [[z [m |]] p | |]; try done; cbn [fst snd] in Hrun.
    + destruct (0 <=? z); [| injection Hrun as _ <-; by exists p]. apply IH in Hrun as [p' ->]. by exists p'.
    + destruct (0 <=? z); [done |]. injection Hrun as _ <-. by exists p.
Qed.

Lemma enqueue_no_array q m : msg_array q = None -> size q = 0 -> capacity q = QUEUE_LEN -> fails (enqueue m) NullPointer (QLive q).
Proof. intros Ha Hs Hc. unfold fails, enqueue, with_queue, is_full, bind, ret, set_cell. cbn. rewrite Hs, Hc, Ha. cbn. by eexists. Qed.

(** An interrupt that returns: it changes the queue only, and leaves one that is in use well
    formed. *)
Lemma irq_keeps raw polls d d' : irq_handler true raw polls d = Done tt d' -> same_device d d' /\
  (in_use (msg_queue_Ptr d) -> well_formed (msg_queue_Ptr d')) /\ (not_in_use (msg_queue_Ptr d) -> msg_queue_Ptr d' = QNull).
Proof.
  intros Hrun. pose proof (irq_done _ _ _ _ Hrun) as Hcl. unfold irq_handler, bind, count_irq, count_msg, on_queue in Hrun. cbn [msg_queue_Ptr] in Hrun.
  destruct (enqueue (decode raw) (msg_queue_Ptr d)) as [z p | |] eqn:He; try done. unfold iowrite at 1 in Hrun.
  rewrite wait_reset_done in Hrun by done. unfold iowrite in Hrun. injection Hrun as <-. cbn [msg_queue_Ptr]. split; [done |]. split.
  - intros [(q & l & Hq & Hl) | (q & Hq & Ha & Hs & Hc)].
    + rewrite Hq in He. destruct (irq_spec raw polls d q l Hq Hl Hcl) as (d1 & q1 & Hrun' & Hq1 & Hl1 & _).
      unfold irq_handler, bind, count_irq, count_msg, on_queue in Hrun'. cbn [msg_queue_Ptr] in Hrun'. rewrite Hq, He in Hrun'.
      unfold iowrite at 1 in Hrun'. rewrite wait_reset_done in Hrun' by done. injection Hrun' as <-. by eexists q1, _.
    + rewrite Hq in He. destruct (enqueue_no_array q (decode raw) Ha Hs Hc) as (p' & Hp). congruence.
  - intros [Hq | Hq]; rewrite Hq in He; cbn in He; [by injection He as _ <- | done].
Qed.

(** A new queue. *)
Lemma new_in_use ok1 ok2 d d' : new_queue ok1 ok2 d = Done tt d' -> exists p, d' = set_queue d p /\ in_use p.
Proof.
  unfold new_queue, on_queue, msg_queue_new. destruct ok1; [| done]. injection 1 as <-. eexists. split; [done |]. destruct ok2.
  - left. destruct new_holds as (q & Hq & Hh & _). cbn in Hq. injection Hq as <-. by eexists _, [].
  - right. by eexists.
Qed.

(** ** Preservation *)
Lemma one_proc (l1 l2 : list proc) p (Q : proc -> Prop) (N : Prop) :
  match l1 ++ p :: l2 with [] => N | [p'] => Q p' | _ => False end -> l1 = [] /\ l2 = [] /\ Q p.
Proof. destruct l1 as [| a [| b l1]]; cbn; [destruct l2 | |]; done. Qed.

(** A process goes on to its next stage. *)
Lemma inv_move s l1 p p' l2 d' : driver_inv s -> procs s = l1 ++ p :: l2 -> sem d' = sem (drv s) ->
  Device_Open d' = Device_Open (drv s) + claims p' - claims p ->
  (if irq_set d' then 1 else 0) = (if irq_set (drv s) then 1 else 0) + owns p' - owns p ->
  mod_uses d' = mod_uses (drv s) + uses p' - uses p ->
  claims p' <= claims p ->
  (queue_at p (msg_queue_Ptr (drv s)) -> queue_at p' (msg_queue_Ptr d')) ->
  driver_inv (mk_sys d' (l1 ++ p' :: l2) (overlapped s)).
Proof.
  intros [Hsem Hop Hc Ho Hu Hq] Hp E1 E2 E3 E4 Hle Hqueue. rewrite Hp, count_mid in Hc, Ho, Hu. pose proof (count_claims (l1 ++ l2)).
  assert (0 <= claims p' /\ 0 <= claims p <= 1) by (destruct p, p'; cbn; lia).
  split; cbn [drv procs overlapped]; rewrite ?count_mid; [congruence | lia | lia | lia | lia |].
  intros Hov. specialize (Hq Hov). rewrite Hp in Hq. destruct (one_proc _ _ _ _ _ Hq) as (-> & -> & HQ). cbn [app]. auto.
Qed.

(** A process has returned from its call. *)
Lemma inv_leave s l1 p l2 d' : driver_inv s -> procs s = l1 ++ p :: l2 -> sem d' = sem (drv s) -> Device_Open d' = Device_Open (drv s) ->
  irq_set d' = irq_set (drv s) -> owns p = 0 -> mod_uses d' = mod_uses (drv s) - uses p -> msg_queue_Ptr d' = msg_queue_Ptr (drv s) ->
  (queue_at p (msg_queue_Ptr (drv s)) -> not_in_use (msg_queue_Ptr (drv s))) ->
  driver_inv (mk_sys d' (l1 ++ l2) (overlapped s)).
Proof.
  intros [Hsem Hop Hc Ho Hu Hq] Hp E1 E2 E3 Hown E4 E5 Hqueue. rewrite Hp, count_mid in Hc, Ho, Hu.
  assert (0 <= claims p) by (destruct p; cbn; lia).
  split; cbn [drv procs overlapped]; rewrite ?E2, ?E3; [congruence | done | lia | lia | lia |].
  intros Hov. specialize (Hq Hov). rewrite Hp in Hq. destruct (one_proc _ _ _ _ _ Hq) as (-> & -> & HQ). cbn [app]. rewrite E5. auto.
Qed.

Lemma driver_step s s' : driver_inv s -> step s s' -> driver_inv s'.
Proof.
  intros Hinv Hstep. destruct Hstep as [i r d' H | i d' H | l1 l2 z r d' Hp H | l1 l2 z d' Hp Hirq H | l1 l2 d' Hp H | l1 l2 ok1 ok2 d' Hp H
    | l1 l2 len r d' Hp H | l1 l2 d' Hp H | l1 l2 d' Hp H | l1 l2 d' Hp H | l1 l2 d' Hp H | raw polls d' Hirq H].
  - apply claim_refused in H as ->. by destruct Hinv.
  - apply claim_done in H as (H0 & H1 & Hs & Hi & Hu' & Hq'). destruct Hinv as [Hsem Hop Hc Ho Hu Hq]. pose proof (count_claims (procs s)).
    split; cbn [drv procs overlapped count claims owns uses]; rewrite ?Hi, ?Hu'; [congruence | lia | lia | lia | lia |].
    intros [Hov Hnil]%orb_false_iff. apply negb_false_iff, bool_decide_eq_true in Hnil. specialize (Hq Hov). rewrite Hnil in *. cbn. by rewrite Hq'.
  - unfold request in H. destruct (z <? 0); [injection H as _ <- | done]. eapply inv_leave; [done | done | ..]; cbn; lia || auto.
  - unfold request, bind in H. destruct (z <? 0); [done |]. injection H as <-. eapply inv_move; [done | done | ..]; cbn; rewrite ?Hirq; lia || auto.
  - injection H as <-. eapply inv_move; [done | done | ..]; cbn; lia || auto.
  - apply new_in_use in H as (p & -> & Hu). eapply inv_move; [done | done | ..]; cbn; lia || auto.
  - destruct (read_queue_only _ _ _ _ _ _ H) as [p Ep]. eapply inv_move; [done | done | ..]; rewrite ?Ep; cbn; try lia.
    intros Hq. destruct (read_keeps _ _ _ _ _ _ Hq H) as (p' & Ep' & Hp'). rewrite Ep in Ep'. apply (f_equal msg_queue_Ptr) in Ep'. cbn in Ep'. by subst.
  - injection H as <-. eapply inv_move; [done | done | ..]; cbn; lia || auto.
  - injection H as <-. assert (irq_set (drv s) = true) as Hi.
    { pose proof (di_owns _ Hinv) as Ho. rewrite Hp, count_mid in Ho. cbn [owns] in Ho. pose proof (count_owns (l1 ++ l2)). destruct (irq_set _); [done | lia]. }
    eapply inv_move; [done | done | ..]; cbn; rewrite ?Hi; lia || auto.
  - unfold destroy_queue, on_queue in H. destruct (msg_queue_destroy (msg_queue_Ptr (drv s))) as [[] p | |] eqn:Hd; try done. injection H as <-.
    eapply inv_move; [done | done | ..]; cbn; try lia. unfold msg_queue_destroy in Hd. destruct (msg_queue_Ptr (drv s)); try done; injection Hd as <-.
    + intros _. by left.
    + intros _. by right.
  - injection H as <-. eapply inv_leave; [done | done | ..]; cbn; lia || auto.
  - apply irq_keeps in H as ((E1 & E2 & E3 & E4) & Huse & Hnot). destruct Hinv as [Hsem Hop Hc Ho Hu Hq].
    split; cbn [drv procs overlapped]; rewrite ?E1, ?E2, ?E3, ?E4; try done. intros Hov. specialize (Hq Hov).
    destruct (procs s) as [| p [| p' l]]; [| | done].
    + left. auto.
    + destruct p; cbn in *; by auto || (left; auto).
Qed.

Lemma driver_reachable s : reachable s -> driver_inv s.
Proof.
  induction 1 as [major d Hm Hrun | s s' _ IH Hstep]; [| by eapply driver_step].
  unfold my_init, bind in Hrun. simpl in Hrun. rewrite (proj2 (Z.ltb_ge major 0)) in Hrun by lia. injection Hrun as <-.
  split; simpl; auto; [lia |]. intros _. by left.
Qed.

(** ** Properties *)

(** C16: the driver, its processes and its interrupts, from loading on, statement by statement
    and in any order.  Always: the semaphore is free between calls; at most one process is
    between its claim of the device and the start of its close, so at most one holds it;
    the handler is registered exactly while one process is between [request_irq] and
    [free_irq]; the use count is the number of processes between [try_module_get] and
    [module_put].  If no open has begun before an earlier close had ended, then moreover the
    queue is allocated while a process holds the device, up to its destruction, and an
    interrupt finds a well-formed queue and returns, unless it comes between [request_irq] and
    the allocation of the queue in [device_open], or that allocation gave no array. *)
Theorem driver_invariant s : reachable s ->
  driver_inv s /\
  (overlapped s = false -> irq_set (drv s) = true -> procs s <> [Using] -> procs s <> [Allocating] ->
   in_use (msg_queue_Ptr (drv s)) /\
   (~ no_array (msg_queue_Ptr (drv s)) -> forall raw polls, clears polls -> exists d', irq_handler true raw polls (drv s) = Done tt d')).
Proof.
  intros Hr. pose proof (driver_reachable s Hr) as Hinv. split; [done |]. intros Hov Hirq Hn1 Hn2.
  pose proof (di_queue _ Hinv Hov) as Hq. pose proof (di_owns _ Hinv) as Ho. rewrite Hirq in Ho.
  assert (Hin : in_use (msg_queue_Ptr (drv s))).
  { destruct (procs s) as [| p [| p' l]]; [done | | done]. by destruct p. }
  split; [done |]. intros Harr raw polls Hcl. destruct Hin as [(q & l & Hp & Hl) | Hno]; [| done].
  destruct (irq_spec raw polls (drv s) q l Hp Hl Hcl) as (d' & _ & Hrun & _). by exists d'.
Qed.

(** ** The two ways to a queue that is not there *)
(** The driver after a statement. *)
Definition after {A} (m : M driver A) (d : driver) : driver := match m d with Done _ d' => d' | _ => d end.

(** A first process loads the module and opens the device, and an interrupt comes. *)
Definition d1 := after (my_init 244) unloaded.
Definition d2 := after (claim false) d1.
Definition d3 := after (request 0) d2.
Definition d4 := after try_module_get d3.
Definition d5 := after (new_queue true true) d4.
Definition d6 := after (irq_handler true 7 [0]) d5.
Definition opened : sys := mk_sys d6 [Holding] false.

Lemma opened_reachable : reachable opened.
Proof.
  apply (reach_step (mk_sys d5 [Holding] false)); [| exact (step_irq (mk_sys d5 [Holding] false) 7 [0] d6 eq_refl eq_refl)].
  apply (reach_step (mk_sys d4 [Allocating] false)); [| exact (step_alloc (mk_sys d4 [Allocating] false) [] [] true true d5 eq_refl eq_refl)].
  apply (reach_step (mk_sys d3 [Using] false)); [| exact (step_get (mk_sys d3 [Using] false) [] [] d4 eq_refl eq_refl)].
  apply (reach_step (mk_sys d2 [Requesting] false)); [| exact (step_request (mk_sys d2 [Requesting] false) [] [] 0 d3 eq_refl eq_refl eq_refl)].
  apply (reach_step (booted d1)); [| exact (step_claim (booted d1) false d2 eq_refl)].
  by apply (reach_load 244).
Qed.

(** It has freed the interrupt in its close when a second process opens the device; then the
    first one destroys the queue of the second. *)
Definition d7 := after unclaim d6.
Definition d8 := after free_irq d7.
Definition d9 := after (claim false) d8.
Definition d10 := after (request 0) d9.
Definition d11 := after try_module_get d10.
Definition d12 := after (new_queue true true) d11.
Definition d13 := after destroy_queue d12.
Definition robbed : sys := mk_sys d13 [Holding; Putting] true.

Lemma robbed_reachable : reachable robbed.
Proof.
  apply (reach_step (mk_sys d12 [Holding; Destroying] true)); [| exact (step_destroy (mk_sys d12 [Holding; Destroying] true) [Holding] [] d13 eq_refl eq_refl)].
  apply (reach_step (mk_sys d11 [Allocating; Destroying] true)); [| exact (step_alloc (mk_sys d11 [Allocating; Destroying] true) [] [Destroying] true true d12 eq_refl eq_refl)].
  apply (reach_step (mk_sys d10 [Using; Destroying] true)); [| exact (step_get (mk_sys d10 [Using; Destroying] true) [] [Destroying] d11 eq_refl eq_refl)].
  apply (reach_step (mk_sys d9 [Requesting; Destroying] true)); [| exact (step_request (mk_sys d9 [Requesting; Destroying] true) [] [Destroying] 0 d10 eq_refl eq_refl eq_refl)].
  apply (reach_step (mk_sys d8 [Destroying] false)); [| exact (step_claim (mk_sys d8 [Destroying] false) false d9 eq_refl)].
  apply (reach_step (mk_sys d7 [Freeing] false)); [| exact (step_free (mk_sys d7 [Freeing] false) [] [] d8 eq_refl eq_refl)].
  apply (reach_step opened); [| exact (step_close opened [] [] d7 eq_refl eq_refl)].
  apply opened_reachable.
Qed.

(** The next interrupt, for a process that holds the device, writes to freed memory. *)
Lemma close_robs_opener raw polls : reachable robbed /\ irq_set (drv robbed) = true /\ Holding ∈ procs robbed /\
  fails (irq_handler true raw polls) UseAfterFree (drv robbed).
Proof. split; [apply robbed_reachable |]. split; [done |]. split; [by left |]. by eexists. Qed.

(** *** Witness *)
Lemma driver_invariant_witness : in_use (msg_queue_Ptr (drv opened)) /\ exists d', irq_handler true 9 [0x8000; 0] (drv opened) = Done tt d'.
Proof.
  destruct (driver_invariant opened opened_reachable) as [_ H]. destruct (H eq_refl eq_refl ltac:(done) ltac:(done)) as [H1 H2]. split; [exact H1 |].
  apply H2.
  - intros (q & Hq & Ha & _). vm_compute in Hq. injection Hq as <-. discriminate Ha.
  - right. by left.
Defined.
End IrOpen.
