(* ===== verification/IrRace.v ===== *)
(** * [ir_dev.c]: interrupts in the middle of a read

    [device_read] takes messages out of the queue with interrupts enabled, and nothing
    protects the queue.  Here [device_read] and [dequeue] run statement by statement, with
    [size--] as the load and the store that it is on the machine, and the interrupt
    handler of [IrDev.v] may run between any two of them; it runs to its end, as the
    handler of the interrupted processor does.

    [head_idx] is written by the reader and [tail_idx] by the handler only, but both write
    [size].  The invariant of all interleavings says what this costs. *)

From S2P Require Import Prelude CMem MsgQueue IrDev.
From stdpp Require Import base list.
From Stdlib Require Import ZArith Lia.
Open Scope Z_scope.

Module IrRace.
Import MsgQueue IrDev.

(** ** The reader, one statement at a time *)

(** Where [device_read] is; the number is what is left of [length]. *)
Inductive pc :=
| Idle                                       (* no [device_read] is running *)
| Looping (length : nat)                     (* at the condition of its loop *)
| Tested (length : nat)                      (* in [dequeue], behind the tests *)
| Copied (length : nat) (m : ir_msg)         (* the message is in [temp_msg] *)
| Moved (length : nat) (m : ir_msg)          (* [head_idx] is advanced *)
| Loaded (length : nat) (m : ir_msg) (r : Z) (* [size] is in a register *)
| Stored (length : nat) (m : ir_msg)         (* the register minus one is in [size] *)
| Faulted (w : fault).

Record race := mk_race {
  dev : driver;
  at_ : pc;
  out : list ir_msg;          (* put into the user's buffers since the start *)
  arrived : list ir_msg;      (* put into the queue by the handler *)
  lost : nat                  (* interrupts taken between the load and the store *)
}.

Definition go (p : pc) (s : race) : race := mk_race (dev s) p (out s) (arrived s) (lost s).
Definition update (q : msg_queue) (p : pc) (s : race) : race :=
  mk_race (set_queue (dev s) (QLive q)) p (out s) (arrived s) (lost s).
Definition deliver (m : ir_msg) (p : pc) (s : race) : race := mk_race (dev s) p (out s ++ [m]) (arrived s) (lost s).

Definition on_live (s : race) (k : msg_queue -> race) : race :=
  match msg_queue_Ptr (dev s) with
  | QLive q => k q
  | QFreed => go (Faulted UseAfterFree) s
  | QNull => go (Faulted NullPointer) s
  end.

(** The next statement; [None] when no call is running. *)
Definition reader_step (s : race) : option race :=
  match at_ s with
  | Idle | Faulted _ => None
  | Looping O => Some (go Idle s)
  | Looping (S n) =>
      match msg_queue_Ptr (dev s) with
      | QNull => Some (go Idle s)
      | _ => Some (on_live s (fun q => if size q =? 0 then go Idle s else go (Tested n) s))
      end
  | Tested n => Some (on_live s (fun q =>
      match cell q (head_idx q + 1) (QLive q) with
      | Done m _ => go (Copied n m) s
      | Undef w _ => go (Faulted w) s
      | Exited _ _ => s
      end))
  | Copied n m => Some (on_live s (fun q =>
      update (mk_queue (Z.rem (head_idx q + 1) (capacity q)) (tail_idx q) (size q) (capacity q) (msg_array q)) (Moved n m) s))
  | Moved n m => Some (on_live s (fun q => go (Loaded n m (size q)) s))
  | Loaded n m r => Some (on_live s (fun q =>
      update (mk_queue (head_idx q) (tail_idx q) (r - 1) (capacity q) (msg_array q)) (Stored n m) s))
  | Stored n m => Some (on_live s (fun q => if 0 <=? size q then deliver m (Looping n) s else go Idle s))
  end.

Fixpoint alone (n : nat) (s : race) : race :=
  match n with
  | O => s
  | S n' => match reader_step s with Some s' => alone n' s' | None => s end
  end.

(** ** All interleavings *)
Definition in_window (p : pc) : bool := match p with Loaded _ _ _ => true | _ => false end.

(** What the handler put into the queue: nothing when it is full. *)
Definition accepted (d : driver) (raw : Z) : list ir_msg :=
  match msg_queue_Ptr d with
  | QLive q => if size q =? capacity q then [] else [decode raw]
  | _ => []
  end.

Definition interrupted_by (d' : driver) (raw : Z) (s : race) : race :=
  mk_race d' (at_ s) (out s) (arrived s ++ accepted (dev s) raw) (lost s + if in_window (at_ s) then 1 else 0).

Inductive step : race -> race -> Prop :=
| step_reader s s' : reader_step s = Some s' -> step s s'
| step_call s n : at_ s = Idle -> step s (go (Looping n) s)
| step_irq s d' raw polls : irq_handler true raw polls (dev s) = Done tt d' -> step s (interrupted_by d' raw s).

Inductive reachable (start : race) : race -> Prop :=
| reach_start : reachable start start
| reach_step s s' : reachable start s -> step s s' -> reachable start s'.

(** The device has just been opened. *)
Definition opened (d : driver) : race := mk_race d Idle [] [] 0.

(** ** Without interrupts the statements are [dequeue] *)
Lemma rem_100 z : 0 <= z -> Z.rem z 100 = z mod 100.
Proof. intros Hz. by apply Z.rem_mod_nonneg. Qed.

(** Six statements from the loop condition and back. *)
Lemma alone_dequeue n d o a l q :
  msg_queue_Ptr d = QLive q ->
  alone 6 (mk_race d (Looping (S n)) o a l) =
  match dequeue (QLive q) with
  | Done (r, Some m) (QLive q') =>
      if 0 <=? r then mk_race (set_queue d (QLive q')) (Looping n) (o ++ [m]) a l
      else mk_race (set_queue d (QLive q')) Idle o a l
  | Done (_, None) _ => mk_race d Idle o a l
  | Undef w _ => mk_race d (Faulted w) o a l
  | _ => mk_race d (Looping (S n)) o a l
  end.
Proof.
  intros Hd. destruct d as [? ? ? ? p ? ? ? ? ?]; cbn in Hd; subst p.
  unfold dequeue, with_queue, is_empty, bind, ret, put. cbn. unfold on_live. cbn.
  destruct (size q =? 0); [done |]. cbn. unfold on_live. cbn. unfold cell.
  destruct (msg_array q) as [arr |] eqn:Harr; [| done].
  destruct ((0 <=? head_idx q + 1) && (head_idx q + 1 <? Z.of_nat (length arr))); [| done].
  destruct (arr !! Z.to_nat (head_idx q + 1)) as [[m |] |]; [| done..].
  unfold reader_step, on_live, deliver, go, update, set_queue; cbn.
  rewrite Harr. by destruct (0 <=? size q - 1).
Qed.

(** ** The invariant *)

(** The queue after [total] messages were put in and [removed] taken out, as long as the
    indices have not come round: the messages are in the cells 1, 2, ... *)
Record layout (q : msg_queue) (msgs : list ir_msg) (removed : nat) : Prop := {
  l_cap : capacity q = 100;
  l_head : head_idx q = Z.of_nat removed;
  l_tail : tail_idx q = Z.of_nat (length msgs);
  l_array : exists a, msg_array q = Some a /\ length a = 100%nat /\ forall i m, msgs !! i = Some m -> a !! S i = Some (Some m)
}.

(** What is left for the reader: what arrived, less what it took and what was lost. *)
Definition left_over (s : race) : Z := Z.of_nat (length (arrived s)) - Z.of_nat (length (out s)) - Z.of_nat (lost s).

Definition next_is (s : race) (m : ir_msg) : Prop := arrived s !! length (out s) = Some m.

(** The state of the queue at every statement of the reader. *)
Definition at_ok (q : msg_queue) (s : race) : Prop :=
  let n := length (out s) in
  match at_ s with
  | Idle | Looping _ => layout q (arrived s) n /\ size q = left_over s /\ 0 <= left_over s
  | Tested _ => layout q (arrived s) n /\ size q = left_over s /\ 1 <= left_over s
  | Copied _ m => layout q (arrived s) n /\ size q = left_over s /\ 1 <= left_over s /\ next_is s m
  | Moved _ m => layout q (arrived s) (S n) /\ size q = left_over s /\ 1 <= left_over s /\ next_is s m
  | Loaded _ m r => layout q (arrived s) (S n) /\ r = left_over s /\ r <= size q <= Z.of_nat (length (arrived s)) - Z.of_nat n /\ 1 <= r /\ next_is s m
  | Stored _ m => layout q (arrived s) (S n) /\ size q = left_over s - 1 /\ 1 <= left_over s /\ next_is s m
  | Faulted _ => False
  end.

Record inv (s : race) : Prop := {
  i_queue : exists q, msg_queue_Ptr (dev s) = QLive q /\ at_ok q s;
  i_order : out s `prefix_of` arrived s
}.

Lemma next_prefix s m : out s `prefix_of` arrived s -> next_is s m -> out s ++ [m] `prefix_of` arrived s.
Proof.
  intros [l Hl] Hm. unfold next_is in Hm. rewrite Hl, lookup_app_r, Nat.sub_diag in Hm by lia. rewrite Hl.
  destruct l as [| x l]; [done |]. injection Hm as ->. exists l. by rewrite <- app_assoc.
Qed.

(** *** Statements of the reader *)
Lemma next_exists s : 1 <= left_over s -> exists m, next_is s m.
Proof. intros H. unfold left_over in H. destruct (lookup_lt_is_Some_2 (arrived s) (length (out s))) as [m Hm]; [lia |]. by exists m. Qed.

Lemma cell_next q msgs n m : layout q msgs n -> msgs !! n = Some m -> cell q (head_idx q + 1) (QLive q) = Done m (QLive q).
Proof.
  intros [_ Hh _ (a & Ha & Hl & Hc)] Hm. pose proof (Hc _ _ Hm) as Hcell. apply lookup_lt_Some in Hcell as Hlt.
  unfold cell. rewrite Ha, Hh. rewrite (proj2 (Z.leb_le _ _)), (proj2 (Z.ltb_lt _ _)) by lia. cbn [andb].
  replace (Z.to_nat (Z.of_nat n + 1)) with (S n) by lia. by rewrite Hcell.
Qed.

Lemma reader_inv s s' : inv s -> (length (arrived s) <= 99)%nat -> reader_step s = Some s' -> inv s' /\ arrived s' = arrived s /\ lost s' = lost s.
Proof.
  intros [(q & Hq & Hat) Hpre] Hlen Hstep. destruct s as [d p o a l]. unfold reader_step in Hstep. cbn in *. unfold on_live in Hstep. cbn in Hstep.
  rewrite Hq in Hstep. unfold at_ok in Hat. destruct p as [| [| n] | n | n m | n m | n m r | n m | w]; cbn in Hat, Hstep; try done; injection Hstep as <-.
  - split; [| done]. split; [| done]. by exists q.
  - destruct Hat as (Hlay & Hsz & Hpos). destruct (Z.eqb_spec (size q) 0); (split; [| done]); (split; [| done]); exists q; (split; [done |]); cbn.
    + done.
    + cbn in *. unfold left_over in *. cbn in *. split; [done |]. split; [done | lia].
  - destruct Hat as (Hlay & Hsz & Hpos). destruct (next_exists _ Hpos) as [m Hm]. rewrite (cell_next q _ _ m Hlay Hm).
    split; [| done]. split; [| done]. exists q. split; [done |]. cbn. done.
  - destruct Hat as (Hlay & Hsz & Hpos & Hm). split; [| done]. split; [| done]. eexists. split; [reflexivity |]. cbn.
    destruct Hlay as [Hc Hh Ht Ha]. split; [| done]. split; cbn; try done.
    apply lookup_lt_Some in Hm. cbn in *. rewrite Hc, Hh, Z.rem_small by lia. lia.
  - destruct Hat as (Hlay & Hsz & Hpos & Hm). split; [| done]. split; [| done]. exists q. split; [done |]. cbn.
    unfold left_over in *. cbn in *. split; [done |]. split; [done |]. split; [lia |]. split; [lia | done].
  - destruct Hat as (Hlay & Hr & Hsz & Hpos & Hm). split; [| done]. split; [| done]. eexists. split; [reflexivity |]. cbn.
    destruct Hlay as [Hc Hh Ht Ha]. split; [by split |]. split; [by rewrite Hr |]. split; [| done]. unfold left_over in *. cbn in *. lia.
  - destruct Hat as (Hlay & Hsz & Hpos & Hm). rewrite (proj2 (Z.leb_le 0 (size q))) by lia. split; [| done].
    split; [| by apply (next_prefix (mk_race d (Stored n m) o a l))].
    exists q. split; [done |]. unfold left_over in *. cbn in *. rewrite length_app. cbn.
    replace (length o + 1)%nat with (S (length o)) by lia. split; [done |].
    unfold left_over. cbn. rewrite length_app. cbn. lia.
Qed.

(** *** Interrupts *)
Lemma enqueue_layout q msgs n m : layout q msgs n -> (length msgs < 99)%nat -> size q < 100 ->
  exists r q', enqueue m (QLive q) = Done r (QLive q') /\ layout q' (msgs ++ [m]) n /\ size q' = size q + 1.
Proof.
  intros [Hc Hh Ht (a & Ha & Hl & Hcell)] Hlen Hsz. unfold enqueue, with_queue, is_full, bind, ret. cbn. rewrite Hc.
  rewrite (proj2 (Z.eqb_neq _ 100)) by lia. cbn. rewrite Ht, Z.rem_small by lia. unfold set_cell. cbn. rewrite Ha, Hl.
  rewrite (proj2 (Z.leb_le _ _)), (proj2 (Z.ltb_lt _ _)) by lia. cbn. eexists _, _. split; [reflexivity |]. split; [| done].
  replace (Z.to_nat (Z.of_nat (length msgs) + 1)) with (S (length msgs)) by lia.
  split; cbn; try done; [rewrite length_app; cbn; lia |]. eexists. split; [reflexivity |]. split; [by rewrite length_insert |].
  intros i x Hx. apply lookup_app_Some in Hx as [Hx | [Hi Hx]].
  - pose proof (lookup_lt_Some _ _ _ Hx). rewrite list_lookup_insert_ne by lia. by apply Hcell.
  - apply list_lookup_singleton_Some in Hx as [Hi0 <-]. replace i with (length msgs) by lia. apply list_lookup_insert_eq. lia.
Qed.

Lemma handler_done raw polls d d' q r q' : irq_handler true raw polls d = Done tt d' -> msg_queue_Ptr d = QLive q ->
  enqueue (decode raw) (QLive q) = Done r (QLive q') -> msg_queue_Ptr d' = QLive q'.
Proof.
  intros Hrun Hd He. unfold irq_handler, bind, count_irq, count_msg, on_queue in Hrun. cbn [msg_queue_Ptr] in Hrun.
  rewrite Hd, He in Hrun. unfold iowrite at 1 in Hrun.
  destruct (wait_reset polls _) as [[] d1 | |] eqn:Hw; [| done..].
  assert (Hsame : forall ps d0 d2, wait_reset ps d0 = Done tt d2 -> d2 = d0).
  { induction ps as [| p ps IH]; intros d0 d2; cbn; [done |]. destruct (_ =? 0); [by intros [= ->] | apply IH]. }
  apply Hsame in Hw. subst d1. unfold iowrite in Hrun. injection Hrun as <-. done.
Qed.

Lemma irq_inv s d' raw polls : inv s -> (length (arrived s) < 99)%nat -> irq_handler true raw polls (dev s) = Done tt d' ->
  inv (interrupted_by d' raw s) /\ arrived (interrupted_by d' raw s) = arrived s ++ [decode raw].
Proof.
  intros [(q & Hq & Hat) Hpre] Hlen Hirq.
  assert (Hlay : exists n, layout q (arrived s) n) by (unfold at_ok in Hat; destruct (at_ s); try done; eexists; by apply Hat).
  assert (Hsz : size q < 100).
  { unfold at_ok, left_over in Hat. destruct (at_ s); try done; destruct Hat as (_ & Hat); try lia.  }
  destruct Hlay as [n0 Hlay]. assert (Hacc : accepted (dev s) raw = [decode raw]).
  { unfold accepted. rewrite Hq. rewrite (proj2 (Z.eqb_neq _ _)); [done |]. rewrite (l_cap _ _ _ Hlay). lia. }
  split; [| unfold interrupted_by; cbn; by rewrite Hacc].
  assert (Hgo : forall n, layout q (arrived s) n -> exists q', msg_queue_Ptr d' = QLive q' /\ layout q' (arrived s ++ [decode raw]) n /\ size q' = size q + 1).
  { intros n Hn. destruct (enqueue_layout q (arrived s) n (decode raw) Hn Hlen Hsz) as (r & q' & He & Hq' & Hs'). exists q'. split; [| done].
    by eapply handler_done. }
  split; [| unfold interrupted_by; cbn; rewrite Hacc; destruct Hpre as [t ->]; exists (t ++ [decode raw]); by rewrite <- app_assoc].
  unfold interrupted_by, at_ok, left_over, next_is in *. cbn. rewrite Hacc, length_app. cbn [length].
  assert (Hkeep : forall m, arrived s !! length (out s) = Some m -> (arrived s ++ [decode raw]) !! length (out s) = Some m)
    by (intros m Hm; by apply lookup_app_l_Some).
  destruct (at_ s) as [| n | n | n m | n m | n m r | n m | w] eqn:Hpc; cbn [in_window] in *; [| | | | | | | done];
    destruct Hat as (Hl & Hat); destruct (Hgo _ Hl) as (q' & Hd' & Hq' & Hs'); exists q'; (split; [done |]); (split; [done |]); rewrite ?Hs';
    repeat match goal with H : _ /\ _ |- _ => destruct H end; repeat (split; try lia); try (by apply Hkeep).
Qed.

(** ** Every reachable state *)
Lemma arrived_grows s s' : step s s' -> arrived s `prefix_of` arrived s'.
Proof.
  destruct 1 as [s s' Hr | s n _ | s d' raw polls _]; [| done | by eexists].
  unfold reader_step, on_live in Hr. destruct (at_ s) as [| [| n] | n | n m | n m | n m r | n m | w]; try done;
    try destruct (msg_queue_Ptr (dev s)) as [| | q]; try (by injection Hr as <-); injection Hr as <-;
    repeat match goal with |- context [match ?x with _ => _ end] => destruct x end; done.
Qed.

Lemma opened_inv d q : msg_queue_Ptr d = QLive q -> layout q [] 0 -> size q = 0 -> inv (opened d).
Proof. intros Hd Hq Hs. split; [| by exists []]. exists q. split; [done |]. cbn. split; [done |]. unfold left_over. cbn. lia. Qed.

Lemma race_inv d q s : msg_queue_Ptr d = QLive q -> layout q [] 0 -> size q = 0 ->
  reachable (opened d) s -> (length (arrived s) <= 99)%nat -> inv s.
Proof.
  intros Hd Hq Hs. induction 1 as [| s s' _ IH Hst]; intros Hlen; [by eapply opened_inv |].
  pose proof (prefix_length _ _ (arrived_grows _ _ Hst)) as Hle. specialize (IH ltac:(lia)).
  destruct Hst as [s s' Hr | s n Hi | s d' raw polls Hirq].
  - apply (reader_inv _ _ IH ltac:(lia) Hr).
  - destruct IH as [(q' & Hq' & Hat) Hpre]. split; [| done]. exists q'. split; [done |]. unfold at_ok in *. cbn. rewrite Hi in Hat. done.
  - assert (Hroom : (length (arrived s) < 99)%nat \/ length (arrived s) = 99%nat) by lia. destruct Hroom as [Hroom | Hfull].
    + apply (irq_inv _ _ _ _ IH Hroom Hirq).
    + exfalso. destruct IH as [(q' & Hq' & Hat) _]. unfold interrupted_by, accepted in Hlen. cbn in Hlen. rewrite Hq' in Hlen.
      assert (Hsz : size q' <> capacity q').
      { unfold at_ok, left_over in Hat. destruct (at_ s); try done; destruct Hat as (Hlay & Hat); rewrite (l_cap _ _ _ Hlay); lia. }
      rewrite (proj2 (Z.eqb_neq _ _)) in Hlen by done. rewrite length_app in Hlen. cbn in Hlen. lia.
Qed.

Lemma open_layout e d0 d : open_ok e -> Device_Open d0 = 0 -> device_open e d0 = Done 0 d ->
  exists q, msg_queue_Ptr d = QLive q /\ layout q [] 0 /\ size q = 0.
Proof.
  intros He Hd0 Hopen. destruct (device_open_ok e d0 He Hd0) as (d' & q & Hrun & Hd & Hq & Hh & _).
  rewrite Hrun in Hopen. injection Hopen as ->. exists q. split; [done |]. destruct Hq as [Hc _ [Hs _] Ht (a & Ha & Hl & _)].
  split; [| done]. split; [done | done | rewrite Ht, Hh, Hs; done |]. by exists a.
Qed.

(** A call that no interrupt disturbs, from its start to its end. *)
Lemma alone_app n k s : alone (n + k) s = alone k (alone n s).
Proof.
  revert s. induction n as [| n IH]; intros s; [done |]. cbn [Nat.add alone]. destruct (reader_step s) eqn:Hr; [done |].
  destruct k as [| k]; [done |]. cbn [alone]. by rewrite Hr.
Qed.

Lemma dequeue_layout q msgs n m : layout q msgs n -> 1 <= size q -> msgs !! n = Some m ->
  exists q', dequeue (QLive q) = Done (size q - 1, Some m) (QLive q') /\ layout q' msgs (S n) /\ size q' = size q - 1.
Proof.
  intros Hlay Hs Hm. pose proof (cell_next q msgs n m Hlay Hm) as Hcell. unfold dequeue, with_queue, is_empty, bind, ret.
  cbn. rewrite (proj2 (Z.eqb_neq (size q) 0)) by lia. cbn. rewrite Hcell. eexists. split; [reflexivity |].
  destruct Hlay as [Hc Hh Ht (a & Ha & Hl & Hcs)]. pose proof (lookup_lt_Some _ _ _ (Hcs _ _ Hm)).
  split; [| done]. split; cbn; try done; [rewrite Hc, Hh; destruct (decide (n = 99%nat)) as [-> |]; [exfalso; lia | rewrite Z.rem_small by lia; lia] | by exists a].
Qed.

Lemma dequeue_none q : size q = 0 -> dequeue (QLive q) = Done (-1, None) (QLive q).
Proof. intros Hs. unfold dequeue, with_queue, is_empty, bind, ret. cbn. by rewrite Hs. Qed.

Lemma read_alone n : forall s q, at_ s = Looping n -> msg_queue_Ptr (dev s) = QLive q -> layout q (arrived s) (length (out s)) ->
  size q = left_over s -> 0 <= left_over s -> out s `prefix_of` arrived s ->
  exists k, at_ (alone k s) = Idle /\ arrived (alone k s) = arrived s /\
    out (alone k s) = take (length (out s) + Nat.min n (Z.to_nat (left_over s))) (arrived s).
Proof.
  induction n as [| n IH]; intros s q Hat Hq Hlay Hs Hpos Hpre.
  - exists 1%nat. cbn [alone]. unfold reader_step. rewrite Hat. cbn. split; [done |]. split; [done |].
    rewrite Nat.add_0_r. destruct Hpre as [t ->]. by rewrite take_app_length.
  - destruct s as [d p o a l]. cbn in *. subst p. destruct (Z.eq_dec (left_over (mk_race d (Looping (S n)) o a l)) 0) as [H0 | H0].
    + exists 6%nat. rewrite (alone_dequeue n d o a l q Hq). rewrite dequeue_none by congruence. rewrite H0.
      split; [done |]. split; [done |]. cbn. rewrite Nat.add_0_r. destruct Hpre as [t ->]. by rewrite take_app_length.
    + unfold left_over in *. cbn [arrived out lost] in *. destruct (lookup_lt_is_Some_2 a (length o)) as [m Hm]; [lia |].
      destruct (dequeue_layout q a (length o) m Hlay ltac:(lia) Hm) as (q' & Hrun & Hlay' & Hs').
      destruct (IH (mk_race (set_queue d (QLive q')) (Looping n) (o ++ [m]) a l) q') as (k & H1 & H2 & H3); try done; cbn.
      * rewrite length_app. cbn. by replace (length o + 1)%nat with (S (length o)) by lia.
      * unfold left_over. cbn. rewrite length_app. cbn. lia.
      * unfold left_over. cbn. rewrite length_app. cbn. lia.
      * by apply (next_prefix (mk_race d Idle o a l)).
      * exists (6 + k)%nat. rewrite alone_app, (alone_dequeue n d o a l q Hq), Hrun.
        rewrite (proj2 (Z.leb_le 0 _)) by lia. split; [done |]. split; [done |]. rewrite H3.
        unfold left_over. cbn [arrived out lost]. rewrite length_app. cbn [length]. f_equal.
        destruct (Z.to_nat (Z.of_nat (length a) - Z.of_nat (length o) - Z.of_nat l)) eqn:E; lia.
Qed.

(** ** Properties *)

(** C17: from the opening of the device on, for at most 99 messages and whatever the points
    at which interrupts come between the statements of [device_read] and [dequeue]: the
    reads get the messages in the order of their arrival and none twice, and no statement
    leaves the queue's array.  Between two calls, [size] is the number of messages that
    arrived less those that were read and less the interrupts that came between the load
    and the store of [size--]: each of these hides one message, and the next call returns
    what [size] says, leaving the hidden ones in the queue. *)
Theorem interrupts_hide_messages e d0 d s :
  open_ok e -> Device_Open d0 = 0 -> device_open e d0 = Done 0 d -> reachable (opened d) s -> (length (arrived s) <= 99)%nat ->
  out s `prefix_of` arrived s /\ (forall w, at_ s <> Faulted w) /\
  (at_ s = Idle -> exists q, msg_queue_Ptr (dev s) = QLive q /\ size q = left_over s /\ 0 <= left_over s /\
     forall n, exists k, let s' := alone k (go (Looping n) s) in
       at_ s' = Idle /\ out s' = take (length (out s) + Nat.min n (Z.to_nat (left_over s))) (arrived s)).
Proof.
  intros He Hd0 Hopen Hr Hlen. destruct (open_layout e d0 d He Hd0 Hopen) as (q & Hd & Hq & Hs).
  destruct (race_inv d q s Hd Hq Hs Hr Hlen) as [(q' & Hq' & Hat) Hpre].
  split; [done |]. split; [intros w Hw; unfold at_ok in Hat; by rewrite Hw in Hat |]. intros Hi. unfold at_ok in Hat. rewrite Hi in Hat.
  destruct Hat as (Hlay & Hsz & Hpos). exists q'. split; [done |]. split; [done |]. split; [done |]. intros n.
  destruct (read_alone n (go (Looping n) s) q') as (k & H1 & _ & H2); try done. by exists k.
Qed.

(** *** Schedules, to run interleavings *)
Inductive move := Reader | Call (n : nat) | Irq (raw : Z).

Definition perform (m : move) (s : race) : option race :=
  match m with
  | Reader => reader_step s
  | Call n => match at_ s with Idle => Some (go (Looping n) s) | _ => None end
  | Irq raw => match irq_handler true raw [0] (dev s) with Done _ d' => Some (interrupted_by d' raw s) | _ => None end
  end.

Fixpoint schedule (ms : list move) (s : race) : option race :=
  match ms with [] => Some s | m :: ms' => match perform m s with Some s' => schedule ms' s' | None => None end end.

Lemma perform_step m s s' : perform m s = Some s' -> step s s'.
Proof.
  destruct m as [| n | raw]; cbn [perform].
  - apply step_reader.
  - destruct (at_ s) eqn:Hi; try done. intros [= <-]. by apply step_call.
  - destruct (irq_handler true raw [0] (dev s)) as [[] d' | |] eqn:Hirq; try done. intros [= <-]. by eapply step_irq.
Qed.

Lemma schedule_reachable ms : forall start s s', reachable start s -> schedule ms s = Some s' -> reachable start s'.
Proof.
  induction ms as [| m ms IH]; intros start s s' Hr; cbn [schedule]; [by intros [= <-] |].
  destruct (perform m s) as [s1 |] eqn:Hp; [| done]. intros Hs. apply (IH start s1 s'); [| done].
  eapply reach_step; [exact Hr |]. by eapply perform_step.
Qed.

(** Two messages arrive, the second one while the first is taken out: it stays hidden. *)
Definition sample_opened : driver := match device_open sample_open (loaded 244) with Done _ d => d | _ => loaded 244 end.
Definition hiding : list move := [Irq 0x111; Call 5; Reader; Reader; Reader; Reader; Irq 0x222; Reader; Reader; Reader].
Definition hidden : race := default (opened sample_opened) (schedule hiding (opened sample_opened)).

Lemma interrupts_hide_messages_witness :
  length (arrived hidden) = 2%nat /\ length (out hidden) = 1%nat /\
  forall n, exists k, let s' := alone k (go (Looping n) hidden) in at_ s' = Idle /\ out s' = out hidden.
Proof.
  split; [vm_compute; reflexivity |]. split; [vm_compute; reflexivity |]. intros n.
  assert (Hr : reachable (opened sample_opened) hidden)
    by (apply (schedule_reachable hiding _ (opened sample_opened)); [apply reach_start | vm_compute; reflexivity]).
  destruct (interrupts_hide_messages sample_open (loaded 244) sample_opened hidden) as (_ & _ & H);
    [repeat split; done | done | reflexivity | exact Hr | vm_compute; lia |].
  destruct H as (q & _ & _ & _ & H); [vm_compute; reflexivity |]. destruct (H n) as (k & H1 & H2). exists k. split; [exact H1 |].
  rewrite H2. replace (Z.to_nat (left_over hidden)) with O by (vm_compute; reflexivity). rewrite Nat.min_0_r. vm_compute. reflexivity.
Defined.
End IrRace.
