(* ===== verification/IrTest.v ===== *)
(** * [lab8/devtest.c]: the test program of the IR driver

    The whole of [main] over the driver of [IrDev.v]: it opens the device and then, for
    ever, reads as many messages as the number typed says, prints them, and takes the next
    line from the terminal into an array of three characters.

    A run is given by its rounds: the interrupts that come while the program waits at the
    terminal, and what the user types. *)

From S2P Require Import Prelude CMem MsgQueue IrDev.
From stdpp Require Import base list.
From Stdlib Require Import ZArith Lia.
Open Scope Z_scope.

Module IrTest.
Import MsgQueue IrDev.

Definition MAX_STRING_SIZE : Z := 100.

(** ** State: the driver, the local variables and the numbers printed *)
Record test := mk_test {
  drv : driver;
  input : list Z;          (* [char input[3]] *)
  rd_buf : list Z;         (* the 200 bytes allocated *)
  shown : list Z
}.

Abbreviation T := (M test).
Definition get : T test := fun s => Done s s.

(** A file operation of the driver, called by the kernel. *)
Definition kernel {A} (m : M driver A) : T A := fun s =>
  match m (drv s) with
  | Done a d => Done a (mk_test d (input s) (rd_buf s) (shown s))
  | Exited c d => Exited c (mk_test d (input s) (rd_buf s) (shown s))
  | Undef w d => Undef w (mk_test d (input s) (rd_buf s) (shown s))
  end.

(** [fgets(input, 100, stdin)]: a line of at most 99 characters and a NUL; [None] at the
    end of the input, which leaves the array as it was. *)
Definition fgets (line : option (list Z)) : T unit := fun s =>
  match line with
  | None => Done tt s
  | Some l =>
      let text := take (Z.to_nat (MAX_STRING_SIZE - 1)) l ++ [0] in
      if in_bounds (input s) 0 (zlen text) then Done tt (mk_test (drv s) (splice (input s) 0 text) (rd_buf s) (shown s))
      else Undef OutOfBounds s
  end.

(** [read(fd, rd_buf, n)]: a negative [n] is refused by the kernel. *)
Definition read (n : Z) : T Z :=
  if n <? 0 then ret (-1)
  else
    let* r := kernel (device_read (Z.to_nat n)) in
    fun s =>
      if in_bounds (rd_buf s) 0 (zlen r.2) then Done r.1 (mk_test (drv s) (input s) (splice (rd_buf s) 0 r.2) (shown s))
      else Undef OutOfBounds s.

Definition print (n : Z) : T unit := fun s =>
  if 2 * n <=? zlen (rd_buf s) then Done tt (mk_test (drv s) (input s) (rd_buf s) (shown s ++ devtest_show (Z.to_nat n) (rd_buf s)))
  else Undef OutOfBounds s.

(** Lines 27-38: the messages asked for are read and shown. *)
Definition show_messages : T unit :=
  let* s := get in
  match cstr (input s) with
  | None => undef OutOfBounds
  | Some t =>
      let input_num := atoi t in
      if input_num =? 0 then ret tt
      else
        let* buf_read_len := read input_num in
        if buf_read_len =? 0 then ret tt else print buf_read_len
  end.

(** One round: the messages, then the interrupts that come while the user types, and the
    line. *)
Definition round (r : list (Z * list Z) * option (list Z)) : T unit :=
  show_messages ;;; kernel (irqs r.1) ;;; fgets r.2.

(** [while (input != "q")] compares the array with the address of a literal: it is true. *)
Fixpoint rounds (rs : list (list (Z * list Z) * option (list Z))) : T unit :=
  match rs with [] => ret tt | r :: rs' => round r ;;; rounds rs' end.

(** [None] while the program runs, [Some] its result. *)
Definition main (e : open_env) (rs : list (list (Z * list Z) * option (list Z))) : T (option Z) :=
  let* fd := kernel (device_open e) in
  if fd <? 0 then ret (Some (-1)) else rounds rs ;;; ret None.

(** The program on a driver [d]; [junk] is what the allocated bytes hold. *)
Definition started (d : driver) (junk : list Z) : test := mk_test d [48; 0; 0] junk [].

(** ** What the user sees *)

(** The user types one digit per line; the messages wait in a queue of at most 100. *)
Record turn := mk_turn { came : list (Z * list Z); wish : Z }.
Definition typed (t : turn) : list (Z * list Z) * option (list Z) := (came t, Some [48 + wish t; 10]).
Definition proper (t : turn) : Prop := 0 <= wish t <= 9 /\ Forall (fun r => clears r.2) (came t).

(** The words waiting and the number asked for, after the turns; the words shown. *)
Fixpoint session (ts : list turn) (waiting : list Z) (n : nat) : list Z :=
  match ts with
  | [] => []
  | t :: ts' => take n waiting ++ session ts' (take 100 (drop n waiting ++ map fst (came t))) (Z.to_nat (wish t))
  end.

(** ** The rounds *)
Lemma atoi_digit d : 0 <= d <= 9 -> atoi [48 + d; 10] = d.
Proof.
  intros Hd. cbn [atoi]. unfold white, digit. cbn [number]. unfold digit.
  replace (48 + d =? 32) with false by lia. replace (9 <=? 48 + d) with true by lia. replace (48 + d <=? 13) with false by lia. cbn [orb andb].
  replace (48 + d =? 45) with false by lia. replace (48 + d =? 43) with false by lia.
  replace (48 <=? 48 + d) with true by lia. replace (48 + d <=? 57) with true by lia. cbn. lia.
Qed.

(** The program at the start of a round: [waiting] words in the queue, [n] asked for,
    [head] messages taken out so far. *)
Record ready (s : test) (waiting : list Z) (n : nat) (head : Z) : Prop := {
  r_queue : exists q, msg_queue_Ptr (drv s) = QLive q /\ holds q (map decode waiting) /\ head_idx q = head;
  r_input : exists t, cstr (input s) = Some t /\ atoi t = Z.of_nat n /\ length (input s) = 3%nat;
  r_buf : zlen (rd_buf s) = 200;
  r_small : (n <= 99)%nat
}.

Lemma show_bytes rs rest : devtest_show (length rs) (bytes (map decode rs) ++ rest) = map (fun r => Z.land r 0xfff) rs.
Proof.
  induction rs as [| r rs IH]; [done |]. cbn [length map bytes flat_map app devtest_show].
  rewrite show_decode. f_equal. exact IH.
Qed.

Lemma zlen_splice_0 l src : zlen src <= zlen l -> zlen (splice l 0 src) = zlen l.
Proof. intros H. unfold splice, zlen in *. rewrite !length_app, length_take, length_drop. lia. Qed.

Lemma zlen_bytes l : zlen (bytes l) = 2 * Z.of_nat (length l).
Proof. unfold zlen. rewrite length_bytes. lia. Qed.

Lemma show_ok s waiting n head : ready s waiting n head -> head + Z.of_nat (length (take n waiting)) <= 99 ->
  exists s', show_messages s = Done tt s' /\ shown s' = shown s ++ map (fun r => Z.land r 0xfff) (take n waiting) /\
    ready s' (drop n waiting) n (head + Z.of_nat (length (take n waiting))).
Proof.
  intros [(q & Hd & Hq & Hh) (t & Ht & Hn & Hin) Hb Hsm] Hhead. unfold show_messages, bind at 1, get. rewrite Ht, Hn.
  destruct (Z.eqb_spec (Z.of_nat n) 0) as [H0 | H0].
  - assert (n = O) as -> by lia. exists s. cbn. rewrite app_nil_r, Z.add_0_r. split; [done |]. split; [done |]. split; [by exists q | by exists t | done | done].
  - unfold read. rewrite (proj2 (Z.ltb_ge _ 0)) by lia. rewrite Nat2Z.id. rewrite length_take in Hhead.
    destruct (read_loop_spec n 0 [] (drv s) q (map decode waiting) Hd Hq) as (q' & Hrun & Hq' & Hh'); [rewrite length_map; lia |].
    rewrite length_map in *. unfold bind, kernel, device_read. rewrite Hrun. cbn [fst snd rd_buf app].
    rewrite firstn_map. rewrite skipn_map in Hq'. rewrite zlen_bytes, !length_map, length_take.
    unfold in_bounds. rewrite (proj2 (Z.leb_le 0 (2 * _))), (proj2 (Z.leb_le (0 + _) _)) by lia. cbn [andb Z.leb Z.compare].
    rewrite Z.add_0_l. destruct (Z.eqb_spec (Z.of_nat (n `min` length waiting)) 0) as [Hz | Hz].
    + assert (waiting = []) as -> by (destruct waiting; [done | cbn in Hz; lia]). rewrite !take_nil, !drop_nil in *. cbn in *. rewrite !Nat.min_0_r in *. cbn in *.
      eexists. split; [reflexivity |]. cbn. rewrite app_nil_r. split; [done |]. split; cbn; [exists q'; split; [done |]; split; [done | lia] | by exists t | rewrite zlen_splice_0; [done | by rewrite Hb] | done].
    + unfold print. cbn [rd_buf]. rewrite zlen_splice_0 by (rewrite zlen_bytes, length_map, length_take; lia). rewrite (proj2 (Z.leb_le _ _)) by lia.
      eexists. split; [reflexivity |]. cbn [shown drv rd_buf input]. rewrite Nat2Z.id, splice_0.
      pose proof (show_bytes (take n waiting)) as Hshow. rewrite length_take in Hshow. rewrite Hshow. split; [done |]. split; cbn [drv input rd_buf]; [| by exists t | | done].
      * exists q'. split; [done |]. split; [done | lia].
      * pose proof (zlen_splice_0 (rd_buf s) (bytes (map decode (take n waiting)))) as Hspl. rewrite zlen_bytes, length_map, length_take in Hspl.
        rewrite <- splice_0, <- Hb. apply Hspl. lia.
Qed.

Lemma round_ok t s waiting n head : proper t -> ready s waiting n head -> head + Z.of_nat (length (take n waiting)) <= 99 ->
  exists s', round (typed t) s = Done tt s' /\ shown s' = shown s ++ map (fun r => Z.land r 0xfff) (take n waiting) /\
    ready s' (take 100 (drop n waiting ++ map fst (came t))) (Z.to_nat (wish t)) (head + Z.of_nat (length (take n waiting))).
Proof.
  intros [Hw Hcl] Hr Hhead. destruct (show_ok s waiting n head Hr Hhead) as (s1 & Hrun & Hsh & [(q & Hd & Hq & Hh) (tx & Ht & _ & Hin) Hb _]).
  destruct (irqs_spec (came t) (drv s1) q (map decode (drop n waiting)) Hd Hq Hcl) as (d2 & q2 & Hirqs & Hd2 & Hq2 & Hh2 & _).
  unfold round, typed. cbn [fst snd]. unfold bind. rewrite Hrun. unfold kernel. rewrite Hirqs. unfold fgets.
  change (take (Z.to_nat (MAX_STRING_SIZE - 1)) [48 + wish t; 10] ++ [0]) with [48 + wish t; 10; 0]. cbn [input].
  unfold in_bounds, zlen. rewrite Hin. cbn [length Z.of_nat Pos.of_succ_nat Pos.succ Z.leb Z.compare Z.add Pos.compare Pos.compare_cont andb].
  eexists. split; [reflexivity |]. cbn [shown]. split; [done |]. split; cbn [drv input rd_buf]; [| | done | lia].
  - exists q2. split; [done |]. split; [| lia]. rewrite <- firstn_map, map_app, map_map. done.
  - exists [48 + wish t; 10]. destruct (input s1) as [| a [| b [| c [| ? ?]]]]; try done. unfold splice. cbn [Z.to_nat take app length drop Nat.add].
    split; [| split; [rewrite atoi_digit by lia; lia | done]]. change (cstr (48 + wish t :: 10 :: 0 :: []) = Some [48 + wish t; 10]). cbn [cstr]. replace (48 + wish t =? 0) with false by lia. done.
Qed.

Lemma rounds_ok ts : forall s waiting n head, Forall proper ts -> ready s waiting n head -> head + Z.of_nat (length (session ts waiting n)) <= 99 ->
  exists s', rounds (map typed ts) s = Done tt s' /\ shown s' = shown s ++ map (fun r => Z.land r 0xfff) (session ts waiting n).
Proof.
  induction ts as [| t ts IH]; intros s waiting n head Hts Hr Hhead; [exists s; split; [done |]; by rewrite app_nil_r |].
  inversion Hts as [| ? ? Ht Hrest]; subst. cbn [session] in *. rewrite length_app in Hhead.
  destruct (round_ok t s waiting n head Ht Hr ltac:(lia)) as (s1 & Hrun & Hsh & Hr1).
  destruct (IH s1 _ _ _ Hrest Hr1 ltac:(lia)) as (s2 & Hrun2 & Hsh2).
  exists s2. cbn [map rounds]. unfold bind at 1. rewrite Hrun. split; [done |]. by rewrite Hsh2, Hsh, map_app, app_assoc.
Qed.

Lemma started_ready e d0 junk d : open_ok e -> Device_Open d0 = 0 -> zlen junk = 200 -> device_open e d0 = Done 0 d ->
  ready (mk_test d [48; 0; 0] junk []) [] 0 0.
Proof.
  intros He Hd0 Hj Hopen. destruct (device_open_ok e d0 He Hd0) as (d' & q & Hrun & Hd & Hq & Hh & _). rewrite Hrun in Hopen. injection Hopen as ->.
  split; [by exists q | by exists [48] | done | lia].
Qed.

Lemma long_line_overruns s irqs_ line rs : (3 <= length line)%nat ->
  forall s1, (show_messages ;;; kernel (irqs irqs_)) s = Done tt s1 -> length (input s1) = 3%nat ->
  exists s2, rounds ((irqs_, Some line) :: rs) s = Undef OutOfBounds s2.
Proof.
  intros Hl s1 Hrun Hin. exists s1. cbn [rounds]. unfold bind at 1, round. cbn [fst snd].
  unfold bind in Hrun |- *. destruct (show_messages s) as [[] s0 | |]; [| done..]. rewrite Hrun. unfold fgets, in_bounds, zlen.
  rewrite length_app, length_take, Hin. cbn [length]. rewrite (proj2 (Z.leb_gt (0 + _) _)) by (unfold MAX_STRING_SIZE; lia).
  by rewrite andb_false_r.
Qed.

(** The line "q" is the number 0. *)
Lemma quit_ignored k : forall s t, length (input s) = 3%nat -> cstr (input s) = Some t -> atoi t = 0 ->
  exists s', rounds (replicate k ([], Some [113; 10])) s = Done tt s'.
Proof.
  induction k as [| k IH]; intros s t Hl Ht Hn; [by exists s |]. cbn [replicate rounds]. unfold bind at 1, round, show_messages, bind at 1 2 3, get.
  rewrite Ht, Hn. destruct s as [d i b sh]. cbn in Hl. destruct i as [| x [| y [| z [| ? ?]]]]; try done. cbn.
  by apply (IH (mk_test d [113; 10; 0] b sh) [113; 10]).
Qed.

(** ** Properties *)


End IrTest.
