(* ===== verification/Multiplier.v ===== *)
(** * [lab6/multiplier.c]: the character device of the multiplier peripheral

    The driver copies two operands from the user to registers 0 and 1 of the
    peripheral and three registers back, through a buffer of 12 bytes and two
    pointers into it, [bf_Ptr] and [char_bf_Ptr].  The peripheral is not part of the
    program: it is the interface [Peripheral], whose laws say what the driver relies
    on.  [device_read] leaves [char_bf_Ptr] behind what it read, where the next
    [device_write] stores and lets [bf_Ptr] follow: the buffer creeps through the memory by
    12 bytes with every read and write. *)

From S2P Require Import Prelude CMem.
From stdpp Require Import base list.
From Stdlib Require Import ZArith Lia.
Open Scope Z_scope.

Module Multiplier.

(** ** The peripheral *)
Class Peripheral := {
  hw : Type;
  iowrite32 : hw -> Z -> Z -> hw;      (* offset, value *)
  ioread32 : hw -> Z -> Z
}.

(** The documented behaviour of the multiplier: registers 0 and 1 (offsets 0 and 4)
    hold what was written last, register 2 (offset 8) their product. *)
Class MultiplierLaws (P : Peripheral) := {
  rd_same : forall h off v, off = 0 \/ off = 4 -> ioread32 (iowrite32 h off v) off = u32 v;
  rd_other : forall h off off' v, off = 0 \/ off = 4 -> off' = 0 \/ off' = 4 -> off <> off' ->
    ioread32 (iowrite32 h off v) off' = ioread32 h off';
  rd_product : forall h, ioread32 h 8 = u32 (ioread32 h 0 * ioread32 h 4)
}.

(** ** 32-bit words in memory, least significant byte first *)
Definition le32 (z : Z) : list Z :=
  [u8 z; u8 (z / 256); u8 (z / 65536); u8 (z / 16777216)].
Definition of_le32 (l : list Z) : Z :=
  match l with
  | [a; b; c; d] => a + 256 * b + 65536 * c + 16777216 * d
  | _ => 0
  end.

Lemma of_le32_le32 z : of_le32 (le32 z) = u32 z.
Proof.
  unfold of_le32, le32, u8, u32. change 4294967296 with (256 * (256 * (256 * 256))).
  rewrite !Z.rem_mul_r by lia. rewrite !Z.div_div by lia.
  change (256 * 256) with 65536. change (65536 * 256) with 16777216. lia.
Qed.

Lemma slice_all_le32 z : slice (le32 z) 0 4 = le32 z.
Proof. done. Qed.

Section Driver.
Context {P : Peripheral}.

(** ** State *)
Record mstate := mk_state {
  heap : list Z;        (* the memory from the buffer on: its 12 bytes and what can be written behind them *)
  bf_Ptr : Z;           (* offsets from the start of the buffer *)
  char_bf_Ptr : Z;
  dev : hw
}.
Abbreviation D := (M mstate).

Definition EINVAL : Z := 22.
Definition INT_BUF_LEN : Z := 3.

Definition get : D mstate := fun s => Done s s.
Definition set_heap (l : list Z) : D unit := fun s =>
  Done tt (mk_state l (bf_Ptr s) (char_bf_Ptr s) (dev s)).
Definition set_bf (z : Z) : D unit := fun s => Done tt (mk_state (heap s) z (char_bf_Ptr s) (dev s)).
Definition set_cbf (z : Z) : D unit := fun s => Done tt (mk_state (heap s) (bf_Ptr s) z (dev s)).
Definition set_dev (h : hw) : D unit := fun s => Done tt (mk_state (heap s) (bf_Ptr s) (char_bf_Ptr s) h).

Definition store (off : Z) (l : list Z) : D unit :=
  let* s := get in
  if in_bounds (heap s) off (zlen l) then set_heap (splice (heap s) off l) else undef OutOfBounds.
Definition load (off n : Z) : D (list Z) :=
  let* s := get in
  if in_bounds (heap s) off n then ret (slice (heap s) off n) else undef OutOfBounds.

(** ** Loading: the buffer's old contents [junk], the peripheral's state and the
    answer of [register_chrdev]. *)
Definition my_init (junk : list Z) (h : hw) (major : Z) : mstate * Z :=
  (mk_state junk 0 0 h, if major <? 0 then major else 0).

(** ** [device_read]: the result and the bytes put into the user's buffer *)
Fixpoint fetch (i : Z) (n : nat) : D unit :=
  match n with
  | O => ret tt
  | S n' =>
      let* s := get in
      store (bf_Ptr s + 4 * i) (le32 (ioread32 (dev s) (i * 4))) ;;;
      fetch (i + 1) n'
  end.

Fixpoint put_bytes (n : nat) (out : list Z) : D (list Z) :=
  match n with
  | O => ret out
  | S n' =>
      let* s := get in
      let* b := load (char_bf_Ptr s) 1 in
      set_cbf (char_bf_Ptr s + 1) ;;;
      put_bytes n' (out ++ b)
  end.

Definition device_read (length : Z) : D (Z * list Z) :=
  if 12 <? length then ret (- EINVAL, [])
  else
    fetch 0 3 ;;;
    let* s := get in
    set_cbf (bf_Ptr s) ;;;
    let* out := put_bytes 12 [] in
    ret (12, out).

(** ** [device_write] of the user's bytes [buf] *)
Fixpoint get_bytes (i : Z) (buf : list Z) : D unit :=
  match buf with
  | [] => ret tt
  | b :: buf' =>
      let* s := get in
      store (char_bf_Ptr s + i) [b] ;;;
      get_bytes (i + 1) buf'
  end.

Fixpoint flush (i : Z) (n : nat) : D unit :=
  match n with
  | O => ret tt
  | S n' =>
      let* s := get in
      let* w := load (bf_Ptr s + 4 * i) 4 in
      set_dev (iowrite32 (dev s) (i * 4) (of_le32 w)) ;;;
      flush (i + 1) n'
  end.

Definition device_write (buf : list Z) : D Z :=
  if 8 <? zlen buf then ret (- EINVAL)
  else
    get_bytes 0 buf ;;;
    let* s := get in
    set_bf (char_bf_Ptr s) ;;;
    flush 0 2 ;;;
    ret 2.

(** ** One round of [devtest.c]: write [i] and [j], read back, compare *)
Definition devtest_round (i j : Z) : D (Z * Z * Z * bool) :=
  device_write (le32 i ++ le32 j) ;;;
  let* r := device_read 12 in
  let out := r.2 in
  let read_i := of_le32 (slice out 0 4) in
  let read_j := of_le32 (slice out 4 4) in
  let result := of_le32 (slice out 8 4) in
  ret (read_i, read_j, result, result =? u32 (i * j)).

(** ** The bare-metal program of lab 3 and the kernel module of lab 5 *)

(** [lab3/helloworld.c], from [i] on: both operands are [i], the products are printed. *)
Fixpoint squares (h : hw) (i : Z) (n : nat) : hw * list Z :=
  match n with
  | O => (h, [])
  | S n' =>
      let h1 := iowrite32 (iowrite32 h 0 i) 4 i in
      let result := ioread32 h1 8 in
      let '(h2, rest) := squares h1 (i + 1) n' in
      (h2, result :: rest)
  end.
Definition lab3_main (h : hw) : hw * list Z := squares h 0 17.

(** [lab5/multiply.c]: the values of the three registers that loading the module
    prints. *)
Definition lab5_init (h : hw) : hw * list Z :=
  let h1 := iowrite32 (iowrite32 h 0 7) 4 2 in
  (h1, [ioread32 h1 0; ioread32 h1 4; ioread32 h1 8]).

(** ** The two operations at any place

    The memory is [pre ++ w ++ post], the pointers are at [w]. *)
Lemma zlen_le32 z : zlen (le32 z) = 4.
Proof. done. Qed.

Lemma store_at pre old post l off s : heap s = pre ++ old ++ post -> off = zlen pre -> zlen l = zlen old ->
  store off l s = Done tt (mk_state (pre ++ l ++ post) (bf_Ptr s) (char_bf_Ptr s) (dev s)).
Proof.
  intros Hh -> Hl. unfold store, bind, get. rewrite Hh, in_bounds_true.
  - unfold set_heap. rewrite splice_app, splice_0 by done. unfold zlen in Hl. assert (length l = length old) as -> by lia. by rewrite drop_app_length.
  - unfold zlen; lia.
  - unfold zlen; lia.
  - rewrite !zlen_app. unfold zlen in *. lia.
Qed.

Lemma load_at pre w post n off s : heap s = pre ++ w ++ post -> off = zlen pre -> n = zlen w -> load off n s = Done w s.
Proof.
  intros Hh -> ->. unfold load, bind, get. rewrite Hh, in_bounds_true.
  - unfold ret. by rewrite slice_app, slice_0_app.
  - unfold zlen; lia.
  - unfold zlen; lia.
  - rewrite !zlen_app. unfold zlen in *. lia.
Qed.

Lemma get_bytes_at buf : forall i pre old post s, heap s = pre ++ old ++ post -> char_bf_Ptr s + i = zlen pre -> length old = length buf ->
  get_bytes i buf s = Done tt (mk_state (pre ++ buf ++ post) (bf_Ptr s) (char_bf_Ptr s) (dev s)).
Proof.
  induction buf as [| b buf IH]; intros i pre [| o old] post s Hh Hp Hl; try done; [destruct s; cbn in *; by subst |].
  cbn [get_bytes]. unfold bind at 1, get at 1. change (o :: old) with ([o] ++ old) in Hh. rewrite <- app_assoc in Hh.
  unfold bind at 1. rewrite (store_at pre [o] (old ++ post)) by done.
  rewrite (IH (i + 1) (pre ++ [b]) old post); cbn [heap bf_Ptr char_bf_Ptr dev].
  - by rewrite <- !app_assoc.
  - by rewrite <- !app_assoc.
  - rewrite zlen_app. change (zlen [b]) with 1. lia.
  - by injection Hl.
Qed.

Lemma put_bytes_at w : forall pre post out s, heap s = pre ++ w ++ post -> char_bf_Ptr s = zlen pre ->
  put_bytes (length w) out s = Done (out ++ w) (mk_state (heap s) (bf_Ptr s) (zlen pre + zlen w) (dev s)).
Proof.
  induction w as [| b w IH]; intros pre post out s Hh Hp.
  - destruct s; cbn in *; subst. by rewrite app_nil_r, Z.add_0_r.
  - cbn [length put_bytes]. unfold bind at 1, get at 1. change (b :: w) with ([b] ++ w) in Hh. rewrite <- app_assoc in Hh.
    unfold bind at 1. rewrite (load_at pre [b] (w ++ post)) by done. unfold bind at 1, set_cbf.
    rewrite (IH (pre ++ [b]) post); cbn [heap bf_Ptr char_bf_Ptr dev].
    + rewrite <- app_assoc, zlen_app. unfold zlen. cbn [length app]. do 2 f_equal. lia.
    + by rewrite Hh, <- app_assoc.
    + rewrite zlen_app. change (zlen [b]) with 1. lia.
Qed.

Lemma write_at s a b pre old post : heap s = pre ++ old ++ post -> zlen old = 8 -> char_bf_Ptr s = zlen pre ->
  device_write (le32 a ++ le32 b) s = Done 2
    (mk_state (pre ++ (le32 a ++ le32 b) ++ post) (zlen pre) (zlen pre)
       (iowrite32 (iowrite32 (dev s) 0 (u32 a)) 4 (u32 b))).
Proof.
  intros Hh Hw Hc. unfold device_write. change (8 <? zlen (le32 a ++ le32 b)) with false. cbn match.
  unfold bind at 1. rewrite (get_bytes_at (le32 a ++ le32 b) 0 pre old post); [| done | lia | unfold zlen in Hw; cbn; lia].
  unfold bind at 1, get at 1, bind at 1, set_bf. cbn [heap bf_Ptr char_bf_Ptr dev].
  cbn [flush]. unfold bind at 1, bind at 1, get at 1, bind at 1. cbn [bf_Ptr].
  rewrite (load_at pre (le32 a) (le32 b ++ post)) by (done || cbn [heap]; (lia || by rewrite <- app_assoc)).
  unfold bind at 1, set_dev at 1. unfold bind at 1, get at 1, bind at 1. cbn [heap bf_Ptr char_bf_Ptr dev].
  rewrite (load_at (pre ++ le32 a) (le32 b) post).
  - unfold bind, set_dev, ret. cbn [heap bf_Ptr char_bf_Ptr dev]. by rewrite !of_le32_le32, Hc.
  - cbn [heap]. by rewrite <- !app_assoc.
  - rewrite zlen_app, zlen_le32. lia.
  - done.
Qed.

Lemma registers_fetched n : forall i pre old post s, heap s = pre ++ old ++ post -> bf_Ptr s + 4 * i = zlen pre -> length old = (4 * n)%nat ->
  fetch i n s = Done tt (mk_state (pre ++ concat (map (fun k => le32 (ioread32 (dev s) ((i + Z.of_nat k) * 4))) (seq 0 n)) ++ post)
    (bf_Ptr s) (char_bf_Ptr s) (dev s)).
Proof.
  induction n as [| n IH]; intros i pre old post s Hh Hp Hl.
  - destruct old; [| done]. destruct s; cbn in *; by subst.
  - cbn [fetch]. unfold bind at 1, get at 1.
    rewrite <- (take_drop 4 old), <- app_assoc in Hh. assert (Ht : length (take 4 old) = 4%nat) by (rewrite length_take; lia).
    unfold bind at 1. rewrite (store_at pre (take 4 old) (drop 4 old ++ post)); [| done | lia | unfold zlen; by rewrite Ht].
    rewrite (IH (i + 1) (pre ++ le32 (ioread32 (dev s) (i * 4))) (drop 4 old) post); cbn [heap bf_Ptr char_bf_Ptr dev].
    + cbn [seq map concat]. rewrite <- seq_shift, map_map, Z.add_0_r, <- !app_assoc. do 5 f_equal. f_equal.
      apply map_ext. intros k. do 2 f_equal. lia.
    + by rewrite <- !app_assoc.
    + rewrite zlen_app, zlen_le32. lia.
    + rewrite length_drop. lia.
Qed.

(** The three registers as bytes. *)
Definition registers (h : hw) : list Z := le32 (ioread32 h 0) ++ le32 (ioread32 h 4) ++ le32 (ioread32 h 8).

Lemma read_at s len pre w post : heap s = pre ++ w ++ post -> zlen w = 12 -> bf_Ptr s = zlen pre -> len <= 12 ->
  device_read len s = Done (12, registers (dev s)) (mk_state (pre ++ registers (dev s) ++ post) (zlen pre) (zlen pre + 12) (dev s)).
Proof.
  intros Hh Hw Hb Hlen. unfold device_read. rewrite (proj2 (Z.ltb_ge 12 len)) by lia.
  unfold bind at 1. rewrite (registers_fetched 3 0 pre w post); [| done | lia | unfold zlen in Hw; lia].
  change (concat _) with (registers (dev s)).
  unfold bind at 1, get at 1, bind at 1, set_cbf, bind at 1. cbn [heap bf_Ptr char_bf_Ptr dev].
  change 12%nat with (length (registers (dev s))) at 1. rewrite (put_bytes_at (registers (dev s)) pre post) by done.
  unfold ret. cbn [heap bf_Ptr char_bf_Ptr dev]. rewrite Hb. done.
Qed.

(** Memory cut at two places. *)
Lemma cut_heap (l : list Z) p n : 0 <= p -> 0 <= n -> p + n <= zlen l ->
  exists pre w post, l = pre ++ w ++ post /\ zlen pre = p /\ zlen w = n /\ zlen post = zlen l - p - n.
Proof.
  intros Hp Hn Hl. exists (take (Z.to_nat p) l), (take (Z.to_nat n) (drop (Z.to_nat p) l)), (drop (Z.to_nat n) (drop (Z.to_nat p) l)).
  rewrite take_drop, take_drop. split; [done |]. unfold zlen in *. rewrite !length_take, !length_drop. lia.
Qed.

Lemma read_spec s len :
  zlen (heap s) = 12 -> bf_Ptr s = 0 -> len <= 12 ->
  device_read len s = Done (12, registers (dev s)) (mk_state (registers (dev s)) 0 12 (dev s)).
Proof. intros Hh Hb Hlen. rewrite (read_at s len [] (heap s) []) by (done || by rewrite app_nil_r). cbn [app]. by rewrite app_nil_r. Qed.

(** A write that does not fit, and a round that does not. *)
Lemma store_fails off l s : zlen (heap s) < off + zlen l -> fails (store off l) OutOfBounds s.
Proof.
  intros H. unfold fails, store, bind, get, in_bounds. rewrite (proj2 (Z.leb_gt (off + zlen l) _)) by done. rewrite andb_false_r. by eexists.
Qed.

Lemma get_bytes_fails buf : forall i s, 0 <= char_bf_Ptr s + i <= zlen (heap s) -> zlen (heap s) < char_bf_Ptr s + i + zlen buf ->
  fails (get_bytes i buf) OutOfBounds s.
Proof.
  induction buf as [| b buf IH]; intros i s Hi Hl; [unfold zlen in *; cbn [length] in Hl; lia |].
  cbn [get_bytes]. apply fails_bind. unfold wp, get. destruct (Z.eq_dec (char_bf_Ptr s + i) (zlen (heap s))) as [He | He].
  - apply fails_first, store_fails. change (zlen [b]) with 1. lia.
  - apply fails_bind. unfold wp, store, bind, get. rewrite in_bounds_true by (change (zlen [b]) with 1; lia).
    apply IH; cbn [heap char_bf_Ptr]; rewrite zlen_splice by (change (zlen [b]) with 1; lia); [lia |].
    unfold zlen in *. cbn [length] in Hl. lia.
Qed.

Lemma write_behind buf s :
  zlen (heap s) = 12 -> char_bf_Ptr s = 12 -> zlen buf <= 8 -> fails (device_write buf) OutOfBounds s.
Proof.
  intros Hh Hc Hl. unfold device_write. rewrite (proj2 (Z.ltb_ge 8 _)) by lia. destruct buf as [| b buf].
  - destruct s as [h bf cbf d]; simpl in *; subst.
    unfold fails, bind, get, ret, set_bf, flush, load, bind, get, in_bounds. simpl. rewrite Hh. by eexists.
  - apply fails_first, get_bytes_fails; [lia |]. unfold zlen in *. cbn [length] in *. lia.
Qed.

Lemma fetch_fails n : forall i s, 0 <= bf_Ptr s + 4 * i <= zlen (heap s) -> zlen (heap s) < bf_Ptr s + 4 * (i + Z.of_nat n) ->
  fails (fetch i n) OutOfBounds s.
Proof.
  induction n as [| n IH]; intros i s Hi Hl; [lia |]. cbn [fetch]. apply fails_bind. unfold wp, get at 1.
  destruct (Z.lt_ge_cases (zlen (heap s)) (bf_Ptr s + 4 * i + 4)).
  - apply fails_first, store_fails. rewrite zlen_le32. lia.
  - apply fails_bind. unfold wp, store, bind, get. rewrite in_bounds_true by (rewrite ?zlen_le32; lia).
    apply IH; cbn [heap bf_Ptr]; rewrite zlen_splice by (rewrite ?zlen_le32; lia); lia.
Qed.

Lemma round_fails s a b : 0 <= char_bf_Ptr s <= zlen (heap s) -> zlen (heap s) < char_bf_Ptr s + 12 ->
  fails (devtest_round a b) OutOfBounds s.
Proof.
  intros Hc Hl. unfold devtest_round. destruct (Z.lt_ge_cases (zlen (heap s)) (char_bf_Ptr s + 8)) as [H8 | H8].
  - apply fails_first. unfold device_write. change (8 <? _) with false. cbn match.
    apply fails_first, get_bytes_fails; [lia |]. change (zlen (le32 a ++ le32 b)) with 8. lia.
  - destruct (cut_heap (heap s) (char_bf_Ptr s) 8) as (pre & old & post & Hh & Hpre & Hold & Hpost); [lia.. |].
    apply fails_bind. unfold wp. rewrite (write_at s a b pre old post) by done.
    apply fails_first. unfold device_read. change (12 <? 12) with false. cbn match.
    apply fails_first, fetch_fails; cbn [heap bf_Ptr]; rewrite !zlen_app, !zlen_le32; unfold zlen in *; lia.
Qed.
End Driver.

(** ** Properties *)
Section Properties.
Context {P : Peripheral} {HL : MultiplierLaws P}.

(** The state after loading, for an arbitrary old buffer and peripheral. *)
Definition fresh (s : mstate) : Prop := zlen (heap s) = 12 /\ bf_Ptr s = 0 /\ char_bf_Ptr s = 0.

Lemma write_keeps_fresh s a b : fresh s ->
  exists s', device_write (le32 a ++ le32 b) s = Done 2 s' /\ fresh s' /\
    dev s' = iowrite32 (iowrite32 (dev s) 0 (u32 a)) 4 (u32 b).
Proof.
  intros (Hh & Hb & Hc). destruct (cut_heap (heap s) 0 8) as (pre & old & post & Hs & Hpre & Hold & Hpost); [lia.. |].
  rewrite (write_at s a b pre old post) by lia || done. eexists. split; [reflexivity |].
  split; [| done]. split; [| done]. cbn [heap]. rewrite !zlen_app, !zlen_le32. lia.
Qed.

Lemma u32_idem z : u32 (u32 z) = u32 z.
Proof. apply Z.mod_mod. done. Qed.

Lemma registers_written h a b :
  let h' := iowrite32 (iowrite32 h 0 (u32 a)) 4 (u32 b) in
  ioread32 h' 0 = u32 a /\ ioread32 h' 4 = u32 b /\ ioread32 h' 8 = u32 (a * b).
Proof.
  intros h'. assert (H0 : ioread32 h' 0 = u32 a).
  { unfold h'. rewrite rd_other, rd_same, u32_idem by auto. done. }
  assert (H4 : ioread32 h' 4 = u32 b) by (unfold h'; rewrite rd_same, u32_idem by auto; done).
  split; [done |]. split; [done |]. rewrite rd_product, H0, H4. unfold u32. by rewrite <- Zmult_mod.
Qed.

(** A series of writes. *)
Fixpoint writes (ws : list (Z * Z)) : M mstate unit :=
  match ws with
  | [] => ret tt
  | (a, b) :: ws' => device_write (le32 a ++ le32 b) ;;; writes ws'
  end.

Lemma writes_fresh ws : forall s, fresh s -> exists s', writes ws s = Done tt s' /\ fresh s'.
Proof.
  induction ws as [| [a b] ws IH]; intros s Hs; [by exists s |].
  destruct (write_keeps_fresh s a b Hs) as (s1 & H1 & Hs1 & _). destruct (IH s1 Hs1) as (s2 & H2 & Hs2).
  exists s2. cbn [writes]. unfold bind at 1. by rewrite H1.
Qed.

(** One round wherever the pointers are: the line it shows is right, and the pointers move
    on by 12 bytes. *)
Lemma round_at s a b pre w post : heap s = pre ++ w ++ post -> zlen w = 12 -> char_bf_Ptr s = zlen pre ->
  let h := iowrite32 (iowrite32 (dev s) 0 (u32 a)) 4 (u32 b) in
  devtest_round a b s = Done (u32 a, u32 b, u32 (a * b), true) (mk_state (pre ++ registers h ++ post) (zlen pre) (zlen pre + 12) h).
Proof.
  intros Hh Hw Hc h. destruct (registers_written (dev s) a b) as (R0 & R4 & R8). fold h in R0, R4, R8.
  destruct (cut_heap w 0 8) as (e & old & w4 & Ew & He & Hold & Hw4); [lia.. |]. destruct e; [| unfold zlen in He; cbn in He; lia].
  cbn [app] in Ew. unfold devtest_round, bind. rewrite (write_at s a b pre old (w4 ++ post)) by (done || by rewrite Hh, Ew, <- app_assoc).
  rewrite (read_at _ 12 pre ((le32 a ++ le32 b) ++ w4) post); [| cbn [heap]; by rewrite <- !app_assoc | rewrite !zlen_app, !zlen_le32; lia | done | done].
  cbn [dev snd]. fold h. unfold registers. rewrite R0, R4, R8.
  rewrite slice_0_app, slice_app by done.
  rewrite (slice_0_app (le32 (u32 b))), (app_assoc (le32 (u32 a))), slice_app by done.
  rewrite (slice_all_le32 (u32 (a * b))), !of_le32_le32, !u32_idem, Z.eqb_refl. unfold ret. by rewrite <- !app_assoc.
Qed.

Lemma devtest_round_spec s a b : fresh s ->
  exists s', devtest_round a b s = Done (u32 a, u32 b, u32 (a * b), true) s' /\
    zlen (heap s') = 12 /\ char_bf_Ptr s' = 12.
Proof.
  intros (Hh & _ & Hc). eexists. split; [apply (round_at s a b nil (heap s) nil); [by rewrite app_nil_r | done | done] | done].
Qed.

(** After any series of writes, the first round of the test program (write two
    operands, read back) gives the operands and their product modulo 2^32, and finds
    the result correct.*)
Lemma multiplier_product ws a b s :
  fresh s -> exists s', (writes ws ;;; devtest_round a b) s = Done (u32 a, u32 b, u32 (a * b), true) s'.
Proof.
  intros Hs. destruct (writes_fresh ws s Hs) as (s1 & H1 & Hs1).
  destruct (devtest_round_spec s1 a b Hs1) as (s2 & H2 & _). exists s2. unfold bind at 1. by rewrite H1.
Qed.

(** The first write after a read, which is the second round of the test program,
    stores behind the 12 bytes of the buffer: [device_read] leaves [char_bf_Ptr] at
    its end.*)
Lemma write_after_read_overruns a b buf s :
  fresh s -> zlen buf <= 8 -> fails (devtest_round a b ;;; device_write buf) OutOfBounds s.
Proof.
  intros Hs Hl. destruct (devtest_round_spec s a b Hs) as (s1 & H1 & Hh & Hc).
  apply fails_bind. unfold wp. rewrite H1. by apply write_behind.
Qed.

(** A read of fewer than 12 bytes, 0 included, fills 12 bytes of the user's buffer
    and returns 12. *)
Lemma read_ignores_length s len :
  fresh s -> len <= 12 ->
  exists out s', device_read len s = Done (12, out) s' /\ zlen out = 12.
Proof.
  intros (Hh & Hb & _) Hlen. rewrite read_spec by done. eexists _, _. split; [reflexivity |].
  unfold registers. by rewrite !zlen_app.
Qed.

Lemma u32_small z : 0 <= z < 4294967296 -> u32 z = z.
Proof. apply Z.mod_small. Qed.

Lemma squares_spec n : forall h i, 0 <= i -> i + Z.of_nat n <= 65536 ->
  (squares h i n).2 = map (fun k => (i + Z.of_nat k) * (i + Z.of_nat k)) (seq 0 n).
Proof.
  induction n as [| n IH]; intros h i Hi Hn; [done |]. cbn [squares].
  set (h1 := iowrite32 (iowrite32 h 0 i) 4 i).
  assert (H8 : ioread32 h1 8 = i * i).
  { destruct (registers_written h i i) as (_ & _ & H8). unfold h1.
    rewrite (u32_small i) in H8 by lia. rewrite H8, u32_small by nia. done. }
  specialize (IH h1 (i + 1)). destruct (squares h1 (i + 1) n) as [h2 rest]. cbn [snd] in *. rewrite IH by lia.
  cbn [seq map]. rewrite H8, <- seq_shift, map_map. f_equal; [f_equal; lia |].
  apply map_ext. intros k. rewrite Nat2Z.inj_succ. f_equal; lia.
Qed.

(** On the same peripheral the program of lab 3 prints the squares of 0 to 16 and
    loading the module of lab 5 prints 7, 2 and 14, whatever the registers held.*)
Lemma other_clients_multiply h :
  (lab3_main h).2 = [0; 1; 4; 9; 16; 25; 36; 49; 64; 81; 100; 121; 144; 169; 196; 225; 256] /\
  (lab5_init h).2 = [7; 2; 14].
Proof.
  split; [unfold lab3_main; by rewrite squares_spec by lia |].
  unfold lab5_init. cbn [snd]. destruct (registers_written h 7 2) as (H0 & H4 & H8).
  rewrite !u32_small in * by lia. by rewrite H0, H4, H8.
Qed.
End Properties.

(** ** A peripheral that satisfies the laws *)
#[export] Instance sample_hw : Peripheral := {|
  hw := Z * Z;
  iowrite32 h off v := if off =? 0 then (u32 v, h.2) else if off =? 4 then (h.1, u32 v) else h;
  ioread32 h off := if off =? 0 then u32 h.1 else if off =? 4 then u32 h.2 else u32 (u32 h.1 * u32 h.2)
|}.

#[export] Instance sample_laws : MultiplierLaws sample_hw.
Proof.
  split.
  - intros h off v [-> | ->]; simpl; apply u32_idem.
  - intros h off off' v [-> | ->] [-> | ->] Hne; done.
  - done.
Qed.

Definition sample_state : mstate := mk_state (replicate 12 77) 0 0 (0, 0).

Lemma sample_fresh : fresh sample_state.
Proof. done. Qed.

Lemma multiplier_product_witness :
  exists s', (writes [(1, 2)] ;;; devtest_round 16 16) sample_state = Done (16, 16, 256, true) s'.
Proof. apply (multiplier_product [(1, 2)] 16 16 sample_state). exact sample_fresh. Defined.

Lemma write_after_read_overruns_witness :
  fails (devtest_round 0 0 ;;; device_write (le32 0 ++ le32 1)) OutOfBounds sample_state.
Proof. apply (write_after_read_overruns 0 0 (le32 0 ++ le32 1) sample_state); [exact sample_fresh | by vm_compute]. Defined.

Lemma other_clients_multiply_witness :
  (lab3_main (3, 4)).2 = [0; 1; 4; 9; 16; 25; 36; 49; 64; 81; 100; 121; 144; 169; 196; 225; 256] /\
  (lab5_init (3, 4)).2 = [7; 2; 14].
Proof. apply (other_clients_multiply (HL := sample_laws) (3, 4)). Defined.
End Multiplier.
