(* ===== verification/MultiplierTest.v ===== *)
(** * The life of the multiplier driver of lab 6, its test program, and the module of lab 5

    Opening, closing and unloading the driver of [Multiplier.v], and the whole of [main]
    of [devtest.c], which multiplies all pairs of numbers up to 16 through the device and
    lets the user end it with the key q after every line.  [lab5/multiply.c] is a module
    that multiplies once, when it is loaded. *)

From S2P Require Import Prelude CMem Multiplier.
From stdpp Require Import base list.
From Stdlib Require Import ZArith Lia.
Open Scope Z_scope.

Module MultiplierTest.
Import Multiplier.

Section Program.
Context {P : Peripheral}.

(** ** Opening, closing and unloading *)
Definition device_open : M mstate Z := ret 0.
Definition device_release : M mstate Z := ret 0.

(** [kfree(bf_Ptr)] frees the buffer if [bf_Ptr] is still its start. *)
Definition my_cleanup : M mstate unit := fun s =>
  if bf_Ptr s =? 0 then Done tt (mk_state [] (bf_Ptr s) (char_bf_Ptr s) (dev s)) else Undef UseAfterFree s.

(** ** [main] *)

(** The pairs of the two loops, in their order. *)
Definition pairs : list (Z * Z) := flat_map (fun i => map (fun j => (i, j)) (seqZ 0 17)) (seqZ 0 17).

(** The lines printed: both operands, the result, and whether it was found correct.
    [keys] are what [getchar] returns, and end of file behind them. *)
Fixpoint test_pairs (ps : list (Z * Z)) (keys : list Z) (lines : list (Z * Z * Z * bool)) : M mstate (list (Z * Z * Z * bool)) :=
  match ps with
  | [] => ret lines
  | (i, j) :: rest =>
      let* line := devtest_round i j in
      if s8 (hd (-1) keys) =? 113 then ret (lines ++ [line])
      else test_pairs rest (tl keys) (lines ++ [line])
  end.

Definition main (opens : bool) (keys : list Z) : M mstate (Z * list (Z * Z * Z * bool)) :=
  if opens then
    device_open ;;;
    let* lines := test_pairs pairs keys [] in
    device_release ;;;
    ret (0, lines)
  else ret (-1, []).

(** ** [lab5/multiply.c]

    The state is the global [virt_addr], the mappings that exist, and the registers.
    [ioremap] answers with [va], which is 0 when it fails. *)
Record module5 := mk_module5 { virt_addr : Z; mapped : list Z; board : hw }.

Definition ioremap (va : Z) : M module5 unit := fun s =>
  Done tt (mk_module5 va (if va =? 0 then mapped s else va :: mapped s) (board s)).
Definition iounmap (va : Z) : M module5 unit := fun s =>
  if bool_decide (va ∈ mapped s) then Done tt (mk_module5 (virt_addr s) (filter (fun a => a <> va) (mapped s)) (board s))
  else Undef UseAfterFree s.

(** [my_init]: the two addresses and the three values it prints. *)
Definition lab5_load (PHY_ADDR va : Z) : M module5 (Z * Z * list Z) :=
  ioremap va ;;;
  fun s =>
    if virt_addr s =? 0 then Undef NullPointer s
    else
      let '(h, values) := lab5_init (board s) in
      Done (u32 (virt_addr s), u32 PHY_ADDR, values) (mk_module5 (virt_addr s) (mapped s) h).
(** [my_exit] *)
Definition lab5_unload : M module5 unit := fun s => iounmap (virt_addr s) s.
End Program.

(** ** Properties *)
Section Properties.
Context {P : Peripheral} {HL : MultiplierLaws P}.

(** The rounds made before the user types q, or all of them. *)
Fixpoint rounds (n : nat) (keys : list Z) : nat :=
  match n with
  | O => 0
  | S n' => S (if s8 (hd (-1) keys) =? 113 then 0 else rounds n' (tl keys))
  end.
Definition right_line (ij : Z * Z) : Z * Z * Z * bool := (u32 ij.1, u32 ij.2, u32 (ij.1 * ij.2), true).

Lemma rounds_le n : forall keys, (rounds n keys <= n)%nat.
Proof. induction n as [| n IH]; intros keys; [done |]. cbn [rounds]. destruct (_ =? _); [lia |]. specialize (IH (tl keys)). lia. Qed.

(** The rounds from a state in which the pointers have moved to [p]: they are right as long
    as 12 more bytes of memory are left for each of them. *)
Lemma test_pairs_creep ps : forall keys lines s, ps <> [] -> 0 <= char_bf_Ptr s <= zlen (heap s) ->
  let r := rounds (length ps) keys in
  if char_bf_Ptr s + 12 * Z.of_nat r <=? zlen (heap s)
  then exists s', test_pairs ps keys lines s = Done (lines ++ map right_line (take r ps)) s' /\ bf_Ptr s' = char_bf_Ptr s + 12 * Z.of_nat r - 12
  else fails (test_pairs ps keys lines) OutOfBounds s.
Proof.
  induction ps as [| [a b] ps IH]; intros keys lines s Hne Hc r; [done |]. cbn [test_pairs].
  destruct (Z.lt_ge_cases (zlen (heap s)) (char_bf_Ptr s + 12)) as [Hl | Hl].
  { assert (1 <= Z.of_nat r) by (unfold r; cbn [length rounds]; lia). rewrite (proj2 (Z.leb_gt _ _)) by lia. by apply fails_first, round_fails. }
  destruct (cut_heap (heap s) (char_bf_Ptr s) 12) as (pre & w & post & Hh & Hpre & Hw & _); [lia.. |].
  pose proof (round_at s a b pre w post Hh Hw (eq_sym Hpre)) as Hrun. cbn zeta in Hrun. set (h := iowrite32 _ _ _) in Hrun.
  unfold r. cbn [length rounds]. destruct (s8 (hd (-1) keys) =? 113) eqn:Hk.
  { rewrite (proj2 (Z.leb_le _ _)) by lia. eexists. unfold bind. rewrite Hrun. split; [done |]. cbn [bf_Ptr]. lia. }
  assert (Hlen : zlen (pre ++ registers h ++ post) = zlen (heap s)) by (rewrite Hh, !zlen_app, Hw; unfold registers; rewrite !zlen_app, !zlen_le32; lia).
  destruct ps as [| q ps].
  { cbn [length rounds]. rewrite (proj2 (Z.leb_le _ _)) by lia. eexists. unfold bind. rewrite Hrun. split; [done |]. cbn [bf_Ptr]. lia. }
  match type of Hrun with _ = Done _ ?t => specialize (IH (tl keys) (lines ++ [right_line (a, b)]) t ltac:(done)) end.
  cbn [char_bf_Ptr heap] in IH. rewrite Hlen in IH. specialize (IH ltac:(lia)). set (k := rounds _ (tl keys)) in *.
  replace (char_bf_Ptr s + 12 * Z.of_nat (S k) <=? zlen (heap s)) with (zlen pre + 12 + 12 * Z.of_nat k <=? zlen (heap s)) by (f_equal; lia).
  destruct (_ <=? _).
  - destruct IH as (s' & Hs' & Hb). exists s'. unfold bind. rewrite Hrun. change (u32 a, u32 b, u32 (a * b), true) with (right_line (a, b)). cbn beta match. split; [etransitivity; [exact Hs' | by rewrite <- app_assoc] | lia].
  - apply fails_bind. unfold wp. by rewrite Hrun.
Qed.

Lemma right_pairs : Forall (fun ij => right_line ij = (ij.1, ij.2, ij.1 * ij.2, true)) pairs.
Proof. apply Forall_forall. intros [i j] Hin. vm_compute in Hin. repeat (apply elem_of_cons in Hin as [[= -> ->] | Hin]; [reflexivity |]). by apply elem_of_nil in Hin. Qed.

(** C19: the test program on the driver as it was loaded, when [room] more bytes of memory
    behind the 12 that the driver allocated can be written and nothing else uses them.
    [device_read] leaves the character pointer behind what it read and [device_write] stores
    there and lets [bf_Ptr] follow, so every round needs 12 bytes of its own.  The program
    makes [r] rounds: up to the first q the user types, or all 289.  If 12 r bytes are there
    it shows the right products of the first [r] pairs and returns 0, and then the driver
    can be unloaded if [r] is 1; otherwise [kfree] is given an address that was never
    allocated.  If they are not there, a round goes outside the memory. *)
Theorem multiplier_test room junk h major keys :
  0 <= room -> zlen junk = 12 + room ->
  let s := (my_init junk h major).1 in
  let r := rounds 289 keys in
  if 12 * Z.of_nat r <=? 12 + room
  then exists s', main true keys s = Done (0, map (fun ij => (ij.1, ij.2, ij.1 * ij.2, true)) (take r pairs)) s' /\
    (r = 1%nat -> exists s'', my_cleanup s' = Done tt s'' /\ heap s'' = []) /\
    (r <> 1%nat -> fails my_cleanup UseAfterFree s')
  else fails (main true keys) OutOfBounds s.
Proof.
  intros Hroom Hj s r. pose proof (test_pairs_creep pairs keys [] s ltac:(done)) as H. cbn zeta in H.
  change (char_bf_Ptr s) with 0 in H. change (heap s) with junk in H. change (rounds (length pairs) keys) with r in H.
  rewrite Hj in H. specialize (H ltac:(lia)). rewrite Z.add_0_l in H. assert (Hr : (1 <= r)%nat) by (unfold r; cbn [rounds]; lia).
  destruct (_ <=? _).
  - destruct H as (s' & Hs' & Hb). exists s'. unfold main, device_open, device_release, bind, ret. rewrite Hs'. split; [| split].
    + do 2 f_equal. cbn [app]. apply map_ext_in. intros ij Hij. apply list_elem_of_In in Hij.
      apply (proj1 (Forall_forall _ _) right_pairs). by apply (subseteq_take r).
    + intros E. unfold my_cleanup. rewrite Hb, E. by eexists.
    + intros E. unfold fails, my_cleanup. rewrite Hb, (proj2 (Z.eqb_neq _ _)) by lia. by eexists.
  - unfold main, device_open. apply fails_bind. unfold wp, ret. by apply fails_first.
Qed.

(** Loading the module of lab 5 and unloading it: every mapping it made is gone, others are
    left, 7, 2 and 14 are printed, and the virtual address is printed as the physical one.
    When the mapping fails it writes through a null pointer. *)
Lemma module_life PHY_ADDR va s : va ∉ mapped s ->
  (va <> 0 -> exists s1 s2, lab5_load PHY_ADDR va s = Done (u32 va, u32 PHY_ADDR, [7; 2; 14]) s1 /\ mapped s1 = va :: mapped s /\
     lab5_unload s1 = Done tt s2 /\ mapped s2 = mapped s) /\
  (va = 0 -> fails (lab5_load PHY_ADDR va) NullPointer s).
Proof.
  intros Hn. unfold lab5_load, bind, ioremap. split; intros Hva.
  - cbn [virt_addr mapped board]. rewrite (proj2 (Z.eqb_neq _ _)) by done. destruct (lab5_init (board s)) as [h vs] eqn:Hi.
    pose proof (other_clients_multiply (board s)) as [_ Hv]. rewrite Hi in Hv. cbn [snd] in Hv. subst vs.
    do 2 eexists. split; [reflexivity |]. split; [done |]. unfold lab5_unload, iounmap. cbn [virt_addr mapped board].
    rewrite bool_decide_eq_true_2 by left. split; [reflexivity |]. cbn [mapped]. rewrite filter_cons_False by (by intros []).
    clear -Hn. induction (mapped s) as [| a l IH]; [done |]. apply not_elem_of_cons in Hn as [Hne Hn].
    rewrite filter_cons_True by done. f_equal. by apply IH.
  - subst va. unfold fails. by eexists.
Qed.
End Properties.

(** *** Witness: the recorded run, one that ends at once, and one without room *)
Lemma multiplier_test_witness :
  (exists s', main true [] (my_init (replicate 3468 77) (0, 0) 244).1 = Done (0, map (fun ij => (ij.1, ij.2, ij.1 * ij.2, true)) pairs) s') /\
  (exists s', main true [113] sample_state = Done (0, [(0, 0, 0, true)]) s') /\ fails (main true [10]) OutOfBounds sample_state.
Proof.
  split; [| split].
  - pose proof (multiplier_test (HL := sample_laws) 3456 (replicate 3468 77) (0, 0) 244 [] ltac:(lia) eq_refl) as H. cbn zeta in H.
    destruct H as (s' & Hs & _). exists s'. exact Hs.
  - pose proof (multiplier_test (HL := sample_laws) 0 (replicate 12 77) (0, 0) 244 [113] ltac:(lia) eq_refl) as H. cbn zeta in H.
    destruct H as (s' & Hs & _). exists s'. exact Hs.
  - pose proof (multiplier_test (HL := sample_laws) 0 (replicate 12 77) (0, 0) 244 [10] ltac:(lia) eq_refl) as H. exact H.
Defined.
End MultiplierTest.
