(* ===== verification/Board.v ===== *)
(** * The board of labs 3, 5 and 6: its address map and its platform code

    [lab6/src/xparameters.h] gives the physical addresses of the devices of the board, every
    driver twice: by the name of its peripheral and by a canonical one.  The drivers of labs
    5 and 6 map the window of the multiplier and access its three registers.
    [lab3/src/platform.c] prepares the board for the bare-metal program of lab 3; what it
    does is decided by the preprocessor, whose symbols are a record here. *)

From S2P Require Import Prelude CMem Multiplier.
From stdpp Require Import base list.
From Stdlib Require Import ZArith Lia.
From Stdlib Require Import String.
Open Scope string_scope.
Open Scope list_scope.
Open Scope Z_scope.

Module Board.
Import Multiplier.

(** ** [xparameters.h] *)
Record window := mk_window { device : string; BASEADDR : Z; HIGHADDR : Z }.

(** One instance of a driver: its number, its addresses (some have no upper one) and its
    other settings in their order. *)
Record instance := mk_instance { DEVICE_ID : Z; low : Z; high : option Z; settings : list Z }.
Record driver := mk_driver { NUM_INSTANCES : Z; peripheral : list instance; canonical : list instance }.

(** The devices without a driver. *)
Definition bus_windows : list window :=
  [mk_window "PS7_AFI_0" 0xF8008000 0xF8008FFF;
   mk_window "PS7_AFI_1" 0xF8009000 0xF8009FFF;
   mk_window "PS7_AFI_2" 0xF800A000 0xF800AFFF;
   mk_window "PS7_AFI_3" 0xF800B000 0xF800BFFF;
   mk_window "PS7_DDR_0" 0x00100000 0x1FFFFFFF;
   mk_window "PS7_DDRC_0" 0xF8006000 0xF8006FFF;
   mk_window "PS7_GLOBALTIMER_0" 0xF8F00200 0xF8F002FF;
   mk_window "PS7_GPV_0" 0xF8900000 0xF89FFFFF;
   mk_window "PS7_INTC_DIST_0" 0xF8F01000 0xF8F01FFF;
   mk_window "PS7_IOP_BUS_CONFIG_0" 0xE0200000 0xE0200FFF;
   mk_window "PS7_L2CACHEC_0" 0xF8F02000 0xF8F02FFF;
   mk_window "PS7_OCMC_0" 0xF800C000 0xF800CFFF;
   mk_window "PS7_PL310_0" 0xF8F02000 0xF8F02FFF;
   mk_window "PS7_PMU_0" 0xF8891000 0xF8891FFF;
   mk_window "PS7_PMU_0_PMU1" 0xF8893000 0xF8893FFF;
   mk_window "PS7_RAM_0" 0x00000000 0x0003FFFF;
   mk_window "PS7_RAM_1" 0xFFFC0000 0xFFFFFFFF;
   mk_window "PS7_SCUC_0" 0xF8F00000 0xF8F000FC;
   mk_window "PS7_SLCR_0" 0xF8000000 0xF8000FFF].

Definition DEVCFG : driver := mk_driver 1
  [mk_instance 0 0xF8007000 (Some 0xF80070FF) []] [mk_instance 0 0xF8007000 (Some 0xF80070FF) []].
Definition DMAPS : driver := mk_driver 2
  [mk_instance 0 0xF8004000 (Some 0xF8004FFF) []; mk_instance 1 0xF8003000 (Some 0xF8003FFF) []]
  [mk_instance 0 0xF8004000 (Some 0xF8004FFF) []; mk_instance 1 0xF8003000 (Some 0xF8003FFF) []].
Definition MULTIPLY : driver := mk_driver 1 [mk_instance 0 0x43C00000 (Some 0x43C0FFFF) []] [].
(** The interrupt controller; its setting is the address of the distributor. *)
Definition SCUGIC : driver := mk_driver 1
  [mk_instance 0 0xF8F00100 (Some 0xF8F001FF) [0xF8F01000]] [mk_instance 0 0xF8F00100 (Some 0xF8F001FF) [0xF8F01000]].
Definition SCUTIMER : driver := mk_driver 1
  [mk_instance 0 0xF8F00600 (Some 0xF8F0061F) []] [mk_instance 0 0xF8F00600 (Some 0xF8F0061F) []].
Definition SCUWDT : driver := mk_driver 1
  [mk_instance 0 0xF8F00620 (Some 0xF8F006FF) []] [mk_instance 0 0xF8F00620 (Some 0xF8F006FF) []].
Definition SDPS : driver := mk_driver 1
  [mk_instance 0 0xE0100000 (Some 0xE0100FFF) [50000000; 1; 1]] [mk_instance 0 0xE0100000 (Some 0xE0100FFF) [50000000; 1; 1]].
(** Three counters whose registers are interleaved. *)
Definition TTCPS : driver := mk_driver 3
  [mk_instance 0 0xF8001000 None [108333336; 0]; mk_instance 1 0xF8001004 None [108333336; 0]; mk_instance 2 0xF8001008 None [108333336; 0]]
  [mk_instance 0 0xF8001000 None [108333336; 0]; mk_instance 1 0xF8001004 None [108333336; 0]; mk_instance 2 0xF8001008 None [108333336; 0]].
Definition UARTPS : driver := mk_driver 1
  [mk_instance 0 0xE0001000 (Some 0xE0001FFF) [50000000; 0]] [mk_instance 0 0xE0001000 (Some 0xE0001FFF) [50000000; 0]].
Definition XADCPS : driver := mk_driver 1
  [mk_instance 0 0xF8007100 (Some 0xF8007120) []] [mk_instance 0 0xF8007100 (Some 0xF8007120) []].
Definition STDOUT_BASEADDRESS : Z := 0xE0001000.

Definition hard_drivers : list driver := [DEVCFG; DMAPS; SCUGIC; SCUTIMER; SCUWDT; SDPS; TTCPS; UARTPS; XADCPS].

(** All addresses that belong to a device other than the multiplier. *)
Definition contains (v : window) (a : Z) : bool := (BASEADDR v <=? a) && (a <=? HIGHADDR v).
Definition owns (i : instance) (a : Z) : bool := (low i <=? a) && match high i with Some h => a <=? h | None => a <=? low i + 3 end.
Definition taken (a : Z) : bool := existsb (fun v => contains v a) bus_windows || existsb (fun d => existsb (fun i => owns i a) (peripheral d)) hard_drivers.

(** ** The mapping of labs 5 and 6 *)
Definition PHY_ADDR : Z := 0x43C00000.
(** The macro [XPAR_MULTIPLY_0_S00_AXI_HIGHADDR - XPAR_MULTIPLY_0_S00_AXI_BASEADDR + 1]. *)
Definition MEMSIZE : Z := 0x43C0FFFF - 0x43C00000 + 1.

(** The header is consistent: every driver has as many instances as it says, numbered from 0,
    and the canonical names stand for the same devices; output goes to the UART. *)
Lemma parameters_consistent :
  Forall (fun d => Z.of_nat (List.length (peripheral d)) = NUM_INSTANCES d /\ List.map DEVICE_ID (peripheral d) = seqZ 0 (NUM_INSTANCES d) /\
    canonical d = peripheral d) hard_drivers /\
  List.map low (peripheral UARTPS) = [STDOUT_BASEADDRESS].
Proof. split; [| done]. repeat constructor. Qed.

(** Two devices overlap only if they are the second-level cache under its two names. *)
Definition overlap (v u : window) : bool := (BASEADDR v <=? HIGHADDR u) && (BASEADDR u <=? HIGHADDR v).
Lemma windows_apart : Forall (fun v => Forall (fun u => overlap v u = true -> device v = device u \/
  (BASEADDR v = 0xF8F02000 /\ BASEADDR u = 0xF8F02000)) bus_windows) bus_windows.
Proof.
  repeat first [apply List.Forall_nil | apply List.Forall_cons]; intros H; first [discriminate H | by left | by right].
Qed.

(** The mapping is the window of the multiplier, a whole number of pages; no address in it
    belongs to another device.  So the registers that the drivers access, at the offsets 0, 4
    and 8, are the multiplier's. *)
Lemma mapping_private off : 0 <= off < MEMSIZE -> taken (PHY_ADDR + off) = false.
Proof.
  intros Hoff. unfold MEMSIZE in Hoff. unfold taken. apply orb_false_intro.
  - apply not_true_is_false. intros H. apply existsb_exists in H as (v & Hv & H). unfold contains, PHY_ADDR in H.
    apply andb_prop in H as [H1%Z.leb_le H2%Z.leb_le].
    repeat (destruct Hv as [<- | Hv]; [cbn in H1, H2; lia |]). done.
  - apply not_true_is_false. intros H. apply existsb_exists in H as (d & Hd & H). apply existsb_exists in H as (i & Hi & H).
    unfold owns, PHY_ADDR in H. apply andb_prop in H as [H1%Z.leb_le H2].
    repeat (destruct Hd as [<- | Hd]; [repeat (destruct Hi as [<- | Hi]; [cbn in H1; lia |]); done |]). done.
Qed.

Lemma mapping_window : List.map (fun i => (low i, high i)) (peripheral MULTIPLY) = [(PHY_ADDR, Some (PHY_ADDR + MEMSIZE - 1))] /\
  PHY_ADDR mod 4096 = 0 /\ MEMSIZE mod 4096 = 0 /\ Forall (fun off => 0 <= off /\ off + 4 <= MEMSIZE) [0; 4; 8].
Proof. split; [done |]. split; [done |]. split; [done |]. unfold MEMSIZE. repeat constructor; lia. Qed.

(** ** [platform.c] *)

(** The symbols that are defined. *)
Record symbols := mk_symbols {
  PPC : bool; MICROBLAZE : bool; MICROBLAZE_USE_ICACHE : bool; MICROBLAZE_USE_DCACHE : bool; STDOUT_IS_16550 : bool; STDOUT_IS_PS7_UART : bool
}.
Inductive call :=
| ICacheEnableRegion | DCacheEnableRegion | ICacheEnable | DCacheEnable | DCacheDisable | ICacheDisable
| UartSetBaud (rate : Z) | UartSetLineControlReg.

Definition enable_caches (d : symbols) : list call :=
  if PPC d then [ICacheEnableRegion; DCacheEnableRegion]
  else if MICROBLAZE d then
    (if MICROBLAZE_USE_ICACHE d then [ICacheEnable] else []) ++ (if MICROBLAZE_USE_DCACHE d then [DCacheEnable] else [])
  else [].
Definition disable_caches : list call := [DCacheDisable; ICacheDisable].
Definition UART_BAUD : Z := 9600.
Definition init_uart (d : symbols) : list call :=
  if STDOUT_IS_16550 d then [UartSetBaud UART_BAUD; UartSetLineControlReg] else [].
Definition init_platform (d : symbols) : list call := enable_caches d ++ init_uart d.
Definition cleanup_platform : list call := disable_caches.

(** The symbols of this board: an ARM processor, and [platform_config.h]. *)
Definition board : symbols := mk_symbols false false false false false true.

(** [main] of lab 3 between the two: the calls before, the printed products, the calls after. *)
Definition lab3_program `{Peripheral} (d : symbols) (h : hw) : list call * list Z * list call :=
  (init_platform d, (lab3_main h).2, cleanup_platform).

(** On this board nothing is set up: the program prints the squares with whatever the boot
    loader left, and then turns off caches that it never turned on. *)
Lemma lab3_runs `{MultiplierLaws} h : lab3_program board h =
  ([], [0; 1; 4; 9; 16; 25; 36; 49; 64; 81; 100; 121; 144; 169; 196; 225; 256], [DCacheDisable; ICacheDisable]).
Proof. unfold lab3_program. by rewrite (proj1 (other_clients_multiply h)). Qed.
End Board.
