(* ===== verification/Sbcp.v ===== *)
(** * Messages of the chat protocol (assignment2)

    The struct that the chat client and server exchange, and its layout in memory:
    the programs pass the struct itself to [send] and [recv], so what travels is its
    1036 bytes. *)

From S2P Require Import Prelude CMem.
From stdpp Require Import base list.
From Stdlib Require Import ZArith Lia.
Open Scope Z_scope.

Module Sbcp.

(** ** Constants *)
Definition VERSION : Z := 3.
Definition JOIN : Z := 2.
Definition SEND : Z := 4.
Definition FWD : Z := 3.
Definition ACK : Z := 7.
Definition NAK : Z := 5.
Definition ONLINE : Z := 8.
Definition OFFLINE : Z := 6.
Definition IDLE : Z := 9.
Definition USERNAME : Z := 2.
Definition MESSAGE : Z := 4.
Definition REASON : Z := 1.
Definition CLIENT_COUNT : Z := 3.
Definition EMPTY : Z := 0.
Definition MAXCHAR : Z := 512.

(** ** The structs *)
Record SBCP_Attribute := mk_attr { AType : Z; ALength : Z; Payload : list Z }.
Record SBCP_Message := mk_msg {
  Vrsn : Z; MType : Z; MLength : Z; attr0 : SBCP_Attribute; attr1 : SBCP_Attribute
}.

(** ** Their bytes *)
Definition le16 (z : Z) : list Z := [u8 z; u8 (z / 256)].
Definition get8 (l : list Z) (off : nat) : Z := nth off l 0.
Definition get16 (l : list Z) (off : nat) : Z := s16 (get8 l off + 256 * get8 l (S off)).

Definition attr_bytes (a : SBCP_Attribute) : list Z := le16 (AType a) ++ le16 (ALength a) ++ Payload a.
Definition bytes_of (m : SBCP_Message) : list Z :=
  [Vrsn m; MType m] ++ le16 (MLength m) ++ attr_bytes (attr0 m) ++ attr_bytes (attr1 m).

Definition attr_at (l : list Z) (off : nat) : SBCP_Attribute :=
  mk_attr (get16 l off) (get16 l (off + 2)) (take 512 (drop (off + 4) l)).
Definition of_bytes (l : list Z) : SBCP_Message :=
  mk_msg (get8 l 0) (get8 l 1) (get16 l 2) (attr_at l 4) (attr_at l 520).

Definition SIZE : Z := 1036.

(** ** Well-formed structs: fields in the range of their types, arrays of their size *)
Record attr_wf (a : SBCP_Attribute) : Prop := {
  wf_type : -32768 <= AType a < 32768;
  wf_length : -32768 <= ALength a < 32768;
  wf_payload : length (Payload a) = 512%nat
}.
Record msg_wf (m : SBCP_Message) : Prop := {
  wf_vrsn : is_byte (Vrsn m);
  wf_mtype : is_byte (MType m);
  wf_mlength : -32768 <= MLength m < 32768;
  wf_attr0 : attr_wf (attr0 m);
  wf_attr1 : attr_wf (attr1 m)
}.

(** ** Round trip *)
Lemma s16_le16 z : -32768 <= z < 32768 -> s16 (u8 z + 256 * u8 (z / 256)) = z.
Proof.
  intros Hz. rewrite <- (s16_id z) at 3 by done. apply s16_mod. unfold u8, u16.
  change 65536 with (256 * 256). rewrite (Z.rem_mul_r z 256 256) by lia.
  apply Z.mod_small. pose proof (Z.mod_pos_bound z 256). pose proof (Z.mod_pos_bound (z / 256) 256). lia.
Qed.

Lemma get16_app pre z rest : -32768 <= z < 32768 -> get16 (pre ++ le16 z ++ rest) (length pre) = z.
Proof.
  intros Hz. unfold get16, get8. rewrite (app_nth2 pre (le16 z ++ rest) 0 (n := length pre)) by lia.
  rewrite (app_nth2 pre (le16 z ++ rest) 0 (n := S (length pre))) by lia.
  replace (length pre - length pre)%nat with 0%nat by lia.
  replace (S (length pre) - length pre)%nat with 1%nat by lia. by apply s16_le16.
Qed.

Lemma attr_at_bytes pre a rest : attr_wf a -> attr_at (pre ++ attr_bytes a ++ rest) (length pre) = a.
Proof.
  intros [Ht Hl Hp]. destruct a as [t l p]; simpl in *. unfold attr_at, attr_bytes; simpl AType; simpl ALength; simpl Payload.
  f_equal.
  - exact (get16_app pre t ((le16 l ++ p) ++ rest) Ht).
  - pose proof (get16_app (pre ++ le16 t) l (p ++ rest) Hl) as H.
    rewrite length_app, <- !app_assoc in H. exact H.
  - change (take 512 (drop (length pre + 4) (pre ++ (le16 t ++ le16 l) ++ p ++ rest)) = p).
    replace (length pre + 4)%nat with (length (pre ++ le16 t ++ le16 l)) by by rewrite length_app.
    rewrite (app_assoc pre (le16 t ++ le16 l) (p ++ rest)), drop_app_length. by rewrite take_app_length' by done.
Qed.

Lemma of_bytes_bytes_of m : msg_wf m -> of_bytes (bytes_of m) = m.
Proof.
  intros [_ _ Hl H0 H1]. destruct m as [v t l a0 a1]; simpl in *. unfold of_bytes, bytes_of; simpl Vrsn; simpl MType.
  simpl MLength; simpl attr0; simpl attr1. f_equal.
  - exact (get16_app [v; t] l (attr_bytes a0 ++ attr_bytes a1) Hl).
  - exact (attr_at_bytes ([v; t] ++ le16 l) a0 (attr_bytes a1) H0).
  - pose proof (attr_at_bytes ([v; t] ++ le16 l ++ attr_bytes a0) a1 [] H1) as H.
    destruct a0 as [t0 l0 p0], H0 as [_ _ Hp0]. simpl in Hp0.
    rewrite app_nil_r in H. simpl in H |- *. rewrite Hp0 in H. exact H.
Qed.

Lemma length_bytes_of m : msg_wf m -> length (bytes_of m) = 1036%nat.
Proof.
  intros [_ _ _ [_ _ H0] [_ _ H1]]. unfold bytes_of, attr_bytes. rewrite !length_app, H0, H1. done.
Qed.

(** Whatever 1036 bytes lie in a struct that was not initialised, it is a struct. *)
Lemma get16_range l off : -32768 <= get16 l off < 32768.
Proof. apply s16_range. Qed.

Lemma of_bytes_wf l : Forall is_byte l -> length l = 1036%nat -> msg_wf (of_bytes l).
Proof.
  intros Hb Hl.
  assert (H8 : forall off, is_byte (get8 l off)).
  { intros off. unfold get8. destruct (nth_in_or_default off l 0) as [H | ->]; [| unfold is_byte; lia].
    apply (proj1 (List.Forall_forall _ _) Hb _ H). }
  split; simpl; auto using get16_range.
  - split; simpl; auto using get16_range. rewrite length_take, length_drop. lia.
  - split; simpl; auto using get16_range. rewrite length_take, length_drop. lia.
Qed.
End Sbcp.
