(* ===== verification/ChatClient.v ===== *)
(** * [assignment2/client.c]: the chat client

    The three functions that send a message, the dispatch on received messages, and
    the main loop with its idle timer.  A round of the loop takes what the
    environment answers in it: the clock, [select], the line that [fgets] reads, the
    bytes that [recv] delivers, whether [send] succeeds, and the old contents of the
    struct that each sending function leaves partly unset. *)

From S2P Require Import Prelude CMem Sbcp.
From stdpp Require Import base list.
From Stdlib Require Import ZArith Lia.
From Stdlib Require String.
Import String.StringSyntax.
Open Scope Z_scope.

Module ChatClient.
Import Sbcp.

Definition IDLE_INTERVAL : Z := 10.

(** ** State: the variables of [main] that outlive a round, the bytes sent (one entry
    per [send]) and the text printed (one entry per [printf]) *)
Record client := mk_client {
  flag : Z;
  last_send : Z;
  packet : SBCP_Message;
  input : list Z;
  fd_stdin : bool;      (* the two members of [readfd] *)
  fd_sock : bool;
  sent : list (list Z);
  out : list (list Z)
}.
Abbreviation D := (M client).

Definition get : D client := fun c => Done c c.
Definition set_flag (z : Z) : D unit := fun c =>
  Done tt (mk_client z (last_send c) (packet c) (input c) (fd_stdin c) (fd_sock c) (sent c) (out c)).
Definition set_last_send (z : Z) : D unit := fun c =>
  Done tt (mk_client (flag c) z (packet c) (input c) (fd_stdin c) (fd_sock c) (sent c) (out c)).
Definition set_packet (m : SBCP_Message) : D unit := fun c =>
  Done tt (mk_client (flag c) (last_send c) m (input c) (fd_stdin c) (fd_sock c) (sent c) (out c)).
Definition set_input (l : list Z) : D unit := fun c =>
  Done tt (mk_client (flag c) (last_send c) (packet c) l (fd_stdin c) (fd_sock c) (sent c) (out c)).
Definition set_readfd (a b : bool) : D unit := fun c =>
  Done tt (mk_client (flag c) (last_send c) (packet c) (input c) a b (sent c) (out c)).
Definition put_sent (l : list Z) : D unit := fun c =>
  Done tt (mk_client (flag c) (last_send c) (packet c) (input c) (fd_stdin c) (fd_sock c) (sent c ++ [l]) (out c)).
Definition print (l : list Z) : D unit := fun c =>
  Done tt (mk_client (flag c) (last_send c) (packet c) (input c) (fd_stdin c) (fd_sock c) (sent c) (out c ++ [l])).

(** The string at the start of a char array. *)
Definition read_string (l : list Z) : D (list Z) :=
  match cstr l with Some t => ret t | None => undef OutOfBounds end.

(** [strcpy] into a payload of 512 bytes. *)
Definition strcpy (payload text : list Z) : D (list Z) :=
  if zlen text <? MAXCHAR then ret (splice payload 0 (text ++ [0])) else undef OutOfBounds.

(** [send] of a whole struct: its size, or -1. *)
Definition send (ok : bool) (m : SBCP_Message) : D Z :=
  if ok then put_sent (bytes_of m) ;;; ret SIZE else ret (-1).

(** ** Sending.  [msg] is the local struct before the function fills it; its lengths
    are read before they are set. *)
Definition msg_length (msg : SBCP_Message) : Z := s16 (2 * 1 + 2 + ALength (attr0 msg) + ALength (attr1 msg)).
Definition empty_attr (a : SBCP_Attribute) : SBCP_Attribute := mk_attr EMPTY 0 (splice (Payload a) 0 [0]).

Definition JOIN_CHAT (msg : SBCP_Message) (ok : bool) (username : list Z) : D Z :=
  let* payload := strcpy (Payload (attr0 msg)) username in
  send ok (mk_msg VERSION JOIN (msg_length msg)
    (mk_attr USERNAME (s16 (2 * 2 + zlen username)) payload) (empty_attr (attr1 msg))).

Definition SEND_MSG (msg : SBCP_Message) (ok : bool) (message : list Z) : D Z :=
  let* payload := strcpy (Payload (attr0 msg)) message in
  send ok (mk_msg VERSION SEND (msg_length msg)
    (mk_attr MESSAGE (s16 (2 * 2 + zlen message)) payload) (empty_attr (attr1 msg))).

Definition IDLE_CLIENT (msg : SBCP_Message) (ok : bool) : D Z :=
  send ok (mk_msg VERSION IDLE (msg_length msg) (empty_attr (attr0 msg)) (empty_attr (attr1 msg))).

(** ** One round of the loop *)

(** [select]: which of the two descriptors are ready (none after a timeout), or an
    error, which leaves the set as it was. *)
Inductive select_ans := Ready (stdin sock : bool) | SelectErr.
(** [fgets]: nothing, or the characters read and whether the end of the input was
    met behind them. *)
Inductive fgets_ans := FgetsNull | Fgets (s : list Z) (eof : bool).
(** [recv]: an error or the end of the stream, or some bytes. *)
Inductive recv_ans := RecvEnd | Recv (bytes : list Z).

Record round_in := mk_round {
  now : Z;                     (* [time(&now)] *)
  idle_msg : SBCP_Message;     (* old contents of the struct in [IDLE_CLIENT] *)
  idle_ok : bool;              (* its [send] *)
  ready : select_ans;
  stdin : fgets_ans;
  send_msg : SBCP_Message;     (* old contents of the struct in [SEND_MSG] *)
  send_ok : bool;              (* its [send] *)
  later : Z;                   (* [time(&last_send)] *)
  arrival : recv_ans
}.

Definition check_idle (r : round_in) : D unit :=
  let* c := get in
  if flag c =? 1 then
    if IDLE_INTERVAL <=? now r - last_send c then
      let* res := IDLE_CLIENT (idle_msg r) (idle_ok r) in
      (if res <=? -1 then print (lit "Error sending IDLE Packet" ++ [10]) else ret tt) ;;;
      set_flag 0
    else ret tt
  else ret tt.

(** [fgets(input, 511, stdin)] and what follows. *)
Definition on_stdin (r : round_in) : D ctl :=
  match stdin r with
  | FgetsNull => ret Cont
  | Fgets s eof =>
      let* c := get in
      set_input (splice (input c) 0 (take 510 s ++ [0])) ;;;
      if eof then ret Brk
      else
        let* c := get in
        let* message := read_string (input c) in
        let* res := SEND_MSG (send_msg r) (send_ok r) message in
        (if res <=? -1 then print (lit "Send Error" ++ [10]) else ret tt) ;;;
        set_last_send (later r) ;;;
        set_flag 1 ;;;
        ret Cont
  end.

Definition dispatch : D ctl :=
  let* c := get in
  let m := packet c in
  if Vrsn m =? VERSION then
    if (MType m =? FWD) && (AType (attr0 m) =? USERNAME) && (AType (attr1 m) =? MESSAGE) then
      let* text := read_string (Payload (attr1 m)) in
      (if bool_decide (text = lit "N/A") then ret tt
       else
         let* name := read_string (Payload (attr0 m)) in
         print (name ++ lit ": " ++ text ++ [10])) ;;;
      ret Cont
    else if (MType m =? ACK) && (AType (attr0 m) =? CLIENT_COUNT) && (AType (attr1 m) =? USERNAME) then
      let* names := read_string (Payload (attr1 m)) in
      (if bool_decide (names = lit "N/A") then ret tt
       else
         let* count := read_string (Payload (attr0 m)) in
         print (lit "Client has joined the chatroom. There are " ++ count ++
                lit " members in the chatroom - " ++ names)) ;;;
      ret Cont
    else if (MType m =? NAK) && (AType (attr0 m) =? REASON) then
      let* reason := read_string (Payload (attr0 m)) in
      print (reason ++ [10]) ;;;
      ret Brk
    else if (MType m =? ONLINE) && (AType (attr0 m) =? USERNAME) then
      let* name := read_string (Payload (attr0 m)) in
      print (lit "***" ++ name ++ lit " has joined the chatroom.***" ++ [10]) ;;;
      ret Cont
    else if (MType m =? OFFLINE) && (AType (attr0 m) =? USERNAME) then
      let* name := read_string (Payload (attr0 m)) in
      print (lit "***" ++ name ++ lit " has left the chatroom.***" ++ [10]) ;;;
      ret Cont
    else if (MType m =? IDLE) && (AType (attr0 m) =? USERNAME) then
      let* name := read_string (Payload (attr0 m)) in
      print (name ++ lit " is idle.") ;;;
      ret Cont
    else ret Cont
  else ret Cont.

Definition on_socket (r : round_in) : D ctl :=
  match arrival r with
  | RecvEnd => print (lit "Connection closed by the server " ++ [10]) ;;; ret Brk
  | Recv bytes =>
      let got := take 1036 bytes in
      let* c := get in
      set_packet (of_bytes (splice (bytes_of (packet c)) 0 got)) ;;;
      let* c := get in
      if MLength (packet c) <=? zlen got then dispatch else ret Cont
  end.

Definition round (r : round_in) : D ctl :=
  check_idle r ;;;
  let* c := get in
  (match ready r with
   | Ready a b => set_readfd (fd_stdin c && a) (fd_sock c && b)
   | SelectErr => ret tt
   end) ;;;
  let* c := get in
  let* k := (if fd_stdin c then on_stdin r else if fd_sock c then on_socket r else ret Cont) in
  match k with
  | Brk => ret Brk
  | Cont => set_readfd true true ;;; ret Cont
  end.

(** The loop over the rounds given: [true] once the client has ended. *)
Fixpoint session (rs : list round_in) : D bool :=
  match rs with
  | [] => ret false
  | r :: rs' =>
      let* k := round r in
      match k with
      | Brk => print (lit "Closing client socket") ;;; ret true
      | Cont => session rs'
      end
  end.

(** [main] from the point where the connection stands. *)
Definition main (username : list Z) (msg : SBCP_Message) (ok : bool) (t0 : Z) (rs : list round_in) : D bool :=
  set_readfd true false ;;;
  let* res := JOIN_CHAT msg ok username in
  if res <=? -1 then
    print (lit "Client could not send a request to join the chatroom." ++ [10]) ;;; exit (-1)
  else
    print (lit "Client sends a request to join the chatroom." ++ [10]) ;;;
    let* c := get in
    set_readfd (fd_stdin c) true ;;;
    set_last_send t0 ;;;
    set_flag 1 ;;;
    session rs.

(** ** Specification: a client over protocol messages *)

(** What a client tells the server. *)
Inductive frame := FJoin (name : list Z) | FText (text : list Z) | FIdle.

(** What a receiver of the 1036 bytes takes them for. *)
Definition frame_of (m : SBCP_Message) : option frame :=
  if negb (Vrsn m =? VERSION) then None
  else if (MType m =? JOIN) && (AType (attr0 m) =? USERNAME) then FJoin <$> cstr (Payload (attr0 m))
  else if (MType m =? SEND) && (AType (attr0 m) =? MESSAGE) then FText <$> cstr (Payload (attr0 m))
  else if MType m =? IDLE then Some FIdle
  else None.

(** The frames told so far, the text shown, and since when the user has been quiet
    ([None]: the server was told already). *)
Record view := mk_view { quiet : option Z; told : list frame; shown : list (list Z) }.

Definition text_of (a : SBCP_Attribute) : list Z := default [] (cstr (Payload a)).

(** The reaction to a message of the server: the text shown, and whether to leave. *)
Definition display (m : SBCP_Message) : list (list Z) * bool :=
  let t0 := text_of (attr0 m) in
  let t1 := text_of (attr1 m) in
  if negb (Vrsn m =? VERSION) then ([], false)
  else if (MType m =? FWD) && (AType (attr0 m) =? USERNAME) && (AType (attr1 m) =? MESSAGE) then
    (if bool_decide (t1 = lit "N/A") then [] else [t0 ++ lit ": " ++ t1 ++ [10]], false)
  else if (MType m =? ACK) && (AType (attr0 m) =? CLIENT_COUNT) && (AType (attr1 m) =? USERNAME) then
    (if bool_decide (t1 = lit "N/A") then []
     else [lit "Client has joined the chatroom. There are " ++ t0 ++ lit " members in the chatroom - " ++ t1], false)
  else if (MType m =? NAK) && (AType (attr0 m) =? REASON) then ([t0 ++ [10]], true)
  else if (MType m =? ONLINE) && (AType (attr0 m) =? USERNAME) then
    ([lit "***" ++ t0 ++ lit " has joined the chatroom.***" ++ [10]], false)
  else if (MType m =? OFFLINE) && (AType (attr0 m) =? USERNAME) then
    ([lit "***" ++ t0 ++ lit " has left the chatroom.***" ++ [10]], false)
  else if (MType m =? IDLE) && (AType (attr0 m) =? USERNAME) then ([t0 ++ lit " is idle."], false)
  else ([], false).

(** The text of a typed line: what [fgets] has room for, up to a NUL. *)
Definition line_text (s : list Z) : list Z := default [] (cstr (take 510 s ++ [0])).

Definition spec_idle (r : round_in) (v : view) : view :=
  match quiet v with
  | Some t =>
      if IDLE_INTERVAL <=? now r - t then
        mk_view None (told v ++ (if idle_ok r then [FIdle] else []))
          (shown v ++ (if idle_ok r then [] else [lit "Error sending IDLE Packet" ++ [10]]))
      else v
  | None => v
  end.

Definition spec_event (r : round_in) (v : view) : view * bool :=
  match ready r with
  | Ready true _ | SelectErr =>
      match stdin r with
      | FgetsNull => (v, false)
      | Fgets _ true => (v, true)
      | Fgets s false =>
          (mk_view (Some (later r)) (told v ++ (if send_ok r then [FText (line_text s)] else []))
             (shown v ++ (if send_ok r then [] else [lit "Send Error" ++ [10]])), false)
      end
  | Ready false true =>
      match arrival r with
      | RecvEnd => (mk_view (quiet v) (told v) (shown v ++ [lit "Connection closed by the server " ++ [10]]), true)
      | Recv bytes =>
          let m := of_bytes bytes in
          if MLength m <=? SIZE then
            (mk_view (quiet v) (told v) (shown v ++ (display m).1), (display m).2)
          else (v, false)
      end
  | Ready false false => (v, false)
  end.

Fixpoint spec_session (rs : list round_in) (v : view) : view * bool :=
  match rs with
  | [] => (v, false)
  | r :: rs' =>
      let '(v', stop) := spec_event r (spec_idle r v) in
      if stop then (mk_view (quiet v') (told v') (shown v' ++ [lit "Closing client socket"]), true)
      else spec_session rs' v'
  end.

(** ** Refinement *)

(** A round whose received bytes, if any, are one whole message with terminated
    strings; the structs of the sending functions hold anything. *)
Definition terminated (m : SBCP_Message) : Prop :=
  is_Some (cstr (Payload (attr0 m))) /\ is_Some (cstr (Payload (attr1 m))).
Record round_ok (r : round_in) : Prop := {
  ok_idle : msg_wf (idle_msg r);
  ok_send : msg_wf (send_msg r);
  ok_recv : match arrival r with
            | RecvEnd => True
            | Recv bytes => exists m, bytes = bytes_of m /\ msg_wf m /\ terminated m
            end
}.

(** The client's state stands for a view. *)
Record stands (c : client) (v : view) : Prop := {
  st_quiet : quiet v = if flag c =? 1 then Some (last_send c) else None;
  st_told : frame_of ∘ of_bytes <$> sent c = Some <$> told v;
  st_shown : out c = shown v;
  st_packet : msg_wf (packet c);
  st_input : length (input c) = 512%nat
}.

Lemma empty_attr_wf a : attr_wf a -> attr_wf (empty_attr a).
Proof. intros [_ _ Hp]. split; [done | done |]. unfold empty_attr; cbn [Payload]. rewrite length_splice_0; simpl; lia. Qed.

Lemma text_attr_wf ty len p text :
  -32768 <= ty < 32768 -> length p = 512%nat -> zlen text < 512 ->
  attr_wf (mk_attr ty (s16 len) (splice p 0 (text ++ [0]))).
Proof.
  intros Ht Hp Hl. split; cbn [AType ALength Payload]; [done | apply s16_range |].
  rewrite length_splice_0; [done |]. rewrite length_app. unfold zlen in Hl. simpl. lia.
Qed.

Lemma line_text_spec s : cstr (take 510 s ++ [0]) = Some (line_text s) /\ nonzero (line_text s) /\ zlen (line_text s) < 512.
Proof.
  destruct (cstr_terminated (take 510 s) []) as [t Ht]. unfold line_text. rewrite Ht. simpl.
  destruct (cstr_nonzero _ _ Ht) as [Hn Hl]. split; [done |]. split; [done |].
  unfold zlen in *. rewrite length_app, length_take in Hl. cbn [length] in Hl. lia.
Qed.

Lemma cstr_line i s : cstr (splice i 0 (take 510 s ++ [0])) = Some (line_text s).
Proof.
  rewrite splice_0. destruct (line_text_spec s) as [(r & -> & Ht)%cstr_Some _].
  rewrite <- app_assoc. by apply cstr_app.
Qed.

(** *** The structs the client sends *)
Lemma join_frame msg username : msg_wf msg -> nonzero username -> zlen username < 512 ->
  exists m, (forall ok c, JOIN_CHAT msg ok username c = send ok m c) /\ frame_of (of_bytes (bytes_of m)) = Some (FJoin username).
Proof.
  intros [_ _ _ H0 H1] Hn Hl. eexists. split.
  - intros ok c. unfold JOIN_CHAT, strcpy, bind, MAXCHAR. rewrite (proj2 (Z.ltb_lt _ _)) by done. reflexivity.
  - rewrite of_bytes_bytes_of; [unfold frame_of; simpl; by rewrite cstr_splice_0 |].
    split; simpl; [done | done | apply s16_range | |].
    + apply text_attr_wf; [done | apply H0 | done].
    + by apply empty_attr_wf.
Qed.

Lemma text_frame msg text : msg_wf msg -> nonzero text -> zlen text < 512 ->
  exists m, (forall ok c, SEND_MSG msg ok text c = send ok m c) /\ msg_wf m /\ frame_of m = Some (FText text).
Proof.
  intros [_ _ _ H0 H1] Hn Hl. eexists. split; [| split].
  - intros ok c. unfold SEND_MSG, strcpy, bind, MAXCHAR. rewrite (proj2 (Z.ltb_lt _ _)) by done. reflexivity.
  - split; simpl; [done | done | apply s16_range | |].
    + apply text_attr_wf; [done | apply H0 | done].
    + by apply empty_attr_wf.
  - unfold frame_of; simpl; by rewrite cstr_splice_0.
Qed.

Lemma idle_frame msg : msg_wf msg ->
  exists m, (forall ok c, IDLE_CLIENT msg ok c = send ok m c) /\ frame_of (of_bytes (bytes_of m)) = Some FIdle.
Proof.
  intros [_ _ _ H0 H1]. eexists. split; [reflexivity |].
  rewrite of_bytes_bytes_of; [done |]. split; simpl; [done | done | apply s16_range | |]; by apply empty_attr_wf.
Qed.

Lemma told_app (sent' : list (list Z)) told' bytes f :
  frame_of ∘ of_bytes <$> sent' = Some <$> told' -> frame_of (of_bytes bytes) = Some f ->
  frame_of ∘ of_bytes <$> (sent' ++ [bytes]) = Some <$> (told' ++ [f]).
Proof. intros H Hf. rewrite !fmap_app, H. simpl. by rewrite Hf. Qed.

(** *** The parts of a round *)
Lemma check_idle_spec r c v : stands c v -> round_ok r ->
  exists c', check_idle r c = Done tt c' /\ stands c' (spec_idle r v) /\
    fd_stdin c' = fd_stdin c /\ fd_sock c' = fd_sock c.
Proof.
  intros Hst [Hok _ _]. pose proof Hst as [Hq Ht Hs Hp Hi]. unfold check_idle, spec_idle, bind, get. rewrite Hq.
  destruct (flag c =? 1) eqn:Ef; [| by exists c].
  destruct (IDLE_INTERVAL <=? now r - last_send c); [| by exists c].
  destruct (idle_frame _ Hok) as (m & Hm & Hfr). rewrite Hm.
  destruct (idle_ok r); eexists; (split; [reflexivity |]); (split; [| done]); split; simpl; rewrite ?app_nil_r, ?Hs; try done.
  by apply told_app.
Qed.

Lemma on_stdin_spec r c v : stands c v -> round_ok r -> (forall b, ready r <> Ready false b) ->
  exists c' k, on_stdin r c = Done k c' /\ stands c' (spec_event r v).1 /\
    (spec_event r v).2 = match k with Brk => true | Cont => false end.
Proof.
  intros Hst [_ Hok _] Hr. pose proof Hst as [Hq Ht Hs Hp Hi]. unfold on_stdin.
  replace (spec_event r v) with
    (match stdin r with
     | FgetsNull => (v, false)
     | Fgets _ true => (v, true)
     | Fgets s false =>
          (mk_view (Some (later r)) (told v ++ (if send_ok r then [FText (line_text s)] else []))
             (shown v ++ (if send_ok r then [] else [lit "Send Error" ++ [10]])), false)
     end).
  2: { unfold spec_event. destruct (ready r) as [[] b |] eqn:E; [done | by destruct (Hr b) | done]. }
  destruct (stdin r) as [| s eof]; [by exists c, Cont |].
  assert (Hin : length (splice (input c) 0 (take 510 s ++ [0])) = 512%nat).
  { rewrite length_splice_0; [done |]. rewrite length_app, length_take. cbn [length]. lia. }
  destruct eof; [eexists _, Brk; split; [reflexivity |]; by split |].
  destruct (line_text_spec s) as (Hc & Hn & Hl).
  destruct (text_frame _ _ Hok Hn Hl) as (m & Hm & Hwf & Hfr). rewrite <- (of_bytes_bytes_of m Hwf) in Hfr.
  unfold bind at 1, get, set_input, read_string, bind. cbn [input]. rewrite cstr_line.
  unfold ret at 1. rewrite Hm.
  destruct (send_ok r); eexists _, Cont; (split; [reflexivity |]); (split; [| done]);
    split; cbn [fst flag quiet told shown last_send sent out]; rewrite ?app_nil_r, ?Hs; try done.
  by apply told_app.
Qed.

Lemma read_string_text a c : is_Some (cstr (Payload a)) -> read_string (Payload a) c = Done (text_of a) c.
Proof. intros [t Ht]. unfold read_string, text_of. by rewrite Ht. Qed.

Lemma dispatch_spec c : terminated (packet c) ->
  dispatch c = Done (if (display (packet c)).2 then Brk else Cont)
    (mk_client (flag c) (last_send c) (packet c) (input c) (fd_stdin c) (fd_sock c) (sent c)
       (out c ++ (display (packet c)).1)).
Proof.
  intros [H0 H1]. pose proof (read_string_text (attr0 (packet c))) as R0.
  pose proof (read_string_text (attr1 (packet c))) as R1. unfold dispatch, display, bind, get.
  destruct c as [f ls m i fi fs se ou]; cbn [packet flag last_send input fd_stdin fd_sock sent out] in *.
  repeat match goal with
  | |- context [if negb ?b then _ else _] => destruct b; cbn [negb]
  | |- context [if ?b && ?b' then _ else _] => destruct (b && b')
  end; rewrite ?R0, ?R1 by done; try case_bool_decide; rewrite ?R0 by done; cbn [fst snd]; rewrite ?app_nil_r; reflexivity.
Qed.

Lemma whole_message (m m' : SBCP_Message) : msg_wf m -> msg_wf m' ->
  take 1036 (bytes_of m') = bytes_of m' /\ splice (bytes_of m) 0 (bytes_of m') = bytes_of m'.
Proof.
  intros Hm Hm'. pose proof (length_bytes_of _ Hm) as Hl. pose proof (length_bytes_of _ Hm') as Hl'.
  split; [apply take_ge; lia |]. by rewrite splice_0, drop_ge, app_nil_r by lia.
Qed.

Lemma on_socket_spec r c v : stands c v -> round_ok r -> ready r = Ready false true ->
  exists c' k, on_socket r c = Done k c' /\ stands c' (spec_event r v).1 /\
    (spec_event r v).2 = match k with Brk => true | Cont => false end.
Proof.
  intros Hst [_ _ Hok] Hr. pose proof Hst as [Hq Ht Hs Hp Hi]. unfold on_socket, spec_event. rewrite Hr.
  destruct (arrival r) as [| bytes].
  - eexists _, Brk. split; [reflexivity |]. split; [| done]. split; simpl; try done. by rewrite Hs.
  - destruct Hok as (m & -> & Hm & Hterm). destruct (whole_message _ _ Hp Hm) as [-> Hsp].
    unfold bind, get, set_packet. cbn [packet]. rewrite Hsp, of_bytes_bytes_of by done.
    replace (zlen (bytes_of m)) with SIZE by (unfold zlen; by rewrite length_bytes_of).
    destruct (MLength m <=? SIZE); [| eexists _, Cont; split; [reflexivity |]; by split].
    rewrite dispatch_spec by done.
    eexists _, (if (display m).2 then Brk else Cont). split; [reflexivity |].
    split; [| by destruct (display m).2].
    split; cbn [fst flag quiet told shown last_send sent out packet]; try done. by rewrite Hs.
Qed.

Lemma stands_readfd c v a b : stands c v ->
  stands (mk_client (flag c) (last_send c) (packet c) (input c) a b (sent c) (out c)) v.
Proof. intros []. by split. Qed.

(** A round that starts with both descriptors in the set; if it does not end the
    client, so does the next. *)
Lemma client_round_spec r c v : stands c v -> fd_stdin c = true -> fd_sock c = true -> round_ok r ->
  exists c' k, round r c = Done k c' /\ stands c' (spec_event r (spec_idle r v)).1 /\
    (spec_event r (spec_idle r v)).2 = match k with Brk => true | Cont => false end /\
    (k = Cont -> fd_stdin c' = true /\ fd_sock c' = true).
Proof.
  intros Hst Hi Hs Hok. destruct (check_idle_spec r c v Hst Hok) as (c1 & H1 & Hst1 & Hi1 & Hs1).
  rewrite Hi in Hi1. rewrite Hs in Hs1. set (v1 := spec_idle r v) in *.
  assert (exists a b c2, stands c2 v1 /\ fd_stdin c2 = a /\ fd_sock c2 = b /\
    match ready r with Ready a' b' => a' = a /\ b' = b | SelectErr => a = true end /\
    round r c = (let* k := (if a then on_stdin r else if b then on_socket r else ret Cont) in
      match k with Brk => ret Brk | Cont => set_readfd true true ;;; ret Cont end) c2)
    as (a & b & c2 & Hst2 & Hi2 & Hs2 & Hab & Hround).
  { unfold round. unfold bind at 1. rewrite H1. unfold bind at 1 2 3, get. destruct (ready r) as [a b |].
    - exists a, b. eexists. split; [by apply stands_readfd |]. by rewrite Hi1, Hs1.
    - exists true, true, c1. unfold ret at 1. by rewrite Hi1, Hs1. }
  rewrite Hround. clear Hround. unfold bind at 1.
  assert (Hev : exists c3 k, (if a then on_stdin r else if b then on_socket r else ret Cont) c2 = Done k c3 /\
    stands c3 (spec_event r v1).1 /\ (spec_event r v1).2 = match k with Brk => true | Cont => false end).
  { destruct a; [| destruct b].
    - apply on_stdin_spec; [done | done |]. intros b' Hb. rewrite Hb in Hab. by destruct Hab.
    - apply on_socket_spec; [done | done |]. destruct (ready r); [by destruct Hab as [-> ->] | done].
    - exists c2, Cont. unfold spec_event. destruct (ready r); [by destruct Hab as [-> ->] | done]. }
  destruct Hev as (c3 & k & -> & Hst3 & Hstop). destruct k.
  - eexists _, Cont. split; [reflexivity |]. split; [by apply stands_readfd |]. done.
  - by exists c3, Brk.
Qed.

Lemma session_spec rs : forall c v, stands c v -> fd_stdin c = true -> fd_sock c = true -> Forall round_ok rs ->
  exists c', session rs c = Done (spec_session rs v).2 c' /\ stands c' (spec_session rs v).1.
Proof.
  induction rs as [| r rs IH]; intros c v Hst Hi Hs Hok; [by exists c |].
  inversion Hok as [| ? ? Hr Hrest]; subst.
  destruct (client_round_spec r c v Hst Hi Hs Hr) as (c1 & k & H1 & Hst1 & Hstop & Hnext).
  cbn [session spec_session]. unfold bind at 1. rewrite H1.
  destruct (spec_event r (spec_idle r v)) as [v1 stop]. simpl in Hst1, Hstop. subst stop.
  destruct k.
  - destruct Hnext as [Hi1 Hs1]; [done |]. by apply IH.
  - eexists. split; [reflexivity |]. destruct Hst1 as [Hq Ht Ho Hp Hin]. split; simpl; try done. by rewrite Ho.
Qed.

(** The view of a client that has joined. *)
Definition joined (username : list Z) (t0 : Z) : view :=
  mk_view (Some t0) [FJoin username] [lit "Client sends a request to join the chatroom." ++ [10]].

(** A client before it joins: nothing sent or printed, its buffers hold anything. *)
Record fresh (c : client) : Prop := {
  fresh_sent : sent c = [];
  fresh_out : out c = [];
  fresh_packet : msg_wf (packet c);
  fresh_input : length (input c) = 512%nat
}.

Lemma main_joined username msg t0 rs c :
  fresh c -> msg_wf msg -> nonzero username -> zlen username < 512 ->
  exists c', main username msg true t0 rs c = session rs c' /\ stands c' (joined username t0) /\
    fd_stdin c' = true /\ fd_sock c' = true.
Proof.
  intros [Hs Ho Hp Hi] Hm Hn Hl. destruct (join_frame msg username Hm Hn Hl) as (m & Hj & Hf).
  unfold main. unfold bind at 1. unfold set_readfd at 1. unfold bind at 1. rewrite Hj.
  eexists. split; [reflexivity |]. split; [| done].
  split; cbn [fst flag quiet told shown last_send sent out packet input joined]; try done.
  - rewrite Hs. simpl. by rewrite Hf.
  - by rewrite Ho.
Qed.

(** *** Runs without typed lines *)
Definition told_idle (t0 : Z) (rs : list round_in) : list frame :=
  if existsb (fun r => IDLE_INTERVAL <=? now r - t0) rs then [FIdle] else [].

(** A round in which the keyboard is silent. *)
Definition silent (r : round_in) : Prop := exists b, ready r = Ready false b /\ idle_ok r = true.

Lemma silent_event r v : silent r -> quiet (spec_event r v).1 = quiet v /\ told (spec_event r v).1 = told v.
Proof.
  intros (b & Hr & _). unfold spec_event. rewrite Hr. destruct b; [| done].
  destruct (arrival r); [done |]. by destruct (_ <=? _).
Qed.

Lemma silent_told rs : forall v, Forall silent rs -> (spec_session rs v).2 = false ->
  told (spec_session rs v).1 = told v ++ match quiet v with Some t => told_idle t rs | None => [] end.
Proof.
  induction rs as [| r rs IH]; intros v Hrs Hgo; cbn [spec_session fst told].
  - destruct (quiet v); by rewrite app_nil_r.
  - inversion Hrs as [| ? ? Hr Hrest]; subst. cbn [spec_session] in Hgo.
    pose proof (silent_event r (spec_idle r v) Hr) as [Hq Ht].
    destruct (spec_event r (spec_idle r v)) as [v1 []]; [done |]. simpl in Hq, Ht.
    rewrite IH, Hq, Ht by done. destruct Hr as (b & _ & Hok). unfold spec_idle, told_idle.
    destruct (quiet v) as [t |] eqn:Eq; [| by rewrite Eq]. cbn [existsb].
    destruct (IDLE_INTERVAL <=? now r - t); [| by rewrite Eq].
    cbn [told quiet]. by rewrite Hok, app_nil_r.
Qed.

(** A round in which the keyboard's end of file makes [fgets] return nothing. *)
Definition at_eof (r : round_in) : Prop :=
  (exists b, ready r = Ready true b) /\ stdin r = FgetsNull /\ idle_ok r = true.

Lemma eof_session rs : forall v, Forall at_eof rs ->
  (spec_session rs v).2 = false /\ shown (spec_session rs v).1 = shown v.
Proof.
  induction rs as [| r rs IH]; intros v Hrs; [done |]. inversion Hrs as [| ? ? ((b & Hr) & Hs & Ho) Hrest]; subst.
  cbn [spec_session]. unfold spec_event. rewrite Hr, Hs.
  assert (Hv : shown (spec_idle r v) = shown v).
  { unfold spec_idle. rewrite Ho. destruct (quiet v); [| done]. destruct (_ <=? _); [| done]. apply app_nil_r. }
  rewrite <- Hv. by apply IH.
Qed.

(** ** Properties *)

(** C20: for a name of fewer than 512 characters, a join that is sent, and every sequence of
    rounds (lines typed, messages received, timeouts, failing sends, any clock) in which
    what is received are whole messages of 1036 bytes with terminated texts: the client
    tells the server exactly what the specification says (the join, each typed line, one
    idle notice per quiet period, due when exactly ten seconds or more have passed), in this
    order and in well-formed messages whatever the stack held, shows exactly the specified
    text, ends when the specification ends, and never leaves its arrays. *)
Theorem client_refines_spec username msg t0 rs c :
  fresh c -> msg_wf msg -> nonzero username -> zlen username < 512 -> Forall round_ok rs ->
  let '(v, stop) := spec_session rs (joined username t0) in
  exists c', main username msg true t0 rs c = Done stop c' /\
    frame_of ∘ of_bytes <$> sent c' = Some <$> told v /\ out c' = shown v.
Proof.
  intros Hc Hm Hn Hl Hrs. destruct (main_joined username msg t0 rs c Hc Hm Hn Hl) as (c1 & -> & Hst & Hi & Hs).
  destruct (session_spec rs c1 _ Hst Hi Hs Hrs) as (c2 & H2 & [_ Ht Ho _ _]).
  destruct (spec_session rs (joined username t0)) as [v stop]. by exists c2.
Qed.

(** A client whose user types nothing tells the server that it is idle exactly
    once, in the first round at least ten seconds after it joined, however many rounds
    follow and whatever it receives.*)
Lemma quiet_client_idles_once username msg t0 rs c :
  fresh c -> msg_wf msg -> nonzero username -> zlen username < 512 -> Forall round_ok rs -> Forall silent rs ->
  exists c' stop, main username msg true t0 rs c = Done stop c' /\
    (stop = false -> frame_of ∘ of_bytes <$> sent c' = Some <$> FJoin username :: told_idle t0 rs).
Proof.
  intros Hc Hm Hn Hl Hrs Hsil. destruct (main_joined username msg t0 rs c Hc Hm Hn Hl) as (c1 & -> & Hst & Hi & Hs).
  destruct (session_spec rs c1 _ Hst Hi Hs Hrs) as (c2 & H2 & [_ Ht _ _ _]).
  eexists c2, _. split; [exact H2 |]. intros Hstop. by rewrite Ht, silent_told.
Qed.

(** Once the user's input is at its end, [fgets] returns nothing and the client
    goes round its loop for ever: it does not end, and it shows nothing of what the
    server sends.*)
Lemma end_of_input_starves_socket username msg t0 rs c :
  fresh c -> msg_wf msg -> nonzero username -> zlen username < 512 -> Forall round_ok rs -> Forall at_eof rs ->
  exists c', main username msg true t0 rs c = Done false c' /\ out c' = shown (joined username t0).
Proof.
  intros Hc Hm Hn Hl Hrs Heof. destruct (main_joined username msg t0 rs c Hc Hm Hn Hl) as (c1 & -> & Hst & Hi & Hs).
  destruct (session_spec rs c1 _ Hst Hi Hs Hrs) as (c2 & H2 & [_ _ Ho _ _]).
  destruct (eof_session rs (joined username t0) Heof) as [Hgo Hsh]. exists c2. by rewrite H2, Hgo, Ho, Hsh.
Qed.

(** *** Witnesses *)
Definition junk : SBCP_Message := of_bytes (replicate 1036 170).
Definition sample_client : client := mk_client 0 0 junk (replicate 512 65) false false [] [].
Definition sample_text (ty : Z) (t : list Z) : SBCP_Attribute :=
  mk_attr ty (4 + zlen t) (splice (replicate 512 7) 0 (t ++ [0])).
Definition hello : SBCP_Message := mk_msg VERSION FWD 100 (sample_text USERNAME (lit "bob")) (sample_text MESSAGE (lit "hi")).

Lemma junk_wf : msg_wf junk.
Proof. apply of_bytes_wf; [| done]. apply Forall_replicate. unfold is_byte. lia. Qed.

Lemma sample_fresh_client : fresh sample_client.
Proof. split; [done | done | exact junk_wf | done]. Qed.

Lemma hello_wf : msg_wf hello.
Proof. repeat split; vm_compute; congruence. Qed.

Definition hears (t : Z) : round_in :=
  mk_round t junk true (Ready false true) FgetsNull junk true 0 (Recv (bytes_of hello)).
Definition types (t : Z) (s : list Z) : round_in :=
  mk_round t junk true (Ready true false) (Fgets s false) junk true t RecvEnd.
Definition waits (t : Z) : round_in := mk_round t junk true (Ready false false) FgetsNull junk true 0 RecvEnd.
Definition ends (t : Z) : round_in :=
  mk_round t junk true (Ready true true) FgetsNull junk true 0 (Recv (bytes_of hello)).

Lemma hello_ok : exists m, bytes_of hello = bytes_of m /\ msg_wf m /\ terminated m.
Proof. exists hello. split; [done |]. split; [exact hello_wf |]. split; by eexists. Qed.

Lemma hears_ok t : round_ok (hears t).
Proof. split; [exact junk_wf | exact junk_wf | exact hello_ok]. Qed.
Lemma types_ok t s : round_ok (types t s).
Proof. split; [exact junk_wf | exact junk_wf | done]. Qed.
Lemma waits_ok t : round_ok (waits t).
Proof. split; [exact junk_wf | exact junk_wf | done]. Qed.
Lemma ends_ok t : round_ok (ends t).
Proof. split; [exact junk_wf | exact junk_wf | exact hello_ok]. Qed.

Lemma client_refines_spec_witness :
  let rs := [hears 1; types 3 (lit "hello"); waits 12; waits 13; hears 14; waits 40] in
  exists c', main (lit "ann") junk true 0 rs sample_client = Done false c' /\
    frame_of ∘ of_bytes <$> sent c' = Some <$> [FJoin (lit "ann"); FText (lit "hello"); FIdle] /\
    out c' = [lit "Client sends a request to join the chatroom." ++ [10];
              lit "bob: hi" ++ [10]; lit "bob: hi" ++ [10]].
Proof.
  apply (client_refines_spec (lit "ann") junk 0 [hears 1; types 3 (lit "hello"); waits 12; waits 13; hears 14; waits 40] sample_client).
  - exact sample_fresh_client.
  - exact junk_wf.
  - apply nonzero_dec. reflexivity.
  - reflexivity.
  - repeat first [apply hears_ok | apply types_ok | apply waits_ok | apply ends_ok | constructor].
Defined.

Lemma quiet_client_idles_once_witness :
  exists c' stop, main (lit "ann") junk true 0 [hears 1; waits 10; hears 20] sample_client = Done stop c' /\
    (stop = false -> frame_of ∘ of_bytes <$> sent c' = Some <$> [FJoin (lit "ann"); FIdle]).
Proof.
  apply (quiet_client_idles_once (lit "ann") junk 0 [hears 1; waits 10; hears 20] sample_client).
  - exact sample_fresh_client.
  - exact junk_wf.
  - apply nonzero_dec. reflexivity.
  - reflexivity.
  - repeat first [apply hears_ok | apply types_ok | apply waits_ok | apply ends_ok | constructor].
  - repeat constructor; eexists; by split.
Defined.

Lemma end_of_input_starves_socket_witness :
  exists c', main (lit "ann") junk true 0 [ends 1; ends 2] sample_client = Done false c' /\
    out c' = shown (joined (lit "ann") 0).
Proof.
  apply (end_of_input_starves_socket (lit "ann") junk 0 [ends 1; ends 2] sample_client).
  - exact sample_fresh_client.
  - exact junk_wf.
  - apply nonzero_dec. reflexivity.
  - reflexivity.
  - repeat first [apply hears_ok | apply types_ok | apply waits_ok | apply ends_ok | constructor].
  - repeat constructor; by eexists.
Defined.
End ChatClient.
