(* ===== verification/ChatServer.v ===== *)
(** * [assignment2/server.cpp] and [server.h]: the chat server

    The server keeps a table of clients, a set of descriptors and a few message
    structs as members.  Each descriptor that [select] reports is handled by one step:
    a new connection, whose JOIN message is read at once, or a client's message, end of
    stream or error.  A message built by the constructor of [sbcp_message] keeps, in the
    fields the constructor leaves alone, what the stack held; [stack] supplies these
    old contents, one struct per construction.

    [FD_ISSET] of a number that is no descriptor counts as "not set": the table's free
    entries hold -1, and whatever the macro answers there, a [write] to -1 fails. *)

From S2P Require Import Prelude CMem Sbcp ChatClient.
From stdpp Require Import base list.
From Stdlib Require Import ZArith Lia.
From Stdlib Require String.
Import String.StringSyntax.
Open Scope Z_scope.

Module ChatServer.
Import Sbcp.

Record clnt_info := mk_clnt { username : list Z; fd : Z; status : Z; cnt : Z }.
Definition reset : clnt_info := mk_clnt (replicate 16 0) (-1) 85 (-1).

Record server := mk_server {
  max_clnt : Z;
  srvr_fd : Z;
  master : list Z;
  fdmax : Z;
  clnt_count : Z;
  curr_clnt : list clnt_info;
  send_msg : SBCP_Message;
  fwd_msg : SBCP_Message;
  join_msg : SBCP_Message;
  stack : nat -> SBCP_Message;     (* old contents of the structs built, and how many were *)
  built : nat;
  wrote : list (Z * list Z)        (* what was written, and to which descriptor *)
}.
Abbreviation D := (M server).

Definition get : D server := fun s => Done s s.
Definition set_master (m : list Z) (mx : Z) : D unit := fun s =>
  Done tt (mk_server (max_clnt s) (srvr_fd s) m mx (clnt_count s) (curr_clnt s) (send_msg s) (fwd_msg s) (join_msg s) (stack s) (built s) (wrote s)).
Definition set_count (z : Z) : D unit := fun s =>
  Done tt (mk_server (max_clnt s) (srvr_fd s) (master s) (fdmax s) z (curr_clnt s) (send_msg s) (fwd_msg s) (join_msg s) (stack s) (built s) (wrote s)).
Definition set_table (l : list clnt_info) : D unit := fun s =>
  Done tt (mk_server (max_clnt s) (srvr_fd s) (master s) (fdmax s) (clnt_count s) l (send_msg s) (fwd_msg s) (join_msg s) (stack s) (built s) (wrote s)).
Definition set_send (m : SBCP_Message) : D unit := fun s =>
  Done tt (mk_server (max_clnt s) (srvr_fd s) (master s) (fdmax s) (clnt_count s) (curr_clnt s) m (fwd_msg s) (join_msg s) (stack s) (built s) (wrote s)).
Definition set_fwd (m : SBCP_Message) : D unit := fun s =>
  Done tt (mk_server (max_clnt s) (srvr_fd s) (master s) (fdmax s) (clnt_count s) (curr_clnt s) (send_msg s) m (join_msg s) (stack s) (built s) (wrote s)).
Definition set_join (m : SBCP_Message) : D unit := fun s =>
  Done tt (mk_server (max_clnt s) (srvr_fd s) (master s) (fdmax s) (clnt_count s) (curr_clnt s) (send_msg s) (fwd_msg s) m (stack s) (built s) (wrote s)).
Definition next_struct : D SBCP_Message := fun s =>
  Done (stack s (built s)) (mk_server (max_clnt s) (srvr_fd s) (master s) (fdmax s) (clnt_count s) (curr_clnt s) (send_msg s) (fwd_msg s) (join_msg s) (stack s) (S (built s)) (wrote s)).
Definition write (d : Z) (m : SBCP_Message) : D unit := fun s =>
  Done tt (mk_server (max_clnt s) (srvr_fd s) (master s) (fdmax s) (clnt_count s) (curr_clnt s) (send_msg s) (fwd_msg s) (join_msg s) (stack s) (built s) (wrote s ++ [(d, bytes_of m)])).

Definition entry (k : Z) : D clnt_info := fun s =>
  if k <? 0 then Undef OutOfBounds s
  else match curr_clnt s !! Z.to_nat k with Some c => Done c s | None => Undef OutOfBounds s end.
Definition set_entry (k : Z) (c : clnt_info) : D unit :=
  entry k ;;; let* s := get in set_table (<[Z.to_nat k := c]> (curr_clnt s)).
Definition isset (d : Z) (l : list Z) : bool := bool_decide (d ∈ l).
Definition read_string (l : list Z) : D (list Z) :=
  match cstr l with Some t => ret t | None => undef OutOfBounds end.
(** [strcpy] into an array [old]. *)
Definition strcpy (old t : list Z) : D (list Z) :=
  if zlen t <? zlen old then ret (splice old 0 (t ++ [0])) else undef OutOfBounds.

(** ** The constructor of [sbcp_message] *)
Definition set_attr0 (m : SBCP_Message) (a : SBCP_Attribute) : SBCP_Message :=
  mk_msg (Vrsn m) (MType m) (MLength m) a (attr1 m).
Definition set_attr1 (m : SBCP_Message) (a : SBCP_Attribute) : SBCP_Message :=
  mk_msg (Vrsn m) (MType m) (MLength m) (attr0 m) a.
Definition with_text (a : SBCP_Attribute) (ty : Z) (t : list Z) : D SBCP_Attribute :=
  let* p := strcpy (Payload a) t in ret (mk_attr ty (ALength a) p).

Definition sbcp_message (msg_type : Z) (payload1 payload2 : list Z) : D SBCP_Message :=
  let* old := next_struct in
  let m := mk_msg 3 (u8 msg_type) (MLength old) (attr0 old) (attr1 old) in
  if msg_type =? JOIN then let* a := with_text (attr0 m) USERNAME payload1 in ret (set_attr0 m a)
  else if msg_type =? SEND then let* a := with_text (attr0 m) MESSAGE payload1 in ret (set_attr0 m a)
  else if msg_type =? FWD then
    let* a := with_text (attr0 m) USERNAME payload1 in
    let* b := with_text (attr1 m) MESSAGE payload2 in
    ret (set_attr1 (set_attr0 m a) b)
  else if msg_type =? ACK then
    let* a := with_text (attr0 m) CLIENT_COUNT payload1 in
    let* b := with_text (attr1 m) USERNAME payload2 in
    ret (set_attr1 (set_attr0 m a) b)
  else if msg_type =? NAK then
    (* [strncpy] of the whole array pads with NULs *)
    let p := take 512 (payload1 ++ replicate 512 0) in
    ret (set_attr0 m (mk_attr REASON (ALength (attr0 m)) p))
  else if msg_type =? ONLINE then let* a := with_text (attr0 m) USERNAME payload1 in ret (set_attr0 m a)
  else if msg_type =? OFFLINE then let* a := with_text (attr0 m) USERNAME payload1 in ret (set_attr0 m a)
  else if msg_type =? IDLE then let* a := with_text (attr0 m) USERNAME payload1 in ret (set_attr0 m a)
  else exit (-1).

(** ** [forward_message]: to every entry up to and including [num_of_clnt] *)
Definition send_null (d : Z) : D unit :=
  let* null := sbcp_message FWD [] (lit "N/A") in write d null.

Definition forward_one (fwd : SBCP_Message) (self_fd j : Z) : D unit :=
  let* c := entry j in
  let* s := get in
  if isset (fd c) (master s) then
    if fd c =? self_fd then ret tt
    else write (fd c) fwd ;;; send_null (fd c)
  else ret tt.

Fixpoint forward_loop (n : nat) (fwd : SBCP_Message) (self_fd j : Z) : D unit :=
  match n with
  | O => ret tt
  | S n' => forward_one fwd self_fd j ;;; forward_loop n' fwd self_fd (j + 1)
  end.
Definition forward_message (fwd : SBCP_Message) (self_fd num_of_clnt : Z) : D unit :=
  forward_loop (Z.to_nat (num_of_clnt + 1)) fwd self_fd 0.

(** ** [is_clnt_exist]: reads the JOIN message and enters a new name in the table *)
Fixpoint name_known (n : nat) (i : Z) (name : list Z) : D bool :=
  match n with
  | O => ret false
  | S n' =>
      let* c := entry i in
      let* known := read_string (username c) in
      if bool_decide (name = known) then ret true else name_known n' (i + 1) name
  end.

(** [joined] are the bytes that [read] delivers. *)
Definition is_clnt_exist (new_fd : Z) (joined : list Z) : D bool :=
  let* s := get in
  set_join (of_bytes (splice (bytes_of (join_msg s)) 0 (take 1036 joined))) ;;;
  let* s := get in
  let* name := read_string (Payload (attr0 (join_msg s))) in
  let* found := name_known (Z.to_nat (clnt_count s)) 0 name in
  if found then ret true
  else
    let* c := entry (clnt_count s) in
    let* u := strcpy (username c) name in
    set_entry (clnt_count s) (mk_clnt u new_fd 79 (clnt_count s)) ;;;
    ret false.

(** ** The text of an ACK *)

(** [to_string] of a count. *)
Fixpoint digits (fuel : nat) (n : Z) : list Z :=
  match fuel with
  | O => []
  | S f => (if n / 10 =? 0 then [] else digits f (n / 10)) ++ [48 + n mod 10]
  end.
Definition to_string (n : Z) : list Z := digits 10 n.

(** The loop that appends the names to [namelist]. *)
Fixpoint list_names (n : nat) (i clnts : Z) (namelist : list Z) : D (list Z) :=
  match n with
  | O => ret namelist
  | S n' =>
      let* c := entry i in
      let* name := read_string (username c) in
      let l := namelist ++ name ++ (if i <? clnts - 1 then lit ", " else [10]) in
      if zlen l <? 512 then list_names n' (i + 1) clnts l else undef OutOfBounds
  end.

(** ** A new connection: [new_clnt_fd] is the answer of [accept]; [namelist] is the
    string that lies in the uninitialised array when the list is begun *)
Definition welcome (new_clnt_fd : Z) (namelist : list Z) : D unit :=
  let* s := get in
  set_count (clnt_count s + 1) ;;;
  let* s := get in
  let* names := list_names (Z.to_nat (clnt_count s)) 0 (clnt_count s) namelist in
  let* ack := sbcp_message ACK (to_string (clnt_count s)) names in
  write new_clnt_fd ack ;;;
  send_null new_clnt_fd ;;;
  let* c := entry (clnt_count s - 1) in
  let* name := read_string (username c) in
  let* online := sbcp_message ONLINE name (lit "N/A") in
  forward_message online (fd c) (clnt_count s).

Definition on_accept (new_clnt_fd : Z) (joined namelist : list Z) : D unit :=
  let* s := get in
  if new_clnt_fd =? -1 then ret tt
  else if max_clnt s <=? clnt_count s then
    let* nak := sbcp_message NAK (lit "Too many users in the chat room!") (lit "N/A") in
    write new_clnt_fd nak ;;;
    send_null new_clnt_fd
  else
    let temp_fdmax := fdmax s in
    set_master (new_clnt_fd :: master s) (Z.max (fdmax s) new_clnt_fd) ;;;
    let* exist := is_clnt_exist new_clnt_fd joined in
    if exist then
      let* nak := sbcp_message NAK (lit "Username already exist!") (lit "N/A") in
      write new_clnt_fd (set_attr0 nak (mk_attr (AType (attr0 nak)) 23 (Payload (attr0 nak)))) ;;;
      let* s := get in
      set_master (List.filter (fun d => negb (d =? new_clnt_fd)) (master s)) temp_fdmax
    else welcome new_clnt_fd namelist.

(** ** A client's descriptor is ready *)
Inductive read_ans := ReadEof | ReadErr | ReadBytes (bytes : list Z).

(** [for (k = 0; k < clnt_count; k++)] with a body for the entry of descriptor [i];
    [n] bounds the rounds, the count is read again in each. *)
Fixpoint for_client (n : nat) (k i : Z) (body : Z -> clnt_info -> D unit) : D unit :=
  match n with
  | O => ret tt
  | S n' =>
      let* s := get in
      if k <? clnt_count s then
        let* c := entry k in
        (if fd c =? i then body k c else ret tt) ;;;
        for_client n' (k + 1) i body
      else ret tt
  end.
Definition for_clients (i : Z) (body : Z -> clnt_info -> D unit) : D unit :=
  let* s := get in for_client (Z.to_nat (clnt_count s)) 0 i body.

Definition leave (k : Z) (c : clnt_info) : D unit :=
  let* s := get in
  let* name := read_string (username c) in
  let* offline := sbcp_message OFFLINE name (lit "N/A") in
  forward_message offline (fd c) (clnt_count s) ;;;
  set_entry k reset ;;;
  let* s := get in
  set_count (clnt_count s - 1).

Definition notify_idle (i k : Z) (c : clnt_info) : D unit :=
  let* s := get in
  let* name := read_string (username c) in
  let* idle := sbcp_message IDLE name (lit "N/A") in
  forward_message idle i (clnt_count s).

Definition name_sender (k : Z) (c : clnt_info) : D unit :=
  let* s := get in
  let* name := read_string (username c) in
  let* p := strcpy (Payload (attr0 (fwd_msg s))) name in
  set_fwd (set_attr0 (fwd_msg s) (mk_attr (AType (attr0 (fwd_msg s))) (ALength (attr0 (fwd_msg s))) p)).

Definition forward_text (i : Z) : D unit :=
  let* s := get in
  let f := fwd_msg s in
  set_fwd (mk_msg 3 FWD (MLength f) (mk_attr USERNAME (ALength (attr0 f)) (Payload (attr0 f)))
             (mk_attr MESSAGE (ALength (attr1 f)) (Payload (attr1 f)))) ;;;
  for_clients i name_sender ;;;
  let* s := get in
  let f := fwd_msg s in
  let* text := read_string (Payload (attr0 (send_msg s))) in
  let* p := strcpy (Payload (attr1 f)) text in
  set_fwd (set_attr1 f (mk_attr (AType (attr1 f)) (ALength (attr1 f)) p)) ;;;
  let* s := get in
  forward_message (fwd_msg s) i (clnt_count s).

Definition on_client (i : Z) (a : read_ans) : D unit :=
  match a with
  | ReadBytes bytes =>
      let* s := get in
      set_send (of_bytes (splice (bytes_of (send_msg s)) 0 (take 1036 bytes))) ;;;
      let* s := get in
      if MType (send_msg s) =? IDLE then for_clients i (notify_idle i)
      else forward_text i
  | _ =>
      (match a with ReadEof => for_clients i leave | _ => ret tt end) ;;;
      let* s := get in
      set_master (List.filter (fun d => negb (d =? i)) (master s)) (fdmax s)
  end.

(** ** The server's loop over what happens *)
Inductive event := Connect (new_fd : Z) (joined namelist : list Z) | Client (i : Z) (a : read_ans).
Definition handle (e : event) : D unit :=
  match e with
  | Connect d joined namelist => on_accept d joined namelist
  | Client i a => on_client i a
  end.
Fixpoint serve (es : list event) : D unit :=
  match es with
  | [] => ret tt
  | e :: es' => handle e ;;; serve es'
  end.

(** The start of [sbcp]: three entries are reset, the others hold anything. *)
Definition start_table (table : list clnt_info) : list clnt_info := replicate 3 reset ++ drop 3 table.

(** ** What the clients see of what the server writes *)

(** A client that receives the whole struct [b]: it drops a message that says to be longer. *)
Definition shows (b : list Z) : list (list Z) :=
  let m := of_bytes b in if MLength m <=? zlen b then (ChatClient.display m).1 else [].
Definition visible (outs : list (Z * list Z)) : list (Z * list Z) :=
  concat (map (fun o => map (pair o.1) (shows o.2)) outs).

Lemma shows_bytes m : msg_wf m -> shows (bytes_of m) = if MLength m <=? SIZE then (ChatClient.display m).1 else [].
Proof.
  intros Hm. unfold shows. rewrite of_bytes_bytes_of by done. by replace (zlen (bytes_of m)) with SIZE by (unfold zlen; by rewrite length_bytes_of).
Qed.

(** The Length of the server's structs is what the memory held: one above the size of a
    message hides it from every client. *)
Lemma long_length_hides m : msg_wf m -> SIZE < MLength m -> shows (bytes_of m) = [].
Proof. intros Hm Hl. rewrite shows_bytes by done. by rewrite (proj2 (Z.leb_gt _ _)). Qed.

Lemma visible_app o o' : visible (o ++ o') = visible o ++ visible o'.
Proof. unfold visible. by rewrite map_app, concat_app. Qed.

(** ** States after some writes *)
Definition emit (s : server) (outs : list (Z * list Z)) (n : nat) : server :=
  mk_server (max_clnt s) (srvr_fd s) (master s) (fdmax s) (clnt_count s) (curr_clnt s) (send_msg s) (fwd_msg s)
    (join_msg s) (stack s) (built s + n) (wrote s ++ outs).

Lemma emit_emit s o n o' n' : emit (emit s o n) o' n' = emit s (o ++ o') (n + n').
Proof. unfold emit; simpl. by rewrite app_assoc, Nat.add_assoc. Qed.

Lemma emit_nothing s : emit s [] 0 = s.
Proof. destruct s. unfold emit; simpl. by rewrite app_nil_r, Nat.add_0_r. Qed.

(** The limit, the listening descriptor and the Length of [fwd_msg] do not change. *)
Definition same_server (s s' : server) : Prop :=
  max_clnt s' = max_clnt s /\ srvr_fd s' = srvr_fd s /\ MLength (fwd_msg s') = MLength (fwd_msg s).

(** The Length fields that the constructor leaves alone are small enough. *)
Definition stack_wf (s : server) : Prop := forall n, msg_wf (stack s n) /\ MLength (stack s n) <= SIZE.

(** ** Built messages *)
Lemma with_text_spec a ty t s : attr_wf a -> zlen t < 512 ->
  with_text a ty t s = Done (mk_attr ty (ALength a) (splice (Payload a) 0 (t ++ [0]))) s.
Proof.
  intros [_ _ Hp] Ht. unfold with_text, bind, strcpy. replace (zlen (Payload a)) with 512 by (unfold zlen; by rewrite Hp).
  by rewrite (proj2 (Z.ltb_lt _ _)).
Qed.

Lemma with_text_wf a ty t : attr_wf a -> -32768 <= ty < 32768 -> zlen t < 512 ->
  attr_wf (mk_attr ty (ALength a) (splice (Payload a) 0 (t ++ [0]))).
Proof.
  intros [_ Hl Hp] Hty Ht. split; cbn [AType ALength Payload]; [done | done |].
  rewrite length_splice_0; [done |]. rewrite length_app. unfold zlen in Ht. simpl. lia.
Qed.

Lemma text_of_set a ty len t : nonzero t ->
  ChatClient.text_of (mk_attr ty len (splice (Payload a) 0 (t ++ [0]))) = t.
Proof. intros Ht. unfold ChatClient.text_of. cbn [Payload]. by rewrite cstr_splice_0. Qed.

Definition online_text (name : list Z) : list Z := lit "***" ++ name ++ lit " has joined the chatroom.***" ++ [10].
Definition offline_text (name : list Z) : list Z := lit "***" ++ name ++ lit " has left the chatroom.***" ++ [10].
Definition idle_text (name : list Z) : list Z := name ++ lit " is idle.".
Definition ack_text (count names : list Z) : list Z :=
  lit "Client has joined the chatroom. There are " ++ count ++ lit " members in the chatroom - " ++ names.

(** A message is built from one struct of the stack, and clients show [l] for it. *)
Definition builds (m : D SBCP_Message) (l : list (list Z)) (s : server) : Prop :=
  exists msg, m s = Done msg (emit s [] 1) /\ shows (bytes_of msg) = l.

Lemma next_struct_emit s : next_struct s = Done (stack s (built s)) (emit s [] 1).
Proof. unfold next_struct, emit. by rewrite app_nil_r, Nat.add_1_r. Qed.

(** Deciding the tests on message types. *)
Ltac types := cbn [Z.eqb Pos.eqb andb negb ONLINE OFFLINE IDLE JOIN SEND FWD ACK NAK
  USERNAME MESSAGE REASON CLIENT_COUNT VERSION Vrsn MType AType attr0 attr1].

(** Messages with one name. *)
Lemma build_one ty name p2 s :
  stack_wf s -> nonzero name -> zlen name < 512 -> In ty [ONLINE; OFFLINE; IDLE] ->
  builds (sbcp_message ty name p2)
    [if ty =? ONLINE then online_text name else if ty =? OFFLINE then offline_text name else idle_text name] s.
Proof.
  intros Hs Hn Hl Hty. pose proof (Hs (built s)) as [[Hv Ht Hml H0 H1] Hshort]. set (old := stack s (built s)) in *.
  exists (mk_msg 3 ty (MLength old) (mk_attr USERNAME (ALength (attr0 old)) (splice (Payload (attr0 old)) 0 (name ++ [0]))) (attr1 old)).
  split.
  - unfold sbcp_message. unfold bind at 1. rewrite next_struct_emit. fold old.
    destruct Hty as [<- | [<- | [<- | []]]]; types; unfold bind; rewrite with_text_spec by done; reflexivity.
  - rewrite shows_bytes; cbn [MLength].
    + rewrite (proj2 (Z.leb_le _ _)) by done. destruct Hty as [<- | [<- | [<- | []]]]; unfold ChatClient.display; types; by rewrite text_of_set.
    + split; cbn [Vrsn MType MLength attr0 attr1]; [done | | done | by apply with_text_wf | done].
      by destruct Hty as [<- | [<- | [<- | []]]].
Qed.

(** Messages with two texts. *)
Lemma build_ack count names s :
  stack_wf s -> nonzero count -> zlen count < 512 -> nonzero names -> zlen names < 512 -> names <> lit "N/A" ->
  builds (sbcp_message ACK count names) [ack_text count names] s.
Proof.
  intros Hs Hn Hl Hn' Hl' Hna. pose proof (Hs (built s)) as [[Hv Ht Hml H0 H1] Hshort]. set (old := stack s (built s)) in *.
  eexists. split.
  - unfold sbcp_message. unfold bind at 1. rewrite next_struct_emit. fold old. types. unfold bind.
    rewrite !with_text_spec by done. reflexivity.
  - unfold set_attr0, set_attr1. rewrite shows_bytes; cbn [MLength].
    + rewrite (proj2 (Z.leb_le _ _)) by done. unfold ChatClient.display. types. rewrite !text_of_set by done. by rewrite bool_decide_eq_false_2.
    + split; cbn [Vrsn MType MLength attr0 attr1]; [done | done | done | by apply with_text_wf | by apply with_text_wf].
Qed.

Lemma build_null s : stack_wf s -> builds (sbcp_message FWD [] (lit "N/A")) [] s.
Proof.
  intros Hs. pose proof (Hs (built s)) as [[Hv Ht Hml H0 H1] Hshort]. set (old := stack s (built s)) in *.
  eexists. split.
  - unfold sbcp_message. unfold bind at 1. rewrite next_struct_emit. fold old. types. unfold bind.
    rewrite !with_text_spec by done. reflexivity.
  - unfold set_attr0, set_attr1. rewrite shows_bytes; cbn [MLength].
    + rewrite (proj2 (Z.leb_le _ _)) by done. unfold ChatClient.display. types. rewrite (text_of_set (attr1 old)); [done |]. by apply nonzero_dec.
    + split; cbn [Vrsn MType MLength attr0 attr1]; [done | done | done | by apply with_text_wf | by apply with_text_wf].
Qed.

Lemma build_nak reason p2 s : stack_wf s -> nonzero reason -> zlen reason < 512 ->
  builds (sbcp_message NAK reason p2) [reason ++ [10]] s /\
  exists msg, sbcp_message NAK reason p2 s = Done msg (emit s [] 1) /\
    shows (bytes_of (set_attr0 msg (mk_attr (AType (attr0 msg)) 23 (Payload (attr0 msg))))) = [reason ++ [10]].
Proof.
  intros Hs Hn Hl. pose proof (Hs (built s)) as [[Hv Ht Hml H0 H1] Hshort]. set (old := stack s (built s)) in *.
  assert (Hp : forall len, -32768 <= len < 32768 ->
    attr_wf (mk_attr REASON len (take 512 (reason ++ replicate 512 0))) /\
    ChatClient.text_of (mk_attr REASON len (take 512 (reason ++ replicate 512 0))) = reason).
  { intros len Hlen. split.
    - split; cbn [AType ALength Payload]; [done | done |]. rewrite length_take, length_app, length_replicate. lia.
    - unfold ChatClient.text_of. cbn [Payload]. unfold zlen in Hl.
      rewrite take_app_ge by lia. rewrite take_replicate.
      replace (512 - length reason)%nat with (S (511 - length reason)) by lia.
      rewrite Nat.min_l by lia. cbn [replicate]. by rewrite cstr_app. }
  assert (Hshow : forall len, -32768 <= len < 32768 ->
    shows (bytes_of (mk_msg 3 NAK (MLength old) (mk_attr REASON len (take 512 (reason ++ replicate 512 0))) (attr1 old))) = [reason ++ [10]]).
  { intros len Hlen. destruct (Hp len Hlen) as [Hwf Htext]. rewrite shows_bytes; cbn [MLength].
    - rewrite (proj2 (Z.leb_le _ _)) by done. unfold ChatClient.display. types. by rewrite Htext.
    - split; cbn [Vrsn MType MLength attr0 attr1]; done. }
  assert (Hrun : sbcp_message NAK reason p2 s
    = Done (mk_msg 3 NAK (MLength old) (mk_attr REASON (ALength (attr0 old)) (take 512 (reason ++ replicate 512 0))) (attr1 old)) (emit s [] 1)).
  { unfold sbcp_message. unfold bind at 1. rewrite next_struct_emit. fold old. reflexivity. }
  split; (eexists; split; [exact Hrun |]); apply Hshow; [apply H0 | lia].
Qed.

(** ** The room: the names and descriptors of the clients, oldest first *)
Abbreviation room := (list (list Z * Z)).

Definition is_entry (c : clnt_info) (m : list Z * Z) : Prop :=
  cstr (username c) = Some m.1 /\ zlen (username c) = 16 /\ fd c = m.2.

(** The server's table and set hold the room.  Free entries hold no descriptor that a
    connection can have (-1 once they were used, nothing above 0 before). *)
Record hosts (s : server) (r : room) : Prop := {
  hosts_count : clnt_count s = Z.of_nat (length r);
  hosts_max : Z.of_nat (length r) <= max_clnt s <= 28;
  hosts_table : Z.of_nat (length (curr_clnt s)) = max_clnt s + 2;
  hosts_entry : forall k m, r !! k = Some m -> exists c, curr_clnt s !! k = Some c /\ is_entry c m;
  hosts_free : forall k c, (length r <= k)%nat -> curr_clnt s !! k = Some c -> fd c <= 0 /\ zlen (username c) = 16;
  hosts_master : forall d, d ∈ master s <-> d = srvr_fd s \/ d ∈ r.*2;
  hosts_fds : NoDup r.*2 /\ Forall (fun d => 0 < d /\ d <> srvr_fd s) r.*2 /\ 0 < srvr_fd s;
  hosts_stack : stack_wf s;
  hosts_msgs : msg_wf (send_msg s) /\ msg_wf (fwd_msg s) /\ msg_wf (join_msg s)
}.

Lemma hosts_emit s r o n : hosts s r -> hosts (emit s o n) r.
Proof. intros []. by split. Qed.

Lemma entry_room s r k m : hosts s r -> r !! k = Some m ->
  exists c, entry (Z.of_nat k) s = Done c s /\ is_entry c m /\ curr_clnt s !! k = Some c.
Proof.
  intros H Hk. destruct (hosts_entry _ _ H k m Hk) as (c & Hc & Hm). exists c. split; [| done].
  unfold entry. rewrite (proj2 (Z.ltb_ge _ _)), Nat2Z.id by lia. by rewrite Hc.
Qed.

(** The entry behind the room's last, which exists. *)
Lemma entry_free s r k : hosts s r -> k = length r \/ k = S (length r) ->
  exists c, entry (Z.of_nat k) s = Done c s /\ fd c <= 0 /\ zlen (username c) = 16 /\ curr_clnt s !! k = Some c.
Proof.
  intros H Hk. destruct (lookup_lt_is_Some_2 (curr_clnt s) k) as [c Hc].
  { pose proof (hosts_table _ _ H). pose proof (hosts_max _ _ H). lia. }
  exists c. destruct (hosts_free _ _ H k c) as [Hf Hu]; [lia | done |].
  unfold entry. rewrite (proj2 (Z.ltb_ge _ _)), Nat2Z.id by lia. by rewrite Hc.
Qed.

(** ** Forwarding *)

(** [outs] delivers the bytes [b] to each of the descriptors, and nothing else that
    clients show. *)
Inductive delivered (b : list Z) : list Z -> list (Z * list Z) -> Prop :=
| delivered_nil : delivered b [] []
| delivered_cons d ds nul outs : shows nul = [] -> delivered b ds outs ->
    delivered b (d :: ds) ((d, b) :: (d, nul) :: outs).

Definition others (r : room) (self : Z) : list Z := List.filter (fun d => negb (d =? self)) r.*2.
Definition say (ds : list Z) (texts : list (list Z)) : list (Z * list Z) :=
  concat (map (fun d => map (pair d) texts) ds).

Lemma delivered_visible b ds outs : delivered b ds outs -> visible outs = say ds (shows b).
Proof.
  induction 1 as [| d ds nul outs Hnul _ IH]; [done |]. unfold visible, say in *. cbn [map concat fst snd].
  rewrite Hnul. cbn [map app]. by rewrite IH.
Qed.

Lemma send_null_spec d s : stack_wf s ->
  exists nul, send_null d s = Done tt (emit s [(d, nul)] 1) /\ shows nul = [].
Proof.
  intros Hs. destruct (build_null s Hs) as (m & Hrun & Hshow). exists (bytes_of m). split; [| done].
  unfold send_null, bind. rewrite Hrun. unfold write, emit. simpl. by rewrite app_nil_r.
Qed.

Lemma forward_loop_spec fwd self : forall suf pre s r, hosts s r -> r = pre ++ suf ->
  exists outs n, forward_loop (S (length suf)) fwd self (Z.of_nat (length pre)) s = Done tt (emit s outs n) /\
    delivered (bytes_of fwd) (others suf self) outs.
Proof.
  induction suf as [| m suf IH]; intros pre s r H Hr.
  - exists [], 0%nat. split; [| constructor]. rewrite app_nil_r in Hr. subst r.
    cbn [length forward_loop]. unfold bind at 1. unfold forward_one, bind at 1.
    destruct (entry_free s pre (length pre) H) as (c & -> & Hf & _); [by left |].
    unfold bind, get. unfold isset. rewrite bool_decide_eq_false_2; [by rewrite emit_nothing |].
    rewrite (hosts_master _ _ H). destruct (hosts_fds _ _ H) as (_ & Hpos & Hsp). intros [Hx | Hx]; [lia |].
    apply (proj1 (Forall_forall _ _) Hpos) in Hx. lia.
  - assert (Hm : r !! length pre = Some m) by (subst r; by apply list_lookup_middle).
    destruct (entry_room s r (length pre) m H Hm) as (c & Hc & (_ & _ & Hfd) & _).
    cbn [length]. change (forward_loop (S (S (length suf))) fwd self (Z.of_nat (length pre)))
      with (forward_one fwd self (Z.of_nat (length pre)) ;;; forward_loop (S (length suf)) fwd self (Z.of_nat (length pre) + 1)).
    replace (Z.of_nat (length pre) + 1) with (Z.of_nat (length (pre ++ [m]))) by (rewrite length_app; simpl; lia).
    assert (Hin : isset (fd c) (master s) = true).
    { apply bool_decide_eq_true_2, (hosts_master _ _ H). right. rewrite Hfd. apply list_elem_of_fmap.
      exists m. split; [done |]. by eapply list_elem_of_lookup_2. }
    assert (Hr' : r = (pre ++ [m]) ++ suf) by (rewrite <- app_assoc; done).
    unfold bind at 1. unfold forward_one. unfold bind at 1. rewrite Hc. unfold bind at 1, get. rewrite Hin, Hfd.
    unfold others. cbn [fmap list_fmap List.filter]. fold (others suf self).
    destruct (m.2 =? self); cbn [negb].
    + destruct (IH (pre ++ [m]) s r H Hr') as (outs & n & Hrun & Hd). by exists outs, n.
    + unfold bind at 1, write. destruct (send_null_spec m.2 (emit s [(m.2, bytes_of fwd)] 0)) as (nul & Hnul & Hshow); [apply H |].
      replace (mk_server (max_clnt s) (srvr_fd s) (master s) (fdmax s) (clnt_count s) (curr_clnt s) (send_msg s) (fwd_msg s)
        (join_msg s) (stack s) (built s) (wrote s ++ [(m.2, bytes_of fwd)])) with (emit s [(m.2, bytes_of fwd)] 0)
        by (unfold emit; by rewrite Nat.add_0_r).
      rewrite Hnul, emit_emit. cbn [app Nat.add].
      destruct (IH (pre ++ [m]) (emit s [(m.2, bytes_of fwd); (m.2, nul)] 1) r) as (outs & n & Hrun & Hd); [by apply hosts_emit | done |].
      exists ((m.2, bytes_of fwd) :: (m.2, nul) :: outs), (1 + n)%nat. rewrite Hrun, emit_emit. split; [done |]. by constructor.
Qed.

Lemma forward_message_spec fwd self s r : hosts s r ->
  exists outs n, forward_message fwd self (clnt_count s) s = Done tt (emit s outs n) /\
    visible outs = say (others r self) (shows (bytes_of fwd)).
Proof.
  intros H. destruct (forward_loop_spec fwd self r [] s r H eq_refl) as (outs & n & Hrun & Hd).
  exists outs, n. split; [| by apply delivered_visible]. unfold forward_message. rewrite (hosts_count _ _ H).
  replace (Z.to_nat (Z.of_nat (length r) + 1)) with (S (length r)) by lia. done.
Qed.

(** ** Loops over the clients *)
Lemma other_fd (r : room) k k0 m m0 : NoDup r.*2 -> r !! k = Some m -> r !! k0 = Some m0 -> k <> k0 -> (m.2 =? m0.2) = false.
Proof.
  intros Hnd Hk Hk0 Hne. apply Z.eqb_neq. intros Heq. apply Hne. eapply (NoDup_lookup r.*2); [done | |].
  - rewrite list_lookup_fmap, Hk. reflexivity.
  - rewrite list_lookup_fmap, Hk0. simpl. by rewrite Heq.
Qed.

(** One round of the loop at an entry of another client. *)
Lemma for_client_other s r k k0 m0 n body : hosts s r -> r !! k0 = Some m0 -> k <> k0 -> (k < length r)%nat ->
  for_client (S n) (Z.of_nat k) m0.2 body s = for_client n (Z.of_nat (S k)) m0.2 body s.
Proof.
  intros H Hk0 Hne Hk. destruct (lookup_lt_is_Some_2 r k Hk) as [m Hm].
  destruct (entry_room s r k m H Hm) as (c & Hc & (_ & _ & Hfd) & _).
  cbn [for_client]. unfold bind, get. rewrite (hosts_count _ _ H), (proj2 (Z.ltb_lt _ _)) by lia.
  rewrite Hc, Hfd, (other_fd r k k0 m m0) by (done || apply H). unfold ret.
  by replace (Z.of_nat k + 1) with (Z.of_nat (S k)) by lia.
Qed.

Lemma for_client_rest s r k0 m0 body : hosts s r -> r !! k0 = Some m0 ->
  forall n k, (k0 < k)%nat -> (k + n = length r)%nat -> for_client n (Z.of_nat k) m0.2 body s = Done tt s.
Proof.
  intros H Hk0. induction n as [| n IH]; intros k Hlt Hlen; [done |].
  rewrite (for_client_other s r k k0) by (done || lia). apply IH; lia.
Qed.

(** The body runs once, at the client's own entry: if it keeps the table, or leaves no
    entry behind this one. *)
Lemma for_clients_once s r k0 m0 body s1 c : hosts s r -> r !! k0 = Some m0 -> curr_clnt s !! k0 = Some c ->
  body (Z.of_nat k0) c s = Done tt s1 -> hosts s1 r \/ clnt_count s1 <= Z.of_nat (S k0) ->
  for_clients m0.2 body s = Done tt s1.
Proof.
  intros H Hk0 Hc Hbody Hrest. pose proof (lookup_lt_Some _ _ _ Hk0) as Hlt.
  assert (Hreach : forall n k, (k + n = k0)%nat ->
    for_client (n + (length r - k0)) (Z.of_nat k) m0.2 body s = for_client (length r - k0) (Z.of_nat k0) m0.2 body s).
  { induction n as [| n IH]; intros k Hk; [by replace k with k0 by lia |].
    cbn [Nat.add]. rewrite (for_client_other s r k k0) by (done || lia). apply IH. lia. }
  unfold for_clients, bind at 1, get at 1. rewrite (hosts_count _ _ H), Nat2Z.id.
  specialize (Hreach k0 0%nat). replace (k0 + (length r - k0))%nat with (length r) in Hreach by lia.
  change (Z.of_nat 0) with 0 in Hreach. rewrite Hreach by lia.
  replace (length r - k0)%nat with (S (length r - S k0)) by lia. cbn [for_client]. unfold bind at 1, get at 1.
  rewrite (hosts_count _ _ H), (proj2 (Z.ltb_lt _ _)) by lia.
  destruct (entry_room s r k0 m0 H Hk0) as (c' & Hc' & (_ & _ & Hfd) & Hcc). rewrite Hc in Hcc. injection Hcc as <-.
  unfold bind at 1. rewrite Hc'. unfold bind. rewrite Hfd, Z.eqb_refl, Hbody.
  replace (Z.of_nat k0 + 1) with (Z.of_nat (S k0)) by lia. destruct Hrest as [H1 | Hcount].
  - apply (for_client_rest s1 r k0); [done | done | lia | lia].
  - destruct (length r - S k0)%nat; [done |]. cbn [for_client]. unfold bind, get.
    by rewrite (proj2 (Z.ltb_ge _ _)) by lia.
Qed.

Lemma room_name s r k m c : hosts s r -> r !! k = Some m -> is_entry c m -> nonzero m.1 /\ zlen m.1 < 16.
Proof. intros _ _ (Hu & Hl & _). apply cstr_nonzero in Hu. rewrite Hl in Hu. done. Qed.

Lemma read_string_Some l t s : cstr l = Some t -> read_string l s = Done t s.
Proof. intros H. unfold read_string. by rewrite H. Qed.

Lemma on_idle_spec s r k m : hosts s r -> r !! k = Some m ->
  exists outs n, for_clients m.2 (notify_idle m.2) s = Done tt (emit s outs n) /\
    visible outs = say (others r m.2) [idle_text m.1].
Proof.
  intros H Hk. destruct (entry_room s r k m H Hk) as (c & _ & Hm & Hc).
  destruct (room_name s r k m c H Hk Hm) as [Hnz Hlen].
  destruct (build_one IDLE m.1 (lit "N/A") s) as (msg & Hmsg & Hshow); [apply H | done | lia | simpl; auto |].
  destruct (forward_message_spec msg m.2 (emit s [] 1) r) as (outs & n & Hrun & Hvis); [by apply hosts_emit |].
  exists outs, (1 + n)%nat. split; [| by rewrite Hvis, Hshow].
  apply (for_clients_once s r k m _ _ c); [done | done | done | | left; by apply hosts_emit].
  unfold notify_idle, bind, get. rewrite (read_string_Some _ m.1) by apply Hm. rewrite Hmsg.
  change (clnt_count s) with (clnt_count (emit s [] 1)). rewrite Hrun, emit_emit. done.
Qed.

(** ** Text *)
Definition with_fwd (s : server) (m : SBCP_Message) : server :=
  mk_server (max_clnt s) (srvr_fd s) (master s) (fdmax s) (clnt_count s) (curr_clnt s) (send_msg s) m
    (join_msg s) (stack s) (built s) (wrote s).

Lemma hosts_with_fwd s r m : hosts s r -> msg_wf m -> hosts (with_fwd s m) r.
Proof. intros [] Hm. split; try done. cbn. tauto. Qed.

Definition fwd_text (name text : list Z) : list (list Z) :=
  if bool_decide (text = lit "N/A") then [] else [name ++ lit ": " ++ text ++ [10]].

(** The forwarded struct: its texts are the sender's name and the text. *)
Lemma fwd_shows (f : SBCP_Message) name text :
  msg_wf f -> nonzero name -> zlen name < 512 -> nonzero text -> zlen text < 512 ->
  let m := mk_msg 3 FWD (MLength f) (mk_attr USERNAME (ALength (attr0 f)) (splice (Payload (attr0 f)) 0 (name ++ [0])))
             (mk_attr MESSAGE (ALength (attr1 f)) (splice (Payload (attr1 f)) 0 (text ++ [0]))) in
  msg_wf m /\ shows (bytes_of m) = if MLength f <=? SIZE then fwd_text name text else [].
Proof.
  intros [_ _ Hl H0 H1] Hn Hnl Ht Htl m.
  assert (Hm : msg_wf m) by (split; cbn [m Vrsn MType MLength attr0 attr1]; [done | done | done | by apply with_text_wf | by apply with_text_wf]).
  split; [done |]. rewrite shows_bytes by done. cbn [m MLength]. unfold ChatClient.display, m. types.
  by rewrite !text_of_set by done.
Qed.

Lemma payload_strcpy (p t : list Z) s : length p = 512%nat -> zlen t < 512 -> strcpy p t s = Done (splice p 0 (t ++ [0])) s.
Proof.
  intros Hp Ht. unfold strcpy. replace (zlen p) with 512 by (unfold zlen; by rewrite Hp).
  by rewrite (proj2 (Z.ltb_lt _ _)).
Qed.

Lemma forward_text_spec s r k m text : hosts s r -> r !! k = Some m ->
  cstr (Payload (attr0 (send_msg s))) = Some text ->
  exists s', forward_text m.2 s = Done tt s' /\ hosts s' r /\ same_server s s' /\
    visible (wrote s') = visible (wrote s) ++ say (others r m.2) (if MLength (fwd_msg s) <=? SIZE then fwd_text m.1 text else []).
Proof.
  intros H Hk Htext. pose proof (hosts_msgs _ _ H) as ([_ _ _ [_ _ Hsp] _] & Hf & _).
  destruct (cstr_nonzero _ _ Htext) as [Htn Htl]. replace (zlen (Payload (attr0 (send_msg s)))) with 512 in Htl by (unfold zlen; by rewrite Hsp).
  destruct (entry_room s r k m H Hk) as (c & _ & Hm & Hc). destruct (room_name s r k m c H Hk Hm) as [Hnz Hlen].
  pose proof Hf as [_ _ Hfl Hf0 Hf1]. pose proof Hf0 as [_ Hal0 Hp0]. pose proof Hf1 as [_ Hal1 Hp1].
  set (f := fwd_msg s) in *.
  set (m1 := mk_msg 3 FWD (MLength f) (mk_attr USERNAME (ALength (attr0 f)) (Payload (attr0 f))) (mk_attr MESSAGE (ALength (attr1 f)) (Payload (attr1 f)))).
  set (m2 := mk_msg 3 FWD (MLength f) (mk_attr USERNAME (ALength (attr0 f)) (splice (Payload (attr0 f)) 0 (m.1 ++ [0])))
               (mk_attr MESSAGE (ALength (attr1 f)) (Payload (attr1 f)))).
  destruct (fwd_shows f m.1 text Hf Hnz) as [Hwf3 Hshow]; [lia | done | done |].
  set (m3 := mk_msg 3 FWD (MLength f) (mk_attr USERNAME (ALength (attr0 f)) (splice (Payload (attr0 f)) 0 (m.1 ++ [0])))
               (mk_attr MESSAGE (ALength (attr1 f)) (splice (Payload (attr1 f)) 0 (text ++ [0])))) in *.
  assert (Hwf1 : msg_wf m1) by by (split; cbn [m1 Vrsn MType MLength attr0 attr1]; try done; split).
  assert (Hwf2 : msg_wf m2).
  { split; cbn [m2 Vrsn MType MLength attr0 attr1]; try done. apply with_text_wf; done || lia. }
  assert (Hname : for_clients m.2 name_sender (with_fwd s m1) = Done tt (with_fwd s m2)).
  { apply (for_clients_once (with_fwd s m1) r k m _ _ c); [by apply hosts_with_fwd | done | done | | left; by apply hosts_with_fwd].
    unfold name_sender, bind, get. rewrite (read_string_Some _ m.1) by apply Hm.
    rewrite payload_strcpy by (done || lia). reflexivity. }
  destruct (forward_message_spec m3 m.2 (with_fwd s m3) r) as (outs & n & Hrun & Hvis); [by apply hosts_with_fwd |].
  exists (emit (with_fwd s m3) outs n). split; [| split; [by apply hosts_emit, hosts_with_fwd | split; [done |]]].
  - unfold forward_text. unfold bind at 1, get at 1. fold f m1. unfold bind at 1, set_fwd at 1.
    fold (with_fwd s m1). unfold bind at 1. rewrite Hname.
    unfold bind at 1, get at 1. unfold bind at 1. rewrite (read_string_Some _ text) by done.
    unfold bind at 1. rewrite payload_strcpy by done. unfold bind, set_fwd, get. exact Hrun.
  - cbn [emit wrote with_fwd]. by rewrite visible_app, Hvis, Hshow.
Qed.

(** ** Leaving *)
Definition without_last (s : server) (k : nat) (d : Z) (outs : list (Z * list Z)) (n : nat) : server :=
  mk_server (max_clnt s) (srvr_fd s) (List.filter (fun x => negb (x =? d)) (master s)) (fdmax s) (clnt_count s - 1)
    (<[k := reset]> (curr_clnt s)) (send_msg s) (fwd_msg s) (join_msg s) (stack s) (built s + n) (wrote s ++ outs).

Lemma elem_of_filter_ne (d x : Z) l : x ∈ List.filter (fun y => negb (y =? d)) l <-> x ∈ l /\ x <> d.
Proof.
  rewrite !list_elem_of_In, List.filter_In. split; intros [H1 H2]; (split; [done |]).
  - intros ->. by rewrite Z.eqb_refl in H2.
  - by rewrite (proj2 (Z.eqb_neq x d)).
Qed.

Lemma hosts_without_last s r m outs n : hosts s (r ++ [m]) -> hosts (without_last s (length r) m.2 outs n) r.
Proof.
  intros [Hc Hm Ht He Hf Hma (Hnd & Hpos & Hsp) Hst Hms]. rewrite length_app in Hc, Hm. cbn [length] in Hc, Hm.
  rewrite fmap_app in Hnd, Hpos. apply NoDup_app in Hnd as (Hnd & Hdis & _). apply Forall_app in Hpos as [Hpos Hpm].
  assert (Hpm' : m.2 <> srvr_fd s) by by (inversion Hpm as [| ? ? [_ Hne] _]; subst).
  split; cbn [without_last clnt_count max_clnt curr_clnt srvr_fd master stack send_msg fwd_msg join_msg]; try done; try lia.
  - rewrite length_insert. lia.
  - intros k m' Hk. pose proof (lookup_lt_Some _ _ _ Hk). rewrite list_lookup_insert_ne by lia.
    apply He. by apply lookup_app_l_Some.
  - intros k c Hk Hl. destruct (decide (k = length r)) as [-> | Hne].
    + rewrite list_lookup_insert_eq in Hl by lia. by injection Hl as <-.
    + rewrite list_lookup_insert_ne in Hl by done. apply (Hf k); [rewrite length_app; simpl; lia | done].
  - intros d. rewrite elem_of_filter_ne, Hma, fmap_app, elem_of_app. cbn [fmap list_fmap]. rewrite list_elem_of_singleton.
    split; [intros [[Hd | [Hd | Hd]] Hne]; [by left | by right | done] |].
    intros [-> | Hd]; (split; [auto |]); [congruence |].
    intros ->. apply (Hdis m.2 Hd). by apply list_elem_of_singleton.
Qed.

Lemma on_eof_spec s r m : hosts s (r ++ [m]) ->
  exists s', on_client m.2 ReadEof s = Done tt s' /\ hosts s' r /\ same_server s s' /\
    visible (wrote s') = visible (wrote s) ++ say (others (r ++ [m]) m.2) [offline_text m.1].
Proof.
  intros H. assert (Hk : (r ++ [m]) !! length r = Some m) by by apply list_lookup_middle.
  destruct (entry_room s _ (length r) m H Hk) as (c & Hent & Hm & Hc).
  destruct (room_name s _ (length r) m c H Hk Hm) as [Hnz Hlen].
  destruct (build_one OFFLINE m.1 (lit "N/A") s) as (msg & Hmsg & Hshow); [apply H | done | lia | simpl; auto |].
  destruct (forward_message_spec msg m.2 (emit s [] 1) _ (hosts_emit _ _ _ _ H)) as (outs & n & Hrun & Hvis).
  exists (without_last s (length r) m.2 outs (1 + n)). split; [| split; [by apply hosts_without_last | split; [done |]]].
  2: { cbn [wrote without_last]. by rewrite visible_app, Hvis, Hshow. }
  unfold on_client. unfold bind at 1.
  pose proof (hosts_count _ _ H) as Hcount. rewrite length_app in Hcount. cbn [length] in Hcount.
  rewrite (for_clients_once s _ (length r) m leave
    (mk_server (max_clnt s) (srvr_fd s) (master s) (fdmax s) (clnt_count s - 1) (<[length r := reset]> (curr_clnt s))
      (send_msg s) (fwd_msg s) (join_msg s) (stack s) (built s + (1 + n)) (wrote s ++ outs)) c H Hk Hc).
  - reflexivity.
  - unfold leave. unfold bind at 1, get at 1. unfold bind at 1. rewrite (read_string_Some _ m.1) by apply Hm.
    unfold bind at 1. rewrite Hmsg. unfold bind at 1. destruct Hm as (_ & _ & ->).
    change (clnt_count s) with (clnt_count (emit s [] 1)) at 1. rewrite Hrun, emit_emit.
    assert (He : entry (Z.of_nat (length r)) (emit s ([] ++ outs) (1 + n)) = Done c (emit s ([] ++ outs) (1 + n))).
    { unfold entry. rewrite (proj2 (Z.ltb_ge _ _)), Nat2Z.id by lia. cbn [emit curr_clnt]. by rewrite Hc. }
    unfold bind at 1. unfold set_entry. unfold bind at 1. rewrite He. unfold bind, get, set_table, set_count.
    rewrite Nat2Z.id. reflexivity.
  - right. cbn [clnt_count]. lia.
Qed.

(** ** Joining *)
Lemma name_known_spec name : forall suf pre s r, hosts s r -> r = pre ++ suf ->
  name_known (length suf) (Z.of_nat (length pre)) name s = Done (bool_decide (name ∈ suf.*1)) s.
Proof.
  induction suf as [| m suf IH]; intros pre s r H Hr; [done |]. cbn [length name_known].
  assert (Hm : r !! length pre = Some m) by (subst r; by apply list_lookup_middle).
  destruct (entry_room s r (length pre) m H Hm) as (c & Hc & (Hu & _) & _).
  unfold bind at 1. rewrite Hc. unfold bind. rewrite (read_string_Some _ _ _ Hu). cbn [fmap list_fmap].
  destruct (decide (name = m.1)) as [-> | Hne].
  - rewrite bool_decide_eq_true_2 by done. rewrite bool_decide_eq_true_2; [done |]. apply list_elem_of_here.
  - rewrite bool_decide_eq_false_2 by done.
    replace (Z.of_nat (length pre) + 1) with (Z.of_nat (length (pre ++ [m]))) by (rewrite length_app; simpl; lia).
    rewrite (IH (pre ++ [m]) s r H); [| by rewrite <- app_assoc]. f_equal. apply bool_decide_ext.
    rewrite elem_of_cons. naive_solver.
Qed.

(** The names of an ACK: separated by commas, ended by a newline. *)
Fixpoint names_of (r : room) : list Z :=
  match r with
  | [] => []
  | m :: r' => m.1 ++ (match r' with [] => [10] | _ => lit ", " end) ++ names_of r'
  end.

Lemma list_names_spec : forall suf pre acc s r, hosts s r -> r = pre ++ suf ->
  zlen acc + 17 * Z.of_nat (length suf) < 512 ->
  list_names (length suf) (Z.of_nat (length pre)) (Z.of_nat (length r)) acc s = Done (acc ++ names_of suf) s.
Proof.
  induction suf as [| m suf IH]; intros pre acc s r H Hr Hacc; [by rewrite app_nil_r |].
  assert (Hm : r !! length pre = Some m) by (subst r; by apply list_lookup_middle).
  destruct (entry_room s r (length pre) m H Hm) as (c & Hc & Hent & _).
  destruct (room_name s r _ m c H Hm Hent) as [_ Hlen]. destruct Hent as (Hu & _).
  cbn [length list_names names_of]. unfold bind at 1. rewrite Hc. unfold bind. rewrite (read_string_Some _ _ _ Hu).
  assert (Hsep : (if Z.of_nat (length pre) <? Z.of_nat (length r) - 1 then lit ", " else [10])
    = match suf with [] => [10] | _ => lit ", " end).
  { subst r. rewrite length_app. cbn [length]. destruct suf; cbn [length].
    - by rewrite (proj2 (Z.ltb_ge _ _)) by lia.
    - by rewrite (proj2 (Z.ltb_lt _ _)) by lia. }
  rewrite Hsep. set (sep := match suf with [] => [10] | _ => lit ", " end).
  assert (zlen sep <= 2) by (unfold sep; destruct suf; vm_compute; congruence).
  cbn [length] in Hacc. rewrite (proj2 (Z.ltb_lt _ _)) by (rewrite !zlen_app; lia).
  replace (Z.of_nat (length pre) + 1) with (Z.of_nat (length (pre ++ [m]))) by (rewrite length_app; simpl; lia).
  rewrite (IH (pre ++ [m]) _ s r H); [by rewrite <- !app_assoc | by rewrite <- app_assoc | rewrite !zlen_app; lia].
Qed.

Lemma names_of_ends r : r <> [] -> exists p, names_of r = p ++ [10].
Proof.
  induction r as [| m r IH]; [done |]. intros _. cbn [names_of]. destruct r as [| m' r]; [exists m.1; by rewrite app_nil_r |].
  destruct IH as [p Hp]; [done |]. rewrite Hp. exists (m.1 ++ lit ", " ++ p). by rewrite <- !app_assoc.
Qed.

Lemma names_not_na old r : r <> [] -> old ++ names_of r <> lit "N/A".
Proof.
  intros Hr Heq. destruct (names_of_ends r Hr) as [p Hp]. rewrite Hp, app_assoc in Heq.
  apply (f_equal (fun l => List.last l 0)) in Heq. rewrite last_last in Heq. vm_compute in Heq. congruence.
Qed.

Lemma names_of_ok s r : hosts s r -> nonzero (names_of r) /\ zlen (names_of r) <= 17 * Z.of_nat (length r).
Proof.
  intros H. assert (Hall : Forall (fun m => nonzero m.1 /\ zlen m.1 < 16) r).
  { apply Forall_lookup. intros k m Hk. destruct (entry_room s r k m H Hk) as (c & _ & Hm & _).
    by apply (room_name s r k m c). }
  clear H. induction Hall as [| m r [Hn Hl] _ [IHn IHl]]; [split; [constructor | done] |].
  cbn [names_of length]. set (sep := match r with [] => [10] | _ => lit ", " end).
  assert (nonzero sep /\ zlen sep <= 2) as [Hs Hsl].
  { unfold sep. destruct r; (split; [by apply nonzero_dec | vm_compute; congruence]). }
  split; [by repeat (apply Forall_app; split) |]. rewrite !zlen_app. lia.
Qed.

Lemma to_string_ok n : 0 <= n -> nonzero (to_string n) /\ zlen (to_string n) < 512.
Proof.
  assert (Hd : forall f m, 0 <= m -> nonzero (digits f m) /\ zlen (digits f m) <= Z.of_nat f).
  { induction f as [| f IH]; intros m Hm; [split; [constructor | done] |]. cbn [digits].
    pose proof (Z.mod_pos_bound m 10). destruct (IH (m / 10)) as [Hn Hl]; [apply Z.div_pos; lia |].
    assert (Hp : nonzero (if m / 10 =? 0 then [] else digits f (m / 10)) /\ zlen (if m / 10 =? 0 then [] else digits f (m / 10)) <= Z.of_nat f).
    { destruct (m / 10 =? 0); [split; [constructor | rewrite zlen_nil; lia] | done]. }
    destruct Hp as [Hp Hpl]. split.
    - apply Forall_app. split; [done |]. constructor; [lia | constructor].
    - rewrite zlen_app. change (zlen [48 + m mod 10]) with 1. lia. }
  intros Hn. destruct (Hd 10%nat n Hn) as [H1 H2]. split; [done |]. unfold to_string. lia.
Qed.

(** The greeting of a client that was entered as the last of the room. *)
Lemma welcome_spec s r m : hosts s (r ++ [m]) ->
  forall s0, s0 = mk_server (max_clnt s) (srvr_fd s) (master s) (fdmax s) (clnt_count s - 1) (curr_clnt s) (send_msg s)
    (fwd_msg s) (join_msg s) (stack s) (built s) (wrote s) ->
  forall old, nonzero old -> zlen old + 17 * Z.of_nat (length (r ++ [m])) < 512 ->
  exists outs n, welcome m.2 old s0 = Done tt (emit s outs n) /\
    visible outs = (m.2, ack_text (to_string (Z.of_nat (length (r ++ [m])))) (old ++ names_of (r ++ [m])))
      :: say (others (r ++ [m]) m.2) [online_text m.1].
Proof.
  intros H s0 -> old Hold Hfit. set (r' := r ++ [m]) in *.
  assert (Hlen : length r' = S (length r)) by (unfold r'; rewrite length_app; simpl; lia).
  pose proof (hosts_count _ _ H) as Hcount. pose proof (hosts_max _ _ H) as Hmax.
  unfold welcome. unfold bind at 1, get at 1. unfold bind at 1, set_count. cbn [clnt_count].
  replace (clnt_count s - 1 + 1) with (clnt_count s) by lia.
  replace (mk_server _ _ _ _ _ _ _ _ _ _ _ _) with s by by destruct s.
  unfold bind at 1, get at 1. unfold bind at 1. rewrite Hcount, Nat2Z.id.
  pose proof (list_names_spec r' [] old s r' H eq_refl) as Hnames. change (Z.of_nat (length [])) with 0 in Hnames.
  rewrite Hnames by lia. clear Hnames. cbn [app].
  destruct (names_of_ok s r' H) as [Hnn Hnl].
  destruct (to_string_ok (Z.of_nat (length r'))) as [Htn Htl]; [lia |].
  destruct (build_ack (to_string (Z.of_nat (length r'))) (old ++ names_of r') s) as (ack & Hack & Hackshow);
    [apply H | done | done | by apply Forall_app | rewrite zlen_app; lia | apply names_not_na; unfold r'; by destruct r |].
  unfold bind at 1. rewrite Hack. unfold bind at 1, write at 1.
  replace (mk_server _ _ _ _ _ _ _ _ _ _ _ _) with (emit s [(m.2, bytes_of ack)] 1)
    by (unfold emit; cbn; by rewrite app_nil_r).
  destruct (send_null_spec m.2 (emit s [(m.2, bytes_of ack)] 1)) as (nul & Hnul & Hnulshow); [apply H |].
  unfold bind at 1. rewrite Hnul, emit_emit. cbn [app Nat.add].
  set (s2 := emit s [(m.2, bytes_of ack); (m.2, nul)] 2). assert (H2 : hosts s2 r') by by apply hosts_emit.
  assert (Hk : r' !! length r = Some m) by by apply list_lookup_middle.
  destruct (entry_room s2 r' (length r) m H2 Hk) as (c & Hc & Hm & _). destruct (room_name s2 r' _ m c H2 Hk Hm) as [Hmn Hml].
  replace (Z.of_nat (length r') - 1) with (Z.of_nat (length r)) by lia.
  unfold bind at 1. rewrite Hc. unfold bind at 1. destruct Hm as (Hu & _ & Hfd). rewrite (read_string_Some _ _ _ Hu), Hfd.
  destruct (build_one ONLINE m.1 (lit "N/A") s2) as (onl & Honl & Honlshow); [apply H2 | done | lia | simpl; auto |].
  unfold bind. rewrite Honl.
  destruct (forward_message_spec onl m.2 (emit s2 [] 1) r' (hosts_emit _ _ _ _ H2)) as (outs & n & Hrun & Hvis).
  cbn [clnt_count emit s2] in Hrun. rewrite Hcount in Hrun. fold s2 in Hrun.
  exists ([(m.2, bytes_of ack); (m.2, nul)] ++ outs), (2 + (1 + n))%nat. split.
  - unfold s2 in *. rewrite !emit_emit in *. cbn [clnt_count emit] in Hrun. exact Hrun.
  - rewrite visible_app, Hvis, Honlshow. unfold visible. cbn [map concat fst snd]. by rewrite Hackshow, Hnulshow.
Qed.

(** The server with the new client entered. *)
Definition entered (s : server) (d : Z) (j : SBCP_Message) (u : list Z) : server :=
  mk_server (max_clnt s) (srvr_fd s) (d :: master s) (Z.max (fdmax s) d) (clnt_count s + 1)
    (<[Z.to_nat (clnt_count s) := mk_clnt u d 79 (clnt_count s)]> (curr_clnt s)) (send_msg s) (fwd_msg s) j (stack s)
    (built s) (wrote s).

Lemma hosts_entered s r name d j u : hosts s r -> Z.of_nat (length r) < max_clnt s -> msg_wf j ->
  0 < d -> d <> srvr_fd s -> d ∉ r.*2 -> cstr u = Some name -> zlen u = 16 ->
  hosts (entered s d j u) (r ++ [(name, d)]).
Proof.
  intros [Hc Hm Ht He Hf Hma (Hnd & Hpos & Hsp) Hst Hms] Hlt Hj Hd Hds Hdr Hu Hul.
  assert (Hidx : Z.to_nat (clnt_count s) = length r) by lia.
  split; cbn [entered clnt_count max_clnt curr_clnt srvr_fd master stack send_msg fwd_msg join_msg]; rewrite ?Hidx; try done.
  - rewrite length_app. simpl. lia.
  - rewrite length_app. simpl. lia.
  - rewrite length_insert. lia.
  - intros k m Hk. apply lookup_app_Some in Hk as [Hk | [Hge Hk]].
    + pose proof (lookup_lt_Some _ _ _ Hk). rewrite list_lookup_insert_ne by lia. by apply He.
    + pose proof (lookup_lt_Some _ _ _ Hk) as Hk1. simpl in Hk1. replace k with (length r) in * by lia.
      rewrite Nat.sub_diag in Hk. injection Hk as <-. eexists. split; [apply list_lookup_insert_eq; lia |]. done.
  - intros k c Hk Hl. rewrite length_app in Hk. simpl in Hk. rewrite list_lookup_insert_ne in Hl by lia. apply (Hf k); [lia | done].
  - intros x. rewrite elem_of_cons, Hma, fmap_app, elem_of_app. cbn [fmap list_fmap snd]. rewrite list_elem_of_singleton. tauto.
  - rewrite fmap_app. cbn [fmap list_fmap snd]. split; [| split; [| done]].
    + apply NoDup_app. split; [done |]. split; [| apply NoDup_singleton]. intros x Hx Hx'.
      apply list_elem_of_singleton in Hx'. by subst.
    + apply Forall_app. split; [done |]. by repeat constructor.
  - tauto.
Qed.

(** A server that put [d] into its set and read the message [j] from it. *)
Definition met (s : server) (d : Z) (j : SBCP_Message) : server :=
  mk_server (max_clnt s) (srvr_fd s) (d :: master s) (Z.max (fdmax s) d) (clnt_count s) (curr_clnt s) (send_msg s)
    (fwd_msg s) j (stack s) (built s) (wrote s).

Lemma filter_absent d l : d ∉ l -> List.filter (fun x => negb (x =? d)) l = l.
Proof.
  intros Hd. induction l as [| x l IH]; [done |]. cbn [List.filter]. rewrite not_elem_of_cons in Hd. destruct Hd as [Hx Hl].
  rewrite (proj2 (Z.eqb_neq x d)) by congruence. cbn [negb]. by rewrite IH.
Qed.

(** The search for a name reads the table only. *)
Lemma name_known_table n i name s s' b : curr_clnt s' = curr_clnt s ->
  name_known n i name s = Done b s -> name_known n i name s' = Done b s'.
Proof.
  intros Ht. revert i. induction n as [| n IH]; intros i; cbn [name_known].
  - unfold ret. by intros [= <-].
  - unfold bind, entry. rewrite Ht. destruct (i <? 0); [done |]. destruct (curr_clnt s !! Z.to_nat i) as [c |]; [| done].
    unfold read_string. destruct (cstr (username c)); [| done]. unfold ret. case_bool_decide; [by intros [= <-] | apply IH].
Qed.

(** [is_clnt_exist] answers whether the name is in the room and enters it if not. *)
Lemma is_clnt_exist_spec s r d j name : hosts s r -> Z.of_nat (length r) < max_clnt s -> msg_wf j ->
  cstr (Payload (attr0 j)) = Some name -> zlen name < 16 ->
  exists u, cstr u = Some name /\ zlen u = 16 /\
  is_clnt_exist d (bytes_of j) (met s d (join_msg s))
  = if bool_decide (name ∈ r.*1) then Done true (met s d j)
    else Done false (mk_server (max_clnt s) (srvr_fd s) (d :: master s) (Z.max (fdmax s) d) (clnt_count s)
      (<[Z.to_nat (clnt_count s) := mk_clnt u d 79 (clnt_count s)]> (curr_clnt s)) (send_msg s) (fwd_msg s) j (stack s)
      (built s) (wrote s)).
Proof.
  intros H Hlt Hj Hname Hlen. pose proof (hosts_msgs _ _ H) as (_ & _ & Hjm).
  destruct (ChatClient.whole_message _ _ Hjm Hj) as [Htake Hsplice].
  pose proof (hosts_count _ _ H) as Hc.
  assert (Hknown : name_known (Z.to_nat (clnt_count s)) 0 name (met s d j) = Done (bool_decide (name ∈ r.*1)) (met s d j)).
  { rewrite Hc, Nat2Z.id. apply (name_known_table _ _ _ s); [done |]. by apply (name_known_spec name r [] s r). }
  destruct (entry_free s r (length r) H) as (c & Hent & _ & Hul & Hcc); [by left |].
  exists (splice (username c) 0 (name ++ [0])).
  destruct (cstr_nonzero _ _ Hname) as [Hnz _].
  split; [by apply cstr_splice_0 |]. split.
  { rewrite zlen_splice; [done | lia | rewrite zlen_app; change (zlen [0]) with 1; lia]. }
  unfold is_clnt_exist. unfold bind at 1, get at 1. unfold bind at 1, set_join. cbn [met join_msg max_clnt srvr_fd master fdmax clnt_count curr_clnt send_msg fwd_msg stack built wrote].
  rewrite Htake, Hsplice, of_bytes_bytes_of by done.
  fold (met s d j). unfold bind at 1, get at 1. unfold bind at 1.
  cbn [met join_msg]. rewrite (read_string_Some _ _ _ Hname). fold (met s d j). unfold bind at 1.
  change (clnt_count (met s d j)) with (clnt_count s). rewrite Hknown.
  case_bool_decide; [done |].
  assert (Hent' : entry (clnt_count s) (met s d j) = Done c (met s d j)).
  { unfold entry. rewrite Hc, (proj2 (Z.ltb_ge _ _)), Nat2Z.id by lia. cbn [met curr_clnt]. by rewrite Hcc. }
  unfold bind at 1. rewrite Hent'. unfold bind at 1, strcpy. rewrite Hul, (proj2 (Z.ltb_lt _ _)) by done. unfold ret at 1.
  unfold bind, set_entry, bind. rewrite Hent'. reflexivity.
Qed.

(** ** Specification: the room and what its members are shown *)
Definition spec_connect (max : Z) (r : room) (d : Z) (j : SBCP_Message) (old : list Z) : room * list (Z * list Z) :=
  let name := ChatClient.text_of (attr0 j) in
  if d =? -1 then (r, [])
  else if max <=? Z.of_nat (length r) then (r, [(d, lit "Too many users in the chat room!" ++ [10])])
  else if bool_decide (name ∈ r.*1) then (r, [(d, lit "Username already exist!" ++ [10])])
  else
    let r' := r ++ [(name, d)] in
    (r', (d, ack_text (to_string (Z.of_nat (length r'))) (old ++ names_of r')) :: say (others r' d) [online_text name]).

Lemma say_one ds t : say ds [t] = map (fun d => (d, t)) ds.
Proof. induction ds as [| d ds IH]; [done |]. change (say (d :: ds) [t]) with ((d, t) :: say ds [t]). by rewrite IH. Qed.

Lemma say_nothing ds : say ds [] = [].
Proof. by induction ds. Qed.

(** A connection whose message is a JOIN with a name that fits; what lay in [namelist] leaves
    room for the names. *)
Record connect_ok (s : server) (r : room) (d : Z) (j : SBCP_Message) (old : list Z) : Prop := {
  co_list : nonzero old /\ zlen old + 17 * (Z.of_nat (length r) + 1) < 512;
  co_wf : msg_wf j;
  co_name : is_Some (cstr (Payload (attr0 j))) /\ zlen (ChatClient.text_of (attr0 j)) < 16;
  co_fd : d = -1 \/ (0 < d /\ d <> srvr_fd s /\ d ∉ r.*2)
}.

Lemma on_accept_spec s r d j old : hosts s r -> connect_ok s r d j old ->
  exists s', on_accept d (bytes_of j) old s = Done tt s' /\
    same_server s s' /\ hosts s' (spec_connect (max_clnt s) r d j old).1 /\
    visible (wrote s') = visible (wrote s) ++ (spec_connect (max_clnt s) r d j old).2.
Proof.
  intros H [[Hold Hfit] Hj [[name Hname] Hlen] Hfd]. unfold spec_connect, on_accept. unfold bind at 1, get at 1.
  replace (ChatClient.text_of (attr0 j)) with name in * by (unfold ChatClient.text_of; by rewrite Hname).
  destruct (Z.eqb_spec d (-1)) as [-> | Hne]; [exists s; by rewrite app_nil_r |].
  destruct Hfd as [-> | (Hpos & Hds & Hdr)]; [done |]. rewrite (hosts_count _ _ H).
  destruct (Z.leb_spec (max_clnt s) (Z.of_nat (length r))) as [Hfull | Hroom].
  - destruct (build_nak (lit "Too many users in the chat room!") (lit "N/A") s) as [(nak & Hnak & Hshow) _];
      [apply H | by apply nonzero_dec | done |].
    unfold bind at 1. rewrite Hnak. unfold bind, write at 1.
    replace (mk_server _ _ _ _ _ _ _ _ _ _ _ _) with (emit s [(d, bytes_of nak)] 1) by (unfold emit; cbn; by rewrite app_nil_r).
    destruct (send_null_spec d (emit s [(d, bytes_of nak)] 1)) as (nul & -> & Hnul); [apply H |]. rewrite emit_emit.
    eexists. split; [reflexivity |]. split; [done |]. split; [by apply hosts_emit |].
    cbn [emit wrote]. rewrite visible_app. unfold visible at 2. cbn [map concat fst snd app]. by rewrite Hshow, Hnul.
  - destruct (is_clnt_exist_spec s r d j name H Hroom Hj Hname Hlen) as (u & Hu & Hul & Hex).
    unfold bind at 1, set_master at 1. fold (met s d (join_msg s)). unfold bind at 1. rewrite Hex.
    case_bool_decide as Hin.
    + destruct (build_nak (lit "Username already exist!") (lit "N/A") (met s d j)) as [_ (nak & Hnak & Hshow)];
        [apply H | by apply nonzero_dec | done |].
      unfold bind at 1. rewrite Hnak. unfold bind, write, get, set_master.
      cbn [emit met max_clnt srvr_fd master fdmax clnt_count curr_clnt send_msg fwd_msg join_msg stack built wrote List.filter].
      rewrite Z.eqb_refl. cbn [negb]. rewrite filter_absent.
      2: { rewrite (hosts_master _ _ H). by intros [? | ?]. }
      eexists. split; [reflexivity |]. split; [done |]. split.
      * destruct H. split; try done. cbn. tauto.
      * cbn [wrote fst snd]. rewrite app_nil_r, visible_app. unfold visible at 2. cbn [map concat fst snd app]. by rewrite Hshow.
    + pose proof (hosts_entered s r name d j u H Hroom Hj Hpos Hds Hdr Hu Hul) as Hent.
      destruct (welcome_spec (entered s d j u) r (name, d) Hent _ eq_refl old Hold) as (outs & n & Hrun & Hvis); [rewrite length_app; cbn [length]; lia |].
      cbn [entered max_clnt srvr_fd master fdmax clnt_count curr_clnt send_msg fwd_msg join_msg stack built wrote fst snd] in Hrun, Hvis.
      replace (clnt_count s + 1 - 1) with (clnt_count s) in Hrun by lia. fold (entered s d j u) in Hrun.
      exists (emit (entered s d j u) outs n). split; [exact Hrun |]. split; [done |].
      split; [by apply hosts_emit |]. cbn [emit entered wrote snd]. by rewrite visible_app, Hvis.
Qed.

(** ** What happens in a room *)
(** [old]: the string that lies in [namelist] when a client joins. *)
Inductive happening := Joins (d : Z) (j : SBCP_Message) (old : list Z) | Sends (d : Z) (m : SBCP_Message) | Leaves (d : Z).
Definition event_of (h : happening) : event :=
  match h with
  | Joins d j old => Connect d (bytes_of j) old
  | Sends d m => Client d (ReadBytes (bytes_of m))
  | Leaves d => Client d ReadEof
  end.

Fixpoint name_of (r : room) (d : Z) : option (list Z) :=
  match r with
  | [] => None
  | m :: r' => if m.2 =? d then Some m.1 else name_of r' d
  end.

(** What the others are shown of a message; [heard]: the Length of [fwd_msg], which the
    server never sets, is at most the size of a message. *)
Definition told (heard : bool) (name : list Z) (m : SBCP_Message) : list (list Z) :=
  if MType m =? IDLE then [idle_text name] else if heard then fwd_text name (ChatClient.text_of (attr0 m)) else [].

Definition spec_step (max : Z) (heard : bool) (r : room) (h : happening) : room * list (Z * list Z) :=
  match h with
  | Joins d j old => spec_connect max r d j old
  | Sends d m => (r, match name_of r d with Some name => say (others r d) (told heard name m) | None => [] end)
  | Leaves d => (removelast r, match name_of r d with Some name => say (others r d) [offline_text name] | None => [] end)
  end.

(** Messages are whole, with terminated strings; only the client that joined last
    leaves. *)
Definition orderly (s : server) (r : room) (h : happening) : Prop :=
  match h with
  | Joins d j old => connect_ok s r d j old
  | Sends d m => d ∈ r.*2 /\ msg_wf m /\ is_Some (cstr (Payload (attr0 m)))
  | Leaves d => exists r0 name, r = r0 ++ [(name, d)]
  end.

Lemma name_of_lookup r k m : NoDup r.*2 -> r !! k = Some m -> name_of r m.2 = Some m.1.
Proof.
  revert k. induction r as [| m' r IH]; intros k Hnd Hk; [done |]. cbn [fmap list_fmap] in Hnd.
  apply NoDup_cons in Hnd as [Hnot Hnd]. destruct k as [| k]; cbn [name_of].
  - injection Hk as ->. by rewrite Z.eqb_refl.
  - simpl in Hk. rewrite (proj2 (Z.eqb_neq _ _)); [by apply (IH k) |]. intros Heq. apply Hnot. rewrite Heq.
    apply list_elem_of_fmap. exists m. split; [done |]. by eapply list_elem_of_lookup_2.
Qed.

Definition hears (s : server) : bool := MLength (fwd_msg s) <=? SIZE.

Definition with_send (s : server) (m : SBCP_Message) : server :=
  mk_server (max_clnt s) (srvr_fd s) (master s) (fdmax s) (clnt_count s) (curr_clnt s) m (fwd_msg s)
    (join_msg s) (stack s) (built s) (wrote s).
Lemma hosts_with_send s r m : hosts s r -> msg_wf m -> hosts (with_send s m) r.
Proof. intros [] Hm. split; try done. cbn. tauto. Qed.

Lemma on_message_spec s r d m : hosts s r -> orderly s r (Sends d m) ->
  exists s', on_client d (ReadBytes (bytes_of m)) s = Done tt s' /\ hosts s' r /\ same_server s s' /\
    visible (wrote s') = visible (wrote s) ++ (spec_step (max_clnt s) (hears s) r (Sends d m)).2.
Proof.
  intros H (Hd & Hm & [text Htext]). apply list_elem_of_fmap in Hd as (c & -> & Hin).
  apply list_elem_of_lookup in Hin as [k Hk]. cbn [spec_step snd].
  rewrite (name_of_lookup r k c) by (done || apply H).
  pose proof (hosts_msgs _ _ H) as (Hsm & _). destruct (ChatClient.whole_message _ _ Hsm Hm) as [Htake Hsplice].
  unfold on_client. unfold bind at 1, get at 1. rewrite Htake, Hsplice, of_bytes_bytes_of by done.
  unfold bind at 1, set_send. fold (with_send s m). unfold bind at 1, get at 1. cbn [with_send send_msg]. fold (with_send s m).
  pose proof (hosts_with_send s r m H Hm) as H1. unfold told. destruct (MType m =? IDLE).
  - destruct (on_idle_spec _ r k c H1 Hk) as (outs & n & Hrun & Hvis). rewrite Hrun. eexists. split; [reflexivity |].
    split; [by apply hosts_emit |]. split; [done |]. cbn [emit with_send wrote]. by rewrite visible_app, Hvis.
  - destruct (forward_text_spec _ r k c text H1 Hk) as (s' & Hrun & Hs' & Hsame & Hvis); [done |].
    exists s'. split; [done |]. split; [done |]. split; [done |]. rewrite Hvis.
    replace (ChatClient.text_of (attr0 m)) with text; [done |]. unfold ChatClient.text_of. by rewrite Htext.
Qed.

Lemma step_spec s r h : hosts s r -> orderly s r h ->
  exists s', handle (event_of h) s = Done tt s' /\ hosts s' (spec_step (max_clnt s) (hears s) r h).1 /\ same_server s s' /\
    visible (wrote s') = visible (wrote s) ++ (spec_step (max_clnt s) (hears s) r h).2.
Proof.
  intros H Ho. destruct h as [d j old | d m | d].
  - destruct (on_accept_spec s r d j old H Ho) as (s' & Hrun & Hsame & Hs' & Hvis). by exists s'.
  - by apply on_message_spec.
  - destruct Ho as (r0 & name & ->). destruct (on_eof_spec s r0 (name, d) H) as (s' & Hrun & Hs' & Hsame & Hvis).
    exists s'. split; [done |]. cbn [spec_step fst snd]. rewrite removelast_last. split; [done |]. split; [done |].
    pose proof (name_of_lookup (r0 ++ [(name, d)]) (length r0) (name, d)) as Hname. cbn [fst snd] in Hname.
    rewrite Hname; [done | apply H | by apply list_lookup_middle].
Qed.

Fixpoint spec_room (max : Z) (heard : bool) (r : room) (hs : list happening) : room * list (Z * list Z) :=
  match hs with
  | [] => (r, [])
  | h :: hs' =>
      let '(r1, o1) := spec_step max heard r h in
      let '(r2, o2) := spec_room max heard r1 hs' in (r2, o1 ++ o2)
  end.
Fixpoint all_orderly (s : server) (r : room) (hs : list happening) : Prop :=
  match hs with
  | [] => True
  | h :: hs' => orderly s r h /\ all_orderly s (spec_step (max_clnt s) (hears s) r h).1 hs'
  end.

Lemma all_orderly_same s s' hs : same_server s s' -> forall r, all_orderly s r hs -> all_orderly s' r hs.
Proof.
  intros (Hm & Hf & Hl). assert (Hh : hears s' = hears s) by (unfold hears; by rewrite Hl). induction hs as [| h hs IH]; intros r; [done |]. intros [Ho Hrest]. split.
  - destruct h as [d j old | |]; [| done | done]. destruct Ho as [H0 H1 H2 H3]. split; [done | done | done |]. by rewrite Hf.
  - rewrite Hm, Hh. by apply IH.
Qed.

(** The start of [main] and [sbcp]: the listening descriptor is in the set, the table's
    first three entries are reset. *)
Definition start (max srvr : Z) (table : list clnt_info) (m1 m2 m3 : SBCP_Message) (stk : nat -> SBCP_Message) : server :=
  mk_server max srvr [srvr] srvr 0 (start_table table) m1 m2 m3 stk 0 [].

Lemma start_hosts max srvr table m1 m2 m3 stk :
  1 <= max <= 28 -> 0 < srvr -> Z.of_nat (length table) = max + 2 ->
  Forall (fun c => fd c <= 0 /\ zlen (username c) = 16) table ->
  msg_wf m1 -> msg_wf m2 -> msg_wf m3 -> (forall n, msg_wf (stk n) /\ MLength (stk n) <= SIZE) ->
  hosts (start max srvr table m1 m2 m3 stk) [].
Proof.
  intros Hmax Hsr Hlen Htab H1 H2 H3 Hstk. split; simpl; try done; try lia.
  - rewrite length_drop. lia.
  - intros k c _ Hk. assert (Hall : Forall (fun c => fd c <= 0 /\ zlen (username c) = 16) (start_table table)).
    { unfold start_table. apply Forall_app. split; [apply Forall_replicate; done | by apply Forall_drop]. }
    exact (proj1 (Forall_lookup _ _) Hall k c Hk).
  - intros d. rewrite list_elem_of_singleton. split; [by left | intros [-> | Hd]; [done |]]. by apply not_elem_of_nil in Hd.
  - split; [constructor | split; [constructor | done]].
Qed.

Lemma serve_room hs : forall s r,
  hosts s r -> all_orderly s r hs ->
  exists s', serve (map event_of hs) s = Done tt s' /\ hosts s' (spec_room (max_clnt s) (hears s) r hs).1 /\
    visible (wrote s') = visible (wrote s) ++ (spec_room (max_clnt s) (hears s) r hs).2.
Proof.
  induction hs as [| h hs IH]; intros s r H Ho; [exists s; by rewrite app_nil_r |]. destruct Ho as [Ho Hrest].
  destruct (step_spec s r h H Ho) as (s1 & Hrun & H1 & Hsame & Hvis). cbn [map serve spec_room]. unfold bind. rewrite Hrun.
  destruct (IH s1 _ H1 (all_orderly_same s s1 hs Hsame _ Hrest)) as (s2 & Hrun2 & H2 & Hvis2).
  destruct Hsame as (Hm & _ & Hl). assert (Hh : hears s1 = hears s) by (unfold hears; by rewrite Hl). rewrite Hm, Hh in H2, Hvis2. exists s2. split; [done |].
  destruct (spec_step (max_clnt s) (hears s) r h) as [r1 o1]. cbn [fst snd] in *.
  destruct (spec_room (max_clnt s) (hears s) r1 hs) as [r2 o2]. cbn [fst snd] in *. split; [done |].
  rewrite Hvis2, Hvis. by rewrite app_assoc.
Qed.

(** ** Properties *)

(** The chat server as a room.  From any state that holds a room, and so from its
    start, for every sequence of connections, messages and departures in which only
    the client that joined last leaves, the server stays inside its arrays, holds the
    room of the specification (refusing connections beyond the limit and names in use),
    and its clients are shown exactly what the specification says: the greeting with
    the names, the notices of joins, departures and idle clients, and each text under
    its sender's name, to all members but the sender.*)
Lemma server_refines_room hs : forall s r,
  hosts s r -> all_orderly s r hs ->
  exists s', serve (map event_of hs) s = Done tt s' /\ hosts s' (spec_room (max_clnt s) (hears s) r hs).1 /\
    visible (wrote s') = visible (wrote s) ++ (spec_room (max_clnt s) (hears s) r hs).2.
Proof. apply serve_room. Qed.

(** C22: from keyboard to screen: the bytes that a client sends for a typed line other than
    "N/A", whatever its stack held, reach the server as a message for which every other
    member of the room is shown the sender's name and the line, and nobody else anything;
    but when the Length of [fwd_msg], which the server never sets, is larger than a message,
    the line is shown to nobody. *)
Theorem line_reaches_room msg text c s r d name :
  msg_wf msg -> nonzero text -> zlen text < 512 -> text <> lit "N/A" -> hosts s r -> (name, d) ∈ r ->
  exists bytes c' s', ChatClient.SEND_MSG msg true text c = Done SIZE c' /\
    ChatClient.sent c' = ChatClient.sent c ++ [bytes] /\
    on_client d (ReadBytes bytes) s = Done tt s' /\ hosts s' r /\
    visible (wrote s') = visible (wrote s) ++
      (if MLength (fwd_msg s) <=? SIZE then map (fun d' => (d', name ++ lit ": " ++ text ++ [10])) (others r d) else []).
Proof.
  intros Hmsg Hn Hl Hna H Hin. destruct (ChatClient.text_frame msg text Hmsg Hn Hl) as (m & Hsend & Hwf & Hframe).
  assert (Hm : MType m =? IDLE = false /\ cstr (Payload (attr0 m)) = Some text).
  { unfold ChatClient.frame_of in Hframe. destruct (negb _); [done |].
    destruct (_ && _); [by destruct (cstr _) |]. destruct ((MType m =? SEND) && _) eqn:E.
    - destruct (cstr (Payload (attr0 m))); [| done]. injection Hframe as ->. split; [| done].
      apply andb_prop in E as [E%Z.eqb_eq _]. by rewrite E.
    - by destruct (MType m =? IDLE). }
  destruct Hm as [Hidle Htext]. pose proof Hin as [k Hk]%list_elem_of_lookup.
  destruct (on_message_spec s r d m H) as (s' & Hrun & Hs' & _ & Hvis).
  { split; [| split; [done | by eexists]]. apply list_elem_of_fmap. by exists (name, d). }
  eexists (bytes_of m), _, s'. split; [rewrite Hsend; reflexivity |]. split; [done |]. split; [done |]. split; [done |].
  rewrite Hvis. cbn [spec_step snd]. pose proof (name_of_lookup r k (name, d)) as Hname. cbn [fst snd] in Hname.
  rewrite Hname by (done || apply H).
  unfold told, hears. rewrite Hidle. destruct (_ <=? _); [| by rewrite say_nothing]. unfold fwd_text, ChatClient.text_of. rewrite Htext.
  change (default [] (Some text)) with text. rewrite bool_decide_eq_false_2 by done. by rewrite say_one.
Qed.

(** *** Witnesses *)
Definition blank : SBCP_Message := of_bytes (replicate 1036 0).
Definition sample_server : server :=
  start 2 3 (replicate 4 (mk_clnt (replicate 16 7) 0 0 0)) blank blank blank (fun _ => ChatClient.junk).
Definition says (ty aty : Z) (t : list Z) : SBCP_Message :=
  mk_msg VERSION ty 0 (ChatClient.sample_text aty t) (mk_attr EMPTY 0 (replicate 512 0)).

Lemma blank_wf : msg_wf blank.
Proof. apply of_bytes_wf; [| done]. apply Forall_replicate. unfold is_byte. lia. Qed.

Lemma sample_hosts : hosts sample_server [].
Proof.
  apply start_hosts; [done | done | done | | | | |]; try apply blank_wf.
  - apply Forall_replicate. done.
  - intros _. split; [exact ChatClient.junk_wf | by vm_compute].
Qed.

Definition ann : SBCP_Message := says JOIN USERNAME (lit "ann").
Definition bob : SBCP_Message := says JOIN USERNAME (lit "bob").
Definition hi : SBCP_Message := says SEND MESSAGE (lit "hi").
Definition sample_day : list happening := [Joins 4 ann []; Joins 5 ann []; Joins 5 bob []; Joins 6 hi []; Sends 5 hi; Leaves 5; Sends 4 hi].

Lemma says_ann_wf : msg_wf ann /\ msg_wf bob /\ msg_wf hi.
Proof. repeat split; vm_compute; congruence. Qed.

Lemma says_connect s r d j : msg_wf j -> is_Some (cstr (Payload (attr0 j))) -> zlen (ChatClient.text_of (attr0 j)) < 16 ->
  0 < d -> d <> srvr_fd s -> bool_decide (d ∈ r.*2) = false -> (length r <= 2)%nat -> connect_ok s r d j [].
Proof.
  intros. split; [split; [constructor | rewrite zlen_nil; lia] | done | done |]. right. split; [done |]. split; [done |]. by apply (bool_decide_eq_false_1 (d ∈ r.*2)).
Qed.

Lemma sample_day_orderly : all_orderly sample_server [] sample_day.
Proof.
  destruct says_ann_wf as (Ha & Hb & Hh).
  repeat (split;
    [ match goal with
      | |- orderly _ _ (Joins _ _ _) => apply says_connect; [assumption | by eexists | reflexivity | reflexivity | discriminate | reflexivity | vm_compute; lia]
      | |- orderly _ _ (Leaves _) => by exists [(lit "ann", 4)], (lit "bob")
      | |- _ => split; [by apply (bool_decide_eq_true_1 (_ ∈ _)) | split; [assumption | by eexists]]
      end |]).
  exact I.
Qed.

Lemma server_refines_room_witness :
  exists s', serve (map event_of sample_day) sample_server = Done tt s' /\ hosts s' [(lit "ann", 4)] /\
    visible (wrote s') =
      [(4, ack_text (lit "1") (lit "ann" ++ [10]));
       (5, lit "Username already exist!" ++ [10]);
       (5, ack_text (lit "2") (lit "ann, bob" ++ [10])); (4, online_text (lit "bob"));
       (6, lit "Too many users in the chat room!" ++ [10]);
       (4, lit "bob: hi" ++ [10]); (4, offline_text (lit "bob"))].
Proof. apply (server_refines_room sample_day sample_server []); [exact sample_hosts | exact sample_day_orderly]. Defined.

Lemma met_hosts : hosts (final (serve (map event_of [Joins 4 ann []; Joins 5 bob []]) sample_server)) [(lit "ann", 4); (lit "bob", 5)].
Proof.
  destruct says_ann_wf as (Ha & Hb & _).
  destruct (step_spec sample_server [] (Joins 4 ann []) sample_hosts) as (s1 & H1 & Hh1 & (Hm1 & Hf1 & Hl1) & _).
  { apply says_connect; [done | by eexists | reflexivity | reflexivity | discriminate | reflexivity | vm_compute; lia]. }
  destruct (step_spec s1 [(lit "ann", 4)] (Joins 5 bob [])) as (s2 & H2 & Hh2 & _); [exact Hh1 | |].
  { apply says_connect; [done | by eexists | reflexivity | reflexivity | rewrite Hf1; discriminate | reflexivity | vm_compute; lia]. }
  cbn [map serve]. unfold bind. rewrite H1, H2. rewrite Hm1 in Hh2. exact Hh2.
Qed.

Lemma line_reaches_room_witness :
  let s := final (serve (map event_of [Joins 4 ann []; Joins 5 bob []]) sample_server) in
  exists bytes c' s', ChatClient.SEND_MSG ChatClient.junk true (lit "hello") ChatClient.sample_client = Done SIZE c' /\
    ChatClient.sent c' = ChatClient.sent ChatClient.sample_client ++ [bytes] /\
    on_client 5 (ReadBytes bytes) s = Done tt s' /\ hosts s' [(lit "ann", 4); (lit "bob", 5)] /\
    visible (wrote s') = visible (wrote s) ++ map (fun d' => (d', lit "bob" ++ lit ": " ++ lit "hello" ++ [10])) [4].
Proof.
  apply (line_reaches_room ChatClient.junk (lit "hello") ChatClient.sample_client
    (final (serve (map event_of [Joins 4 ann []; Joins 5 bob []]) sample_server)) [(lit "ann", 4); (lit "bob", 5)] 5 (lit "bob")).
  - exact ChatClient.junk_wf.
  - apply nonzero_dec. reflexivity.
  - reflexivity.
  - discriminate.
  - exact met_hosts.
  - right. left.
Defined.

(** When an older client leaves, the table is not closed up: the newer one falls behind
    the count and its entry is given to the next client.  Here bob, still connected, is
    shown that ann left and then nothing more: neither that eve joined nor what she
    writes. *)
Definition eve : SBCP_Message := says JOIN USERNAME (lit "eve").
Lemma older_departure_forgets_newer :
  visible (wrote (final (serve (map event_of [Joins 4 ann []; Joins 5 bob []; Leaves 4; Joins 6 eve []; Sends 6 hi]) sample_server))) =
    [(4, ack_text (lit "1") (lit "ann" ++ [10]));
     (5, ack_text (lit "2") (lit "ann, bob" ++ [10])); (4, online_text (lit "bob"));
     (5, offline_text (lit "ann"));
     (6, ack_text (lit "2") (lit ", eve" ++ [10]))].
Proof. vm_compute. reflexivity. Qed.
End ChatServer.
