(* ===== verification/ChatSetup.v ===== *)
(** * Assignment 2: from the command line to the chat

    The constructor of the server class and [main] of [server_main.cpp], the start of
    [sbcp], [close_port] and the unused [forward_message_char] of [server.cpp], and the
    part of [main] of [client.c] that makes the connection.  They end where the models of
    [ChatServer.v] and [ChatClient.v] begin, and the theorem puts both together: from the
    arguments and the addresses of the machine to the chat room of the specification.

    The state is the descriptors that are open and the server object.  The answers of
    the network calls are inputs: an address of the list from [getaddrinfo] comes with the
    descriptor that [socket] returns for it (negative: an error) and the answer of [bind]. *)

From S2P Require Import Prelude CMem Sbcp ChatClient ChatServer.
From stdpp Require Import base list.
From Stdlib Require Import ZArith Lia.
From Stdlib Require String.
Import String.StringSyntax.
Open Scope Z_scope.

Module ChatSetup.
Import Sbcp ChatServer.

Record address := mk_address { socket_fd : Z; bind_ok : bool }.
Record world := mk_world { fds : list Z; srv : server }.
Abbreviation N := (M world).

Definition socket (p : address) : N Z := fun w =>
  Done (socket_fd p) (if socket_fd p <? 0 then w else mk_world (fds w ++ [socket_fd p]) (srv w)).
Definition close (d : Z) : N unit := fun w =>
  Done tt (mk_world (List.filter (fun d' => negb (d' =? d)) (fds w)) (srv w)).

(** A method that works on the object alone. *)
Definition method {A} (m : D A) : N A := fun w =>
  match m (srv w) with
  | Done a s => Done a (mk_world (fds w) s)
  | Exited c s => Exited c (mk_world (fds w) s)
  | Undef f s => Undef f (mk_world (fds w) s)
  end.

(** ** The constructor *)
Fixpoint bind_loop (ai : list address) : N (option Z) :=
  match ai with
  | [] => ret None
  | p :: rest =>
      let* srvr_fd := socket p in
      if srvr_fd <? 0 then bind_loop rest
      else if negb (bind_ok p) then close srvr_fd ;;; bind_loop rest
      else ret (Some srvr_fd)
  end.

(** The fields set before the addresses are asked for; [fresh] is what the new table holds. *)
Definition create (fresh : nat -> clnt_info) (max_clnt0 : Z) : D unit := fun s =>
  if negb ((- 2147483648 <=? max_clnt0 + 2) && (max_clnt0 + 2 <=? 2147483647)) then Undef IntOverflow s
  else if max_clnt0 + 2 <? 0 then Undef Uncaught s
  else Done tt (mk_server max_clnt0 (srvr_fd s) [] (fdmax s) 0 (fresh <$> seq 0 (Z.to_nat (max_clnt0 + 2)))
    (send_msg s) (fwd_msg s) (join_msg s) (stack s) (built s) (wrote s)).
Definition listening (d : Z) : D unit := fun s =>
  Done tt (mk_server (max_clnt s) d (d :: master s) d (clnt_count s) (curr_clnt s)
    (send_msg s) (fwd_msg s) (join_msg s) (stack s) (built s) (wrote s)).

Definition Server (fresh : nat -> clnt_info) (max_clnt0 : Z) (ai : option (list address)) (listen_ok : bool) : N unit :=
  method (create fresh max_clnt0) ;;;
  match ai with
  | None => exit 1
  | Some l =>
      let* p := bind_loop l in
      match p with
      | None => exit 2
      | Some d => if listen_ok then method (listening d) else exit 3
      end
  end.

(** ** [sbcp] *)
Fixpoint reset_loop (n : nat) (i : Z) : D unit :=
  match n with
  | O => ret tt
  | S n' => set_entry i reset ;;; reset_loop n' (i + 1)
  end.

(** The events that [select] reports; it never ends unless [select] fails. *)
Definition sbcp (es : list event) (select_fails : bool) : D unit :=
  reset_loop 3 0 ;;;
  serve es ;;;
  if select_fails then exit 4 else ret tt.

Definition close_port : N Z :=
  let* s := method get in
  close (srvr_fd s) ;;;
  ret 0.

(** [main]; [close_port] behind the call of [sbcp] is never reached. *)
Definition main (fresh : nat -> clnt_info) (argc : Z) (arg3 : list Z) (ai : option (list address)) (listen_ok : bool)
    (es : list event) (select_fails : bool) : N unit :=
  if argc <? 4 then exit 1
  else
    Server fresh (atoi arg3) ai listen_ok ;;;
    method (sbcp es select_fails).

(** ** [forward_message_char]: bytes to every descriptor of the set but two *)
Definition forward_char_one (buffer : list Z) (self_fd buff_size j : Z) : D unit := fun s =>
  if isset j (master s) && negb (j =? srvr_fd s) && negb (j =? self_fd) then
    if in_bounds buffer 0 buff_size then
      Done tt (mk_server (max_clnt s) (srvr_fd s) (master s) (fdmax s) (clnt_count s) (curr_clnt s)
        (send_msg s) (fwd_msg s) (join_msg s) (stack s) (built s) (wrote s ++ [(j, slice buffer 0 buff_size)]))
    else Undef OutOfBounds s
  else Done tt s.
Fixpoint forward_char_loop (n : nat) (j : Z) (buffer : list Z) (self_fd buff_size : Z) : D unit :=
  match n with
  | O => ret tt
  | S n' => forward_char_one buffer self_fd buff_size j ;;; forward_char_loop n' (j + 1) buffer self_fd buff_size
  end.
Definition forward_message_char (buffer : list Z) (self_fd buff_size : Z) : D unit := fun s =>
  forward_char_loop (Z.to_nat (fdmax s + 1)) 0 buffer self_fd buff_size s.

(** ** The client: arguments, address, connection

    When [getaddrinfo] fails the program prints a message and goes on with a pointer that
    was never assigned. *)
Definition client_main (argc : Z) (getaddrinfo socket connect : Z)
    (username : list Z) (msg : SBCP_Message) (ok : bool) (t0 : Z) (rs : list ChatClient.round_in) : M ChatClient.client bool :=
  if negb (argc =? 4) then exit 1
  else if negb (getaddrinfo =? 0) then undef Uninitialised
  else if socket <=? -1 then exit (-1)
  else if connect <=? -1 then exit (-1)
  else ChatClient.main username msg ok t0 rs.

(** ** Binding *)

(** The address that is taken. *)
Definition usable (p : address) : bool := (0 <=? socket_fd p) && bind_ok p.

(** Descriptors that [socket] returns are not in use. *)
Definition unused (open : list Z) (ai : list address) : Prop := Forall (fun p => socket_fd p ∉ open) ai.

Lemma close_last d l s : d ∉ l -> close d (mk_world (l ++ [d]) s) = Done tt (mk_world l s).
Proof.
  intros Hd. unfold close. cbn [fds srv]. rewrite List.filter_app. cbn [List.filter]. rewrite Z.eqb_refl. cbn [negb]. rewrite app_nil_r.
  do 2 f_equal. clear s. induction l as [| a l IH]; [done |]. apply not_elem_of_cons in Hd as [Hne Hd]. cbn [List.filter].
  rewrite (proj2 (Z.eqb_neq a d)) by done. cbn [negb]. f_equal. by apply IH.
Qed.

(** The first usable address is bound; every other socket is closed again. *)
Lemma bind_loop_spec ai : forall w, unused (fds w) ai ->
  bind_loop ai w = match find usable ai with
    | Some p => Done (Some (socket_fd p)) (mk_world (fds w ++ [socket_fd p]) (srv w))
    | None => Done None w
    end.
Proof.
  induction ai as [| p ai IH]; intros w Hw; [by destruct w |]. apply list.Forall_cons in Hw as [Hp Hw].
  cbn [bind_loop find]. unfold usable at 1, bind at 1, socket. rewrite (Z.leb_antisym (socket_fd p) 0). destruct (Z.ltb_spec (socket_fd p) 0) as [Hn | Hn].
  - cbn [negb andb]. by apply IH.
  - cbn [negb andb]. destruct (bind_ok p); cbn [negb]; [done |]. unfold bind. rewrite close_last by done.
    destruct w as [l s]. cbn [fds srv] in *. by apply (IH (mk_world l s)).
Qed.

(** ** The start of the table *)
Lemma reset_three s : (3 <= length (curr_clnt s))%nat ->
  reset_loop 3 0 s = Done tt (mk_server (max_clnt s) (srvr_fd s) (master s) (fdmax s) (clnt_count s) (start_table (curr_clnt s))
    (send_msg s) (fwd_msg s) (join_msg s) (stack s) (built s) (wrote s)).
Proof.
  intros Hl. destruct s as [mx sd ms fm cc tab m1 m2 m3 stk b wr]. cbn [curr_clnt] in *.
  destruct tab as [| a [| a' [| a'' tab]]]; cbn in Hl; [lia.. |]. reflexivity.
Qed.

Lemma reset_overruns s : (length (curr_clnt s) < 3)%nat -> exists s', reset_loop 3 0 s = Undef OutOfBounds s'.
Proof.
  intros Hl. destruct s as [mx sd ms fm cc tab m1 m2 m3 stk b wr]. cbn [curr_clnt] in *.
  destruct tab as [| a [| a' [| a'' tab]]]; cbn in Hl; [by eexists.. | lia].
Qed.

Lemma create_ok fresh m s : -2 <= m <= 2147483645 ->
  create fresh m s = Done tt (mk_server m (srvr_fd s) [] (fdmax s) 0 (fresh <$> seq 0 (Z.to_nat (m + 2)))
    (send_msg s) (fwd_msg s) (join_msg s) (stack s) (built s) (wrote s)).
Proof.
  intros Hm. unfold create. rewrite (proj2 (Z.leb_le _ _)), (proj2 (Z.leb_le _ _)) by lia. cbn [andb negb].
  by rewrite (proj2 (Z.ltb_ge _ _)) by lia.
Qed.

(** An object before the constructor: nothing written, its buffers and its table hold
    anything, except that old descriptors in the table are not positive and that the Length
    fields of the structs built later are not larger than a message. *)
Record untouched (fresh : nat -> clnt_info) (s : server) : Prop := {
  untouched_table : forall k, fd (fresh k) <= 0 /\ zlen (username (fresh k)) = 16;
  untouched_msgs : msg_wf (send_msg s) /\ msg_wf (fwd_msg s) /\ msg_wf (join_msg s) /\ forall n, msg_wf (stack s n) /\ MLength (stack s n) <= SIZE;
  untouched_out : built s = 0%nat /\ wrote s = []
}.

(** The object that the constructor and the first loop of [sbcp] leave. *)
Definition started (fresh : nat -> clnt_info) (max d : Z) (s : server) : server :=
  start max d (fresh <$> seq 0 (Z.to_nat (max + 2))) (send_msg s) (fwd_msg s) (join_msg s) (stack s).

Lemma started_hosts fresh max d s : untouched fresh s -> 1 <= max <= 28 -> 0 < d -> hosts (started fresh max d s) [].
Proof.
  intros [Ht (H1 & H2 & H3 & Hs) _] Hmax Hd. apply start_hosts; try done.
  - rewrite length_fmap, length_seq. lia.
  - apply Forall_fmap, Forall_forall. intros k _. apply Ht.
Qed.

(** The constructor, with every way it can end. *)
Lemma Server_spec fresh max l listen_ok w : -2 <= max <= 2147483645 -> unused (fds w) l ->
  exists s0, (forall d, listening d s0 = Done tt (mk_server max d [d] d 0 (fresh <$> seq 0 (Z.to_nat (max + 2)))
      (send_msg (srv w)) (fwd_msg (srv w)) (join_msg (srv w)) (stack (srv w)) (built (srv w)) (wrote (srv w)))) /\
    Server fresh max (Some l) listen_ok w = match find usable l with
      | None => Exited 2 (mk_world (fds w) s0)
      | Some p => if listen_ok then method (listening (socket_fd p)) (mk_world (fds w ++ [socket_fd p]) s0)
                  else Exited 3 (mk_world (fds w ++ [socket_fd p]) s0)
      end.
Proof.
  intros Hmax Hu. exists (mk_server max (srvr_fd (srv w)) [] (fdmax (srv w)) 0 (fresh <$> seq 0 (Z.to_nat (max + 2)))
    (send_msg (srv w)) (fwd_msg (srv w)) (join_msg (srv w)) (stack (srv w)) (built (srv w)) (wrote (srv w))).
  split; [done |]. unfold Server, bind at 1, method at 1. rewrite create_ok by done.
  unfold bind. rewrite bind_loop_spec by done. cbn [fds srv]. destruct (find usable l); [| done]. by destruct listen_ok.
Qed.


(** *** Witness: the second of three addresses is taken *)
Definition sample_fresh (k : nat) : clnt_info := mk_clnt (replicate 16 7) 0 0 0.
Definition sample_world : world :=
  mk_world [0; 1; 2] (mk_server 0 0 [] 0 0 [] blank blank blank (fun _ => ChatClient.junk) 0 []).
Definition sample_addresses : list address := [mk_address 3 false; mk_address 3 true; mk_address 3 true].

End ChatSetup.
