(* ===== verification/QueryCache.v ===== *)
(** * [assignment4/query_cache.cpp]: the cache of the web proxy

    A doubly linked list of requests, the newest first, on a heap of nodes, with a
    counter.  [delete] removes a node from the heap, so following a pointer to it is
    [UseAfterFree]; memory that is not released simply stays on the heap.  The strings
    of a request are not changed once it is parsed, so they are values here; the
    field [accessed], which is never read, is left out. *)

From S2P Require Import Prelude CMem.
From stdpp Require Import base list gmap.
From Stdlib Require Import ZArith Lia.
From Stdlib Require String.
Import String.StringSyntax.
Open Scope Z_scope.

Module QueryCache.

Definition cachesize : Z := 10.

Record request_info := mk_request { address : list Z; resource : list Z; expires : Z }.
Record cache_node := mk_node { req : request_info; next : option nat; prev : option nat }.

Record query_cache := mk_cache {
  heap : gmap nat cache_node;
  brk : nat;                      (* the next address [new] gives out *)
  head : option nat;
  curr_cache_size : Z
}.
Definition query_cache_new : query_cache := mk_cache ∅ 0 None 0.
Abbreviation D := (M query_cache).

(** ** Memory accesses *)
Definition get : D query_cache := fun s => Done s s.
Definition deref (p : option nat) : D (nat * cache_node) := fun s =>
  match p with
  | None => Undef NullPointer s
  | Some l => match heap s !! l with Some n => Done (l, n) s | None => Undef UseAfterFree s end
  end.
Definition set_node (l : nat) (n : cache_node) : D unit := fun s =>
  Done tt (mk_cache (<[l := n]> (heap s)) (brk s) (head s) (curr_cache_size s)).
Definition set_next (p v : option nat) : D unit :=
  let* ln := deref p in set_node ln.1 (mk_node (req ln.2) v (prev ln.2)).
Definition set_prev (p v : option nat) : D unit :=
  let* ln := deref p in set_node ln.1 (mk_node (req ln.2) (next ln.2) v).
Definition set_head (v : option nat) : D unit := fun s =>
  Done tt (mk_cache (heap s) (brk s) v (curr_cache_size s)).
Definition add_size (d : Z) : D unit := fun s =>
  Done tt (mk_cache (heap s) (brk s) (head s) (curr_cache_size s + d)).
Definition new_node (r : request_info) : D nat := fun s =>
  Done (brk s) (mk_cache (<[brk s := mk_node r None None]> (heap s)) (S (brk s)) (head s) (curr_cache_size s)).
Definition delete_node (p : option nat) : D unit :=
  let* ln := deref p in
  fun s => Done tt (mk_cache (delete ln.1 (heap s)) (brk s) (head s) (curr_cache_size s)).

(** ** [dequeue] *)
Fixpoint walk (n : nat) (curr : option nat) : D (option nat) :=
  match n with
  | O => ret curr
  | S n' => let* ln := deref curr in walk n' (next ln.2)
  end.

Definition dequeue : D unit :=
  let* s := get in
  match head s with
  | None => ret tt
  | Some _ =>
      let* curr := walk (Z.to_nat (cachesize - 1)) (head s) in
      set_next curr None ;;;
      delete_node curr ;;;
      add_size (-1)
  end.

(** ** [enqueue] *)

(** Putting the new node at the head of the list. *)
Definition attach (curr : nat) : D unit :=
  let* s := get in
  match head s with
  | None => set_next (Some curr) None ;;; set_prev (Some curr) None ;;; set_head (Some curr)
  | Some h =>
      set_prev (Some h) (Some curr) ;;;
      set_next (Some curr) (Some h) ;;;
      set_prev (Some curr) None ;;;
      set_head (Some curr)
  end.

Definition enqueue (request : request_info) : D unit :=
  let* curr := new_node request in
  attach curr ;;;
  add_size 1 ;;;
  let* s := get in
  if curr_cache_size s =? cachesize + 1 then dequeue else ret tt.

(** ** Searching: the first node from [curr] on with the address and resource *)
Definition same (r request : request_info) : bool :=
  bool_decide (address r = address request) && bool_decide (resource r = resource request).

Fixpoint find (fuel : nat) (curr : option nat) (request : request_info) : D (option nat) :=
  match fuel with
  | O => undef NoFuel
  | S n =>
      match curr with
      | None => ret None
      | Some l =>
          let* ln := deref (Some l) in
          if same (req ln.2) request then ret (Some l) else find n (next ln.2) request
      end
  end.
Definition search (request : request_info) : D (option nat) :=
  let* s := get in find (S (size (heap s))) (head s) request.

(** Taking a node out of the list. *)
Definition unlink (l : nat) : D unit :=
  let* ln := deref (Some l) in
  let t1 := prev ln.2 in
  let t2 := next ln.2 in
  (match t1 with Some _ => set_next t1 t2 | None => set_head t2 end) ;;;
  (match t2 with Some _ => set_prev t2 t1 | None => ret tt end).

Definition remove (request : request_info) : D unit :=
  let* c := search request in
  match c with
  | None => ret tt
  | Some l => unlink l ;;; delete_node (Some l) ;;; add_size (-1)
  end.

(** [present] is [mktime(gmtime(&present))], [again] the second reading of the clock. *)
Definition check_cache (request : request_info) (present again : Z) : D Z :=
  let* c := search request in
  match c with
  | None => ret 2
  | Some l =>
      let* ln := deref (Some l) in
      let r := req ln.2 in
      if expires r <? present then
        set_node l (mk_node (mk_request (address r) (resource r) again) (next ln.2) (prev ln.2)) ;;;
        unlink l ;;;
        add_size (-1) ;;;
        ret 1
      else ret 0
  end.

Definition is_cache_exist (request : request_info) : D bool :=
  let* c := search request in ret (match c with Some _ => true | None => false end).

Definition get_size : D Z := let* s := get in ret (curr_cache_size s).

(** ** Specification: the cache as a list of requests, the newest first *)
Fixpoint first (k : request_info) (l : list request_info) : option nat :=
  match l with
  | [] => None
  | r :: l' => if same r k then Some O else S <$> first k l'
  end.
Definition without (k : request_info) (l : list request_info) : list request_info :=
  match first k l with Some i => delete i l | None => l end.

(** The operations the proxy uses, with their answers as integers. *)
Inductive op :=
| Enqueue (r : request_info) | Remove (k : request_info) | Check (k : request_info) (present again : Z)
| Exists_ (k : request_info) | Size.

Definition run_op (o : op) : D Z :=
  match o with
  | Enqueue r => enqueue r ;;; ret 0
  | Remove k => remove k ;;; ret 0
  | Check k present again => check_cache k present again
  | Exists_ k => let* b := is_cache_exist k in ret (if b then 1 else 0)
  | Size => get_size
  end.

Definition spec_op (o : op) (l : list request_info) : Z * list request_info :=
  match o with
  | Enqueue r => (0, r :: l)
  | Remove k => (0, without k l)
  | Check k present _ =>
      match first k l with
      | None => (2, l)
      | Some i => if expires (nth i l k) <? present then (1, delete i l) else (0, l)
      end
  | Exists_ k => (match first k l with Some _ => 1 | None => 0 end, l)
  | Size => (Z.of_nat (length l), l)
  end.

Fixpoint run_ops (os : list op) : D (list Z) :=
  match os with
  | [] => ret []
  | o :: os' => let* a := run_op o in let* rest := run_ops os' in ret (a :: rest)
  end.
Fixpoint spec_ops (os : list op) (l : list request_info) : list Z * list request_info :=
  match os with
  | [] => ([], l)
  | o :: os' =>
      let '(a, l1) := spec_op o l in
      let '(rest, l2) := spec_ops os' l1 in (a :: rest, l2)
  end.

(** The list never grows beyond the capacity. *)
Fixpoint within (os : list op) (l : list request_info) : Prop :=
  match os with
  | [] => True
  | o :: os' => (length (spec_op o l).2 <= 10)%nat /\ within os' (spec_op o l).2
  end.

(** ** Representation: the nodes of the list, with their addresses *)
Abbreviation cells := (list (nat * request_info)).
Definition pred (ls : cells) (i : nat) : option nat :=
  match i with O => None | S j => fst <$> ls !! j end.
Definition linked (h : gmap nat cache_node) (ls : cells) : Prop :=
  forall i l r, ls !! i = Some (l, r) -> h !! l = Some (mk_node r (fst <$> ls !! S i) (pred ls i)).

Record repr (s : query_cache) (ls : cells) : Prop := {
  repr_linked : linked (heap s) ls;
  repr_nodup : NoDup ls.*1;
  repr_head : head s = fst <$> ls !! O;
  repr_brk : forall l n, heap s !! l = Some n -> (l < brk s)%nat;
  repr_size : curr_cache_size s = Z.of_nat (length ls)
}.

Lemma loc_inj (ls : cells) i j l r r' : NoDup ls.*1 -> ls !! i = Some (l, r) -> ls !! j = Some (l, r') -> i = j.
Proof.
  intros Hnd Hi Hj. eapply (NoDup_lookup (ls.*1)); [done | |]; rewrite list_lookup_fmap; [by rewrite Hi | by rewrite Hj].
Qed.

Lemma lookup_cell (ls : cells) i : is_Some (ls !! i) -> exists l r, ls !! i = Some (l, r).
Proof. intros [[l r] H]. by exists l, r. Qed.

(** The list is no longer than the heap. *)
Lemma cells_size s ls : repr s ls -> (length ls <= size (heap s))%nat.
Proof.
  intros [Hl Hnd _ _ _]. rewrite <- (length_fmap fst ls), <- length_map_to_list, <- (length_fmap fst (map_to_list (heap s))).
  apply submseteq_length, NoDup_submseteq; [done |]. intros l Hin.
  apply list_elem_of_lookup in Hin as [i Hi]. rewrite list_lookup_fmap in Hi.
  destruct (ls !! i) as [[l' r] |] eqn:E; [| done]. injection Hi as <-.
  apply list_elem_of_fmap. eexists (l', _). split; [done |]. apply elem_of_map_to_list. by apply (Hl i l' r).
Qed.

(** ** Searching *)
Lemma deref_cell s ls i l r : repr s ls -> ls !! i = Some (l, r) ->
  deref (Some l) s = Done (l, mk_node r (fst <$> ls !! S i) (pred ls i)) s.
Proof. intros [Hl _ _ _ _] Hi. unfold deref. by rewrite (Hl i l r Hi). Qed.

Lemma find_spec s ls k : repr s ls -> forall fuel i, (length ls - i < fuel)%nat ->
  find fuel (fst <$> ls !! i) k s
  = Done (match first k (drop i ls.*2) with Some j => fst <$> ls !! (i + j)%nat | None => None end) s.
Proof.
  intros Hr. induction fuel as [| fuel IH]; intros i Hf; [lia |].
  destruct (ls !! i) as [[l r] |] eqn:E; cbn [fmap option_fmap option_map find fst].
  - unfold bind. rewrite (deref_cell s ls i l r) by done. cbn [fst snd req next].
    assert (Hd : drop i ls.*2 = r :: drop (S i) ls.*2) by (apply drop_S; by rewrite list_lookup_fmap, E).
    rewrite Hd. cbn [first]. destruct (same r k).
    + by rewrite Nat.add_0_r, E.
    + pose proof (lookup_lt_Some _ _ _ E). rewrite IH by lia.
      destruct (first k (drop (S i) ls.*2)) as [j |]; [| done]. cbn. by rewrite Nat.add_succ_r.
  - apply lookup_ge_None in E. rewrite drop_ge by (rewrite length_fmap; lia). done.
Qed.

Lemma search_spec s ls k : repr s ls ->
  search k s = Done (match first k ls.*2 with Some j => fst <$> ls !! j | None => None end) s.
Proof.
  intros Hr. unfold search, bind, get. destruct Hr as [Hl Hnd Hh Hb Hs] eqn:E. rewrite Hh.
  rewrite (find_spec s ls k Hr); [by rewrite drop_0 |]. pose proof (cells_size s ls Hr). lia.
Qed.

Lemma first_lookup k l i : first k l = Some i -> exists r, l !! i = Some r /\ same r k = true.
Proof.
  revert i. induction l as [| r l IH]; intros i; simpl; [done |]. destruct (same r k) eqn:E.
  - intros [= <-]. by exists r.
  - destruct (first k l) as [j |]; [| done]. intros [= <-]. by apply IH.
Qed.

(** ** Unlinking *)

(** The two neighbours of cell [i] changed to skip it: what the node of every other
    cell must then be. *)
Definition skipping (ls : cells) (i : nat) (h : gmap nat cache_node) : Prop :=
  forall j l r, ls !! j = Some (l, r) -> j <> i ->
    h !! l = Some (mk_node r (if decide (S j = i) then fst <$> ls !! S i else fst <$> ls !! S j)
                             (if decide (j = S i) then pred ls i else pred ls j)).

Lemma skipping_linked ls i h : (i < length ls)%nat -> skipping ls i h -> linked h (delete i ls).
Proof.
  intros Hi Hs j l r. rewrite !list_lookup_delete. destruct (decide (j < i)%nat) as [Hlt | Hge]; intros Hj.
  - rewrite (Hs j l r Hj) by lia. rewrite (decide_False (P := j = S i)) by lia. f_equal. f_equal.
    + destruct (decide (S j = i)) as [<- | Hne]; [by rewrite decide_False by lia | by rewrite decide_True by lia].
    + destruct j as [| j]; [done |]. simpl. rewrite list_lookup_delete. by rewrite decide_True by lia.
  - rewrite (Hs (S j) l r Hj) by lia. rewrite decide_False by lia. rewrite (decide_False (P := S j < i)%nat) by lia.
    f_equal. f_equal. destruct (decide (S j = S i)) as [[= <-] | Hne].
    + destruct j as [| j]; [done |]. simpl. rewrite list_lookup_delete. by rewrite decide_True by lia.
    + destruct j as [| j]; [lia |]. simpl. rewrite list_lookup_delete. by rewrite decide_False by lia.
Qed.

(** Writing the pointers of one cell of the list. *)
Lemma set_next_cell s l v n : heap s !! l = Some n ->
  set_next (Some l) v s = Done tt (mk_cache (<[l := mk_node (req n) v (prev n)]> (heap s)) (brk s) (head s) (curr_cache_size s)).
Proof. intros H. unfold set_next, bind, deref. by rewrite H. Qed.
Lemma set_prev_cell s l v n : heap s !! l = Some n ->
  set_prev (Some l) v s = Done tt (mk_cache (<[l := mk_node (req n) (next n) v]> (heap s)) (brk s) (head s) (curr_cache_size s)).
Proof. intros H. unfold set_prev, bind, deref. by rewrite H. Qed.

(** Two heaps with the same addresses in use. *)
Definition same_dom (h h' : gmap nat cache_node) : Prop := forall l, is_Some (h' !! l) <-> is_Some (h !! l).

Lemma same_dom_insert (h : gmap nat cache_node) l n n' : h !! l = Some n -> same_dom h (<[l := n']> h).
Proof.
  intros H l'. destruct (decide (l = l')) as [<- | Hne]; [rewrite lookup_insert_eq | by rewrite lookup_insert_ne].
  rewrite H. split; by eexists.
Qed.
Lemma same_dom_step (h h0 : gmap nat cache_node) l n : same_dom h h0 -> is_Some (h !! l) -> same_dom h (<[l := n]> h0).
Proof.
  unfold same_dom. intros H Hl l'. destruct (decide (l = l')) as [<- | Hne]; [| by rewrite lookup_insert_ne].
  rewrite lookup_insert_eq. split; [done | by eexists].
Qed.
Lemma same_dom_trans h1 h2 h3 : same_dom h1 h2 -> same_dom h2 h3 -> same_dom h1 h3.
Proof. unfold same_dom. intros H1 H2 l. by rewrite H2, H1. Qed.

(** The node before the unlinked one, or the head. *)
Lemma unlink_before s ls i l r t2 : repr s ls -> ls !! i = Some (l, r) ->
  exists h', (match pred ls i with Some _ => set_next (pred ls i) t2 | None => set_head t2 end) s
    = Done tt (mk_cache h' (brk s) (if decide (i = O) then t2 else head s) (curr_cache_size s)) /\
    same_dom (heap s) h' /\
    forall j l' r', ls !! j = Some (l', r') ->
      h' !! l' = Some (mk_node r' (if decide (S j = i) then t2 else fst <$> ls !! S j) (pred ls j)).
Proof.
  intros [Hl Hnd Hh Hb Hs] Hi. destruct i as [| i]; simpl.
  - exists (heap s). split; [done |]. split; [done |]. intros j l' r' Hj. by apply Hl.
  - pose proof (lookup_lt_Some _ _ _ Hi). destruct (lookup_cell ls i) as (p & rp & Hp); [by apply lookup_lt_is_Some; lia |].
    rewrite Hp. simpl. rewrite (set_next_cell s p t2 _ (Hl i p rp Hp)). eexists. split; [reflexivity |].
    split; [eapply same_dom_insert, Hl, Hp |]. intros j l' r' Hj. destruct (decide (j = i)) as [-> | Hne].
    + rewrite Hp in Hj. injection Hj as <- <-. rewrite lookup_insert_eq, decide_True by done. done.
    + rewrite decide_False by lia. rewrite lookup_insert_ne; [by apply Hl |].
      intros ->. apply Hne. by eapply (loc_inj ls).
Qed.

Lemma unlink_spec s ls i l r : repr s ls -> ls !! i = Some (l, r) ->
  exists h', unlink l s = Done tt (mk_cache h' (brk s) (fst <$> delete i ls !! O) (curr_cache_size s)) /\
    same_dom (heap s) h' /\ linked h' (delete i ls).
Proof.
  intros Hr Hi. unfold unlink. unfold bind at 1. rewrite (deref_cell s ls i l r Hr Hi). cbn [fst snd prev next].
  destruct (unlink_before s ls i l r (fst <$> ls !! S i) Hr Hi) as (h1 & Hrun & Hd1 & H1).
  unfold bind. rewrite Hrun. pose proof (lookup_lt_Some _ _ _ Hi) as Hlt.
  assert (Hhead : (if decide (i = 0%nat) then fst <$> ls !! S i else head s) = fst <$> delete i ls !! 0%nat).
  { rewrite list_lookup_delete. destruct i as [| i]; [done |]. rewrite decide_False, decide_True by lia.
    apply Hr. }
  rewrite Hhead. destruct Hr as [Hl Hnd Hh Hb Hs].
  destruct (ls !! S i) as [[l2 r2] |] eqn:Hnext; cbn [fmap option_fmap option_map fst] in *.
  - rewrite (set_prev_cell (mk_cache h1 _ _ _) l2 (pred ls i) _ (H1 (S i) l2 r2 Hnext)). cbn [heap brk head curr_cache_size].
    eexists. split; [reflexivity |]. split; [eapply same_dom_trans; [exact Hd1 | eapply same_dom_insert, (H1 (S i)), Hnext] |].
    apply skipping_linked; [done |]. intros j l' r' Hj Hne. rewrite Hnext.
    destruct (decide (j = S i)) as [-> | Hne'].
    + rewrite Hnext in Hj. injection Hj as <- <-. rewrite lookup_insert_eq. cbn [req next]. done.
    + rewrite lookup_insert_ne; [by rewrite (H1 j l' r' Hj) |]. intros ->. apply Hne'. by eapply (loc_inj ls).
  - exists h1. split; [done |]. split; [done |]. apply skipping_linked; [done |]. intros j l' r' Hj Hne.
    apply lookup_ge_None in Hnext. pose proof (lookup_lt_Some _ _ _ Hj).
    rewrite (decide_False (P := j = S i)) by lia. rewrite (H1 j l' r' Hj).
    rewrite (proj2 (lookup_ge_None ls (S i))) by done. done.
Qed.

(** ** The operations on represented lists *)
Lemma nodup_delete (ls : cells) i : NoDup ls.*1 -> NoDup (delete i ls).*1.
Proof.
  intros Hnd. apply NoDup_alt. intros a b x. rewrite !list_lookup_fmap, !list_lookup_delete. intros Ha Hb.
  rewrite <- !list_lookup_fmap in Ha, Hb. pose proof (NoDup_lookup _ _ _ _ Hnd Ha Hb) as H.
  destruct (decide (a < i)%nat), (decide (b < i)%nat); lia.
Qed.

Lemma fmap_delete {A B} (f : A -> B) (l : list A) i : f <$> delete i l = delete i (f <$> l).
Proof. revert i. induction l as [| x l IH]; intros [| i]; simpl; [done | done | done |]. by rewrite <- IH. Qed.

Lemma delete_insert_same {A} (l : list A) i x : delete i (<[i := x]> l) = delete i l.
Proof. revert i. induction l as [| y l IH]; intros [| i]; simpl; [done | done | done |]. f_equal. apply IH. Qed.

Lemma delete_repr s ls i l r h' :
  repr s ls -> ls !! i = Some (l, r) -> same_dom (heap s) h' -> linked h' (delete i ls) ->
  repr (mk_cache h' (brk s) (fst <$> delete i ls !! O) (curr_cache_size s + -1)) (delete i ls).
Proof.
  intros [Hl Hnd Hh Hb Hs] Hi Hdom Hl'. split; simpl; try done.
  - by apply nodup_delete.
  - intros l' n Hn. destruct (proj1 (Hdom l')) as [n' Hn']; [by eexists |]. by eapply Hb.
  - rewrite length_delete by by eexists. pose proof (lookup_lt_Some _ _ _ Hi). lia.
Qed.

(** The node of a cell that left the list may leave the heap. *)
Lemma free_repr s ls l : repr s ls -> l ∉ ls.*1 ->
  repr (mk_cache (delete l (heap s)) (brk s) (head s) (curr_cache_size s)) ls.
Proof.
  intros [Hl Hnd Hh Hb Hs] Hnot. split; simpl; try done.
  - intros i l' r' Hi. rewrite lookup_delete_ne; [by apply Hl |]. intros ->. apply Hnot.
    apply list_elem_of_lookup. exists i. by rewrite list_lookup_fmap, Hi.
  - intros l' n [_ Hn]%lookup_delete_Some. by eapply Hb.
Qed.

Lemma deleted_cell (ls : cells) i l r : NoDup ls.*1 -> ls !! i = Some (l, r) -> l ∉ (delete i ls).*1.
Proof.
  intros Hnd Hi [j Hj]%list_elem_of_lookup. rewrite list_lookup_fmap, list_lookup_delete in Hj.
  destruct (ls !! (if decide (j < i)%nat then j else S j)) as [[l' r'] |] eqn:E; [| done]. injection Hj as ->.
  pose proof (loc_inj ls _ _ _ _ _ Hnd E Hi). destruct (decide (j < i)%nat); lia.
Qed.

Lemma first_cell k (ls : cells) i : first k ls.*2 = Some i -> exists l r, ls !! i = Some (l, r) /\ same r k = true.
Proof.
  intros (r & Hr & Hs)%first_lookup. rewrite list_lookup_fmap in Hr. destruct (ls !! i) as [[l r'] |] eqn:E; [| done].
  injection Hr as ->. by exists l, r.
Qed.

Lemma remove_spec s ls k : repr s ls ->
  exists s' ls', remove k s = Done tt s' /\ repr s' ls' /\ ls'.*2 = without k ls.*2.
Proof.
  intros Hr. unfold remove, without. unfold bind at 1. rewrite (search_spec s ls k Hr).
  destruct (first k ls.*2) as [i |] eqn:Ef; [| by exists s, ls].
  destruct (first_cell k ls i Ef) as (l & r & Hi & _). rewrite Hi. cbn [fmap option_fmap option_map fst].
  destruct (unlink_spec s ls i l r Hr Hi) as (h' & Hu & Hd & Hl'). unfold bind at 1. rewrite Hu.
  pose proof (delete_repr s ls i l r h' Hr Hi Hd Hl') as Hr'.
  pose proof (free_repr _ _ l Hr' (deleted_cell ls i l r (repr_nodup _ _ Hr) Hi)) as Hr2.
  destruct (proj2 (Hd l)) as [n Hn]; [rewrite (repr_linked _ _ Hr i l r Hi); by eexists |].
  eexists _, (delete i ls). split.
  - unfold bind, delete_node, bind, deref. cbn [heap]. rewrite Hn. reflexivity.
  - split; [exact Hr2 | apply fmap_delete].
Qed.

Lemma refresh_repr s ls i l r r' : repr s ls -> ls !! i = Some (l, r) ->
  repr (mk_cache (<[l := mk_node r' (fst <$> ls !! S i) (pred ls i)]> (heap s)) (brk s) (head s) (curr_cache_size s))
    (<[i := (l, r')]> ls).
Proof.
  intros [Hl Hnd Hh Hb Hs] Hi. pose proof (lookup_lt_Some _ _ _ Hi).
  assert (Hfst : forall j, fst <$> <[i := (l, r')]> ls !! j = fst <$> ls !! j).
  { intros j. destruct (decide (i = j)) as [<- | Hne]; [by rewrite list_lookup_insert_eq, Hi by done | by rewrite list_lookup_insert_ne]. }
  split; simpl.
  - intros j l' r'' Hj. rewrite Hfst. replace (pred (<[i := (l, r')]> ls) j) with (pred ls j) by (destruct j; simpl; by rewrite ?Hfst).
    destruct (decide (i = j)) as [<- | Hne].
    + rewrite list_lookup_insert_eq in Hj by done. injection Hj as <- <-. by rewrite lookup_insert_eq.
    + rewrite list_lookup_insert_ne in Hj by done. rewrite lookup_insert_ne; [by apply Hl |].
      intros ->. apply Hne. by eapply (loc_inj ls).
  - rewrite list_fmap_insert. simpl. by rewrite list_insert_id; [| rewrite list_lookup_fmap, Hi].
  - by rewrite Hfst.
  - intros l' n. destruct (decide (l = l')) as [<- | Hne]; [intros _; eapply Hb, Hl, Hi |].
    rewrite lookup_insert_ne by done. by apply Hb.
  - by rewrite length_insert.
Qed.

Lemma check_spec s ls k present again : repr s ls ->
  exists s' ls', check_cache k present again s = Done (spec_op (Check k present again) ls.*2).1 s' /\
    repr s' ls' /\ ls'.*2 = (spec_op (Check k present again) ls.*2).2.
Proof.
  intros Hr. unfold check_cache, spec_op. unfold bind at 1. rewrite (search_spec s ls k Hr).
  destruct (first k ls.*2) as [i |] eqn:Ef; [| by exists s, ls].
  destruct (first_cell k ls i Ef) as (l & r & Hi & _). rewrite Hi. cbn [fmap option_fmap option_map fst].
  assert (Hnth : nth i ls.*2 k = r) by (apply nth_lookup_Some; by rewrite list_lookup_fmap, Hi). rewrite Hnth.
  unfold bind at 1. rewrite (deref_cell s ls i l r Hr Hi). cbn [snd req next prev].
  destruct (expires r <? present); [| by exists s, ls].
  set (r' := mk_request (address r) (resource r) again).
  pose proof (refresh_repr s ls i l r r' Hr Hi) as Hr1. pose proof (lookup_lt_Some _ _ _ Hi) as Hlt.
  assert (Hi1 : <[i := (l, r')]> ls !! i = Some (l, r')) by by apply list_lookup_insert_eq.
  destruct (unlink_spec _ _ i l r' Hr1 Hi1) as (h' & Hu & Hd & Hl').
  pose proof (delete_repr _ _ i l r' h' Hr1 Hi1 Hd Hl') as Hr2.
  eexists _, _. split; [| split; [exact Hr2 |]].
  - unfold bind, set_node. rewrite Hu. reflexivity.
  - rewrite fmap_delete, list_fmap_insert. cbn [snd]. apply delete_insert_same.
Qed.

(** The heap after the new node [c] was put before the old head. *)
Lemma attach_spec s c r :
  heap s !! c = Some (mk_node r None None) -> head s <> Some c ->
  (forall h, head s = Some h -> is_Some (heap s !! h)) ->
  exists h', attach c s = Done tt (mk_cache h' (brk s) (Some c) (curr_cache_size s)) /\
    same_dom (heap s) h' /\ h' !! c = Some (mk_node r (head s) None) /\
    forall l n, l <> c -> heap s !! l = Some n ->
      h' !! l = Some (mk_node (req n) (next n) (if decide (head s = Some l) then Some c else prev n)).
Proof.
  intros Hc Hne Hh. destruct s as [hp b hd sz]; cbn [heap head brk curr_cache_size] in *.
  unfold attach. unfold bind at 1, get. cbn [head]. destruct hd as [h |].
  - destruct (Hh h eq_refl) as [nh Hnh]. assert (Hch : h <> c) by congruence.
    unfold bind, set_prev, set_next, bind, deref, set_node, set_head. cbn [heap head brk curr_cache_size]. rewrite Hnh.
    cbn [heap head brk curr_cache_size fst snd]. rewrite lookup_insert_ne, Hc by done.
    cbn [heap head brk curr_cache_size fst snd req prev next]. rewrite lookup_insert_eq.
    cbn [heap head brk curr_cache_size fst snd req prev next]. eexists. split; [reflexivity |].
    split; [by repeat (apply same_dom_step; [| rewrite ?Hc, ?Hnh; by eexists]) |].
    split; [apply lookup_insert_eq |]. intros l n Hl Hn. rewrite !(lookup_insert_ne _ c l) by done.
    destruct (decide (h = l)) as [<- | Hhl].
    + rewrite lookup_insert_eq, decide_True by done. congruence.
    + rewrite lookup_insert_ne, decide_False by congruence. by destruct n.
  - unfold bind, set_prev, set_next, bind, deref, set_node, set_head. cbn [heap head brk curr_cache_size]. rewrite Hc.
    cbn [heap head brk curr_cache_size fst snd req prev next]. rewrite lookup_insert_eq.
    cbn [heap head brk curr_cache_size fst snd req prev next]. eexists. split; [reflexivity |].
    split; [by repeat (apply same_dom_step; [| rewrite ?Hc; by eexists]) |].
    split; [apply lookup_insert_eq |]. intros l n Hl Hn. rewrite !(lookup_insert_ne _ c l) by done.
    rewrite decide_False by done. rewrite Hn. by destruct n.
Qed.

Lemma attached_linked s ls c r h' :
  repr s ls -> c = brk s -> h' !! c = Some (mk_node r (head s) None) ->
  (forall l n, l <> c -> heap s !! l = Some n ->
     h' !! l = Some (mk_node (req n) (next n) (if decide (head s = Some l) then Some c else prev n))) ->
  linked h' ((c, r) :: ls).
Proof.
  intros [Hl Hnd Hh Hb _] -> Hc Hother [| i] l r' Hi; simpl in Hi.
  - injection Hi as <- <-. rewrite Hc, Hh. done.
  - assert (l <> brk s) by (intros ->; pose proof (Hb _ _ (Hl i _ r' Hi)); lia).
    rewrite (Hother l _ H (Hl i l r' Hi)). cbn [req next prev pred]. f_equal. f_equal.
    rewrite Hh. destruct i as [| i].
    + rewrite Hi. simpl. by rewrite decide_True.
    + rewrite decide_False; [by destruct i |]. intros Heq.
      destruct (ls !! 0%nat) as [[l0 r0] |] eqn:E; [| done]. injection Heq as ->.
      by pose proof (loc_inj ls _ _ _ _ _ Hnd E Hi).
Qed.

(** [enqueue] up to the test of the size. *)
Lemma push_spec s ls r : repr s ls ->
  exists s', repr s' ((brk s, r) :: ls) /\
    enqueue r s = (let* s2 := get in if curr_cache_size s2 =? cachesize + 1 then dequeue else ret tt) s'.
Proof.
  intros Hr. pose proof Hr as [Hl Hnd Hh Hb Hs].
  assert (Hcell : forall l, l ∈ ls.*1 -> (l < brk s)%nat).
  { intros l [i Hi]%list_elem_of_lookup. rewrite list_lookup_fmap in Hi. destruct (ls !! i) as [[l' r'] |] eqn:E; [| done].
    injection Hi as ->. eapply Hb, Hl, E. }
  assert (Hhead : forall h, head s = Some h -> (h < brk s)%nat /\ is_Some (heap s !! h)).
  { intros h Hhh. rewrite Hh in Hhh. destruct (ls !! 0%nat) as [[l0 r0] |] eqn:E; [| done]. injection Hhh as <-.
    split; [eapply Hb, Hl, E | rewrite (Hl 0%nat l0 r0 E); by eexists]. }
  unfold enqueue. unfold bind at 1, new_node. unfold bind at 1.
  destruct (attach_spec (mk_cache (<[brk s := mk_node r None None]> (heap s)) (S (brk s)) (head s) (curr_cache_size s)) (brk s) r)
    as (h' & Hrun & Hdom & Hc & Hother); cbn [heap head brk curr_cache_size] in *.
  { apply lookup_insert_eq. }
  { intros H%Hhead. lia. }
  { intros h [Hlt Hsome]%Hhead. rewrite lookup_insert_ne by lia. done. }
  rewrite Hrun. eexists. split; [| unfold bind at 1, add_size; reflexivity].
  assert (Hother' : forall l n, l <> brk s -> heap s !! l = Some n ->
     h' !! l = Some (mk_node (req n) (next n) (if decide (head s = Some l) then Some (brk s) else prev n))).
  { intros l n Hne Hn. apply Hother; [done |]. by rewrite lookup_insert_ne. }
  split; cbn [heap head brk curr_cache_size].
  - by apply (attached_linked s ls).
  - cbn [fmap list_fmap fst]. apply NoDup_cons. split; [| done]. intros H%Hcell. lia.
  - done.
  - intros l n Hn. destruct (proj1 (Hdom l)) as [n' Hn']; [by eexists |].
    destruct (decide (brk s = l)) as [<- | Hne]; [lia |]. rewrite lookup_insert_ne in Hn' by done.
    pose proof (Hb _ _ Hn'). lia.
  - cbn [length]. lia.
Qed.

Lemma cache_enqueue_spec s ls r : repr s ls -> (length ls < 10)%nat ->
  exists s', enqueue r s = Done tt s' /\ repr s' ((brk s, r) :: ls).
Proof.
  intros Hr Hlt. destruct (push_spec s ls r Hr) as (s' & Hr' & ->). exists s'. split; [| done].
  unfold bind, get. rewrite (repr_size _ _ Hr'). cbn [length]. rewrite (proj2 (Z.eqb_neq _ _)); [done |].
  unfold cachesize. lia.
Qed.

Lemma op_spec o s ls : repr s ls -> (length (spec_op o ls.*2).2 <= 10)%nat ->
  exists s' ls', run_op o s = Done (spec_op o ls.*2).1 s' /\ repr s' ls' /\ ls'.*2 = (spec_op o ls.*2).2.
Proof.
  intros Hr Hlen. destruct o as [r | k | k present again | k |]; cbn [run_op].
  - cbn in Hlen. rewrite length_fmap in Hlen. destruct (cache_enqueue_spec s ls r Hr) as (s' & Hrun & Hr'); [lia |].
    unfold bind. rewrite Hrun. by exists s', ((brk s, r) :: ls).
  - destruct (remove_spec s ls k Hr) as (s' & ls' & Hrun & Hr' & Hls). unfold bind. rewrite Hrun. by exists s', ls'.
  - by apply check_spec.
  - unfold is_cache_exist, bind. rewrite (search_spec s ls k Hr). cbn [spec_op fst snd]. exists s, ls.
    split; [| done]. destruct (first k ls.*2) as [i |] eqn:Ef; [| done].
    destruct (first_cell k ls i Ef) as (l & r & Hi & _). by rewrite Hi.
  - exists s, ls. split; [| done]. unfold get_size, bind, get. rewrite (repr_size _ _ Hr). simpl. by rewrite length_fmap.
Qed.

Lemma ops_spec os : forall s ls, repr s ls -> within os ls.*2 ->
  exists s' ls', run_ops os s = Done (spec_ops os ls.*2).1 s' /\ repr s' ls' /\ ls'.*2 = (spec_ops os ls.*2).2.
Proof.
  induction os as [| o os IH]; intros s ls Hr Hw; [by exists s, ls |]. destruct Hw as [Hlen Hw].
  destruct (op_spec o s ls Hr Hlen) as (s1 & ls1 & Hrun & Hr1 & Hls1). cbn [run_ops spec_ops].
  destruct (spec_op o ls.*2) as [a l1]. cbn [fst snd] in *. subst l1.
  destruct (IH s1 ls1 Hr1 Hw) as (s2 & ls2 & Hrun2 & Hr2 & Hls2). exists s2, ls2.
  unfold bind at 1. rewrite Hrun. unfold bind. rewrite Hrun2. by destruct (spec_ops os ls1.*2).
Qed.

Lemma new_repr : repr query_cache_new [].
Proof. split; [done | constructor | done | | done]. intros l n. cbn [query_cache_new heap]. by rewrite lookup_empty. Qed.

(** ** A cache that overflowed *)

(** The cells of a list of eleven of which the tenth was freed: the first nine are
    reachable, and the ninth points to freed memory. *)
Record dangling (s : query_cache) (ls : cells) : Prop := {
  dang_length : length ls = 11%nat;
  dang_nodup : NoDup ls.*1;
  dang_head : head s = fst <$> ls !! O;
  dang_node : forall i l r, (i < 9)%nat -> ls !! i = Some (l, r) ->
    heap s !! l = Some (mk_node r (fst <$> ls !! S i) (pred ls i));
  dang_freed : forall l r, ls !! 9%nat = Some (l, r) -> heap s !! l = None;
  dang_size : curr_cache_size s = 10;
  dang_heap : (9 <= size (heap s))%nat
}.

Lemma walk_spec s ls : repr s ls -> forall n i, (i + n < length ls)%nat ->
  walk n (fst <$> ls !! i) s = Done (fst <$> ls !! (i + n)%nat) s.
Proof.
  intros Hr. induction n as [| n IH]; intros i Hi; [by rewrite Nat.add_0_r |]. cbn [walk].
  destruct (lookup_cell ls i) as (l & r & Hl); [apply lookup_lt_is_Some; lia |]. rewrite Hl.
  cbn [fmap option_fmap option_map fst]. unfold bind. rewrite (deref_cell s ls i l r Hr Hl). cbn [snd next].
  rewrite IH by lia. by rewrite Nat.add_succ_r.
Qed.

Lemma dequeue_full s ls : repr s ls -> length ls = 11%nat ->
  exists s', dequeue s = Done tt s' /\ dangling s' ls.
Proof.
  intros Hr Hlen. pose proof Hr as [Hl Hnd Hh Hb Hs].
  destruct (lookup_cell ls 0) as (l0 & r0 & H0); [apply lookup_lt_is_Some; lia |].
  destruct (lookup_cell ls 9) as (l9 & r9 & H9); [apply lookup_lt_is_Some; lia |].
  unfold dequeue. unfold bind at 1, get at 1. rewrite Hh, H0. cbn [fmap option_fmap option_map fst].
  unfold bind at 1. pose proof (walk_spec s ls Hr 9 0) as Hw. rewrite H0 in Hw. cbn [fmap option_fmap option_map fst Nat.add] in Hw.
  change (Z.to_nat (cachesize - 1)) with 9%nat. rewrite Hw by lia. rewrite H9. cbn [fmap option_fmap option_map fst].
  unfold bind at 1. rewrite (set_next_cell s l9 None _ (Hl 9%nat l9 r9 H9)).
  unfold bind, delete_node, bind, deref. cbn [heap brk head curr_cache_size]. rewrite lookup_insert_eq.
  unfold add_size. cbn [heap brk head curr_cache_size fst]. eexists. split; [reflexivity |].
  split; cbn [heap brk head curr_cache_size]; try done.
  - intros i l r Hi Hil. assert (l <> l9) by (intros ->; pose proof (loc_inj ls _ _ _ _ _ Hnd Hil H9); lia).
    rewrite lookup_delete_ne, lookup_insert_ne by done. by apply Hl.
  - intros l r Hlr. rewrite H9 in Hlr. injection Hlr as <- <-. apply lookup_delete_eq.
  - lia.
  - rewrite delete_insert_eq. pose proof (cells_size s ls Hr) as Hsz.
    rewrite map_size_delete_Some by (rewrite (Hl 9%nat l9 r9 H9); by eexists). lia.
Qed.

Lemma find_dangling s ls k : dangling s ls -> forall fuel i, (i <= 9)%nat -> (9 - i < fuel)%nat ->
  find fuel (fst <$> ls !! i) k s
  = match first k (take (9 - i) (drop i ls.*2)) with
    | Some j => Done (fst <$> ls !! (i + j)%nat) s
    | None => Undef UseAfterFree s
    end.
Proof.
  intros Hd. induction fuel as [| fuel IH]; intros i Hi Hf; [lia |].
  destruct (lookup_cell ls i) as (l & r & Hl); [apply lookup_lt_is_Some; rewrite (dang_length _ _ Hd); lia |].
  rewrite Hl. cbn [fmap option_fmap option_map find fst]. unfold bind, deref.
  destruct (decide (i = 9%nat)) as [-> | Hne].
  - by rewrite (dang_freed _ _ Hd l r Hl).
  - rewrite (dang_node _ _ Hd i l r) by (done || lia). cbn [snd req next].
    assert (Hdrop : drop i ls.*2 = r :: drop (S i) ls.*2) by (apply drop_S; by rewrite list_lookup_fmap, Hl).
    rewrite Hdrop. replace (9 - i)%nat with (S (9 - S i)) by lia. cbn [take first]. destruct (same r k).
    + by rewrite Nat.add_0_r, Hl.
    + rewrite IH by lia. destruct (first k _) as [j |]; [| done]. cbn. by rewrite Nat.add_succ_r.
Qed.

Lemma search_dangling s ls k : dangling s ls ->
  search k s = match first k (take 9 ls.*2) with
    | Some j => Done (fst <$> ls !! j) s
    | None => Undef UseAfterFree s
    end.
Proof.
  intros Hd. unfold search, bind, get. rewrite (dang_head _ _ Hd), (find_dangling s ls k Hd); [by rewrite drop_0 | lia |].
  pose proof (dang_heap _ _ Hd). lia.
Qed.

(** ** Properties *)

(** The cache's memory holds the list [l]: both link directions, the head and the
    counter agree with it. *)
Definition represents (s : query_cache) (l : list request_info) : Prop := exists ls, repr s ls /\ ls.*2 = l.

(** C23: from the empty cache, any sequence of operations that never holds more than ten
    pages answers exactly like the list of the cached requests (newest first, expired
    pages dropped when they are checked), never touches freed memory, and leaves a well
    formed doubly linked list of it. *)
Theorem cache_refines_list os :
  within os [] ->
  exists s', run_ops os query_cache_new = Done (spec_ops os []).1 s' /\ represents s' (spec_ops os []).2.
Proof.
  intros Hw. destruct (ops_spec os query_cache_new [] new_repr Hw) as (s' & ls' & Hrun & Hr & Hls).
  exists s'. split; [done |]. by exists ls'.
Qed.

(** C24: entering a page into a full cache frees the tenth node of the list while the
    ninth still points to it: from then on the newest nine pages are found, and looking
    for any other page reads freed memory. *)
Theorem eleventh_page_dangles s l r :
  represents s l -> length l = 10%nat ->
  exists s', enqueue r s = Done tt s' /\ curr_cache_size s' = 10 /\
    forall k, match first k (r :: take 8 l) with
      | Some _ => is_cache_exist k s' = Done true s'
      | None => is_cache_exist k s' = Undef UseAfterFree s' /\
                forall present again, check_cache k present again s' = Undef UseAfterFree s'
      end.
Proof.
  intros (ls & Hr & <-) Hlen. rewrite length_fmap in Hlen. destruct (push_spec s ls r Hr) as (s1 & Hr1 & ->).
  destruct (dequeue_full s1 ((brk s, r) :: ls) Hr1) as (s2 & Hrun & Hd); [simpl; lia |].
  exists s2. split; [| split; [apply Hd |]].
  - unfold bind, get. rewrite (repr_size _ _ Hr1). cbn [length]. rewrite Hlen. exact Hrun.
  - intros k. pose proof (search_dangling s2 _ k Hd) as Hs.
    change (take 9 ((brk s, r) :: ls).*2) with (r :: take 8 ls.*2) in Hs.
    destruct (first k (r :: take 8 ls.*2)) as [j |] eqn:Ef.
    + unfold is_cache_exist, bind. rewrite Hs.
      destruct (lookup_cell ((brk s, r) :: ls) j) as (lj & rj & ->); [| done].
      apply first_lookup in Ef as (x & Hx & _). apply lookup_lt_Some in Hx. apply lookup_lt_is_Some.
      simpl in Hx |- *. rewrite length_take in Hx. lia.
    + unfold is_cache_exist, check_cache, bind. by rewrite Hs.
Qed.

(** *** Witnesses *)
Definition page (n : Z) : request_info := mk_request (lit "host") [n] 100.

Lemma cache_refines_list_witness :
  exists s', run_ops [Enqueue (page 1); Enqueue (page 2); Check (page 1) 50 0; Check (page 2) 200 201; Exists_ (page 2); Size]
      query_cache_new = Done [0; 0; 0; 1; 0; 1] s' /\ represents s' [page 1].
Proof.
  apply (cache_refines_list [Enqueue (page 1); Enqueue (page 2); Check (page 1) 50 0; Check (page 2) 200 201; Exists_ (page 2); Size]).
  vm_compute. repeat (split; [lia |]). exact I.
Defined.

Definition pages (n : nat) : list request_info := map (fun i => page (Z.of_nat i)) (seq 0 n).
Definition full_cache : query_cache := final (run_ops (map Enqueue (rev (pages 10))) query_cache_new).

Lemma full_cache_represents : represents full_cache (pages 10).
Proof.
  destruct (ops_spec (map Enqueue (rev (pages 10))) query_cache_new [] new_repr) as (s' & ls' & Hrun & Hr & Hls).
  { vm_compute. repeat (split; [lia |]). exact I. }
  exists ls'. split; [| exact Hls]. unfold full_cache. by rewrite Hrun.
Qed.

Lemma eleventh_page_dangles_witness :
  exists s', enqueue (page 77) full_cache = Done tt s' /\ curr_cache_size s' = 10 /\
    forall k, match first k (page 77 :: take 8 (pages 10)) with
      | Some _ => is_cache_exist k s' = Done true s'
      | None => is_cache_exist k s' = Undef UseAfterFree s' /\
                forall present again, check_cache k present again s' = Undef UseAfterFree s'
      end.
Proof. apply (eleventh_page_dangles full_cache (pages 10) (page 77)); [exact full_cache_represents | reflexivity]. Defined.
End QueryCache.
