(* ===== verification/ProxyClient.v ===== *)
(** * [assignment4/client.c]: the client of the web proxy

    Splits the URL of the command line at its first slash, sends the request for the
    page to the proxy and stores what comes back under the last part of the URL. *)

From S2P Require Import Prelude CMem.
From stdpp Require Import base list.
From Stdlib Require Import ZArith Lia.
From Stdlib Require String.
Import String.StringSyntax.
Open Scope Z_scope.

Module ProxyClient.

(** ** State: the arrays of [main], the variable [i], and the world *)
Inductive arr := URL_Addr | Host_name | Page | Get_Req | file_name.
Definition arr_size (a : arr) : Z := match a with Page => 2048000 | _ => 1000 end.
Inductive ivar := i_.

#[export] Instance arr_key : Key arr.
Proof.
  refine {| key_eqb a b := match a, b with
    | URL_Addr, URL_Addr | Host_name, Host_name | Page, Page | Get_Req, Get_Req
    | file_name, file_name => true | _, _ => false end |}.
  intros [] []; constructor; congruence.
Defined.
#[export] Instance ivar_key : Key ivar.
Proof. refine {| key_eqb a b := true |}. intros [] []; by constructor. Defined.

(** The request sent to the proxy, the file that is written (its name and contents)
    and whether [fopen] gave a stream. *)
Record pworld := mk_world {
  requests : list (list Z);
  fname : list Z;
  fopened : bool;
  fcontents : list Z
}.
Abbreviation D := (M (cstate arr ivar pworld)).

(** The part of a string behind its last slash, [strrchr(s, '/') + 1]. *)
Definition slash : Z := 47.
Fixpoint after_last_slash (s : list Z) : option (list Z) :=
  match s with
  | [] => None
  | b :: s' =>
      match after_last_slash s' with
      | Some t => Some t
      | None => if b =? slash then Some s' else None
      end
  end.

(** ** [for (i=0; i<strlen(URL_Addr); i++)]: the host name *)
Definition url_lt : D bool :=
  let* i := geti i_ in
  let* n := strlen URL_Addr 0 in
  ret (i <? n).
Definition i_incr : D unit := let* i := geti i_ in seti i_ (i + 1).

Definition host_body : D ctl :=
  let* i := geti i_ in
  let* b := load URL_Addr i in
  if b =? slash then
    memcpy Host_name 0 URL_Addr 0 i ;;;
    store Host_name i 0 ;;;
    ret Brk
  else ret Cont.

(** [strcat(Page, &URL_Addr[i])] *)
Definition strcat_page (i : Z) : D unit :=
  let* old := read_str Page 0 in
  let* tail := read_str URL_Addr i in
  write_arr Page (zlen old) (tail ++ [0]).

Definition page_body : D ctl :=
  let* i := geti i_ in
  strcat_page i ;;;
  ret Brk.

Definition crlf : list Z := [13; 10].
Definition request_text (page host : list Z) : list Z :=
  lit "GET " ++ page ++ lit " HTTP/1.0" ++ crlf ++ lit "Host: " ++ host ++ crlf ++
  lit "User-Agent: HTMLGET 1.0" ++ crlf ++ crlf.

(** ** The loop that receives the page: [chunks] are the answers of [read], at most
    65536 bytes each; an empty one is the end of the stream or an error. *)
Fixpoint receive (chunks : list (list Z)) : D bool :=
  match chunks with
  | [] => ret false
  | chunk :: chunks' =>
      match take (Z.to_nat 65536) chunk with
      | [] => ret true
      | data =>
          let* w := getw in
          if fopened w then
            setw (mk_world (requests w) (fname w) true (fcontents w ++ data)) ;;;
            receive chunks'
          else undef NullPointer
      end
  end.

(** ** The request, the answer and the clean-up (lines 103-141) *)
Definition exchange (chunks : list (list Z)) : D bool :=
  let* page := read_str Page 0 in
  let* host := read_str Host_name 0 in
  write_arr Get_Req 0 (request_text page host ++ [0]) ;;;
  let* w := getw in
  setw (mk_world (requests w ++ [request_text page host]) (fname w) (fopened w) (fcontents w)) ;;;
  let* over := receive chunks in
  if over then
    let* w := getw in
    if fopened w then
      let* page := read_str Page 0 in
      write_arr Page 0 (replicate (length page) 0) ;;;
      ret true
    else undef NullPointer
  else ret false.

(** ** [main] for the URL [url], once connected.  [fopen_ok]: the file can be created;
    a name that is empty cannot.  [true]: the page was received to its end. *)
Definition main (url : list Z) (fopen_ok : bool) (chunks : list (list Z)) : D bool :=
  write_arr URL_Addr 0 (url ++ [0]) ;;;
  match after_last_slash url with
  | None => undef NullPointer
  | Some name =>
      write_arr file_name 0 (name ++ [0]) ;;;
      let* w := getw in
      setw (mk_world (requests w) name (fopen_ok && negb (bool_decide (name = []))) []) ;;;
      seti i_ 0 ;;;
      for_fuel 1001 url_lt i_incr host_body ;;;
      i_incr ;;;
      for_fuel 1001 url_lt i_incr page_body ;;;
      exchange chunks
  end.

(** ** The URL loops *)
Section Loops.
Variables host path : list Z.
Hypothesis Hhost : Forall (fun b => b <> 0 /\ b <> slash) host.
Hypothesis Hpath : nonzero path.
Let url := host ++ slash :: path.

Implicit Type s : cstate arr ivar pworld.

(** The URL lies in its array. *)
Definition holds_url s : Prop := exists rest, arrs s URL_Addr = url ++ 0 :: rest.

Lemma url_nonzero : nonzero url.
Proof.
  apply Forall_app. split; [eapply Forall_impl; [exact Hhost | by intros b []] |].
  constructor; [unfold slash; lia | done].
Qed.

Lemma wp_strlen_url Q E s : holds_url s -> Q (zlen url) s -> wp (strlen URL_Addr 0) Q E s.
Proof.
  intros [rest Hu] HQ. unfold strlen. apply wp_bind. eapply (wp_read_str _ _ url); [| | by apply wp_ret].
  - pose proof (zlen_nonneg (arrs s URL_Addr)). lia.
  - rewrite Hu, drop_0. apply cstr_app, url_nonzero.
Qed.

Lemma wp_url_lt i Q E s : holds_url s -> ints s i_ = Some i -> Q (i <? zlen url) s -> wp url_lt Q E s.
Proof.
  intros Hu Hi HQ. unfold url_lt. apply wp_bind. eapply wp_geti; [done |]. apply wp_bind.
  by apply wp_strlen_url.
Qed.

Lemma wp_load_url i b Q E s : holds_url s -> url !! i = Some b -> Q b s -> wp (load URL_Addr (Z.of_nat i)) Q E s.
Proof.
  intros [rest Hu] Hb HQ. unfold load. apply wp_bind. pose proof (lookup_lt_Some _ _ _ Hb).
  apply wp_read_arr; [lia | lia | rewrite Hu; unfold zlen; rewrite length_app; simpl; lia |].
  apply wp_ret. unfold slice. rewrite Nat2Z.id, Hu, drop_app_le by lia.
  rewrite (drop_S _ _ _ Hb). done.
Qed.

(** What the first loop leaves: the host name as a string, [i] at the slash. *)
Definition host_done s s' : Prop :=
  (forall a, a <> Host_name -> arrs s' a = arrs s a) /\ zlen (arrs s' Host_name) = 1000 /\
  cstr (arrs s' Host_name) = Some host /\ ints s' i_ = Some (zlen host) /\ world s' = world s.

Lemma wp_host_stop s (Q : ctl -> cstate arr ivar pworld -> Prop) E :
  zlen host < 1000 -> holds_url s -> zlen (arrs s Host_name) = 1000 -> ints s i_ = Some (zlen host) ->
  (forall s', host_done s s' -> Q Brk s') -> wp host_body Q E s.
Proof.
  intros Hh Hu Hl Hi HQ. unfold host_body. apply wp_bind. eapply wp_geti; [done |]. apply wp_bind.
  apply (wp_load_url (length host) slash); [done | by apply list_lookup_middle |]. rewrite Z.eqb_refl.
  pose proof Hu as [rest Hu']. pose proof (zlen_nonneg host). pose proof (zlen_nonneg rest).
  assert (Hs : slice (arrs s URL_Addr) 0 (zlen host) = host).
  { rewrite Hu'. unfold url. rewrite <- app_assoc. by apply slice_0_app. }
  apply wp_bind, wp_memcpy; [lia | lia | | lia | lia |].
  { rewrite Hu'. unfold url. rewrite !zlen_app, !zlen_cons. pose proof (zlen_nonneg path). lia. }
  rewrite Hs. assert (Hz : zlen (splice (arrs s Host_name) 0 host) = 1000) by (rewrite zlen_splice; lia).
  apply wp_bind, wp_store.
  { unfold set_arr. cbn [arrs]. rewrite upd_eq. lia. }
  apply wp_ret, HQ. unfold host_done, set_arr. cbn [arrs ints world]. rewrite !upd_eq.
  split; [intros a Ha; by rewrite !upd_ne by done |]. split; [by rewrite zlen_splice; change (zlen [u8 0]) with 1; lia |].
  split; [| done]. rewrite splice_0, splice_app, splice_0 by done. apply cstr_app.
  eapply Forall_impl; [exact Hhost | by intros b []].
Qed.

Lemma wp_host_loop n : forall k s (Q : unit -> cstate arr ivar pworld -> Prop) E,
  (length host - k <= n)%nat -> (k <= length host)%nat -> zlen host < 1000 ->
  holds_url s -> zlen (arrs s Host_name) = 1000 -> ints s i_ = Some (Z.of_nat k) ->
  (forall s', host_done s s' -> Q tt s') ->
  wp (for_fuel (S n) url_lt i_incr host_body) Q E s.
Proof.
  induction n as [| n IH]; intros k s Q E Hn Hk Hh Hu Hl Hi HQ; apply wp_for; (eapply wp_url_lt; [done | done |]);
    rewrite (proj2 (Z.ltb_lt _ _)) by (unfold zlen, url; rewrite length_app; simpl; lia).
  - replace k with (length host) in Hi by lia. by apply wp_host_stop.
  - destruct (decide (k = length host)) as [-> | Hne]; [by apply wp_host_stop |].
    destruct (lookup_lt_is_Some_2 host k) as [b Hb]; [lia |].
    unfold host_body. apply wp_bind. eapply wp_geti; [done |]. apply wp_bind.
    apply (wp_load_url k b); [done | by apply lookup_app_l_Some |].
    destruct (proj1 (Forall_lookup _ _) Hhost k b Hb) as [_ Hs]. rewrite (proj2 (Z.eqb_neq b slash)) by done.
    apply wp_ret. unfold i_incr. apply wp_bind. eapply wp_geti; [done |]. apply wp_seti.
    apply (IH (S k)); try done; try lia.
    unfold set_int. cbn [ints]. rewrite upd_eq. f_equal. lia.
Qed.

(** What the second loop leaves: the rest of the URL behind the old page. *)
Definition page_done (old : list Z) s s' : Prop :=
  (forall a, a <> Page -> arrs s' a = arrs s a) /\ zlen (arrs s' Page) = zlen (arrs s Page) /\
  cstr (arrs s' Page) = Some (old ++ path) /\ world s' = world s.

Lemma wp_page_loop n old s (Q : unit -> cstate arr ivar pworld -> Prop) E :
  holds_url s -> cstr (arrs s Page) = Some old -> zlen old + zlen path < zlen (arrs s Page) ->
  ints s i_ = Some (zlen host + 1) ->
  (forall s', page_done old s s' -> Q tt s') ->
  wp (for_fuel (S n) url_lt i_incr page_body) Q E s.
Proof.
  intros Hu Ho Hroom Hi HQ. apply wp_for. eapply wp_url_lt; [done | done |].
  pose proof (zlen_nonneg host). pose proof (zlen_nonneg path). pose proof (zlen_nonneg (arrs s Page)).
  replace (zlen url) with (zlen host + 1 + zlen path) by (unfold url; rewrite zlen_app, zlen_cons; lia).
  destruct (Z.ltb_spec (zlen host + 1) (zlen host + 1 + zlen path)) as [Hlt | Hge].
  - unfold page_body, strcat_page. apply wp_bind. eapply wp_geti; [done |]. apply wp_bind, wp_bind.
    eapply (wp_read_str _ _ old); [lia | by rewrite drop_0 |]. apply wp_bind.
    destruct Hu as [rest Hu]. eapply (wp_read_str _ _ path).
    { rewrite Hu. unfold url. rewrite !zlen_app, !zlen_cons. pose proof (zlen_nonneg rest). lia. }
    { rewrite Hu. unfold url. replace ((host ++ slash :: path) ++ 0 :: rest) with ((host ++ [slash]) ++ path ++ 0 :: rest)
        by by rewrite <- !app_assoc.
      rewrite drop_zlen_app by by rewrite zlen_app. by apply cstr_app. }
    apply wp_write_arr; [apply zlen_nonneg | rewrite zlen_app; change (zlen [0]) with 1; lia |].
    apply wp_ret, HQ. unfold page_done, set_arr. cbn [arrs world]. rewrite upd_eq.
    split; [intros a Ha; by rewrite upd_ne by done |].
    split; [by rewrite zlen_splice; rewrite ?zlen_app; change (zlen [0]) with 1; pose proof (zlen_nonneg old); lia |].
    split; [| done]. destruct (cstr_Some _ _ Ho) as (r & Hr & Hnz). rewrite Hr, splice_app, splice_0 by done.
    rewrite <- app_assoc, app_assoc. apply cstr_app. by apply Forall_app.
  - assert (Hp : path = []) by (apply nil_length_inv; unfold zlen in *; lia).
    apply HQ. unfold page_done. rewrite Hp, app_nil_r. done.
Qed.
End Loops.

(** ** The whole client *)
Lemma after_last_slash_short u name : after_last_slash u = Some name -> zlen name < zlen u.
Proof.
  induction u as [| b u IH]; simpl; [done |]. rewrite zlen_cons. destruct (after_last_slash u) as [t |].
  - intros [= <-]. specialize (IH eq_refl). lia.
  - destruct (b =? slash); [| done]. intros [= <-]. lia.
Qed.

(** Answers of [read] for a page in pieces: none empty or larger than the buffer. *)
Definition piece (chunk : list Z) : Prop := chunk <> [] /\ zlen chunk <= 65536.

Lemma wp_receive chunks rest : forall (s : cstate arr ivar pworld) (Q : bool -> cstate arr ivar pworld -> Prop) E,
  Forall piece chunks -> fopened (world s) = true ->
  (forall s', arrs s' = arrs s -> world s' = mk_world (requests (world s)) (fname (world s)) true
     (fcontents (world s) ++ concat chunks) -> Q true s') ->
  wp (receive (chunks ++ [] :: rest)) Q E s.
Proof.
  induction chunks as [| chunk chunks IH]; intros s Q E Hp Ho HQ; cbn [app receive].
  - rewrite take_nil. apply wp_ret, HQ; [done |]. destruct (world s); simpl in *. by rewrite Ho, app_nil_r.
  - inversion Hp as [| ? ? [Hne Hl] Hrest]; subst. rewrite take_ge by (unfold zlen in Hl; lia).
    destruct chunk as [| b chunk]; [done |]. apply wp_bind, wp_getw. rewrite Ho. apply wp_bind, wp_setw.
    apply IH; [done | done |]. intros s' Ha Hw. apply HQ; [done |]. rewrite Hw. unfold set_world; cbn.
    by rewrite <- app_assoc.
Qed.

Definition request_room : Z := 949.

Lemma zlen_request page host : zlen (request_text page host) = 50 + zlen page + zlen host.
Proof. unfold request_text. rewrite !zlen_app. unfold crlf, lit, zlen. simpl. lia. Qed.

(** The arrays have their declared sizes; [Page] starts with the string [old]. *)
Record ready (s : cstate arr ivar pworld) (old : list Z) : Prop := {
  ready_sizes : forall a, zlen (arrs s a) = arr_size a;
  ready_page : cstr (arrs s Page) = Some old
}.

Lemma wp_exchange page host chunks rest s (Q : bool -> cstate arr ivar pworld -> Prop) E :
  cstr (arrs s Page) = Some page -> cstr (arrs s Host_name) = Some host ->
  zlen (arrs s Get_Req) = 1000 -> zlen page + zlen host < request_room + 1 ->
  Forall piece chunks -> fopened (world s) = true ->
  (forall s', world s' = mk_world (requests (world s) ++ [request_text page host]) (fname (world s)) true
     (fcontents (world s) ++ concat chunks) -> Q true s') ->
  wp (exchange (chunks ++ [] :: rest)) Q E s.
Proof.
  intros Hp Hh Hg Hroom Hc Hf HQ. unfold exchange, request_room in *.
  pose proof (zlen_nonneg (arrs s Page)). pose proof (zlen_nonneg (arrs s Host_name)).
  apply wp_bind. eapply (wp_read_str _ _ page); [lia | by rewrite drop_0 |].
  apply wp_bind. eapply (wp_read_str _ _ host); [lia | by rewrite drop_0 |].
  apply wp_bind, wp_write_arr; [lia | rewrite zlen_app, zlen_request; change (zlen [0]) with 1; lia |].
  apply wp_bind, wp_getw. apply wp_bind, wp_setw. apply wp_bind. apply wp_receive; [done | done |].
  intros s' Ha Hw. apply wp_bind, wp_getw. rewrite Hw. cbn [fopened]. apply wp_bind.
  assert (Hp' : arrs s' Page = arrs s Page) by (rewrite Ha; unfold set_world, set_arr; cbn [arrs]; by rewrite upd_ne by done).
  eapply (wp_read_str _ _ page); [rewrite Hp'; lia | by rewrite Hp', drop_0 |].
  apply wp_bind, wp_write_arr; [lia | |].
  { rewrite Hp'. destruct (cstr_nonzero _ _ Hp) as [_ Hlt]. unfold zlen in *. rewrite length_replicate. lia. }
  apply wp_ret, HQ. unfold set_arr; cbn [world]. by rewrite Hw.
Qed.

Lemma wp_main (host path name old : list Z) chunks rest s :
  Forall (fun b => b <> 0 /\ b <> slash) host -> nonzero path ->
  zlen old + zlen host + zlen path < request_room ->
  after_last_slash (host ++ slash :: path) = Some name -> name <> [] ->
  Forall piece chunks -> ready s old ->
  wp (main (host ++ slash :: path) true (chunks ++ [] :: rest))
    (fun over s' => over = true /\
       world s' = mk_world (requests (world s) ++ [request_text (old ++ path) host]) name true (concat chunks))
    (fun _ _ => False) s.
Proof.
  intros Hh Hp Hroom Hname Hne Hchunks [Hsz Hpage]. set (url := host ++ slash :: path).
  pose proof (zlen_nonneg host). pose proof (zlen_nonneg path). pose proof (zlen_nonneg old).
  assert (Hurl : zlen url = zlen host + 1 + zlen path) by (unfold url; rewrite zlen_app, zlen_cons; lia).
  pose proof (after_last_slash_short _ _ Hname) as Hshort. fold url in Hname, Hshort. unfold request_room in *.
  unfold main. rewrite Hname.
  apply wp_bind, wp_write_arr; [lia | rewrite Hsz, zlen_app; simpl; change (zlen [0]) with 1; lia |].
  apply wp_bind, wp_write_arr; [lia | |].
  { unfold set_arr; cbn [arrs]. rewrite upd_ne by done. rewrite Hsz, zlen_app. simpl. change (zlen [0]) with 1. lia. }
  apply wp_bind, wp_getw. apply wp_bind, wp_setw. apply wp_bind, wp_seti. apply wp_bind.
  apply (wp_host_loop host path Hh Hp 1000 0); try (unfold zlen in *; lia); try done.
  { eexists. unfold set_int, set_world, set_arr. cbn [arrs]. rewrite upd_ne, upd_eq by done.
    rewrite splice_0, <- app_assoc. reflexivity. }
  { unfold set_int, set_world, set_arr. cbn [arrs]. rewrite !upd_ne by done. apply Hsz. }
  intros s1 (Harr & Hhl & Hhost & Hi & Hw). unfold set_int, set_world, set_arr in Harr, Hw. cbn [arrs world] in Harr, Hw.
  apply wp_bind. unfold i_incr at 1. apply wp_bind. eapply wp_geti; [done |]. apply wp_seti, wp_bind.
  assert (HP : arrs s1 Page = arrs s Page) by (rewrite Harr by done; by rewrite !upd_ne by done).
  assert (HG : arrs s1 Get_Req = arrs s Get_Req) by (rewrite Harr by done; by rewrite !upd_ne by done).
  eapply (wp_page_loop host path Hh Hp 1000 old); try done.
  { eexists. unfold set_int. cbn [arrs]. rewrite Harr, upd_ne, upd_eq, splice_0, <- app_assoc by done. reflexivity. }
  { unfold set_int; cbn [arrs]. by rewrite HP. }
  { unfold set_int; cbn [arrs]. rewrite HP, Hsz. simpl. lia. }
  intros s2 (Harr2 & Hpl & Hpg & Hw2). unfold set_int in Harr2, Hw2. cbn [arrs world] in Harr2, Hw2.
  assert (Hw12 : world s2 = mk_world (requests (world s)) name true []).
  { rewrite Hw2, Hw. f_equal. by rewrite bool_decide_eq_false_2. }
  apply (wp_exchange (old ++ path) host); try done.
  - by rewrite Harr2.
  - rewrite Harr2, HG by done. apply Hsz.
  - rewrite zlen_app. unfold request_room. lia.
  - by rewrite Hw12.
  - intros s3 Hw3. split; [done |]. rewrite Hw3, Hw12. done.
Qed.
End ProxyClient.
