(* ===== verification/ProxyDial.v ===== *)
(** * [assignment4/client.c]: the connection to the proxy

    The first part of [main] (lines 22 to 74): the address and the port of the proxy are
    taken from the arguments, the socket is made and connected.  [inet_pton] is a
    parameter: the four bytes of an address, or [None] for a text that is no address,
    which leaves its target alone.  The lemmas show where the client really connects to. *)

From S2P Require Import Prelude CMem ProxyClient.
From stdpp Require Import base list.
From Stdlib Require Import ZArith Lia.
From Stdlib Require String.
Import String.StringSyntax.
Open Scope Z_scope.

Module ProxyDial.

(** [sin_port] and [sin_addr] as the bytes in memory. *)
Record sockaddr_in := mk_sockaddr { sin_family : Z; sin_port : list Z; sin_addr : list Z }.
Definition AF_INET : Z := 2.
(** [htons]: the high byte first. *)
Definition htons (p : Z) : list Z := [u8 (p / 256); u8 p].

(** The locals, the descriptors that are open and the addresses connected to. *)
Record dialer := mk_dialer {
  serv_addr_str : list Z;
  serv_addr : sockaddr_in;
  REQ_loop : Z;
  fds : list Z;
  dialled : list sockaddr_in
}.
Abbreviation D := (M dialer).

Definition set_addr (a : sockaddr_in) : D unit := fun s => Done tt (mk_dialer (serv_addr_str s) a (REQ_loop s) (fds s) (dialled s)).
Definition get : D dialer := fun s => Done s s.

(** An argument that is not there is a null pointer. *)
Definition arg (args : list (list Z)) (k : nat) : D (list Z) :=
  match args !! k with Some a => ret a | None => undef NullPointer end.

Definition strcpy_addr (t : list Z) : D unit := fun s =>
  if in_bounds (serv_addr_str s) 0 (zlen t + 1)
  then Done tt (mk_dialer (splice (serv_addr_str s) 0 (t ++ [0])) (serv_addr s) (REQ_loop s) (fds s) (dialled s))
  else Undef OutOfBounds s.

(** [args] are [argv[1]], [argv[2]], ...; [socket] is the new descriptor, negative for an
    error; [connect_ok] the answer of [connect]. *)
Definition dial (inet_pton : list Z -> option (list Z)) (args : list (list Z)) (socket : Z) (connect_ok : bool) : D unit :=
  let* a1 := arg args 0 in
  strcpy_addr a1 ;;;
  let* a2 := arg args 1 in
  let port_num := atoi a2 in
  let* s := get in
  match inet_pton a1 with
  | Some ip => set_addr (mk_sockaddr (sin_family (serv_addr s)) (sin_port (serv_addr s)) ip)
  | None => ret tt
  end ;;;
  if socket <? 0 then exit 1
  else
    (fun s => Done tt (mk_dialer (serv_addr_str s) (serv_addr s) (REQ_loop s) (fds s ++ [socket]) (dialled s))) ;;;
    set_addr (mk_sockaddr 0 [0; 0] [0; 0; 0; 0]) ;;;
    let* s := get in
    set_addr (mk_sockaddr AF_INET (htons port_num) (sin_addr (serv_addr s))) ;;;
    (fun s => Done tt (mk_dialer (serv_addr_str s) (serv_addr s) (if connect_ok then 1 else REQ_loop s) (fds s)
                         (dialled s ++ [serv_addr s]))).

(** The whole of [main], on a connection that was made: the URL is the third argument. *)
Definition main (inet_pton : list Z -> option (list Z)) (args : list (list Z)) (socket : Z) (fopen_ok : bool) (chunks : list (list Z))
    (s : dialer) (c : cstate ProxyClient.arr ProxyClient.ivar ProxyClient.pworld)
    : outcome dialer unit * option (outcome (cstate ProxyClient.arr ProxyClient.ivar ProxyClient.pworld) bool) :=
  match (dial inet_pton args socket true ;;; arg args 2) s with
  | Done url s' => (Done tt s', Some (ProxyClient.main url fopen_ok chunks c))
  | Exited k s' => (Exited k s', None)
  | Undef w s' => (Undef w s', None)
  end.

Lemma strcpy_addr_ok t s : zlen t < 100 -> zlen (serv_addr_str s) = 100 ->
  strcpy_addr t s = Done tt (mk_dialer (splice (serv_addr_str s) 0 (t ++ [0])) (serv_addr s) (REQ_loop s) (fds s) (dialled s)).
Proof.
  intros Ht Hs. unfold strcpy_addr, in_bounds. rewrite Hs. pose proof (Nat2Z.is_nonneg (length t)) as Hn. fold (zlen t) in Hn.
  by rewrite (proj2 (Z.leb_le 0 (zlen t + 1))), (proj2 (Z.leb_le (0 + (zlen t + 1)) 100)) by lia.
Qed.

(** The address given is forgotten: whatever the first argument says and whether or not it
    is an address, the client connects to 0.0.0.0, this machine, at the given port. *)
Lemma dial_forgets_address inet_pton ip port more socket connect_ok s :
  zlen ip < 100 -> zlen (serv_addr_str s) = 100 -> 0 <= socket -> 0 <= atoi port < 65536 ->
  exists s', dial inet_pton (ip :: port :: more) socket connect_ok s = Done tt s' /\ fds s' = fds s ++ [socket] /\
    dialled s' = dialled s ++ [mk_sockaddr AF_INET [atoi port / 256; atoi port mod 256] [0; 0; 0; 0]].
Proof.
  intros Hip Hs Hsock Hport. unfold dial. unfold bind at 1. cbn [arg lookup list_lookup ret]. unfold bind at 1.
  rewrite strcpy_addr_ok by done. unfold bind at 1. cbn [arg lookup list_lookup ret]. unfold bind at 1, get at 1. unfold bind at 1.
  assert (Hp : htons (atoi port) = [atoi port / 256; atoi port mod 256]).
  { unfold htons, u8. rewrite (Z.mod_small (atoi port / 256)); [done |].
    split; [apply Z.div_pos; lia | apply Z.div_lt_upper_bound; lia]. }
  by destruct (inet_pton ip); rewrite (proj2 (Z.ltb_ge _ _)) by done; rewrite Hp; eexists.
Qed.

(** An address of a hundred characters or more is written behind its array. *)
Lemma long_address_overruns inet_pton ip rest socket connect_ok s : 100 <= zlen ip -> zlen (serv_addr_str s) = 100 ->
  dial inet_pton (ip :: rest) socket connect_ok s = Undef OutOfBounds s.
Proof.
  intros Hip Hs. unfold dial, bind at 1. cbn [arg lookup list_lookup ret]. unfold bind at 1, strcpy_addr, in_bounds. rewrite Hs.
  rewrite (proj2 (Z.leb_gt (0 + (zlen ip + 1)) 100)) by lia. by rewrite andb_false_r.
Qed.

End ProxyDial.
