(* ===== verification/Proxy.v ===== *)
(** * [assignment4/proxy.cpp]: reading a request and sending a page

    [parse_req] copies the received text with [strdup] and cuts it up in place with
    [strtok]; [resource] and [address] are pointers into that copy, which
    [rm_space] then edits.  The model keeps the copy as its state and the pointers as
    offsets into it.  [send_to_clnt] sends a stored page without its header. *)

From S2P Require Import Prelude CMem ProxyClient QueryCache.
From stdpp Require Import base list.
From Stdlib Require Import ZArith Lia.
From Stdlib Require String.
Import String.StringSyntax.
Open Scope Z_scope.

Module Proxy.

(** ** The copy of the request *)
Abbreviation D := (M (list Z)).

Definition get : D (list Z) := fun b => Done b b.
Definition load (i : nat) : D Z := fun b =>
  match b !! i with Some c => Done c b | None => Undef OutOfBounds b end.
Definition store (i : nat) (c : Z) : D unit := fun b =>
  if (i <? length b)%nat then Done tt (<[i := c]> b) else Undef OutOfBounds b.
Definition string_at (i : nat) : D (list Z) := fun b =>
  match cstr (drop i b) with Some t => Done t b | None => Undef OutOfBounds b end.

(** ** [strtok(_, "\r\n")] from position [pos]: the token's position, if there is one,
    and where the next call goes on *)
Definition delim (c : Z) : bool := (c =? 13) || (c =? 10).
Definition token_char (c : Z) : bool := negb (c =? 0) && negb (delim c).

(** The length of the longest prefix of characters with [p]. *)
Fixpoint span (p : Z -> bool) (l : list Z) : nat :=
  match l with
  | [] => O
  | c :: l' => if p c then S (span p l') else O
  end.

Definition strtok (pos : nat) : D (option nat * nat) :=
  let* b := get in
  let start := (pos + span delim (drop pos b))%nat in
  let* c := load start in
  if c =? 0 then ret (None, start)
  else
    let stop := (start + span token_char (drop start b))%nat in
    let* e := load stop in
    if e =? 0 then ret (Some start, stop)
    else store stop 0 ;;; ret (Some start, S stop).

(** ** [parse_req] *)

(** The body of the loop for the line at [token]; [strlen] is a [size_t], so a line
    shorter than the protocol name writes before its own start. *)
Definition parse_line (token : nat) (resource address : option nat) : D (option nat * option nat) :=
  let* line := string_at token in
  if bool_decide (take 3 line = lit "GET") then
    let getline := (token + 4)%nat in
    let* text := string_at getline in
    let target := Z.of_nat getline + zlen text - 8 in
    if target <? 0 then undef OutOfBounds
    else store (Z.to_nat target) 0 ;;; ret (Some getline, address)
  else if bool_decide (take 5 line = lit "Host:") then ret (resource, Some (token + 6)%nat)
  else ret (resource, address).

Fixpoint parse_loop (fuel : nat) (tk : option nat * nat) (resource address : option nat) : D (option nat * option nat) :=
  match fuel with
  | O => undef NoFuel
  | S n =>
      match tk with
      | (None, _) => ret (resource, address)
      | (Some token, pos) =>
          let* ra := parse_line token resource address in
          let* tk' := strtok pos in
          parse_loop n tk' ra.1 ra.2
      end
  end.

Definition space : Z := 32.

(** [rm_space], with its two pointers. *)
Fixpoint rm_loop (fuel : nat) (m n : nat) : D unit :=
  match fuel with
  | O => undef NoFuel
  | S fuel' =>
      let* c := load n in
      if c =? 0 then store m 0
      else
        store m c ;;;
        rm_loop fuel' (if c =? space then m else S m) (S n)
  end.
Definition rm_space (p : option nat) : D unit :=
  match p with
  | None => undef Uninitialised
  | Some text => fun b => rm_loop (S (length b)) text text b
  end.

(** [parse_req] of the received text; the run's state is the copy made by [strdup],
    with its NUL. *)
Definition parse_req : D QueryCache.request_info :=
  let* b := get in
  let* tk := strtok 0 in
  let* ra := parse_loop (S (length b)) tk None None in
  rm_space ra.1 ;;;
  rm_space ra.2 ;;;
  match ra with
  | (Some r, Some a) =>
      let* rs := string_at r in
      let* ads := string_at a in
      ret (QueryCache.mk_request ads rs 0)
  | _ => undef Uninitialised
  end.

(** ** [send_to_clnt]: the bytes of the stored page that are sent *)
Fixpoint strip (ready_to_send : bool) (c4 c3 c2 c1 : Z) (file : list Z) : list Z :=
  match file with
  | [] => []
  | b :: file' =>
      let ready' := ready_to_send || ((c4 =? 13) && (c3 =? 10) && (c2 =? 13) && (c1 =? 10)) in
      (if ready' then [b] else []) ++ strip ready' c3 c2 c1 b file'
  end.
Definition send_page (file : list Z) : list Z := strip false 32 32 32 32 file.

(** ** Accesses in the middle of the copy *)
Lemma load_mid pre c rest i : i = length pre -> load i (pre ++ c :: rest) = Done c (pre ++ c :: rest).
Proof. intros ->. unfold load. by rewrite list_lookup_middle. Qed.

Lemma store_mid pre c c' rest i : i = length pre -> store i c' (pre ++ c :: rest) = Done tt (pre ++ c' :: rest).
Proof.
  intros ->. unfold store. rewrite (proj2 (Nat.ltb_lt _ _)) by (rewrite length_app; simpl; lia).
  f_equal. pose proof (insert_app_r pre (c :: rest) 0 c') as H. rewrite Nat.add_0_r in H. exact H.
Qed.

Lemma string_at_mid pre t rest i : i = length pre -> nonzero t ->
  string_at i (pre ++ t ++ 0 :: rest) = Done t (pre ++ t ++ 0 :: rest).
Proof. intros -> Ht. unfold string_at. by rewrite drop_app_length, cstr_app. Qed.

Lemma span_app p l c rest : Forall (fun x => p x = true) l -> p c = false -> span p (l ++ c :: rest) = length l.
Proof. intros Hl Hc. induction Hl as [| x l Hx _ IH]; simpl; [by rewrite Hc | by rewrite Hx, IH]. Qed.

(** ** [rm_space] removes the spaces of its string and touches nothing behind it *)
Definition no_spaces (t : list Z) : list Z := List.filter (fun c => negb (c =? space)) t.

Lemma rm_loop_spec t : forall fuel pre gap rest,
  nonzero t -> (length t < fuel)%nat ->
  exists junk, length junk = (length gap + (length t - length (no_spaces t)))%nat /\
    rm_loop fuel (length pre) (length (pre ++ gap)) (pre ++ gap ++ t ++ 0 :: rest)
    = Done tt (pre ++ no_spaces t ++ 0 :: junk ++ rest).
Proof.
  induction t as [| c t IH]; intros fuel pre gap rest Ht Hf; (destruct fuel as [| fuel]; [simpl in Hf; lia |]);
    cbn [rm_loop app]; unfold bind at 1; rewrite (app_assoc pre gap), load_mid by done.
  - cbn [Z.eqb app]. rewrite <- app_assoc. destruct gap as [| g gap].
    + exists []. split; [done |]. cbn [app]. by rewrite store_mid.
    + exists (gap ++ [0]). split; [rewrite length_app; simpl; lia |].
      cbn [app]. rewrite store_mid by done. by rewrite <- app_assoc.
  - inversion Ht as [| ? ? Hc Ht']; subst. rewrite (proj2 (Z.eqb_neq c 0)) by done. cbn [app].
    rewrite <- app_assoc. unfold bind.
    assert (Hlen : (length (no_spaces t) <= length t)%nat) by (unfold no_spaces; apply List.filter_length_le).
    assert (exists gap', length gap' = length gap /\
      store (length pre) c (pre ++ gap ++ c :: t ++ 0 :: rest) = Done tt (pre ++ c :: gap' ++ t ++ 0 :: rest)) as (gap' & Hg & ->).
    { destruct gap as [| g gap]; [exists []; split; [done |]; by apply store_mid |].
      exists (gap ++ [c]). split; [rewrite length_app; simpl; lia |].
      cbn [app]. rewrite store_mid by done. by rewrite <- app_assoc. }
    unfold no_spaces. cbn [List.filter]. fold (no_spaces t). destruct (Z.eqb_spec c space) as [-> | Hsp]; cbn [negb].
    + destruct (IH fuel pre (space :: gap') rest Ht') as (junk & Hj & Hrun); [simpl in Hf; lia |].
      exists junk. split; [rewrite Hj; simpl; lia |]. rewrite <- Hrun.
      rewrite !length_app. cbn [length app]. rewrite Hg. do 2 f_equal. lia.
    + destruct (IH fuel (pre ++ [c]) gap' rest Ht') as (junk & Hj & Hrun); [simpl in Hf; lia |].
      exists junk. split; [rewrite Hj; simpl; lia |].
      rewrite <- !app_assoc in Hrun. cbn [app] in Hrun |- *. rewrite <- Hrun.
      rewrite !length_app. cbn [length]. rewrite Hg. do 2 f_equal; lia.
Qed.

Lemma rm_space_spec pre t rest i : i = length pre -> nonzero t ->
  exists junk, length junk = (length t - length (no_spaces t))%nat /\
    rm_space (Some i) (pre ++ t ++ 0 :: rest) = Done tt (pre ++ no_spaces t ++ 0 :: junk ++ rest).
Proof.
  intros -> Ht. destruct (rm_loop_spec t (S (length (pre ++ t ++ 0 :: rest))) pre [] rest Ht) as (junk & Hj & Hrun).
  { rewrite !length_app. simpl. lia. }
  exists junk. split; [done |]. unfold rm_space. rewrite app_nil_r in Hrun. exact Hrun.
Qed.

(** ** [strtok] *)
Lemma strtok_token pre ds tok d rest pos :
  pos = length pre -> Forall (fun c => delim c = true) ds -> Forall (fun c => token_char c = true) tok ->
  tok <> [] -> delim d = true ->
  strtok pos (pre ++ ds ++ tok ++ d :: rest)
  = Done (Some (length (pre ++ ds)), S (length (pre ++ ds ++ tok))) (pre ++ ds ++ tok ++ 0 :: rest).
Proof.
  intros -> Hds Htok Hne Hd. destruct tok as [| c tok]; [done |]. inversion Htok as [| ? ? Hc Htok']; subst.
  assert (Hcd : delim c = false /\ (c =? 0) = false).
  { unfold token_char in Hc. by destruct (c =? 0), (delim c). }
  assert (Hd0 : token_char d = false /\ (d =? 0) = false).
  { unfold token_char, delim in *. destruct (Z.eqb_spec d 0) as [-> |]; [done |]. by rewrite Hd. }
  destruct Hcd as [Hcd Hc0], Hd0 as [Hdt Hd0].
  unfold strtok. unfold bind at 1. unfold get at 1. rewrite drop_app_length. cbn [app].
  rewrite (span_app delim ds c (tok ++ d :: rest)) by done.
  unfold bind at 1. rewrite (app_assoc pre ds), <- length_app. cbn [app]. rewrite load_mid by done. rewrite Hc0.
  rewrite drop_app_length. change (c :: tok ++ d :: rest) with ((c :: tok) ++ d :: rest).
  rewrite span_app by done.
  unfold bind at 1.
  replace ((pre ++ ds) ++ (c :: tok) ++ d :: rest) with ((pre ++ ds ++ c :: tok) ++ d :: rest) by by rewrite <- !app_assoc.
  replace (length (pre ++ ds) + length (c :: tok))%nat with (length (pre ++ ds ++ c :: tok)) by (rewrite !length_app; lia).
  rewrite load_mid by done. rewrite Hd0. unfold bind. rewrite store_mid by done.
  by rewrite <- !app_assoc.
Qed.

Lemma strtok_end pre ds rest pos : pos = length pre -> Forall (fun c => delim c = true) ds ->
  strtok pos (pre ++ ds ++ 0 :: rest) = Done (None, length (pre ++ ds)) (pre ++ ds ++ 0 :: rest).
Proof.
  intros -> Hds. unfold strtok. unfold bind at 1. unfold get at 1. rewrite drop_app_length, span_app by done.
  unfold bind. rewrite (app_assoc pre ds), <- length_app. by rewrite load_mid.
Qed.

(** ** Whole requests *)
Definition crlf : list Z := [13; 10].
Definition token (l : list Z) : Prop := Forall (fun c => token_char c = true) l.

(** A header line other than the request line and the host. *)
Definition other_line (l : list Z) : Prop :=
  l <> [] /\ token l /\ take 3 l <> lit "GET" /\ take 5 l <> lit "Host:".

Definition headers (others : list (list Z)) : list Z := concat (map (fun l => l ++ crlf) others) ++ crlf.
Definition http_request (path proto host : list Z) (others : list (list Z)) : list Z :=
  lit "GET " ++ path ++ [space] ++ proto ++ crlf ++ lit "Host: " ++ host ++ crlf ++ headers others.

Lemma token_nonzero l : token l -> nonzero l.
Proof.
  intros Hl. eapply Forall_impl; [exact Hl |]. intros c Hc. unfold token_char in Hc.
  by destruct (Z.eqb_spec c 0).
Qed.

Lemma no_spaces_app l l' : no_spaces (l ++ l') = no_spaces l ++ no_spaces l'.
Proof. unfold no_spaces. apply List.filter_app. Qed.

Lemma others_loop others : forall fuel pre ds r a,
  Forall (fun c => delim c = true) ds -> Forall other_line others -> (length others < fuel)%nat ->
  exists tail', (let* tk := strtok (length pre) in parse_loop fuel tk r a) (pre ++ ds ++ headers others ++ [0])
    = Done (r, a) (pre ++ tail').
Proof.
  induction others as [| l others IH]; intros fuel pre ds r a Hds Ho Hf; (destruct fuel as [| fuel]; [lia |]); unfold bind.
  - unfold headers. cbn [map concat app]. rewrite (app_assoc ds crlf).
    rewrite strtok_end; [by eexists | done |]. apply Forall_app. split; [done |]. by repeat constructor.
  - inversion Ho as [| ? ? (Hne & Htok & Hget & Hhost) Hrest]; subst.
    replace (headers (l :: others) ++ [0]) with (l ++ 13 :: 10 :: headers others ++ [0])
      by (unfold headers; cbn [map concat]; unfold crlf; by rewrite <- !app_assoc).
    rewrite strtok_token by done. cbn [parse_loop]. unfold bind at 1. unfold parse_line. unfold bind at 1.
    rewrite (app_assoc pre ds), string_at_mid by (done || by apply token_nonzero).
    rewrite !bool_decide_eq_false_2 by done. unfold ret at 1. cbn [fst snd].
    destruct (IH fuel (pre ++ ds ++ l ++ [0]) [10] r a) as (tail' & Hrun); [by repeat constructor | done | simpl in Hf; lia |].
    exists (ds ++ l ++ [0] ++ tail').
    replace (S (length (pre ++ ds ++ l))) with (length (pre ++ ds ++ l ++ [0])) by (rewrite !length_app; simpl; lia).
    rewrite <- !app_assoc in *. exact Hrun.
Qed.

(** The request line: the resource is what lies between the method and the protocol
    name, whose first character is overwritten. *)
Lemma parse_get path p0 proto rest r a :
  token path -> token (p0 :: proto) -> length proto = 7%nat ->
  parse_line 0 r a (lit "GET " ++ path ++ [space] ++ (p0 :: proto) ++ 0 :: rest)
  = Done (Some 4%nat, a) (lit "GET " ++ (path ++ [space]) ++ 0 :: proto ++ 0 :: rest).
Proof.
  intros Hpath Hproto Hlen.
  assert (Hnz : nonzero (path ++ [space] ++ p0 :: proto)).
  { apply Forall_app; split; [by apply token_nonzero |]. constructor; [done | by apply (token_nonzero (p0 :: proto))]. }
  unfold parse_line. unfold bind at 1.
  replace (lit "GET " ++ path ++ [space] ++ (p0 :: proto) ++ 0 :: rest)
    with ([] ++ (lit "GET " ++ path ++ [space] ++ p0 :: proto) ++ 0 :: rest) by (cbn [app]; by rewrite <- !app_assoc).
  rewrite string_at_mid; [| done | by repeat (constructor; [done |])].
  rewrite bool_decide_eq_true_2 by done. cbn [app].
  replace ((lit "GET " ++ path ++ space :: p0 :: proto) ++ 0 :: rest)
    with (lit "GET " ++ (path ++ [space] ++ p0 :: proto) ++ 0 :: rest) by (cbn [app]; by rewrite <- !app_assoc).
  unfold bind at 1. rewrite string_at_mid by done.
  replace (Z.of_nat (0 + 4) + zlen (path ++ [space] ++ p0 :: proto) - 8) with (Z.of_nat (5 + length path))
    by (unfold zlen; rewrite !length_app; cbn [length]; lia).
  rewrite (proj2 (Z.ltb_ge _ _)) by lia. rewrite Nat2Z.id. unfold bind.
  replace (lit "GET " ++ (path ++ [space] ++ p0 :: proto) ++ 0 :: rest)
    with ((lit "GET " ++ path ++ [space]) ++ p0 :: proto ++ 0 :: rest) by (cbn [app]; by rewrite <- !app_assoc).
  rewrite store_mid by (rewrite !length_app; change (length (lit "GET ")) with 4%nat; simpl; lia).
  cbn [app]. by rewrite <- !app_assoc.
Qed.

Lemma parse_host pre host rest r a : token host ->
  parse_line (length pre) r a (pre ++ (lit "Host: " ++ host) ++ 0 :: rest)
  = Done (r, Some (length pre + 6)%nat) (pre ++ (lit "Host: " ++ host) ++ 0 :: rest).
Proof.
  intros Hh. unfold parse_line, bind. rewrite string_at_mid; [| done |].
  - rewrite bool_decide_eq_false_2 by done. by rewrite bool_decide_eq_true_2 by done.
  - repeat (constructor; [done |]). by apply token_nonzero.
Qed.

(** The part of [parse_req] after the loop. *)
Lemma finish_request path host mid1 mid2 tail a :
  nonzero path -> nonzero host -> a = length (lit "GET " ++ path ++ 0 :: mid1 ++ mid2) ->
  exists b', (rm_space (Some 4%nat) ;;; rm_space (Some a) ;;;
    let* rs := string_at 4 in let* ads := string_at a in ret (QueryCache.mk_request ads rs 0))
    (lit "GET " ++ path ++ 0 :: mid1 ++ mid2 ++ host ++ 0 :: tail)
  = Done (QueryCache.mk_request (no_spaces host) (no_spaces path) 0) b'.
Proof.
  intros Hp Hh Ha.
  destruct (rm_space_spec (lit "GET ") path (mid1 ++ mid2 ++ host ++ 0 :: tail) 4 eq_refl Hp) as (j1 & Hj1 & H1).
  unfold bind at 1. rewrite H1.
  assert (Hle : (length (no_spaces path) <= length path)%nat) by apply List.filter_length_le.
  set (pre := lit "GET " ++ no_spaces path ++ 0 :: j1 ++ mid1 ++ mid2).
  replace (lit "GET " ++ no_spaces path ++ 0 :: j1 ++ mid1 ++ mid2 ++ host ++ 0 :: tail)
    with (pre ++ host ++ 0 :: tail) by (unfold pre; cbn [app]; rewrite <- !app_assoc; cbn [app]; by rewrite <- !app_assoc).
  assert (Hapre : a = length pre).
  { rewrite Ha. unfold pre. rewrite !length_app. cbn [length]. rewrite !length_app. lia. }
  destruct (rm_space_spec pre host tail a Hapre Hh) as (j2 & Hj2 & H2). unfold bind at 1. rewrite H2.
  assert (Hnp : nonzero (no_spaces path) /\ nonzero (no_spaces host)).
  { split; apply List.Forall_forall; intros x [Hx _]%List.filter_In; [by apply (proj1 (List.Forall_forall _ _) Hp) | by apply (proj1 (List.Forall_forall _ _) Hh)]. }
  destruct Hnp as [Hnp Hnh]. eexists. unfold bind.
  replace (pre ++ no_spaces host ++ 0 :: j2 ++ tail)
    with (lit "GET " ++ no_spaces path ++ 0 :: (j1 ++ mid1 ++ mid2 ++ no_spaces host ++ 0 :: j2 ++ tail))
    by (unfold pre; cbn [app]; rewrite <- !app_assoc; cbn [app]; by rewrite <- !app_assoc).
  rewrite (string_at_mid (lit "GET ")) by done.
  replace (lit "GET " ++ no_spaces path ++ 0 :: (j1 ++ mid1 ++ mid2 ++ no_spaces host ++ 0 :: j2 ++ tail))
    with (pre ++ no_spaces host ++ 0 :: j2 ++ tail)
    by (unfold pre; cbn [app]; rewrite <- !app_assoc; cbn [app]; by rewrite <- !app_assoc).
  rewrite string_at_mid by done. reflexivity.
Qed.

Lemma request_lines path p0 proto host others :
  http_request path (p0 :: proto) host others ++ [0]
  = (lit "GET " ++ path ++ [space] ++ p0 :: proto) ++ 13 :: 10 :: (lit "Host: " ++ host) ++ 13 :: 10 :: headers others ++ [0].
Proof.
  unfold http_request, crlf. cbn [app]. rewrite <- !app_assoc. cbn [app]. rewrite <- !app_assoc. cbn [app].
  by rewrite <- !app_assoc.
Qed.

(** The copy when all its lines were cut: the strings of the two pointers. *)
Lemma parse_lines path p0 proto host others fuel :
  token path -> token (p0 :: proto) -> length proto = 7%nat -> token host -> Forall other_line others ->
  (length others < fuel)%nat ->
  exists tail', (let* tk := strtok 0 in parse_loop (S (S fuel)) tk None None) (http_request path (p0 :: proto) host others ++ [0])
  = Done (Some 4%nat, Some (length (lit "GET " ++ (path ++ [space]) ++ 0 :: (proto ++ [0; 10]) ++ lit "Host: ")))
      (lit "GET " ++ (path ++ [space]) ++ 0 :: (proto ++ [0; 10]) ++ lit "Host: " ++ host ++ 0 :: tail').
Proof.
  intros Hpath Hproto Hlen Hhost Ho Hf.
  assert (Hl0 : token (lit "GET " ++ path ++ [space] ++ p0 :: proto)).
  { repeat (constructor; [done |]). apply Forall_app; split; [done |]. by constructor. }
  assert (Hl1 : token (lit "Host: " ++ host)) by by repeat (constructor; [done |]).
  rewrite request_lines. unfold bind at 1.
  pose proof (strtok_token [] [] (lit "GET " ++ path ++ [space] ++ p0 :: proto) 13
    (10 :: (lit "Host: " ++ host) ++ 13 :: 10 :: headers others ++ [0]) 0 eq_refl) as Hstart.
  cbn [app] in Hstart |- *. rewrite Hstart by (done || constructor). clear Hstart.
  cbn [parse_loop app length]. unfold bind at 1.
  pose proof (parse_get path p0 proto (10 :: (lit "Host: " ++ host) ++ 13 :: 10 :: headers others ++ [0]) None None
    Hpath Hproto Hlen) as Hget.
  replace ((lit "GET " ++ path ++ space :: p0 :: proto) ++ 0 :: 10 :: (lit "Host: " ++ host) ++ 13 :: 10 :: headers others ++ [0])
    with (lit "GET " ++ path ++ [space] ++ (p0 :: proto) ++ 0 :: 10 :: (lit "Host: " ++ host) ++ 13 :: 10 :: headers others ++ [0])
    by (cbn [app]; by rewrite <- !app_assoc).
  rewrite Hget. clear Hget. set (pre := lit "GET " ++ (path ++ [space]) ++ 0 :: proto ++ [0]).
  replace (lit "GET " ++ (path ++ [space]) ++ 0 :: proto ++ 0 :: 10 :: (lit "Host: " ++ host) ++ 13 :: 10 :: headers others ++ [0])
    with (pre ++ [10] ++ (lit "Host: " ++ host) ++ 13 :: 10 :: headers others ++ [0])
    by (unfold pre; rewrite <- !app_assoc; cbn [app]; by rewrite <- !app_assoc).
  replace (S (length (lit "GET " ++ path ++ space :: p0 :: proto))) with (length pre)
    by (unfold pre; rewrite !length_app; cbn [length]; rewrite !length_app; cbn [length]; lia).
  unfold bind at 1. rewrite strtok_token; [| done | by repeat constructor | done | done | done].
  cbn [fst snd]. unfold bind at 1. rewrite (app_assoc pre [10]), parse_host by done. cbn [fst snd].
  set (pre2 := (pre ++ [10]) ++ (lit "Host: " ++ host) ++ [0]).
  destruct (others_loop others fuel pre2 [10] (Some 4%nat) (Some (length (pre ++ [10%Z]) + 6)%nat)) as (tail' & Hrun);
    [by repeat constructor | done | done |].
  exists tail'.
  replace (S (length (pre ++ [10] ++ lit "Host: " ++ host))) with (length pre2)
    by (unfold pre2; rewrite !length_app; cbn [length]; lia).
  replace ((pre ++ [10]) ++ (lit "Host: " ++ host) ++ 0 :: 10 :: headers others ++ [0])
    with (pre2 ++ [10] ++ headers others ++ [0]) by (unfold pre2; by rewrite <- !app_assoc).
  rewrite Hrun. f_equal.
  - do 2 f_equal. unfold pre. change 6%nat with (length (lit "Host: ")).
    repeat (rewrite length_app || cbn [length]). lia.
  - unfold pre2, pre. rewrite <- !app_assoc. cbn [app]. by rewrite <- !app_assoc.
Qed.

Lemma parse_req_spec path proto host others :
  token path -> token proto -> length proto = 8%nat -> token host -> Forall other_line others ->
  exists b', parse_req (http_request path proto host others ++ [0])
    = Done (QueryCache.mk_request (no_spaces host) (no_spaces path) 0) b'.
Proof.
  intros Hpath Hproto Hlen Hhost Ho. destruct proto as [| p0 proto]; [done |]. simpl in Hlen.
  set (fuel := length (http_request path (p0 :: proto) host others ++ [0])).
  assert (Hfuel : (length others + 2 < fuel)%nat).
  { unfold fuel, http_request, headers. rewrite !length_app. change (length (lit "GET ")) with 4%nat.
    cbn [length]. clear - Ho. induction Ho as [| l others (Hne & _) _ IH]; [cbn; lia |].
    cbn [map concat length]. rewrite !length_app. destruct l; [done |]. cbn [length]. lia. }
  destruct (parse_lines path p0 proto host others (fuel - 1)) as (tail' & Hrun); try done; [lia | lia |].
  replace (S (S (fuel - 1))) with (S fuel) in Hrun by lia.
  destruct (finish_request (path ++ [space]) host (proto ++ [0; 10]) (lit "Host: ") tail'
    (length (lit "GET " ++ (path ++ [space]) ++ 0 :: (proto ++ [0; 10]) ++ lit "Host: "))) as (b' & Hfin);
    [| by apply token_nonzero | reflexivity |].
  { apply Forall_app; split; [by apply token_nonzero |]. by repeat constructor. }
  exists b'. rewrite no_spaces_app in Hfin. change (no_spaces [space]) with (@nil Z) in Hfin.
  rewrite app_nil_r in Hfin. rewrite <- Hfin. unfold parse_req. unfold bind at 1. unfold get at 1. fold fuel.
  unfold bind in Hrun |- *. destruct (strtok 0 _) as [tk b1 | |]; [| done | done]. rewrite Hrun. done.
Qed.

(** ** The page without its header *)

(** The four characters that end a header. *)
Definition blank_line : list Z := [13; 10; 13; 10].

Lemma strip_ready c4 c3 c2 c1 file : strip true c4 c3 c2 c1 file = file.
Proof. revert c4 c3 c2 c1. induction file as [| b file IH]; intros; [done |]. simpl. by rewrite IH. Qed.

(** The characters seen, newest first, and whether the blank line was among them. *)
Definition sees_blank (seen : list Z) : bool :=
  match seen with
  | c1 :: c2 :: c3 :: c4 :: _ => (c4 =? 13) && (c3 =? 10) && (c2 =? 13) && (c1 =? 10)
  | _ => false
  end.

Lemma strip_header header : forall c4 c3 c2 c1 body,
  (forall n, (n < length header)%nat -> sees_blank (rev (take n header) ++ [c1; c2; c3; c4]) = false) ->
  sees_blank (rev header ++ [c1; c2; c3; c4]) = true ->
  strip false c4 c3 c2 c1 (header ++ body) = body.
Proof.
  induction header as [| h header IH]; intros c4 c3 c2 c1 body Hno Hyes.
  - simpl in Hyes. destruct body as [| b body]; [done |]. cbn [app strip]. rewrite Hyes. simpl. by rewrite strip_ready.
  - pose proof (Hno 0%nat) as H0. simpl in H0. cbn [app strip orb].
    rewrite H0 by lia. cbn [app]. apply IH.
    + intros n Hn. specialize (Hno (S n)). simpl in Hno. rewrite <- app_assoc in Hno.
      assert (H := Hno ltac:(simpl; lia)). revert H. clear.
      generalize (rev (take n header)). intros l.
      destruct l as [| x0 [| x1 [| x2 [| x3 l]]]]; done.
    + simpl in Hyes. rewrite <- app_assoc in Hyes. revert Hyes. clear.
      generalize (rev header). intros l. destruct l as [| x0 [| x1 [| x2 [| x3 l]]]]; done.
Qed.

(** A header: its only blank line is its end. *)
Definition header_ok (header : list Z) : Prop :=
  (forall n, (n < length header)%nat -> sees_blank (rev (take n header)) = false) /\ sees_blank (rev header) = true.

Lemma sees_blank_app l : sees_blank l = false -> sees_blank (l ++ [32; 32; 32; 32]) = false.
Proof.
  destruct l as [| x0 [| x1 [| x2 [| x3 l]]]]; simpl; intros H; rewrite ?andb_false_r; done.
Qed.

Lemma send_page_body header body : header_ok header -> send_page (header ++ body) = body.
Proof.
  intros [Hno Hyes]. apply strip_header.
  - intros n Hn. by apply sees_blank_app, Hno.
  - destruct (rev header) as [| x0 [| x1 [| x2 [| x3 l]]]]; done.
Qed.

Lemma client_request_shape path host :
  ProxyClient.request_text path host = http_request path (lit "HTTP/1.0") host [lit "User-Agent: HTMLGET 1.0"].
Proof. reflexivity. Qed.

Lemma client_host host : token host -> ProxyClient.slash ∉ host ->
  Forall (fun b => b <> 0 /\ b <> ProxyClient.slash) host.
Proof.
  intros Ht Hs. apply List.Forall_forall. intros b Hb. split.
  - by apply (proj1 (List.Forall_forall _ _) (token_nonzero _ Ht)).
  - intros ->. apply Hs. by apply list_elem_of_In.
Qed.

(** ** Properties *)


(** *** Witness *)
Definition sample_arrays (a : ProxyClient.arr) : list Z := replicate (Z.to_nat (ProxyClient.arr_size a)) 0.
Definition sample_state : cstate ProxyClient.arr ProxyClient.ivar ProxyClient.pworld :=
  mk_cstate sample_arrays (fun _ => None) (ProxyClient.mk_world [] [] false []).
Definition sample_header : list Z := lit "HTTP/1.0 200 OK" ++ blank_line.

Lemma sample_ready : ProxyClient.ready sample_state [].
Proof.
  split.
  - intros a. apply zlen_replicate. by destruct a.
  - unfold sample_state, sample_arrays. cbn [arrs ProxyClient.arr_size].
    replace (Z.to_nat 2048000) with (S (Z.to_nat 2047999)) by lia. done.
Qed.

Lemma sample_header_ok : header_ok sample_header.
Proof.
  split; [| done]. intros n Hn. change (length sample_header) with 19%nat in Hn.
  do 19 (destruct n as [| n]; [done |]). lia.
Qed.

End Proxy.
