(* ===== verification/ProxyServer.v ===== *)
(** * [assignment4/proxy.cpp]: the proxy

    The class [proxy]: connections from clients ([recv_from_clnt]), fetching a page
    ([get_request_page], [recv_from_srvr]) and sending it ([send_to_clnt]), over the parser
    of [Proxy.v] and the cache of [QueryCache.v].

    What the environment answers while one request is served is a record [answers]: the
    clock, name resolution and connections, the pieces of the web server's response, and
    whether calls on files succeed.  [strptime] and [mktime] are the parameter [date].
    Both functions copy the resource with its NUL into an array that has no room for the
    NUL; [padding] is the number of bytes behind such an array that hold nothing else:
    0 by the language, more where the compiler rounds the size up. *)

From S2P Require Import Prelude CMem ProxyClient QueryCache Proxy.
From stdpp Require Import base list gmap.
From Stdlib Require Import ZArith Lia.
From Stdlib Require String.
Import String.StringSyntax.
Import QueryCache(request_info, mk_request, address, resource, expires).
Import Proxy(crlf, space, no_spaces).
Open Scope Z_scope.

Module ProxyServer.

Definition BUFFER_SIZE : Z := 2048000.

Record proxy := mk_proxy {
  proxy_cache : QueryCache.query_cache;
  disk : gmap (list Z) (list Z);        (* the files of the working directory *)
  fds_all : gset Z;
  sent : list (Z * list Z);             (* what was sent to clients *)
  asked : list (list Z)                 (* the messages to web servers *)
}.
Abbreviation X := (M proxy).

Record answers := mk_answers {
  present : Z; again : Z;                        (* the clock, in [check_cache] *)
  found : option (list (bool * bool));           (* [getaddrinfo]; [socket] and [connect] for each address *)
  time_buf : list Z;                             (* the current time as text *)
  send_ok : bool;
  temp_ok : bool;                                (* [fopen] of the temporary file *)
  pieces : list (list Z); recv_failed : bool;    (* [recv] from the web server *)
  remove_ok : bool; rename_ok : bool
}.

Definition set_cache (c : QueryCache.query_cache) (s : proxy) : proxy := mk_proxy c (disk s) (fds_all s) (sent s) (asked s).
Definition set_disk (d : gmap (list Z) (list Z)) (s : proxy) : proxy := mk_proxy (proxy_cache s) d (fds_all s) (sent s) (asked s).
Definition set_fds (f : gset Z) (s : proxy) : proxy := mk_proxy (proxy_cache s) (disk s) f (sent s) (asked s).
Definition add_sent (fd : Z) (b : list Z) (s : proxy) : proxy := mk_proxy (proxy_cache s) (disk s) (fds_all s) (sent s ++ [(fd, b)]) (asked s).
Definition add_asked (m : list Z) (s : proxy) : proxy := mk_proxy (proxy_cache s) (disk s) (fds_all s) (sent s) (asked s ++ [m]).

Definition self : X proxy := fun s => Done s s.
Definition modify (f : proxy -> proxy) : X unit := fun s => Done tt (f s).
(** Running a method of the cache, or a function on a text, inside a method of the proxy. *)
Definition on_cache {A} (m : M QueryCache.query_cache A) : X A := fun s =>
  match m (proxy_cache s) with
  | Done a c => Done a (set_cache c s)
  | Exited k c => Exited k (set_cache c s)
  | Undef w c => Undef w (set_cache c s)
  end.
Definition on_text {A} (m : M (list Z) A) (text : list Z) : X A := fun s =>
  match m text with Done a _ => Done a s | Exited k _ => Exited k s | Undef w _ => Undef w s end.

Section Proxy.
Variable padding : nat.
Variable date : list Z -> Z.

(** ** File names *)
Definition underscores (t : list Z) : list Z := map (fun c => if c =? 47 then 95 else c) t.

(** The name under which a page is stored. *)
Definition file_name (r : request_info) : X (list Z) :=
  if Nat.eqb padding 0 then undef OutOfBounds
  else on_text (Proxy.rm_space (Some O) ;;; Proxy.string_at O) (address r ++ underscores (resource r) ++ [0]).

(** ** [send_to_clnt] *)

(** [printf(resource)]: a [%] that is not doubled asks for an argument that is not there. *)
Fixpoint plain_format (t : list Z) : bool :=
  match t with
  | [] => true
  | 37 :: t' => match t' with 37 :: t'' => plain_format t'' | _ => false end
  | _ :: t' => plain_format t'
  end.

Definition send_to_clnt (clnt_req : request_info) (client_fd : Z) : X unit :=
  let* name := file_name clnt_req in
  (if plain_format (resource clnt_req) then ret tt else undef Uninitialised) ;;;
  let* s := self in
  (match disk s !! name with
   | Some file => modify (add_sent client_fd (Proxy.send_page file))
   | None => ret tt
   end) ;;;
  modify (fun s => set_fds (fds_all s ∖ {[client_fd]}) s).

(** ** [recv_from_srvr] *)

(** The first line of the first piece: its status code. *)
Definition status_code : M (list Z) (list Z) :=
  let* tk := Proxy.strtok 0 in
  match tk.1 with
  | None => undef NullPointer
  | Some tk1 => Proxy.store (tk1 + 12) 0 ;;; Proxy.string_at (tk1 + 9)
  end.

(** The line [Expires: ] of a piece. *)
Fixpoint find_expires (fuel : nat) (tk : option nat * nat) : M (list Z) (option (list Z)) :=
  match fuel with
  | O => undef NoFuel
  | S n =>
      match tk with
      | (None, _) => ret None
      | (Some tk2, pos) =>
          let* line := Proxy.string_at tk2 in
          if bool_decide (take 9 line = lit "Expires: ") then
            let* t := Proxy.string_at (tk2 + 9) in ret (Some t)
          else let* tk' := Proxy.strtok pos in find_expires n tk'
      end
  end.
Definition expires_line : M (list Z) (option (list Z)) :=
  let* b := Proxy.get in let* tk := Proxy.strtok 0 in find_expires (S (length b)) tk.

(** [content] as a string, after [recv] put a piece into the zeroed array. *)
Definition content_string (piece : list Z) : X (list Z) := fun s =>
  match cstr (piece ++ replicate (Z.to_nat (BUFFER_SIZE - zlen piece)) 0) with
  | Some t => Done t s
  | None => Undef OutOfBounds s
  end.

(** The loop: the status code, the expiry date and the file collected so far. *)
Fixpoint receive (pieces : list (list Z)) (webcode expires : option (list Z)) (temp : list Z) : X (option (list Z) * option (list Z) * list Z) :=
  match pieces with
  | [] => ret (webcode, expires, temp)
  | piece :: rest =>
      let* text := content_string piece in
      let* webcode' :=
        match webcode with
        | Some c => ret (Some c)
        | None => let* c := on_text status_code (text ++ [0]) in ret (Some c)
        end in
      let* expires' :=
        match expires with
        | Some e => ret (Some e)
        | None => on_text expires_line (text ++ [0])
        end in
      receive rest webcode' expires' (temp ++ piece)
  end.

(** [sprintf(tempstr, "tempfile%d", client_fd)] into ten bytes: one digit. *)
Definition temp_name (client_fd : Z) : X (list Z) :=
  if (0 <=? client_fd) && (client_fd <=? 9) then ret (lit "tempfile" ++ [48 + client_fd]) else undef OutOfBounds.

Definition with_expires (r : request_info) (e : Z) : request_info := mk_request (address r) (resource r) e.

Definition expiry (e : option (list Z)) : Z :=
  match e with
  | Some t => if bool_decide (t = lit "-1") then 0 else date t
  | None => 0
  end.

(** A response other than "not modified" replaces the stored page. *)
Definition store_file (a : answers) (name tempstr code : list Z) : X unit :=
  if bool_decide (code = lit "304") then ret tt
  else
    (if remove_ok a then modify (fun s => set_disk (delete name (disk s)) s) else ret tt) ;;;
    (if rename_ok a then
       modify (fun s => match disk s !! tempstr with Some f => set_disk (<[name := f]> (delete tempstr (disk s))) s | None => s end)
     else ret tt).

Definition recv_from_srvr (a : answers) (clnt_req : request_info) (client_fd condition_flag : Z) : X unit :=
  let* name := file_name clnt_req in
  let* tempstr := temp_name client_fd in
  (if temp_ok a then modify (fun s => set_disk (<[tempstr := []]> (disk s)) s)
   else undef NullPointer) ;;;
  let* r := receive (pieces a) None None [] in
  let '(webcode, expires, temp) := r in
  modify (fun s => set_disk (<[tempstr := temp]> (disk s)) s) ;;;
  let clnt_req' := with_expires clnt_req (expiry expires) in
  if recv_failed a then exit 0
  else
    match webcode with
    | None => undef NullPointer
    | Some code =>
        store_file a name tempstr code ;;;
        (if (condition_flag =? 0) || (condition_flag =? 2) then on_cache (QueryCache.remove clnt_req') else ret tt) ;;;
        on_cache (QueryCache.enqueue clnt_req') ;;;
        send_to_clnt clnt_req' client_fd
    end.

(** ** [get_request_page] *)
Definition connected (addresses : list (bool * bool)) : bool := existsb (fun a => a.1 && a.2) addresses.

Definition sprintf (size : Z) (text : list Z) : X (list Z) :=
  if zlen text + 1 <=? size then ret text else undef OutOfBounds.

Definition get_temp : list Z :=
  lit "GET /%s HTTP/1.0" ++ crlf ++ lit "Host: %s" ++ crlf ++ lit "User-Agent: %s" ++ crlf ++ crlf.
Definition get_message (path host : list Z) : X (list Z) :=
  sprintf (zlen get_temp - 5 + zlen host + zlen path + zlen (lit "ECEN602"))
    (lit "GET /" ++ path ++ lit " HTTP/1.0" ++ crlf ++ lit "Host: " ++ host ++ crlf ++ lit "User-Agent: " ++ lit "ECEN602" ++ crlf ++ crlf).

Definition conditional_temp : list Z :=
  lit "GET /%s HTTP/1.0" ++ crlf ++ lit "Host: %s" ++ crlf ++ lit "If-Modified-Since: %s" ++ crlf ++ crlf.
Definition conditional_message (path host time : list Z) : X (list Z) :=
  sprintf (zlen conditional_temp + zlen host + zlen path + zlen time)
    (lit "GET /" ++ path ++ lit " HTTP/1.0" ++ crlf ++ lit "Host: " ++ host ++ crlf ++ lit "If-Modified-Since: " ++ time ++ crlf ++ crlf).

(** The resource without a leading slash. *)
Definition path_of (resource : list Z) : list Z :=
  match resource with 47 :: t => t | t => t end.

(** Sending the message and handling the response. *)
Definition ask (a : answers) (msg : list Z) (clnt_req : request_info) (client_fd condition_flag : Z) (conn : bool) : X unit :=
  if conn && send_ok a then
    modify (add_asked msg) ;;;
    recv_from_srvr a clnt_req client_fd condition_flag
  else exit 1.

Definition get_request_page (a : answers) (clnt_req : request_info) (client_fd condition_flag : Z) : X unit :=
  match found a with
  | None => exit 1
  | Some addresses =>
      let path := path_of (resource clnt_req) in
      let* cached := (if condition_flag =? 0 then on_cache (QueryCache.is_cache_exist clnt_req) else ret false) in
      if cached then send_to_clnt clnt_req client_fd
      else if condition_flag =? 2 then
        let* msg := get_message path (address clnt_req) in
        ask a msg clnt_req client_fd condition_flag (connected addresses)
      else
        let* msg := conditional_message path (address clnt_req) (time_buf a) in
        ask a msg clnt_req client_fd condition_flag (connected addresses)
  end.

(** ** [recv_from_clnt] *)

(** What [select] reports: a new connection ([None]: [accept] fails), data from a client
    followed by what [buffer] held before, a [recv] of 0 or -1 bytes; or [select] fails. *)
Inductive event :=
| Connect (client : option Z)
| Data (client : Z) (received behind : list Z) (a : answers)
| Nothing (client : Z)
| SelectFails.

Definition request (client : Z) (buffer : list Z) (a : answers) : X unit :=
  if bool_decide (take 3 buffer = lit "GET") then
    match cstr buffer with
    | None => undef OutOfBounds
    | Some text =>
        let* clnt_req := on_text Proxy.parse_req (text ++ [0]) in
        let* condition_flag := on_cache (QueryCache.check_cache clnt_req (present a) (again a)) in
        get_request_page a clnt_req client condition_flag
    end
  else ret tt.

Definition on_event (e : event) : X unit :=
  match e with
  | Connect None => exit 1
  | Connect (Some client) => modify (fun s => set_fds (fds_all s ∪ {[client]}) s)
  | Data client received behind a => request client (received ++ behind) a
  | Nothing _ => ret tt
  | SelectFails => ret tt
  end.

(** [None] while it waits for the next event, [Some 0] when it returned. *)
Fixpoint recv_from_clnt (events : list event) : X (option Z) :=
  match events with
  | [] => ret None
  | SelectFails :: _ => ret (Some 0)
  | e :: rest => on_event e ;;; recv_from_clnt rest
  end.
End Proxy.

(** ** Start-up *)
Definition started (sock_fd : Z) : proxy := mk_proxy QueryCache.query_cache_new ∅ {[sock_fd]} [] [].

Definition proxy_start (host_ok socket_ok bind_ok listen_ok : bool) (sock_fd : Z) : outcome proxy unit :=
  if negb host_ok then Exited 0 (started sock_fd)
  else if negb socket_ok then Exited 2 (started sock_fd)
  else if negb bind_ok then Exited 3 (started sock_fd)
  else if negb listen_ok then Exited 4 (started sock_fd)
  else Done tt (started sock_fd).

(** [proxy_main.cpp]. *)
Definition main (padding : nat) (date : list Z -> Z) (argc : Z) (host_ok socket_ok bind_ok listen_ok : bool) (sock_fd : Z) (events : list event)
  : outcome proxy (option Z) :=
  if negb (argc =? 3) then Exited 1 (started sock_fd)
  else match proxy_start host_ok socket_ok bind_ok listen_ok sock_fd with
       | Done _ s => recv_from_clnt padding date events s
       | Exited k s => Exited k s
       | Undef w s => Undef w s
       end.

(** [generate_req_msg], which nothing calls. *)
Definition generate_req_msg (host page : list Z) : X (list Z) :=
  sprintf (zlen host + zlen page + zlen (lit "GET /%s HTTP/1.0" ++ crlf ++ lit "Host: %s" ++ crlf) - 5)
    (lit "GET /" ++ page ++ lit " HTTP/1.0" ++ crlf ++ lit "Host: " ++ host ++ crlf).

End ProxyServer.
