(* ===== verification/ProxyServe.v ===== *)
(** * The proxy refines a cache of pages

    The abstract proxy is the list of its cached pages, newest first, and its files; a
    request is answered from the file when the page is cached and not expired, and
    otherwise after asking the web server.  The theorem follows the program through any
    sequence of requests. *)

From S2P Require Import Prelude CMem ProxyClient QueryCache Proxy ProxyServer.
From stdpp Require Import base list gmap.
From Stdlib Require Import ZArith Lia.
From Stdlib Require String.
Import String.StringSyntax.
Import QueryCache(request_info, mk_request, address, resource, expires, spec_op, Check, represents).
Import Proxy(crlf, space, no_spaces, token, token_char, delim, http_request, headers, other_line, send_page).
Import ProxyServer.
Open Scope Z_scope.

Module ProxyServe.

(** ** Texts *)
Lemma cstr_prefix l l' : nonzero l -> cstr (l ++ l') = (fun t => l ++ t) <$> cstr l'.
Proof.
  intros Hl. induction Hl as [| c l Hc _ IH]; cbn [app]; [by destruct (cstr l') |].
  cbn [cstr]. rewrite (proj2 (Z.eqb_neq c 0)), IH by done. by destruct (cstr l').
Qed.

Lemma crlf_nonzero : nonzero crlf.
Proof. by repeat constructor. Qed.

Lemma no_spaces_nonzero t : nonzero t -> nonzero (no_spaces t).
Proof. intros Ht. apply List.Forall_forall. intros x [Hx _]%List.filter_In. by apply (proj1 (List.Forall_forall _ _) Ht). Qed.

Lemma underscores_nonzero t : nonzero t -> nonzero (underscores t).
Proof. intros Ht. unfold underscores. apply List.Forall_map. eapply List.Forall_impl; [| exact Ht]. intros c Hc. by destruct (c =? 47). Qed.

Lemma bind_cont {S A B} (m : M S A) (k : A -> M S B) s a s' : m s = Done a s' -> bind m k s = k a s'.
Proof. unfold bind. by intros ->. Qed.

(** ** File names *)
Definition stored_name (r : request_info) : list Z := no_spaces (address r ++ underscores (resource r)).

Lemma file_name_ok padding r s : padding <> O -> nonzero (address r) -> nonzero (resource r) ->
  file_name padding r s = Done (stored_name r) s.
Proof.
  intros Hp Ha Hr. unfold file_name. rewrite (proj2 (Nat.eqb_neq _ _)) by done. unfold on_text, stored_name.
  assert (Hn : nonzero (address r ++ underscores (resource r))) by (apply Forall_app; split; [done | by apply underscores_nonzero]).
  rewrite (app_assoc (address r)).
  destruct (Proxy.rm_space_spec [] (address r ++ underscores (resource r)) [] O eq_refl Hn) as (junk & _ & Hrun).
  cbn [app] in Hrun. unfold bind. rewrite Hrun.
  pose proof (Proxy.string_at_mid [] _ (junk ++ []) O eq_refl (no_spaces_nonzero _ Hn)) as Hs. cbn [app] in Hs. by rewrite Hs.
Qed.

(** ** Responses *)

(** The first piece of a response: a status line, header lines, the expiry date, and
    anything behind it. *)
Record response := mk_response {
  version : list Z; code : list Z; reason : list Z;
  lines : list (list Z);
  expires_text : list Z;
  remainder : list Z;
  more : list (list Z)
}.

Definition status_line (r : response) : list Z := version r ++ code r ++ reason r.
Definition first_piece (r : response) : list Z :=
  status_line r ++ crlf ++ concat (map (fun l => l ++ crlf) (lines r)) ++ (lit "Expires: " ++ expires_text r) ++ crlf ++ remainder r.
Definition file (r : response) : list Z := first_piece r ++ concat (more r).

Definition header_line (l : list Z) : Prop := l <> [] /\ token l /\ take 9 l <> lit "Expires: ".

Definition well_formed (r : response) : Prop :=
  length (version r) = 9%nat /\ length (code r) = 3%nat /\ token (status_line r) /\ version r <> lit "Expires: " /\
  Forall header_line (lines r) /\ token (expires_text r) /\ Forall (fun p => zlen p < BUFFER_SIZE) (first_piece r :: more r).

Lemma content_string_ok p s : zlen p < BUFFER_SIZE -> exists t, content_string p s = Done t s.
Proof.
  intros Hp. unfold content_string. destruct (Z.to_nat (BUFFER_SIZE - zlen p)) as [| n] eqn:Hn; [lia |].
  destruct (cstr_terminated p (replicate n 0)) as [t Ht]. cbn [replicate]. rewrite Ht. by exists t.
Qed.

Lemma content_string_prefix hdr rest s : nonzero hdr -> zlen (hdr ++ rest) < BUFFER_SIZE ->
  exists t, content_string (hdr ++ rest) s = Done (hdr ++ t) s.
Proof.
  intros Hh Hp. unfold content_string. destruct (Z.to_nat (BUFFER_SIZE - zlen (hdr ++ rest))) as [| n] eqn:Hn; [lia |].
  cbn [replicate]. rewrite <- app_assoc, cstr_prefix by done.
  destruct (cstr_terminated rest (replicate n 0)) as [t ->]. by exists t.
Qed.

(** The status code is read from the first line. *)
Lemma status_code_ok v c r rest : length v = 9%nat -> length c = 3%nat -> token (v ++ c ++ r) ->
  exists b, status_code ((v ++ c ++ r) ++ 13 :: rest) = Done c b.
Proof.
  intros Hv Hc Ht. unfold status_code.
  pose proof (Proxy.strtok_token [] [] (v ++ c ++ r) 13 rest O eq_refl) as Hs. cbn [app] in Hs.
  rewrite (bind_cont _ _ _ _ _ (Hs ltac:(constructor) Ht ltac:(destruct v; done) ltac:(done))). cbn [fst length Nat.add app].
  assert (Hd : exists x tail, r ++ 0 :: rest = x :: tail) by (destruct r; by do 2 eexists). destruct Hd as (x & tail & Hd).
  replace ((v ++ c ++ r) ++ 0 :: rest) with ((v ++ c) ++ x :: tail) by (rewrite <- Hd; by rewrite <- !app_assoc).
  unfold bind. rewrite (Proxy.store_mid (v ++ c)) by (rewrite length_app; lia). rewrite <- app_assoc.
  rewrite Proxy.string_at_mid; [by eexists | done |].
  apply Proxy.token_nonzero. apply Forall_app in Ht as [_ Ht]. by apply Forall_app in Ht as [Ht _].
Qed.

Lemma find_lines ls e : forall fuel pre ds rest, Forall (fun c => delim c = true) ds -> Forall header_line ls -> token e -> (length ls < fuel)%nat ->
  exists b, (let* tk := Proxy.strtok (length pre) in find_expires fuel tk)
    (pre ++ ds ++ concat (map (fun l => l ++ crlf) ls) ++ (lit "Expires: " ++ e) ++ 13 :: rest) = Done (Some e) b.
Proof.
  induction ls as [| l ls IH]; intros fuel pre ds rest Hds Hl He Hf; (destruct fuel as [| fuel]; [lia |]); unfold bind at 1; cbn [map concat].
  - assert (Ht : token (lit "Expires: " ++ e)) by (apply Forall_app; split; [by repeat constructor | done]).
    cbn [app]. rewrite Proxy.strtok_token by done. cbn [find_expires]. unfold bind at 1.
    rewrite (app_assoc pre ds), Proxy.string_at_mid by (done || by apply Proxy.token_nonzero).
    rewrite bool_decide_eq_true_2 by done. unfold bind.
    replace ((pre ++ ds) ++ (lit "Expires: " ++ e) ++ 0 :: rest) with ((pre ++ ds ++ lit "Expires: ") ++ e ++ 0 :: rest) by (by rewrite <- !app_assoc).
    rewrite Proxy.string_at_mid; [by eexists | rewrite !length_app; change (length (lit "Expires: ")) with 9%nat; lia | by apply Proxy.token_nonzero].
  - inversion Hl as [| ? ? (Hne & Htok & Hexp) Hrest]; subst.
    set (tail := concat (map (fun l => l ++ crlf) ls) ++ (lit "Expires: " ++ e) ++ 13 :: rest).
    replace (((l ++ crlf) ++ concat (map (fun l => l ++ crlf) ls)) ++ (lit "Expires: " ++ e) ++ 13 :: rest)
      with (l ++ 13 :: 10 :: tail) by (unfold tail, crlf; by rewrite <- !app_assoc).
    rewrite Proxy.strtok_token by done. cbn [find_expires]. unfold bind at 1.
    rewrite (app_assoc pre ds), Proxy.string_at_mid by (done || by apply Proxy.token_nonzero).
    rewrite bool_decide_eq_false_2 by done.
    destruct (IH fuel (pre ++ ds ++ l ++ [0]) [10] rest) as (b & Hrun); [by repeat constructor | done | done | simpl in Hf; lia |].
    exists b. fold tail in Hrun.
    replace (S (length (pre ++ ds ++ l))) with (length (pre ++ ds ++ l ++ [0])) by (rewrite !length_app; simpl; lia).
    rewrite <- !app_assoc in *. exact Hrun.
Qed.

Lemma lines_shorter ls : (length ls <= length (concat (map (fun l => l ++ crlf) ls)))%nat.
Proof. induction ls as [| l ls IH]; [done |]. cbn [map concat length]. rewrite !length_app. change (length crlf) with 2%nat. lia. Qed.

Lemma expires_line_ok st ls e rest : header_line st -> Forall header_line ls -> token e ->
  exists b, expires_line (st ++ crlf ++ concat (map (fun l => l ++ crlf) ls) ++ (lit "Expires: " ++ e) ++ 13 :: rest) = Done (Some e) b.
Proof.
  intros Hst Hls He. unfold expires_line. unfold bind at 1, Proxy.get.
  replace (st ++ crlf ++ concat (map (fun l => l ++ crlf) ls) ++ (lit "Expires: " ++ e) ++ 13 :: rest)
    with (concat (map (fun l => l ++ crlf) (st :: ls)) ++ (lit "Expires: " ++ e) ++ 13 :: rest)
    by (cbn [map concat]; by rewrite <- !app_assoc).
  set (b := concat _ ++ _).
  destruct (find_lines (st :: ls) e (S (length b)) [] [] rest) as (b' & Hrun); [constructor | by constructor | done | |].
  - pose proof (lines_shorter (st :: ls)). unfold b. rewrite length_app. lia.
  - cbn [app length] in Hrun. fold b in Hrun. by exists b'.
Qed.

(** The whole loop over the pieces. *)
Lemma receive_rest ps c e : forall temp s, Forall (fun p => zlen p < BUFFER_SIZE) ps ->
  receive ps (Some c) (Some e) temp s = Done (Some c, Some e, temp ++ concat ps) s.
Proof.
  induction ps as [| p ps IH]; intros temp s Hps; cbn [receive concat]; [by rewrite app_nil_r |].
  inversion Hps as [| ? ? Hp Hps']; subst. destruct (content_string_ok p s Hp) as [t Ht].
  rewrite (bind_cont _ _ _ _ _ Ht). unfold bind, ret. rewrite IH by done. by rewrite <- app_assoc.
Qed.

Lemma receive_response r s : well_formed r ->
  receive (first_piece r :: more r) None None [] s = Done (Some (code r), Some (expires_text r), file r) s.
Proof.
  intros (Hv & Hc & Hst & Hver & Hls & He & Hsz). inversion Hsz as [| ? ? Hp Hps]; subst. cbn [receive].
  set (hdr := status_line r ++ crlf ++ concat (map (fun l => l ++ crlf) (lines r)) ++ (lit "Expires: " ++ expires_text r) ++ [13]).
  assert (Hfirst : first_piece r = hdr ++ 10 :: remainder r) by (unfold first_piece, hdr, crlf; rewrite <- !app_assoc; cbn [app]; by rewrite <- ?app_assoc).
  assert (Hnz : nonzero hdr).
  { unfold hdr. apply Forall_app; split; [by apply Proxy.token_nonzero |]. apply Forall_app; split; [apply crlf_nonzero |].
    apply Forall_app; split; [| repeat (constructor; [done |]); apply Forall_app; split; [by apply Proxy.token_nonzero | by repeat constructor]].
    clear - Hls. induction Hls as [| l ls (_ & Ht & _) _ IH]; [constructor |]. cbn [map concat].
    repeat (apply Forall_app; split); [by apply Proxy.token_nonzero | apply crlf_nonzero | done]. }
  rewrite Hfirst in Hp |- *. destruct (content_string_prefix hdr (10 :: remainder r) s Hnz Hp) as [t Ht].
  rewrite (bind_cont _ _ _ _ _ Ht). cbn iota.
  assert (Hshape : (hdr ++ t) ++ [0] = status_line r ++ crlf ++ concat (map (fun l => l ++ crlf) (lines r)) ++ (lit "Expires: " ++ expires_text r) ++ 13 :: t ++ [0])
    by (unfold hdr; rewrite <- !app_assoc; cbn [app]; by rewrite <- ?app_assoc).
  rewrite Hshape. set (text := status_line r ++ crlf ++ _). unfold bind at 1, on_text at 1, bind at 1.
  destruct (status_code_ok (version r) (code r) (reason r)
    (10 :: concat (map (fun l => l ++ crlf) (lines r)) ++ (lit "Expires: " ++ expires_text r) ++ 13 :: t ++ [0]) Hv Hc Hst) as (b1 & Hb1).
  change (status_code text = Done (code r) b1) in Hb1. rewrite Hb1. unfold ret at 1.
  unfold bind at 1, on_text at 1.
  assert (Hsl : header_line (status_line r)).
  { unfold header_line, status_line in *. split; [destruct (version r); done |]. split; [done |]. by rewrite take_app_le, take_ge by lia. }
  destruct (expires_line_ok (status_line r) (lines r) (expires_text r) (t ++ [0]) Hsl Hls He) as (b2 & Hb2).
  change (expires_line text = Done (Some (expires_text r)) b2) in Hb2. rewrite Hb2. rewrite receive_rest by done. cbn [app].
  unfold file. by rewrite Hfirst.
Qed.

(** ** The abstract proxy *)
Record aproxy := mk_aproxy {
  pages : list request_info;            (* newest first *)
  files : gmap (list Z) (list Z);
  clients : gset Z;
  delivered : list (Z * list Z);
  questions : list (list Z)
}.

Definition temp_file (client : Z) : list Z := lit "tempfile" ++ [48 + client].

(** Sending the stored page and letting the client go. *)
Definition deliver (client : Z) (r : request_info) (p : aproxy) : aproxy :=
  mk_aproxy (pages p) (files p) (clients p ∖ {[client]})
    (delivered p ++ match files p !! stored_name r with Some f => [(client, send_page f)] | None => [] end) (questions p).

(** The message to the web server: an unconditional request for a page that is not
    cached, a conditional one for an expired page. *)
Definition question (flag : Z) (r : request_info) (time : list Z) : list Z :=
  lit "GET /" ++ path_of (resource r) ++ lit " HTTP/1.0" ++ crlf ++ lit "Host: " ++ address r ++ crlf ++
  (if flag =? 2 then lit "User-Agent: " ++ lit "ECEN602" else lit "If-Modified-Since: " ++ time) ++ crlf ++ crlf.

(** The messages fit the memory allocated for them. *)
Ltac literal_lengths :=
  rewrite !zlen_app;
  repeat match goal with |- context [zlen (lit ?t)] => let v := eval vm_compute in (zlen (lit t)) in change (zlen (lit t)) with v end;
  change (zlen crlf) with 2.

Lemma get_message_ok r s : get_message (path_of (resource r)) (address r) s = Done (question 2 r []) s.
Proof.
  unfold get_message, sprintf, get_temp, question. rewrite (proj2 (Z.leb_le _ _)); [done |]. literal_lengths. lia.
Qed.

Lemma conditional_message_ok r time s : conditional_message (path_of (resource r)) (address r) time s = Done (question 1 r time) s.
Proof.
  unfold conditional_message, sprintf, conditional_temp, question. rewrite (proj2 (Z.leb_le _ _)); [done |]. literal_lengths. lia.
Qed.

(** [generate_req_msg] allocates two bytes less than its text takes. *)
Lemma generate_req_msg_overruns host page s : generate_req_msg host page s = Undef OutOfBounds s.
Proof. unfold generate_req_msg, sprintf. rewrite (proj2 (Z.leb_gt _ _)); [done |]. literal_lengths. lia. Qed.

Section Serve.
Variable padding : nat.
Variable date : list Z -> Z.
Hypothesis room : padding <> O.

Definition stored (client : Z) (r : request_info) (resp : response) (f : gmap (list Z) (list Z)) : gmap (list Z) (list Z) :=
  if bool_decide (code resp = lit "304") then <[temp_file client := file resp]> f
  else <[stored_name r := file resp]> (delete (temp_file client) f).

Definition serve (client : Z) (r : request_info) (a : answers) (resp : response) (p : aproxy) : aproxy :=
  let '(flag, l) := spec_op (Check r (present a) (again a)) (pages p) in
  if flag =? 0 then deliver client r p
  else deliver client r (mk_aproxy (with_expires r (expiry date (Some (expires_text resp))) :: l) (stored client r resp (files p))
         (clients p) (delivered p) (questions p ++ [question flag r (time_buf a)])).

(** The state of the program shows an abstract proxy. *)
Definition shows (s : proxy) (p : aproxy) : Prop :=
  represents (proxy_cache s) (pages p) /\ disk s = files p /\ fds_all s = clients p /\ sent s = delivered p /\ asked s = questions p.

(** *** Operations of the cache inside the proxy *)
Lemma cache_op o s l : represents (proxy_cache s) l -> (length (spec_op o l).2 <= 10)%nat ->
  exists c', represents c' (spec_op o l).2 /\ on_cache (QueryCache.run_op o) s = Done (spec_op o l).1 (set_cache c' s).
Proof.
  intros (ls & Hr & <-) Hlen. destruct (QueryCache.op_spec o _ ls Hr Hlen) as (c' & ls' & Hrun & Hr' & Hls').
  exists c'. split; [by exists ls' |]. unfold on_cache. by rewrite Hrun.
Qed.

Lemma run_unit {A} (m : M QueryCache.query_cache unit) (x : A) s a s' :
  on_cache (m ;;; ret x) s = Done a s' -> on_cache m s = Done tt s'.
Proof. unfold on_cache, bind. destruct (m (proxy_cache s)) as [[] c | |]; by intros [= _ <-]. Qed.

(** *** Sending the page *)
Lemma send_to_clnt_ok client r s p : plain_format (resource r) = true -> nonzero (address r) -> nonzero (resource r) -> shows s p ->
  exists s', send_to_clnt padding r client s = Done tt s' /\ shows s' (deliver client r p).
Proof.
  intros Hf Ha Hr (Hc & Hd & Hfd & Hs & Hq). unfold send_to_clnt.
  rewrite (bind_cont _ _ _ _ _ (file_name_ok padding r s room Ha Hr)). rewrite Hf. unfold bind at 1, ret at 1. unfold bind at 1, self.
  rewrite Hd. unfold deliver. destruct (files p !! stored_name r); eexists; (split; [reflexivity |]);
    unfold shows; cbn; rewrite ?app_nil_r, ?Hfd, ?Hs; done.
Qed.

(** *** The response of the web server *)
Definition answered (client : Z) (r : request_info) (a : answers) (resp : response) : Prop :=
  0 <= client <= 9 /\ plain_format (resource r) = true /\ nonzero (address r) /\ nonzero (resource r) /\
  stored_name r <> temp_file client /\ (exists l, found a = Some l /\ connected l = true) /\ send_ok a = true /\ temp_ok a = true /\
  pieces a = first_piece resp :: more resp /\ recv_failed a = false /\ rename_ok a = true /\ well_formed resp.

Lemma temp_name_ok client s : 0 <= client <= 9 -> temp_name client s = Done (temp_file client) s.
Proof. intros Hc. unfold temp_name. by rewrite (proj2 (Z.leb_le _ _)), (proj2 (Z.leb_le _ _)) by lia. Qed.

Lemma store_file_ok a client r resp s d : rename_ok a = true -> stored_name r <> temp_file client ->
  disk s = <[temp_file client := file resp]> (<[temp_file client := []]> d) ->
  store_file a (stored_name r) (temp_file client) (code resp) s = Done tt (set_disk (stored client r resp d) s).
Proof.
  intros Hr Hne Hd. rewrite insert_insert_eq in Hd. unfold store_file, stored. case_bool_decide; [destruct s; cbn in *; by subst |].
  rewrite Hr. unfold bind, modify, ret. destruct (remove_ok a); cbn [disk set_disk]; rewrite Hd.
  - rewrite lookup_delete_ne, lookup_insert_eq by done. unfold set_disk. cbn. do 2 f_equal.
    apply map_eq. intros k. rewrite !lookup_insert, !lookup_delete, !lookup_insert. by repeat case_decide.
  - rewrite lookup_insert_eq. unfold set_disk. do 2 f_equal.
    apply map_eq. intros k. rewrite !lookup_insert, !lookup_delete, !lookup_insert. by repeat case_decide.
Qed.

(** The date does not matter for a search; without the page the cache is as it was. *)
Lemma first_expires r e l : QueryCache.first (with_expires r e) l = QueryCache.first r l.
Proof. induction l as [| x l IH]; [done |]. cbn [QueryCache.first]. by rewrite IH. Qed.

Lemma without_new r e l : QueryCache.first r l = None -> QueryCache.without (with_expires r e) l = l.
Proof. intros H. unfold QueryCache.without. by rewrite first_expires, H. Qed.

Lemma recv_from_srvr_ok client r a resp flag s p :
  answered client r a resp -> shows s p -> flag = 1 \/ flag = 2 /\ QueryCache.first r (pages p) = None -> (length (pages p) < 10)%nat ->
  exists s', recv_from_srvr padding date a r client flag s = Done tt s' /\
    shows s' (deliver client r (mk_aproxy (with_expires r (expiry date (Some (expires_text resp))) :: pages p)
                (stored client r resp (files p)) (clients p) (delivered p) (questions p))).
Proof.
  intros (Hcl & Hf & Ha & Hr & Hne & _ & _ & Ht & Hp & Hrf & Hrn & Hwf) (Hc & Hd & Hfd & Hs & Hq) Hflag Hlen.
  unfold recv_from_srvr. rewrite (bind_cont _ _ _ _ _ (file_name_ok padding r s room Ha Hr)).
  rewrite (bind_cont _ _ _ _ _ (temp_name_ok client s Hcl)), Ht, Hp, Hrf. unfold bind at 1, modify at 1.
  rewrite (bind_cont _ _ _ _ _ (receive_response resp _ Hwf)). unfold bind at 1, modify at 1. cbn [disk set_disk].
  set (r' := with_expires r _). set (s1 := set_disk _ (set_disk _ s)).
  rewrite (bind_cont _ _ _ _ _ (store_file_ok a client r resp s1 (files p) Hrn Hne ltac:(by rewrite <- Hd))).
  set (s2 := set_disk _ s1).
  assert (Hrm : exists c, represents c (pages p) /\
    (if (flag =? 0) || (flag =? 2) then on_cache (QueryCache.remove r') else ret tt) s2 = Done tt (set_cache c s2)).
  { destruct Hflag as [-> | [-> Hnew]]; [exists (proxy_cache s); by destruct s |].
    destruct (cache_op (QueryCache.Remove r') s2 (pages p) Hc) as (c & Hrep & Hrun).
    - cbn [spec_op snd]. unfold r'. rewrite without_new by done. lia.
    - cbn [spec_op snd] in Hrep. unfold r' in Hrep. rewrite without_new in Hrep by done. exists c. split; [done |]. cbn [Z.eqb orb]. apply (run_unit _ 0 _ _ _ Hrun). }
  destruct Hrm as (c & Hrep & Hrun). rewrite (bind_cont _ _ _ _ _ Hrun).
  destruct (cache_op (QueryCache.Enqueue r') (set_cache c s2) (pages p) Hrep) as (c' & Hrep' & Hrun'); [cbn; lia |].
  apply run_unit in Hrun'. rewrite (bind_cont _ _ _ _ _ Hrun').
  apply (send_to_clnt_ok client r' _ (mk_aproxy (r' :: pages p) (stored client r resp (files p)) (clients p) (delivered p) (questions p)));
    [done | done | done |]. done.
Qed.

(** *** Asking the web server *)
Lemma ask_ok client r a resp flag msg s p :
  answered client r a resp -> shows s p -> flag = 1 \/ flag = 2 /\ QueryCache.first r (pages p) = None -> (length (pages p) < 10)%nat ->
  exists s', ask padding date a msg r client flag true s = Done tt s' /\
    shows s' (deliver client r (mk_aproxy (with_expires r (expiry date (Some (expires_text resp))) :: pages p)
                (stored client r resp (files p)) (clients p) (delivered p) (questions p ++ [msg]))).
Proof.
  intros Hans (Hc & Hd & Hfd & Hs & Hq) Hflag Hlen. unfold ask. assert (send_ok a = true) as -> by apply Hans. cbn [andb].
  unfold bind, modify. apply (recv_from_srvr_ok client r a resp flag (add_asked msg s)
    (mk_aproxy (pages p) (files p) (clients p) (delivered p) (questions p ++ [msg]))); try done.
  unfold shows. cbn. by rewrite Hq.
Qed.

Lemma exists_true r l i s : represents (proxy_cache s) l -> (length l <= 10)%nat -> QueryCache.first r l = Some i ->
  exists c, represents c l /\ on_cache (QueryCache.is_cache_exist r) s = Done true (set_cache c s).
Proof.
  intros Hc Hlen Hi. destruct (cache_op (QueryCache.Exists_ r) s l Hc Hlen) as (c & Hrep & Hrun). cbn [spec_op fst snd] in *. rewrite Hi in Hrun.
  exists c. split; [done |]. unfold on_cache, QueryCache.run_op, bind, ret in *.
  destruct (QueryCache.is_cache_exist r (proxy_cache s)) as [[] c1 | |]; [| done | done | done]. by injection Hrun as <-.
Qed.

(** One request after it was parsed. *)
Lemma page_served client r a resp s p :
  answered client r a resp -> shows s p -> (length (pages p) <= 10)%nat -> (length (pages (serve client r a resp p)) <= 10)%nat ->
  exists s', (let* flag := on_cache (QueryCache.check_cache r (present a) (again a)) in get_request_page padding date a r client flag) s
    = Done tt s' /\ shows s' (serve client r a resp p).
Proof.
  intros Hans Hsh Hlen Hlen'. pose proof Hans as (Hcl & Hf & Ha & Hr & Hne & (addrs & Hfound & Hconn) & _). pose proof Hsh as (Hc & Hd & Hfd & Hs & Hq).
  unfold serve in *. destruct (QueryCache.first r (pages p)) as [i |] eqn:Hi; [destruct (expires (nth i (pages p) r) <? present a) eqn:Hexp |].
  - (* expired *)
    assert (Hspec : spec_op (Check r (present a) (again a)) (pages p) = (1, delete i (pages p))) by (cbn; by rewrite Hi, Hexp).
    assert (Hdel : (length (delete i (pages p)) < 10)%nat).
    { destruct (QueryCache.first_lookup r (pages p) i Hi) as (x & Hx & _). rewrite length_delete by (by exists x).
      apply lookup_lt_Some in Hx. lia. }
    destruct (cache_op (Check r (present a) (again a)) s (pages p) Hc) as (c & Hrep & Hrun); rewrite Hspec in *; cbn [fst snd] in *; [lia |].
    rewrite (bind_cont _ _ _ _ _ Hrun). unfold get_request_page. rewrite Hfound, Hconn. cbn [Z.eqb Pos.eqb].
    erewrite (bind_cont (ret false)) by reflexivity. cbn [Pos.eqb].
    rewrite (bind_cont _ _ _ _ _ (conditional_message_ok r (time_buf a) _)).
    apply (ask_ok client r a resp 1 _ (set_cache c s) (mk_aproxy (delete i (pages p)) (files p) (clients p) (delivered p) (questions p)));
      [done | done | by left | done].
  - (* cached *)
    assert (Hspec : spec_op (Check r (present a) (again a)) (pages p) = (0, pages p)) by (cbn; by rewrite Hi, Hexp).
    destruct (cache_op (Check r (present a) (again a)) s (pages p) Hc) as (c & Hrep & Hrun); rewrite Hspec in *; cbn [fst snd] in *; [lia |].
    rewrite (bind_cont _ _ _ _ _ Hrun). unfold get_request_page. rewrite Hfound. cbn [Z.eqb Pos.eqb].
    destruct (exists_true r (pages p) i (set_cache c s) Hrep Hlen Hi) as (c' & Hrep' & Hrun'). rewrite (bind_cont _ _ _ _ _ Hrun').
    by apply send_to_clnt_ok.
  - (* not cached *)
    assert (Hspec : spec_op (Check r (present a) (again a)) (pages p) = (2, pages p)) by (cbn; by rewrite Hi).
    destruct (cache_op (Check r (present a) (again a)) s (pages p) Hc) as (c & Hrep & Hrun); rewrite Hspec in *; cbn [fst snd] in *; [lia |].
    rewrite (bind_cont _ _ _ _ _ Hrun). unfold get_request_page. rewrite Hfound, Hconn. cbn [Z.eqb Pos.eqb].
    erewrite (bind_cont (ret false)) by reflexivity. cbn [Pos.eqb]. rewrite (bind_cont _ _ _ _ _ (get_message_ok r _)). cbn [Z.eqb deliver pages length] in Hlen'.
    apply (ask_ok client r a resp 2 _ (set_cache c s) (mk_aproxy (pages p) (files p) (clients p) (delivered p) (questions p)));
      [done | done | by right | cbn [pages]; lia].
Qed.

(** *** Sequences of requests *)
Record item := mk_item {
  client : Z; path : list Z; proto : list Z; host : list Z; others : list (list Z);
  behind : list Z;                       (* what [buffer] held behind the request and a NUL *)
  ans : answers; resp : response
}.

Definition wanted (i : item) : request_info := mk_request (no_spaces (host i)) (no_spaces (path i)) 0.
Definition data (i : item) : event := Data (client i) (http_request (path i) (proto i) (host i) (others i)) (0 :: behind i) (ans i).
Definition proper (i : item) : Prop :=
  token (path i) /\ token (proto i) /\ length (proto i) = 8%nat /\ token (host i) /\ Forall other_line (others i) /\
  answered (client i) (wanted i) (ans i) (resp i).

(** A client connects and sends its request. *)
Definition visit (i : item) : list event := [Connect (Some (client i)); data i].
Definition welcome_client (client : Z) (p : aproxy) : aproxy :=
  mk_aproxy (pages p) (files p) (clients p ∪ {[client]}) (delivered p) (questions p).
Definition serve_item (p : aproxy) (i : item) : aproxy := serve (client i) (wanted i) (ans i) (resp i) (welcome_client (client i) p).

(** The cache never holds more than ten pages. *)
Fixpoint room_for (items : list item) (p : aproxy) : Prop :=
  match items with
  | [] => True
  | i :: rest => (length (pages (serve_item p i)) <= 10)%nat /\ room_for rest (serve_item p i)
  end.

Lemma request_nonzero pa pr ho os : token pa -> token pr -> token ho -> Forall other_line os -> nonzero (http_request pa pr ho os).
Proof.
  intros Hpa Hpr Hho Hos. unfold http_request, headers.
  apply Forall_app; split; [by repeat constructor |]. apply Forall_app; split; [by apply Proxy.token_nonzero |].
  apply Forall_app; split; [by repeat constructor |]. apply Forall_app; split; [by apply Proxy.token_nonzero |].
  apply Forall_app; split; [apply crlf_nonzero |]. apply Forall_app; split; [by repeat constructor |].
  apply Forall_app; split; [by apply Proxy.token_nonzero |]. apply Forall_app; split; [apply crlf_nonzero |].
  apply Forall_app; split; [| apply crlf_nonzero]. induction Hos as [| l ls (_ & Ht & _) _ IH]; [constructor |]. cbn [map concat].
  apply Forall_app; split; [apply Forall_app; split; [by apply Proxy.token_nonzero | apply crlf_nonzero] | done].
Qed.

Lemma request_parsed i s : proper i ->
  on_text Proxy.parse_req (http_request (path i) (proto i) (host i) (others i) ++ [0]) s = Done (wanted i) s.
Proof.
  intros (Hpa & Hpr & Hlp & Hho & Hos & _). unfold on_text.
  destruct (Proxy.parse_req_spec (path i) (proto i) (host i) (others i) Hpa Hpr Hlp Hho Hos) as (b & Hparse). by rewrite Hparse.
Qed.

Lemma data_request padding' i s : proper i ->
  on_event padding' date (data i) s =
  (let* flag := on_cache (QueryCache.check_cache (wanted i) (present (ans i)) (again (ans i))) in
   get_request_page padding' date (ans i) (wanted i) (client i) flag) s.
Proof.
  intros Hi. pose proof Hi as (Hpa & Hpr & _ & Hho & Hos & _). unfold on_event, data, request.
  rewrite bool_decide_eq_true_2 by done. rewrite cstr_app by (by apply request_nonzero).
  by rewrite (bind_cont _ _ _ _ _ (request_parsed i s Hi)).
Qed.

Lemma visit_served i rest s p : proper i -> shows s p -> (length (pages p) <= 10)%nat -> (length (pages (serve_item p i)) <= 10)%nat ->
  exists s', recv_from_clnt padding date (visit i ++ rest) s = recv_from_clnt padding date rest s' /\ shows s' (serve_item p i).
Proof.
  intros Hi (Hc & Hd & Hfd & Hs & Hq) Hlen Hlen'. set (s1 := set_fds (fds_all s ∪ {[client i]}) s).
  destruct (page_served (client i) (wanted i) (ans i) (resp i) s1 (welcome_client (client i) p) ltac:(apply Hi)) as (s' & Hrun & Hs');
    [unfold shows; cbn; by rewrite Hfd | done | done |].
  rewrite <- data_request in Hrun by done. exists s'. split; [| done].
  change (recv_from_clnt padding date (visit i ++ rest) s) with ((on_event padding date (data i) ;;; recv_from_clnt padding date rest) s1).
  by rewrite (bind_cont _ _ _ _ _ Hrun).
Qed.

Lemma events_served items : forall s p, Forall proper items -> shows s p -> (length (pages p) <= 10)%nat -> room_for items p ->
  exists s', recv_from_clnt padding date (concat (map visit items)) s = Done None s' /\ shows s' (fold_left serve_item items p).
Proof.
  induction items as [| i items IH]; intros s p Hok Hsh Hlen Hroom; [by exists s |].
  inversion Hok as [| ? ? Hi Hrest]; subst. destruct Hroom as [Hlen' Hroom]. cbn [map concat fold_left].
  destruct (visit_served i (concat (map visit items)) s p Hi Hsh Hlen Hlen') as (s1 & -> & Hsh1). by apply IH.
Qed.
End Serve.

(** Without room for the NUL the first page cannot even be named. *)
Lemma bind_undef {S A B} (m : M S A) (k : A -> M S B) s f s' : m s = Undef f s' -> bind m k s = Undef f s'.
Proof. unfold bind. by intros ->. Qed.

Lemma no_room_undef date i s : proper i -> represents (proxy_cache s) [] -> exists f s', on_event O date (data i) s = Undef f s'.
Proof.
  intros Hi Hc. rewrite data_request by done. pose proof Hi as (_ & _ & _ & _ & _ & Hans).
  destruct (cache_op (Check (wanted i) (present (ans i)) (again (ans i))) s [] Hc) as (c & _ & Hrun); [cbn; lia |].
  rewrite (bind_cont _ _ _ _ _ Hrun). destruct Hans as (_ & _ & _ & _ & _ & (addrs & Hfound & Hconn) & Hsend & _).
  unfold get_request_page. rewrite Hfound, Hconn. cbn [spec_op QueryCache.first fst Z.eqb Pos.eqb].
  erewrite (bind_cont (ret false)) by reflexivity. cbn [Pos.eqb].
  rewrite (bind_cont _ _ _ _ _ (get_message_ok (wanted i) _)). unfold ask. rewrite Hsend. cbn [andb].
  do 2 eexists. unfold bind at 1, modify. apply bind_undef. reflexivity.
Qed.

(** The proxy when it starts. *)
Definition idle (sock_fd : Z) : aproxy := mk_aproxy [] ∅ {[sock_fd]} [] [].

Lemma started_shows sock_fd : shows (started sock_fd) (idle sock_fd).
Proof. split; [exists []; split; [apply QueryCache.new_repr | done] | done]. Qed.

(** C26: from its start, through any sequence of clients whose requests leave at most ten
    pages in the cache, the proxy behaves as the abstract one: a page that is cached and not
    expired is sent from its file without asking the web server; a page that is not cached
    is asked for, an expired one asked for on the condition that it changed; a response
    other than 304 replaces the file, the page is cached with the date the response names,
    and the client gets the stored page without its header and is let go. Conditions: a
    request is well-formed text with a NUL behind it and no percent sign in its path, and
    comes from a descriptor of at most 9; the web server is found, connected to and sent to,
    and every answer has its Expires line in the first piece received; renaming the file
    succeeds. It takes at least one byte of room behind the copy of the resource; without it
    every request is undefined. *)
Theorem proxy_refines_pages padding date sock_fd items :
  Forall proper items -> room_for date items (idle sock_fd) ->
  (padding <> O -> exists s, main padding date 3 true true true true sock_fd (concat (map visit items)) = Done None s /\
     shows s (fold_left (serve_item date) items (idle sock_fd))) /\
  (padding = O -> forall i rest, items = i :: rest ->
     exists f s, main padding date 3 true true true true sock_fd (concat (map visit items)) = Undef f s).
Proof.
  intros Hok Hroom. unfold main. cbn [proxy_start negb Z.eqb Pos.eqb]. split.
  - intros Hp. apply (events_served padding date Hp items _ _ Hok (started_shows sock_fd)); [cbn; lia | done].
  - intros -> i rest ->. inversion Hok as [| ? ? Hi _]; subst. destruct (no_room_undef date i (set_fds ({[sock_fd]} ∪ {[client i]}) (started sock_fd)) Hi
      ltac:(exists []; split; [apply QueryCache.new_repr | done])) as (f & s & Hf).
    exists f, s. by apply (bind_undef (on_event O date (data i))).
Qed.

(** ** Instances *)
Definition sample_response : response :=
  mk_response (lit "HTTP/1.0 ") (lit "200") (lit " OK") [lit "Server: x"] (lit "Thu, 01 Jan 2099 00:00:00 GMT") (crlf ++ lit "<p>page</p>") [].
Definition sample_answers (now : Z) : answers :=
  mk_answers now now (Some [(true, true)]) (lit "now") true true [first_piece sample_response] false true true.
Definition sample_item (now : Z) : item :=
  mk_item 5 (lit "/a/b.html") (lit "HTTP/1.0") (lit "www.x.org") [] [] (sample_answers now) sample_response.

Lemma sample_proper now : proper (sample_item now).
Proof.
  repeat split; try done; try (by repeat constructor); try (by exists [(true, true)]); try discriminate.
Qed.

(** The page is fetched once and then sent from the cache. *)
Definition two_requests : list item := [sample_item 10; sample_item 20].
Definition never : list Z -> Z := fun _ => 1000.

Lemma proxy_refines_pages_witness :
  exists s, main 1 never 3 true true true true 3 (concat (map visit two_requests)) = Done None s /\
    sent s = [(5, lit "<p>page</p>"); (5, lit "<p>page</p>")] /\ length (asked s) = 1%nat.
Proof.
  assert (Hok : Forall proper two_requests) by (repeat (constructor; [apply sample_proper |]); constructor).
  destruct (proj1 (proxy_refines_pages 1 never 3 two_requests Hok ltac:(vm_compute; repeat constructor)) ltac:(done)) as (s & Hrun & Hs).
  exists s. split; [exact Hrun |]. destruct Hs as (_ & _ & _ & -> & ->). clear. split; vm_compute; reflexivity.
Defined.
End ProxyServe.
