(* ===== verification/Echo.v ===== *)
(** * [assignment1/echo.c]: the line-oriented socket helpers of the echo client

    [writen] and [readline] repeat [write] and [read] until a whole message was
    transferred.  The answers of the system calls are inputs; [errno] keeps the code
    of the last failure, as in C, also after calls that succeed. *)

From S2P Require Import Prelude CMem.
From stdpp Require Import base list.
From Stdlib Require Import ZArith Lia.
Open Scope Z_scope.

Module Echo.

Definition EINTR : Z := 4.
Definition MAXCHAR : Z := 50.
Definition newline : Z := 10.

(** ** [writen] *)

(** One answer of [write]: some bytes were taken (at least one, at most what was
    offered), none, or a failure with its code. *)
Inductive write_ans := Wrote (k : Z) | WroteNone | WriteErr (e : Z).

(** How a call ends: with its result and the bytes that reached the socket, or it is
    still repeating after the last of the answers. *)
Inductive written := WReturned (r : Z) (out : list Z) | WWaiting (out : list Z).

Fixpoint writen_loop (ans : list write_ans) (errno : Z) (buf : list Z) (nbytes no_bytes : Z)
    (out : list Z) : written :=
  if no_bytes <? nbytes then
    match ans with
    | [] => WWaiting out
    | Wrote k :: ans' =>
        let k' := Z.min (Z.max k 1) (nbytes - no_bytes) in
        writen_loop ans' errno (drop (Z.to_nat k') buf) nbytes (no_bytes + k')
          (out ++ take (Z.to_nat k') buf)
    | WroteNone :: ans' =>
        if errno =? EINTR then writen_loop ans' errno buf nbytes no_bytes out
        else WReturned (-1) out
    | WriteErr e :: ans' =>
        if e =? EINTR then writen_loop ans' e buf nbytes no_bytes out else WReturned (-1) out
    end
  else WReturned no_bytes out.

Definition writen (ans : list write_ans) (errno : Z) (buffer : list Z) : written :=
  writen_loop ans errno buffer (zlen buffer) 0 [].

(** ** [readline] *)
Inductive read_ans := Read1 (ch : Z) | ReadEof | ReadErr (e : Z).

(** The result and the string left in the buffer ([None]: it was not terminated), or
    the call is still repeating. *)
Inductive line := LReturned (r : Z) (str : option (list Z)) | LWaiting.

(** [no_bytes] counts from 1; [buf] holds the characters stored so far. *)
Fixpoint readline_loop (ans : list read_ans) (errno : Z) (max_size_line no_bytes : Z)
    (buf : list Z) : line :=
  if no_bytes <? max_size_line then
    match ans with
    | [] => LWaiting
    | Read1 ch :: ans' =>
        if ch =? newline then LReturned no_bytes (Some (buf ++ [ch]))
        else readline_loop ans' errno max_size_line (no_bytes + 1) (buf ++ [ch])
    | ReadEof :: ans' =>
        if errno =? EINTR then readline_loop ans' errno max_size_line no_bytes buf
        else if no_bytes =? 1 then LReturned 0 None
        else LReturned no_bytes (Some buf)
    | ReadErr e :: ans' =>
        if e =? EINTR then readline_loop ans' e max_size_line no_bytes buf
        else LReturned (-1) None
    end
  else LReturned no_bytes (Some buf).

Definition readline (ans : list read_ans) (errno max_size_line : Z) : line :=
  readline_loop ans errno max_size_line 1 [].

(** ** The servers of assignments 1 and 2 carry the same functions as methods *)
Definition echo_server_writen := writen.
Definition chat_writen := writen.
Definition chat_readline := readline.

(** ** Writing *)

(** Answers that do not end the call before its time. *)
Definition harmless (a : write_ans) : Prop :=
  match a with Wrote _ => True | WroteNone => False | WriteErr e => e = EINTR end.

Definition progress (ans : list write_ans) : nat :=
  length (List.filter (fun a => match a with Wrote _ => true | _ => false end) ans).

Lemma writen_loop_spec ans : forall errno buf nbytes no out,
  Forall harmless ans -> 0 <= no <= nbytes -> zlen buf = nbytes - no ->
  nbytes - no <= Z.of_nat (progress ans) ->
  writen_loop ans errno buf nbytes no out = WReturned nbytes (out ++ buf).
Proof.
  induction ans as [| a ans IH]; intros errno buf nbytes no out Hh Hn Hl Hp.
  - unfold progress in Hp. simpl in Hp. assert (no = nbytes) as -> by lia. simpl. rewrite Z.ltb_irrefl.
    destruct buf; [by rewrite app_nil_r |]. rewrite zlen_cons in Hl. pose proof (zlen_nonneg buf). lia.
  - inversion Hh as [| ? ? Ha Hrest]; subst. cbn [writen_loop].
    destruct (Z.ltb_spec no nbytes) as [Hlt | Hge].
    2: { assert (no = nbytes) as -> by lia. destruct buf; [by rewrite app_nil_r |].
         rewrite zlen_cons in Hl. pose proof (zlen_nonneg buf). lia. }
    destruct a as [k | | e]; simpl in Ha; [| done | subst e].
    + set (k' := Z.min (Z.max k 1) (nbytes - no)). assert (1 <= k' <= nbytes - no) by lia.
      rewrite IH; [| done | lia | | unfold progress in *; simpl in Hp; lia].
      * by rewrite <- app_assoc, firstn_skipn.
      * unfold zlen in *. rewrite length_drop. lia.
    + simpl. apply IH; done.
Qed.

(** The outcomes of a call, whatever the answers: the whole message was sent and its
    length is returned, or -1 is returned or the call goes on, and what reached the
    socket is a prefix of the message. *)
Definition write_outcome (message : list Z) (w : written) : Prop :=
  match w with
  | WReturned r out => (r = zlen message /\ out = message) \/ (r = -1 /\ out `prefix_of` message)
  | WWaiting out => out `prefix_of` message
  end.

Lemma writen_loop_outcome ans : forall errno buf nbytes no out,
  0 <= no <= nbytes -> zlen buf = nbytes - no -> zlen out = no ->
  write_outcome (out ++ buf) (writen_loop ans errno buf nbytes no out).
Proof.
  induction ans as [| a ans IH]; intros errno buf nbytes no out Hn Hl Ho; cbn [writen_loop];
    destruct (Z.ltb_spec no nbytes) as [Hlt | Hge];
    try (left; assert (buf = []) as -> by (destruct buf; [done | rewrite zlen_cons in Hl; pose proof (zlen_nonneg buf); lia]);
         rewrite app_nil_r; split; [lia | done]).
  - by exists buf.
  - destruct a as [k | | e].
    + set (k' := Z.min (Z.max k 1) (nbytes - no)). assert (1 <= k' <= nbytes - no) by lia.
      specialize (IH errno (drop (Z.to_nat k') buf) nbytes (no + k') (out ++ take (Z.to_nat k') buf)).
      rewrite <- app_assoc, firstn_skipn in IH. apply IH; [lia | |].
      * unfold zlen in *. rewrite length_drop. lia.
      * unfold zlen in *. rewrite length_app, length_take. lia.
    + destruct (errno =? EINTR); [by apply IH |]. right. split; [done | by exists buf].
    + destruct (e =? EINTR); [by apply IH |]. right. split; [done | by exists buf].
Qed.

(** ** Reading *)

(** The characters that arrive, with interruptions in between. *)
Inductive arrives : list read_ans -> list Z -> Prop :=
| arrives_nil : arrives [] []
| arrives_char ch ans l : arrives ans l -> arrives (Read1 ch :: ans) (ch :: l)
| arrives_eintr ans l : arrives ans l -> arrives (ReadErr EINTR :: ans) l.

Lemma readline_chars ans l rest errno : forall max no buf,
  arrives ans l -> Forall (fun c => c <> newline) l -> no + zlen l <= max ->
  exists errno', readline_loop (ans ++ rest) errno max no buf
    = readline_loop rest errno' max (no + zlen l) (buf ++ l) /\ (errno' = errno \/ errno' = EINTR).
Proof.
  intros max no buf Ha. revert errno no buf. induction Ha as [| ch ans l _ IH | ans l _ IH]; intros errno no buf Hl Hm.
  - exists errno. rewrite Z.add_0_r, app_nil_r. auto.
  - inversion Hl; subst. rewrite zlen_cons in *. pose proof (zlen_nonneg l). cbn [app readline_loop].
    rewrite (proj2 (Z.ltb_lt no max)), (proj2 (Z.eqb_neq ch newline)) by (done || lia).
    destruct (IH errno (no + 1) (buf ++ [ch])) as (errno' & -> & He); [done | lia |].
    exists errno'. rewrite <- app_assoc. by replace (no + 1 + zlen l) with (no + (1 + zlen l)) by lia.
  - cbn [app readline_loop]. destruct (Z.ltb_spec no max) as [Hlt | Hge].
    + rewrite Z.eqb_refl. destruct (IH EINTR no buf Hl Hm) as (errno' & -> & He).
      exists errno'. split; [done |]. right. by destruct He.
    + pose proof (zlen_nonneg l). assert (l = []) as -> by (destruct l; [done | rewrite zlen_cons in *; pose proof (zlen_nonneg l); lia]).
      exists errno. split; [| by left]. rewrite Z.add_0_r, app_nil_r.
      destruct rest; cbn [readline_loop]; by rewrite (proj2 (Z.ltb_ge no max)) by lia.
Qed.

Lemma readline_plain l rest errno : forall max no buf,
  Forall (fun c => c <> newline) l -> no + zlen l <= max ->
  readline_loop (List.map Read1 l ++ rest) errno max no buf
    = readline_loop rest errno max (no + zlen l) (buf ++ l).
Proof.
  induction l as [| ch l IH]; intros max no buf Hl Hm.
  - by rewrite Z.add_0_r, app_nil_r.
  - inversion Hl; subst. rewrite zlen_cons in *. pose proof (zlen_nonneg l). cbn [List.map app readline_loop].
    rewrite (proj2 (Z.ltb_lt no max)), (proj2 (Z.eqb_neq ch newline)) by (done || lia).
    rewrite IH by (done || lia). rewrite <- app_assoc. f_equal. lia.
Qed.

Lemma eof_spins n max no buf : no < max ->
  readline_loop (replicate n ReadEof) EINTR max no buf = LWaiting.
Proof.
  intros Hm. induction n as [| n IH]; cbn [replicate readline_loop];
    by rewrite (proj2 (Z.ltb_lt no max)) by lia.
Qed.

(** ** Properties *)

(** [writen] returns the length of the message and has sent it exactly, or returns
    -1 having sent a prefix of it, however [write] cuts it into pieces; it does finish
    the message as soon as [write] has taken something as often as the message has
    bytes, whatever interruptions come in between.*)
Lemma writen_sends_message ans errno buffer :
  write_outcome buffer (writen ans errno buffer) /\
  (Forall harmless ans -> zlen buffer <= Z.of_nat (progress ans) ->
   writen ans errno buffer = WReturned (zlen buffer) buffer).
Proof.
  pose proof (zlen_nonneg buffer). unfold writen. split.
  - apply (writen_loop_outcome ans errno buffer (zlen buffer) 0 []); [lia | lia | done].
  - intros Hh Hp. rewrite writen_loop_spec; [done | done | lia | lia | lia].
Qed.

(** [readline] returns a line that fits, with its newline, and its length, whatever
    interruptions come in between.*)
Lemma readline_reads_line ans l rest errno max :
  arrives ans l -> Forall (fun c => c <> newline) l -> zlen l + 1 < max ->
  readline (ans ++ Read1 newline :: rest) errno max = LReturned (zlen l + 1) (Some (l ++ [newline])).
Proof.
  intros Ha Hl Hm. destruct (readline_chars ans l (Read1 newline :: rest) errno max 1 [] Ha Hl)
    as (errno' & Hrun & _); [lia |].
  unfold readline. rewrite Hrun. cbn [readline_loop].
  rewrite (proj2 (Z.ltb_lt (1 + zlen l) max)), Z.eqb_refl by lia. simpl. f_equal. lia.
Qed.

(** When the end of the input ends a line of [n] characters, [readline] stores the
    [n] characters but returns [n + 1]; likewise a line cut at the maximal size. *)
Lemma readline_eof_overcounts l rest errno max :
  l <> [] -> Forall (fun c => c <> newline) l -> zlen l < max -> errno <> EINTR ->
  readline (List.map Read1 l ++ ReadEof :: rest) errno max = LReturned (zlen l + 1) (Some l).
Proof.
  intros Hne Hl Hm He. unfold readline. rewrite readline_plain by (done || lia).
  assert (0 < zlen l) by (destruct l; [done | rewrite zlen_cons; pose proof (zlen_nonneg l); lia]).
  assert (Hend : readline_loop (ReadEof :: rest) errno max (1 + zlen l) ([] ++ l)
    = LReturned (1 + zlen l) (Some l)).
  { cbn [readline_loop app]. destruct (1 + zlen l <? max); [| done].
    rewrite (proj2 (Z.eqb_neq errno EINTR)), (proj2 (Z.eqb_neq (1 + zlen l) 1)) by (done || lia). done. }
  rewrite Hend. f_equal. lia.
Qed.

(** After an interruption [errno] keeps the code EINTR, and an end of the input is
    taken for another interruption: [readline] reads again for ever. *)
Lemma interrupted_eof_spins n errno max :
  1 < max -> readline (ReadErr EINTR :: replicate n ReadEof) errno max = LWaiting.
Proof.
  intros Hm. unfold readline. cbn [readline_loop].
  rewrite (proj2 (Z.ltb_lt 1 max)), Z.eqb_refl by lia. by apply eof_spins.
Qed.

(** *** Witnesses *)
Lemma writen_sends_message_witness :
  writen [Wrote 2; WriteErr EINTR; Wrote 1; Wrote 9] 0 [104; 105; 10] = WReturned 3 [104; 105; 10].
Proof.
  apply (writen_sends_message [Wrote 2; WriteErr EINTR; Wrote 1; Wrote 9] 0 [104; 105; 10]).
  - repeat constructor.
  - by vm_compute.
Defined.

Lemma readline_reads_line_witness :
  readline ([Read1 104; ReadErr EINTR; Read1 105] ++ Read1 newline :: [ReadEof]) 0 50
  = LReturned 3 (Some [104; 105; 10]).
Proof.
  apply (readline_reads_line [Read1 104; ReadErr EINTR; Read1 105] [104; 105] [ReadEof] 0 50).
  - repeat constructor.
  - repeat constructor; done.
  - by vm_compute.
Defined.

Lemma readline_eof_overcounts_witness :
  readline (List.map Read1 [104; 105] ++ [ReadEof]) 0 50 = LReturned 3 (Some [104; 105]).
Proof.
  apply (readline_eof_overcounts [104; 105] [] 0 50).
  - done.
  - repeat constructor; done.
  - by vm_compute.
  - done.
Defined.

Lemma interrupted_eof_spins_witness :
  readline (ReadErr EINTR :: replicate 1000 ReadEof) 0 50 = LWaiting.
Proof. apply (interrupted_eof_spins 1000 0 50). lia. Defined.
End Echo.
