(* ===== verification/EchoSession.v ===== *)
(** * [assignment1]: the echo client and the echo server

    [main] of [echo.c] (lines 97-145), [Server::echo] of [server.cpp] (lines 56-98) and
    the start-up of both, over [writen] and [readline] of [Echo.v].

    A process is a state machine.  Inside [writen] or [readline] its state is the list of
    the answers that the system calls of this call gave so far; the functions of [Echo.v]
    say whether the call goes on.  Two streams of bytes connect the processes; [write]
    puts any number of the offered bytes into one, [read] takes any number that is there,
    so the processes interleave and the bytes are cut up in every possible way.  Calls fail
    when they are interrupted and when the other process has gone; a network that breaks
    while both are there is not modelled. *)

From S2P Require Import Prelude CMem Echo.
From stdpp Require Import base list.
From Stdlib Require Import ZArith Lia.
From Stdlib Require String.
Import String.StringSyntax.
Import Echo.
Open Scope Z_scope.

Module EchoSession.

(** ** The client *)
Inductive phase :=
| Typing                                                          (* in front of [fgets] *)
| Sending (quit : bool) (msg : list Z) (ans : list write_ans)     (* in [writen] *)
| Receiving (ans : list read_ans)                                 (* in [readline] *)
| Left                                                            (* the socket is closed *)
| Broken.                                                         (* killed by SIGPIPE *)

(** [output] is the string in the array of that name ([None]: indeterminate);
    [displayed] are the texts printed after "Echo from Server". *)
Record client := mk_client {
  at_ : phase;
  stdin : list Z;
  errno : Z;
  output : option (list Z);
  displayed : list (option (list Z))
}.

(** [fgets] with room for [room] characters: the line, what is left of the input, and
    whether its end was met. *)
Fixpoint fgets (room : nat) (t : list Z) : list Z * list Z * bool :=
  match room, t with
  | O, _ => ([], t, false)
  | S _, [] => ([], [], true)
  | S n, c :: t' => if c =? newline then ([c], t', false) else let '(l, r, e) := fgets n t' in (c :: l, r, e)
  end.

Definition quit_line : list Z := lit "quit" ++ [newline].

(** The string in an array that holds [l] and a NUL. *)
Definition text_of (l : list Z) : list Z := default [] (cstr (l ++ [0])).

(** Lines 127-139 up to the first [write]. *)
Definition type_line (c : client) : client :=
  let '(input, rest, eof) := fgets (Z.to_nat (MAXCHAR - 1)) (stdin c) in
  let go p := mk_client p rest (errno c) (output c) (displayed c) in
  match input with
  | [] => if eof then go (Sending true quit_line []) else go Typing
  | _ => if eof then go Left else go (Sending false (text_of input) [])
  end.

(** [errno] after some calls. *)
Definition errno_written (ans : list write_ans) (e : Z) : Z :=
  fold_left (fun e a => match a with WriteErr e' => e' | _ => e end) ans e.
Definition errno_read (ans : list read_ans) (e : Z) : Z :=
  fold_left (fun e a => match a with ReadErr e' => e' | _ => e end) ans e.

(** The string in [output] after [readline]: unchanged at an immediate end of the input,
    and not terminated after an error. *)
Definition output_after (r : Z) (str before : option (list Z)) : option (list Z) :=
  match str with Some t => Some t | None => if r =? 0 then before else None end.

(** What the client does without a further answer; [None]: it waits, or has ended.  The
    end of the input was not met when a line was sent, so the second [feof] is false. *)
Definition client_run (c : client) : option client :=
  match at_ c with
  | Typing => Some (type_line c)
  | Sending quit msg ans =>
      match writen ans (errno c) msg with
      | WReturned _ _ => Some (mk_client (if quit then Left else Receiving []) (stdin c) (errno_written ans (errno c)) (output c) (displayed c))
      | WWaiting _ => None
      end
  | Receiving ans =>
      match readline ans (errno c) MAXCHAR with
      | LReturned r str =>
          let o := output_after r str (output c) in
          Some (mk_client Typing (stdin c) (errno_read ans (errno c)) o (displayed c ++ [o]))
      | LWaiting => None
      end
  | Left | Broken => None
  end.

(** Connecting; the arrays are not initialised. *)
Definition fresh_client (input : list Z) (e : Z) : client := mk_client Typing input e None [].
Definition client_start (socket_ok connect_ok : bool) (input : list Z) (e : Z) : outcome client unit :=
  let c := fresh_client input e in
  if negb socket_ok then Exited (-1) c else if negb connect_ok then Exited (-1) c else Done tt c.

(** ** The server *)
Inductive sphase :=
| Reading
| Echoing (text : list Z) (ans : list write_ans)    (* in [writen] *)
| Ended (code : Z)                                  (* 2: [echo] returned; 1: an exit *)
| Killed.                                           (* by SIGPIPE *)

Record server := mk_server { sat : sphase; serrno : Z }.

(** The string in [buffer], 256 zeroes over which [read] put at most 255 bytes. *)
Definition received (piece : list Z) : list Z :=
  default [] (cstr (take 255 piece ++ replicate (256 - length (take 255 piece)) 0)).

(** Lines 75-89: [None] is a failing [read]. *)
Definition on_read (r : option (list Z)) (s : server) : server :=
  match r with
  | None => mk_server (Ended 1) (serrno s)
  | Some piece =>
      if bool_decide (received piece = quit_line) then mk_server (Ended 2) (serrno s)
      else mk_server (Echoing (received piece) []) (serrno s)
  end.

Definition server_run (s : server) : option server :=
  match sat s with
  | Echoing text ans =>
      match writen ans (serrno s) text with
      | WReturned r _ => Some (mk_server (if r =? -1 then Ended 1 else Reading) (errno_written ans (serrno s)))
      | WWaiting _ => None
      end
  | _ => None
  end.

(** The constructor, and [echo] in the listening process: the descriptors given to
    children.  A [fork] that fails is taken for the parent's side of one that succeeds. *)
Definition server_start (socket_ok bind_ok : bool) : outcome (list Z) unit :=
  if negb socket_ok then Exited 1 [] else if negb bind_ok then Exited 1 [] else Done tt [].

Definition echo_parent (malloc_ok : bool) (new_clnt_fd child_pid : Z) : M (list Z) Z := fun children =>
  if negb malloc_ok then Exited 1 children
  else if new_clnt_fd =? -1 then Exited 1 children
  else Done 0 (if child_pid =? -1 then children else children ++ [new_clnt_fd]).

(** [main] of [server_main.cpp] on the connections that come. *)
Fixpoint accept_loop (connections : list (bool * Z * Z)) : M (list Z) unit :=
  match connections with
  | [] => ret tt
  | (m, fd, pid) :: rest => let* r := echo_parent m fd pid in if r =? 2 then ret tt else accept_loop rest
  end.

Definition server_main (argc : Z) (socket_ok bind_ok : bool) (connections : list (bool * Z * Z)) : outcome (list Z) unit :=
  if argc <? 2 then Exited 1 []
  else match server_start socket_ok bind_ok with
       | Done _ s => accept_loop connections s
       | Exited k s => Exited k s
       | Undef w s => Undef w s
       end.

(** [main] in the child: with the result 2 of [echo] it closes its socket and returns 0;
    the others are exits.  [None]: the child goes on, or a signal killed it. *)
Definition child_status (s : server) : option Z :=
  match sat s with Ended k => Some (if k =? 2 then 0 else k) | _ => None end.

(** ** Both together *)
Record system := mk_system { cl : client; sv : server; up : list Z; down : list Z }.

(** An interrupted system call is a step of its own kind. *)
Inductive label := Progress | Interrupted.

Definition bytes_out (w : written) : list Z := match w with WReturned _ out => out | WWaiting out => out end.

(** What one more answer of [write] puts into the stream. *)
Definition newly (ans : list write_ans) (e : Z) (msg : list Z) (a : write_ans) : list Z :=
  drop (length (bytes_out (writen ans e msg))) (bytes_out (writen (ans ++ [a]) e msg)).

Definition set_phase (p : phase) (c : client) : client := mk_client p (stdin c) (errno c) (output c) (displayed c).
Definition set_sphase (p : sphase) (s : server) : server := mk_server p (serrno s).

Definition ended (s : server) : Prop := match sat s with Ended _ | Killed => True | _ => False end.
Definition left_ (c : client) : Prop := at_ c = Left.
Definition absent (c : client) : Prop := at_ c = Left \/ at_ c = Broken.

(** Bytes sent to a process that has gone are answered with a reset of the connection: from
    then on [read] and [write] may fail with an error other than EINTR, and [write] may
    kill the process, which does not ignore SIGPIPE. *)
Definition reset_from_server (s : server) (u : list Z) : Prop := ended s /\ u <> [].
Definition reset_from_client (c : client) (d : list Z) : Prop := absent c /\ d <> [].

Inductive client_step : label -> system -> system -> Prop :=
| client_runs c c' s u d : client_run c = Some c' ->
    client_step Progress (mk_system c s u d) (mk_system c' s u d)
| client_writes c s u d q msg ans out k : at_ c = Sending q msg ans -> writen ans (errno c) msg = WWaiting out ->
    client_step Progress (mk_system c s u d)
      (mk_system (set_phase (Sending q msg (ans ++ [Wrote k])) c) s (u ++ newly ans (errno c) msg (Wrote k)) d)
| client_write_interrupted c s u d q msg ans out : at_ c = Sending q msg ans -> writen ans (errno c) msg = WWaiting out ->
    client_step Interrupted (mk_system c s u d) (mk_system (set_phase (Sending q msg (ans ++ [WriteErr EINTR])) c) s u d)
| client_reads c s u ch d ans : at_ c = Receiving ans -> readline ans (errno c) MAXCHAR = LWaiting ->
    client_step Progress (mk_system c s u (ch :: d)) (mk_system (set_phase (Receiving (ans ++ [Read1 ch])) c) s u d)
| client_read_interrupted c s u d ans : at_ c = Receiving ans -> readline ans (errno c) MAXCHAR = LWaiting ->
    client_step Interrupted (mk_system c s u d) (mk_system (set_phase (Receiving (ans ++ [ReadErr EINTR])) c) s u d)
| client_reads_end c s u ans : at_ c = Receiving ans -> readline ans (errno c) MAXCHAR = LWaiting -> ended s ->
    client_step Progress (mk_system c s u []) (mk_system (set_phase (Receiving (ans ++ [ReadEof])) c) s u [])
| client_write_fails c s u d q msg ans out e : at_ c = Sending q msg ans -> writen ans (errno c) msg = WWaiting out ->
    reset_from_server s u -> e <> EINTR ->
    client_step Progress (mk_system c s u d) (mk_system (set_phase (Sending q msg (ans ++ [WriteErr e])) c) s u d)
| client_killed c s u d q msg ans out : at_ c = Sending q msg ans -> writen ans (errno c) msg = WWaiting out -> reset_from_server s u ->
    client_step Progress (mk_system c s u d) (mk_system (set_phase Broken c) s u d)
| client_read_fails c s u d ans e : at_ c = Receiving ans -> readline ans (errno c) MAXCHAR = LWaiting -> reset_from_server s u -> e <> EINTR ->
    client_step Progress (mk_system c s u d) (mk_system (set_phase (Receiving (ans ++ [ReadErr e])) c) s u d).

Inductive server_step : label -> system -> system -> Prop :=
| server_runs c s s' u d : server_run s = Some s' ->
    server_step Progress (mk_system c s u d) (mk_system c s' u d)
| server_reads c s piece u d : sat s = Reading -> piece <> [] -> (length piece <= 255)%nat ->
    server_step Progress (mk_system c s (piece ++ u) d) (mk_system c (on_read (Some piece) s) u d)
| server_reads_end c s d : sat s = Reading -> absent c ->
    server_step Progress (mk_system c s [] d) (mk_system c (on_read (Some []) s) [] d)
| server_writes c s u d text ans out k : sat s = Echoing text ans -> writen ans (serrno s) text = WWaiting out ->
    server_step Progress (mk_system c s u d)
      (mk_system c (set_sphase (Echoing text (ans ++ [Wrote k])) s) u (d ++ newly ans (serrno s) text (Wrote k)))
| server_write_interrupted c s u d text ans out : sat s = Echoing text ans -> writen ans (serrno s) text = WWaiting out ->
    server_step Interrupted (mk_system c s u d) (mk_system c (set_sphase (Echoing text (ans ++ [WriteErr EINTR])) s) u d)
| server_read_fails c s u d : sat s = Reading -> reset_from_client c d ->
    server_step Progress (mk_system c s u d) (mk_system c (on_read None s) u d)
| server_write_fails c s u d text ans out e : sat s = Echoing text ans -> writen ans (serrno s) text = WWaiting out ->
    reset_from_client c d -> e <> EINTR ->
    server_step Progress (mk_system c s u d) (mk_system c (set_sphase (Echoing text (ans ++ [WriteErr e])) s) u d)
| server_killed c s u d text ans out : sat s = Echoing text ans -> writen ans (serrno s) text = WWaiting out -> reset_from_client c d ->
    server_step Progress (mk_system c s u d) (mk_system c (set_sphase Killed s) u d).

Definition step (l : label) (st st' : system) : Prop := client_step l st st' \/ server_step l st st'.

Inductive reachable (start : system) : system -> Prop :=
| reach_start : reachable start start
| reach_step l st st' : reachable start st -> step l st st' -> reachable start st'.

(** On every run of uninterrupted steps, [P] comes about. *)
Inductive inevitable (P : system -> Prop) (st : system) : Prop :=
| now : P st -> inevitable P st
| later : (exists st', step Progress st st') -> (forall st', step Progress st st' -> inevitable P st') -> inevitable P st.

(** The user types [input]; the server has accepted the connection. *)
Definition session (input : list Z) (e e' : Z) : system := mk_system (fresh_client input e) (mk_server Reading e') [] [].
End EchoSession.
