(* ===== verification/EchoExchange.v ===== *)
(** * Every line typed into the echo client is shown again

    The invariant of a session under every interleaving and every way of cutting up the
    bytes, a measure that every uninterrupted step decreases, and what follows for the
    user of the client. *)

From S2P Require Import Prelude CMem Echo EchoSession.
From stdpp Require Import base list.
From Stdlib Require Import ZArith Lia.
From Stdlib Require String.
Import String.StringSyntax.
Import Echo EchoSession.
Open Scope Z_scope.

Module EchoExchange.

(** ** Inside [writen] *)

(** After these answers [out] was sent and [rem] is left. *)
Definition sends (ans : list write_ans) (e : Z) (msg out rem : list Z) : Prop :=
  msg = out ++ rem /\
  exists e', forall more, writen (ans ++ more) e msg = writen_loop more e' rem (zlen msg) (zlen out) out.

Lemma sends_start e msg : sends [] e msg [] msg.
Proof. split; [done |]. by exists e. Qed.

Lemma sends_answer ans e msg out rem : sends ans e msg out rem ->
  writen ans e msg = match rem with [] => WReturned (zlen msg) msg | _ => WWaiting out end.
Proof.
  intros (-> & e' & H). specialize (H []). rewrite app_nil_r in H. rewrite H. cbn [writen_loop]. rewrite zlen_app.
  destruct rem as [| b rem]; [rewrite app_nil_r; change (zlen (@nil Z)) with 0; by rewrite (proj2 (Z.ltb_ge _ _)), Z.add_0_r by lia |].
  rewrite zlen_cons. pose proof (zlen_nonneg rem). by rewrite (proj2 (Z.ltb_lt _ _)) by lia.
Qed.

Lemma sends_out ans e msg out rem : sends ans e msg out rem -> bytes_out (writen ans e msg) = out.
Proof. intros H. rewrite (sends_answer _ _ _ _ _ H). destruct H as [-> _]. destruct rem; [by rewrite app_nil_r | done]. Qed.

Lemma sends_write ans e msg out rem k : sends ans e msg out rem -> rem <> [] ->
  exists part rem', part <> [] /\ rem = part ++ rem' /\ sends (ans ++ [Wrote k]) e msg (out ++ part) rem' /\ newly ans e msg (Wrote k) = part.
Proof.
  intros Hs Hne. pose proof Hs as (Hmsg & e' & H). set (k' := Z.min (Z.max k 1) (zlen msg - zlen out)).
  assert (Hl : zlen msg = zlen out + zlen rem) by (by rewrite Hmsg, zlen_app).
  assert (Hr : 0 < zlen rem) by (destruct rem; [done | rewrite zlen_cons; pose proof (zlen_nonneg rem); lia]).
  assert (Hnew : sends (ans ++ [Wrote k]) e msg (out ++ take (Z.to_nat k') rem) (drop (Z.to_nat k') rem)).
  { split; [by rewrite <- app_assoc, take_drop |]. exists e'. intros more. rewrite <- app_assoc, H. cbn [app writen_loop].
    rewrite (proj2 (Z.ltb_lt (zlen out) (zlen msg))) by lia. fold k'.
    f_equal. rewrite zlen_app. unfold zlen in *. rewrite length_take. lia. }
  exists (take (Z.to_nat k') rem), (drop (Z.to_nat k') rem). split; [| split; [by rewrite take_drop | split; [done |]]].
  - destruct rem; [done |]. destruct (Z.to_nat k') eqn:?; [lia | done].
  - unfold newly. by rewrite (sends_out _ _ _ _ _ Hs), (sends_out _ _ _ _ _ Hnew), drop_app_length.
Qed.

Lemma sends_interrupted ans e msg out rem : sends ans e msg out rem -> rem <> [] -> sends (ans ++ [WriteErr EINTR]) e msg out rem.
Proof.
  intros (Hmsg & e' & H) Hne. split; [done |]. exists EINTR. intros more. rewrite <- app_assoc, H. cbn [app writen_loop].
  rewrite Hmsg, zlen_app. destruct rem as [| b rem]; [done |]. rewrite zlen_cons. pose proof (zlen_nonneg rem).
  by rewrite (proj2 (Z.ltb_lt _ _)), Z.eqb_refl by lia.
Qed.

Lemma waiting_left ans e msg out rem out' : sends ans e msg out rem -> writen ans e msg = WWaiting out' -> rem <> [].
Proof. intros H. rewrite (sends_answer _ _ _ _ _ H). by destruct rem. Qed.

(** ** Inside [readline] *)
Definition plain (l : list Z) : Prop := Forall (fun c => c <> newline) l.

(** After these answers the characters [buf] were stored; the line ends at a newline or
    when the array has no more room. *)
Definition reads (ans : list read_ans) (e : Z) (buf : list Z) : Prop :=
  (plain buf /\ zlen buf < MAXCHAR /\ exists e', forall more, readline (ans ++ more) e MAXCHAR = readline_loop more e' MAXCHAR (1 + zlen buf) buf) \/
  (exists r body, buf = body ++ [newline] /\ readline ans e MAXCHAR = LReturned r (Some buf)).

(** A whole line as [readline] sees it. *)
Definition whole (l : list Z) : Prop := (exists body, l = body ++ [newline] /\ plain body /\ zlen body + 1 < MAXCHAR) \/ (plain l /\ zlen l = MAXCHAR - 1).

Lemma reads_start e : reads [] e [].
Proof. left. split; [constructor | split; [done |]]. by exists e. Qed.

Lemma plain_last body : ~ plain (body ++ [newline]).
Proof. intros [_ H]%Forall_app. by inversion H. Qed.

Lemma newline_last a b : whole (a ++ newline :: b) -> b = [].
Proof.
  intros Hw. destruct b as [| c b]; [done | exfalso]. destruct Hw as [(body & Heq & Hp & _) | (Hp & _)].
  - destruct (exists_last (l := c :: b) ltac:(done)) as (y & z & Hy). rewrite Hy, app_comm_cons, app_assoc in Heq.
    apply app_inj_tail in Heq as [<- _]. apply Forall_app in Hp as [_ Hp]. by inversion Hp.
  - apply Forall_app in Hp as [_ Hp]. by inversion Hp.
Qed.

(** The call returns exactly when the line is whole. *)
Lemma reads_done ans e buf rest : reads ans e buf -> whole (buf ++ rest) ->
  match rest with [] => exists r, readline ans e MAXCHAR = LReturned r (Some buf) | _ => readline ans e MAXCHAR = LWaiting end.
Proof.
  intros [(Hp & Hlt & e' & H) | (r & body & -> & H)] Hw.
  - specialize (H []). rewrite app_nil_r in H. rewrite H. cbn [readline_loop]. destruct rest as [| c rest].
    + rewrite app_nil_r in Hw. destruct Hw as [(body & -> & _) | (_ & Hl)]; [by apply plain_last in Hp |].
      rewrite Hl. cbn [Z.ltb]. by exists (1 + (MAXCHAR - 1)).
    + rewrite (proj2 (Z.ltb_lt _ _)); [done |].
      assert (zlen (buf ++ c :: rest) <= MAXCHAR - 1) as Hle.
      { destruct Hw as [(body & -> & _ & Hb) | (_ & ->)]; [rewrite zlen_app; change (zlen [newline]) with 1; lia | lia]. }
      rewrite zlen_app, zlen_cons in Hle. pose proof (zlen_nonneg rest). lia.
  - destruct rest as [| c rest]; [rewrite H; by exists r |]. rewrite <- app_assoc in Hw. by apply newline_last in Hw.
Qed.

Lemma whole_short l : whole l -> zlen l < MAXCHAR.
Proof. intros [(body & -> & _ & Hb) | (_ & ->)]; [rewrite zlen_app; change (zlen [newline]) with 1; lia | lia]. Qed.

(** Until then it goes on with the next character. *)
Lemma reads_waiting ans e buf ch rest : reads ans e buf -> whole (buf ++ ch :: rest) ->
  plain buf /\ exists e', forall more, readline (ans ++ more) e MAXCHAR = readline_loop more e' MAXCHAR (1 + zlen buf) buf.
Proof.
  intros Hr Hw. pose proof (reads_done _ _ _ _ Hr Hw) as H. cbn in H.
  destruct Hr as [(Hp & _ & He) | (r & body & _ & Hret)]; [done | congruence].
Qed.

Lemma reads_char ans e buf ch rest : reads ans e buf -> whole (buf ++ ch :: rest) -> reads (ans ++ [Read1 ch]) e (buf ++ [ch]).
Proof.
  intros Hr Hw. destruct (reads_waiting _ _ _ _ _ Hr Hw) as (Hp & e' & H).
  pose proof (whole_short _ Hw) as Hlt. rewrite zlen_app, zlen_cons in Hlt. pose proof (zlen_nonneg rest).
  destruct (decide (ch = newline)) as [-> | Hne].
  - right. exists (1 + zlen buf), buf. split; [done |]. rewrite H. cbn [readline_loop]. by rewrite (proj2 (Z.ltb_lt _ _)), Z.eqb_refl by lia.
  - left. split; [apply Forall_app; split; [done | by constructor] |]. rewrite zlen_app. change (zlen [ch]) with 1. split; [lia |].
    exists e'. intros more. rewrite <- app_assoc, H. cbn [app readline_loop].
    rewrite (proj2 (Z.ltb_lt _ _)), (proj2 (Z.eqb_neq ch newline)) by (done || lia). f_equal. lia.
Qed.

Lemma reads_interrupted ans e buf ch rest : reads ans e buf -> whole (buf ++ ch :: rest) -> reads (ans ++ [ReadErr EINTR]) e buf.
Proof.
  intros Hr Hw. destruct (reads_waiting _ _ _ _ _ Hr Hw) as (Hp & e' & H).
  pose proof (whole_short _ Hw) as Hlt. rewrite zlen_app, zlen_cons in Hlt. pose proof (zlen_nonneg rest).
  left. split; [done | split; [lia |]]. exists EINTR. intros more. rewrite <- app_assoc, H. cbn [app readline_loop].
  by rewrite (proj2 (Z.ltb_lt _ _)), Z.eqb_refl by lia.
Qed.

(** ** What the user types *)

(** The input as [fgets] cuts it: lines with their newline, and pieces of 49 characters
    of longer lines; none ends in the line that the server takes for the end. *)
Definition chunk (l : list Z) : Prop := whole l /\ nonzero l /\ ~ quit_line `suffix_of` l.

Lemma fgets_plain body rest : forall room, plain body -> (length body < room)%nat -> fgets room (body ++ newline :: rest) = (body ++ [newline], rest, false).
Proof.
  induction body as [| b body IH]; intros [| room] Hp Hl; try (cbn in Hl; lia); cbn [app fgets]; [done |].
  inversion Hp; subst. rewrite (proj2 (Z.eqb_neq b newline)), IH by (done || (cbn in Hl; lia)). done.
Qed.

Lemma fgets_full l rest : plain l -> fgets (length l) (l ++ rest) = (l, rest, false).
Proof.
  induction l as [| b l IH]; intros Hp; cbn [length app fgets]; [by destruct rest |].
  inversion Hp; subst. by rewrite (proj2 (Z.eqb_neq b newline)), IH.
Qed.

Lemma fgets_chunk l rest : whole l -> fgets (Z.to_nat (MAXCHAR - 1)) (l ++ rest) = (l, rest, false).
Proof.
  unfold zlen. intros [(body & -> & Hp & Hb) | (Hp & Hl)].
  - rewrite <- app_assoc. cbn [app]. apply fgets_plain; [done |]. unfold zlen in Hb. lia.
  - unfold zlen in Hl. rewrite <- Hl, Nat2Z.id. by apply fgets_full.
Qed.

Lemma whole_nonempty l : whole l -> l <> [].
Proof. intros [(body & -> & _) | (_ & Hl)]; [by destruct body | by intros ->]. Qed.

Lemma text_of_chunk l : nonzero l -> text_of l = l.
Proof. intros H. unfold text_of. by rewrite cstr_app. Qed.

(** ** The server's side *)
Lemma received_piece piece : nonzero piece -> (length piece <= 255)%nat -> received piece = piece.
Proof.
  intros Hz Hl. unfold received. rewrite take_ge by done. destruct (256 - length piece)%nat as [| n] eqn:Hn; [lia |].
  cbn [replicate]. by rewrite cstr_app.
Qed.

(** The bytes the server has read and not yet sent back. *)
Definition holds (s : server) (h : list Z) : Prop :=
  match sat s with
  | Reading => h = []
  | Echoing text ans => exists out, sends ans (serrno s) text out h
  | Ended _ | Killed => False
  end.
Lemma holds_going s h : holds s h -> ~ ended s.
Proof. unfold holds, ended. intros H He. by destruct (sat s). Qed.

Definition busy (s : server) : nat := match sat s with Echoing _ _ => 1 | _ => 0 end.

(** The work left for the bytes on their way. *)
Definition load (st : system) (h : list Z) : nat := (8 * length (up st) + 6 * length h + busy (sv st) + 5 * length (down st))%nat.

Definition decreases (l : label) (n n' : nat) : Prop := match l with Progress => (n' < n)%nat | Interrupted => n' = n end.

(** A step of the server moves bytes along, or it is the end of the session. *)
Definition moved (l : label) (st st' : system) (h h' : list Z) : Prop :=
  cl st' = cl st /\ (exists pre, up st = pre ++ up st') /\ decreases l (load st h) (load st' h') /\
  ((holds (sv st') h' /\ down st' ++ h' ++ up st' = down st ++ h ++ up st) \/
   (ended (sv st') /\ h' = [] /\ h = [] /\ quit_line `prefix_of` up st)).

Lemma server_moves l st st' h : server_step l st st' -> holds (sv st) h -> nonzero (up st) -> ~ absent (cl st) ->
  exists h', moved l st st' h h'.
Proof.
  intros Hstep Hh Hz Hcl. destruct Hstep as [c s s' u d Hrun | c s piece u d Hs Hne Hl | c s d Hs Hleft | c s u d text ans out k Hs Hw | c s u d text ans out Hs Hw
    | c s u d Hs Hres | c s u d text ans out err Hs Hw Hres | c s u d text ans out Hs Hw Hres];
    cbn [cl sv up down] in *; unfold holds in Hh; try (by destruct Hres).
  - unfold server_run in Hrun. destruct (sat s) as [| text ans | |] eqn:Hs; [done | | done..]. destruct Hh as (out & Hsend).
    rewrite (sends_answer _ _ _ _ _ Hsend) in Hrun. destruct h; [| done]. injection Hrun as <-.
    exists []. rewrite (proj2 (Z.eqb_neq _ _)) by (pose proof (zlen_nonneg text); lia).
    repeat split; cbn; [by exists [] | unfold load, busy; cbn; rewrite Hs; lia | by left].
  - rewrite Hs in Hh. subst h. apply Forall_app in Hz as [Hz _]. unfold on_read. rewrite received_piece by done.
    assert (0 < length piece)%nat by (destruct piece; [done | cbn; lia]).
    case_bool_decide as Hq.
    + exists []. repeat split; cbn; [by exists piece | unfold load, busy; cbn; rewrite Hs, length_app; lia |].
      right. subst piece. repeat split; try done. by exists u.
    + exists piece. repeat split; cbn; [by exists piece | unfold load, busy; cbn; rewrite Hs, length_app; lia |].
      left. split; [| done]. exists []. apply sends_start.
  - done.
  - rewrite Hs in Hh. destruct Hh as (out' & Hsend). pose proof (waiting_left _ _ _ _ _ _ Hsend Hw) as Hne.
    destruct (sends_write _ _ _ _ _ k Hsend Hne) as (part & h' & Hp & -> & Hsend' & ->). exists h'.
    assert (0 < length part)%nat by (destruct part; [done | cbn; lia]).
    repeat split; cbn; [by exists [] | unfold load, busy; cbn; rewrite Hs, !length_app; lia |].
    left. split; [by eexists | by rewrite <- !app_assoc].
  - rewrite Hs in Hh. destruct Hh as (out' & Hsend). pose proof (waiting_left _ _ _ _ _ _ Hsend Hw) as Hne. exists h.
    repeat split; cbn; [by exists [] | unfold load, busy; cbn; by rewrite Hs |].
    left. split; [| done]. exists out'. by apply sends_interrupted.
Qed.

Lemma no_quit x d u rem : chunk x -> x = d ++ u ++ rem -> ~ quit_line `prefix_of` u.
Proof.
  intros (Hw & _ & Hns) -> [v ->]. apply Hns.
  assert (v ++ rem = []) as Hnil.
  { apply (newline_last (d ++ lit "quit")). revert Hw. unfold quit_line. rewrite <- !app_assoc. done. }
  exists d. by rewrite <- app_assoc, Hnil, app_nil_r.
Qed.

(** ** The invariant *)

(** The second argument is the work left. *)
Inductive inv (cs : list (list Z)) : nat -> system -> Prop :=
| inv_typing st past future :
    cs = past ++ future -> at_ (cl st) = Typing -> stdin (cl st) = concat future -> displayed (cl st) = map Some past ->
    holds (sv st) [] -> up st = [] -> down st = [] ->
    inv cs (60 + 20 * length (concat future) + load st []) st
| inv_sending st past x future ans out rem h :
    cs = past ++ x :: future -> at_ (cl st) = Sending false x ans -> stdin (cl st) = concat future -> displayed (cl st) = map Some past ->
    sends ans (errno (cl st)) x out rem -> holds (sv st) h -> x = down st ++ h ++ up st ++ rem ->
    inv cs (62 + 20 * length (concat future) + 9 * length rem + load st h) st
| inv_receiving st past x future ans buf h :
    cs = past ++ x :: future -> at_ (cl st) = Receiving ans -> stdin (cl st) = concat future -> displayed (cl st) = map Some past ->
    reads ans (errno (cl st)) buf -> holds (sv st) h -> x = buf ++ down st ++ h ++ up st ->
    inv cs (61 + 20 * length (concat future) + load st h) st
| inv_quitting st ans out rem h :
    at_ (cl st) = Sending true quit_line ans -> displayed (cl st) = map Some cs ->
    sends ans (errno (cl st)) quit_line out rem -> holds (sv st) h \/ ended (sv st) /\ h = [] /\ rem = [] -> nonzero (up st ++ rem) -> (length (up st ++ rem) <= 5)%nat ->
    inv cs (3 + 9 * length rem + load st h) st
| inv_left st : at_ (cl st) = Left -> displayed (cl st) = map Some cs -> inv cs 0 st.

Section Session.
Variable cs : list (list Z).
Hypothesis typed : Forall chunk cs.

Definition preserved (l : label) (n : nat) (st' : system) : Prop :=
  exists n', inv cs n' st' /\ (at_ (cl st') = Left \/ decreases l n n').

Lemma chunk_in past x future : cs = past ++ x :: future -> chunk x.
Proof. intros H. rewrite H in typed. apply Forall_app in typed as [_ Hx]. by inversion Hx. Qed.

Lemma chunk_nonzero x a u b : chunk x -> x = a ++ u ++ b -> nonzero u.
Proof. intros (_ & Hz & _) ->. apply Forall_app in Hz as [_ Hz]. by apply Forall_app in Hz as [Hz _]. Qed.

Lemma server_preserves l n st st' : inv cs n st -> server_step l st st' -> preserved l n st'.
Proof.
  intros Hinv Hstep. destruct Hinv as [st past future Hcs Hat Hin Hd Hh Hu Hdn | st past x future ans out rem h Hcs Hat Hin Hd Hs Hh Hx
    | st past x future ans buf h Hcs Hat Hin Hd Hr Hh Hx | st ans out rem h Hat Hd Hs Hh Hz Hlen | st Hat Hd].
  - destruct (server_moves l st st' [] Hstep Hh) as (h' & Hcl & (pre & Hpre) & Hdec & Hcase); [rewrite Hu; constructor | unfold absent; rewrite Hat; by intros [] |].
    rewrite Hu in Hcase, Hpre. symmetry in Hpre. apply app_nil in Hpre as [_ Hu']. rewrite Hdn in Hcase.
    destruct Hcase as [(Hh' & Heq) | (_ & _ & _ & [v Hv])]; [| done]. rewrite Hu', app_nil_r in Heq. apply app_nil in Heq as [Hd' ->].
    eexists. split; [eapply (inv_typing cs st' past future); rewrite ?Hcl; done |]. right. destruct l; cbn in *; lia.
  - assert (Hc : chunk x) by (by eapply chunk_in).
    destruct (server_moves l st st' h Hstep Hh) as (h' & Hcl & (pre & Hpre) & Hdec & Hcase);
      [apply (chunk_nonzero x (down st ++ h) _ rem); [done | by rewrite <- app_assoc] | unfold absent; rewrite Hat; by intros [] |].
    destruct Hcase as [(Hh' & Heq) | (_ & _ & -> & Hq)]; [| by destruct (no_quit x (down st) (up st) rem Hc Hx)].
    eexists. split; [eapply (inv_sending cs st' past x future ans out rem h'); rewrite ?Hcl; try done |].
    + rewrite Hx. transitivity ((down st ++ h ++ up st) ++ rem); [by rewrite <- !app_assoc | rewrite <- Heq; by rewrite <- !app_assoc].
    + right. destruct l; cbn in *; lia.
  - assert (Hc : chunk x) by (by eapply chunk_in).
    destruct (server_moves l st st' h Hstep Hh) as (h' & Hcl & (pre & Hpre) & Hdec & Hcase);
      [apply (chunk_nonzero x (buf ++ down st ++ h) _ []); [done | by rewrite app_nil_r, <- !app_assoc] | unfold absent; rewrite Hat; by intros [] |].
    destruct Hcase as [(Hh' & Heq) | (_ & _ & -> & Hq)];
      [| by destruct (no_quit x (buf ++ down st) (up st) [] Hc); [rewrite app_nil_r, <- app_assoc |]].
    eexists. split; [eapply (inv_receiving cs st' past x future ans buf h'); rewrite ?Hcl; try done; by rewrite Heq |].
    right. destruct l; cbn in *; lia.
  - apply Forall_app in Hz as [Hz Hzr]. destruct Hh as [Hh | (Hend & -> & ->)].
    + destruct (server_moves l st st' h Hstep Hh Hz) as (h' & Hcl & (pre & Hpre) & Hdec & Hcase); [unfold absent; rewrite Hat; by intros [] |].
      pose proof Hz as Hz'. rewrite Hpre in Hz'. apply Forall_app in Hz' as [_ Hz'].
      eexists. split; [eapply (inv_quitting cs st' ans out rem h'); rewrite ?Hcl; try done; [| by apply Forall_app |] | right; destruct l; cbn in *; lia].
      * destruct Hcase as [[? _] | (? & ? & _ & [v Hv])]; [by left | right]. repeat split; [done | done |].
        rewrite Hv, !length_app in Hlen. change (length quit_line) with 5%nat in Hlen. destruct rem; [done | cbn in Hlen; lia].
      * rewrite Hpre in Hlen. rewrite !length_app in *. lia.
    + exfalso. unfold ended in Hend. destruct Hstep as [? s ? ? ? Hrun | ? ? ? ? ? Hsat | ? ? ? Hsat | ? ? ? ? ? ? ? ? Hsat | ? ? ? ? ? ? ? Hsat
          | ? ? ? ? Hsat | ? ? ? ? ? ? ? ? Hsat | ? ? ? ? ? ? ? Hsat];
        cbn in Hend; try (by rewrite Hsat in Hend). unfold server_run in Hrun. by destruct (sat s).
  - assert (cl st' = cl st) as Hcl by (by destruct Hstep). exists 0%nat. rewrite Hcl. split; [apply inv_left; by rewrite Hcl | by left].
Qed.

Lemma typing_preserves st st' past future : cs = past ++ future -> at_ (cl st) = Typing -> stdin (cl st) = concat future ->
  displayed (cl st) = map Some past -> holds (sv st) [] -> up st = [] -> down st = [] -> client_step Progress st st' ->
  preserved Progress (60 + 20 * length (concat future) + load st []) st'.
Proof.
  intros Hcs Hat Hin Hd Hh Hu Hdn Hstep.
  inversion Hstep as [c c' s u d Hrun | | | | | | | |]; subst st st'; cbn [cl sv up down] in *; try congruence.
  unfold client_run in Hrun. rewrite Hat in Hrun. injection Hrun as <-. subst u d. unfold type_line. rewrite Hin.
  destruct future as [| x future].
  - cbn [concat]. change (fgets _ []) with ((([] : list Z), ([] : list Z), true)). cbn iota beta. eexists.
    split; [apply (inv_quitting cs _ [] [] quit_line []) | right; unfold decreases, load; change (length quit_line) with 5%nat; cbn; lia]; cbn; try done.
    + by rewrite Hd, Hcs, app_nil_r.
    + apply sends_start.
    + by left.
    + by repeat constructor.
  - destruct (chunk_in past x future Hcs) as (Hw & Hz & _). cbn [concat]. rewrite fgets_chunk by done. cbn iota beta.
    pose proof (whole_nonempty x Hw). destruct x as [| b y]; [done |]. rewrite text_of_chunk by done. eexists.
    split; [apply (inv_sending cs _ past (b :: y) future [] [] (b :: y) []) | right; unfold decreases, load; cbn; rewrite length_app; cbn; lia]; cbn; try done.
    apply sends_start.
Qed.

Lemma sending_preserves l st st' past x future ans out rem h : cs = past ++ x :: future -> at_ (cl st) = Sending false x ans ->
  stdin (cl st) = concat future -> displayed (cl st) = map Some past -> sends ans (errno (cl st)) x out rem -> holds (sv st) h ->
  x = down st ++ h ++ up st ++ rem -> client_step l st st' ->
  preserved l (62 + 20 * length (concat future) + 9 * length rem + load st h) st'.
Proof.
  intros Hcs Hat Hin Hd Hs Hh Hx Hstep.
  inversion Hstep as [c c' s u d Hrun | c s u d q msg ans' out' k Hat' Hw | c s u d q msg ans' out' Hat' Hw | | |
    | c s u d q msg ans' out' err Hat' Hw [Hend _] | c s u d q msg ans' out' Hat' Hw [Hend _] |]; subst l st st'; cbn [cl sv up down] in *; try congruence.
  - unfold client_run in Hrun. rewrite Hat, (sends_answer _ _ _ _ _ Hs) in Hrun. destruct rem; [| done]. injection Hrun as <-. eexists.
    split; [apply (inv_receiving cs _ past x future [] [] h) | right; unfold decreases, load; cbn; lia]; cbn; try done.
    + apply reads_start.
    + by rewrite app_nil_r in Hx.
  - rewrite Hat in Hat'. injection Hat' as <- <- <-.
    destruct (sends_write _ _ _ _ _ k Hs (waiting_left _ _ _ _ _ _ Hs Hw)) as (part & rem' & Hp & -> & Hs' & ->). eexists.
    assert (0 < length part)%nat by (destruct part; [done | cbn; lia]).
    split; [apply (inv_sending cs _ past x future (ans ++ [Wrote k]) (out ++ part) rem' h); cbn; try done | right; unfold decreases, load; cbn; rewrite !length_app; lia].
    rewrite Hx. by rewrite <- !app_assoc.
  - rewrite Hat in Hat'. injection Hat' as <- <- <-. eexists.
    split; [apply (inv_sending cs _ past x future (ans ++ [WriteErr EINTR]) out rem h); cbn; try done | by right].
    apply sends_interrupted; [done |]. by eapply waiting_left.
  - by destruct (holds_going _ _ Hh).
  - by destruct (holds_going _ _ Hh).
Qed.

Lemma receiving_preserves l st st' past x future ans buf h : cs = past ++ x :: future -> at_ (cl st) = Receiving ans ->
  stdin (cl st) = concat future -> displayed (cl st) = map Some past -> reads ans (errno (cl st)) buf -> holds (sv st) h ->
  x = buf ++ down st ++ h ++ up st -> client_step l st st' ->
  preserved l (61 + 20 * length (concat future) + load st h) st'.
Proof.
  intros Hcs Hat Hin Hd Hr Hh Hx Hstep. destruct (chunk_in past x future Hcs) as (Hw & _).
  assert (Hdone := reads_done _ _ _ (down st ++ h ++ up st) Hr ltac:(by rewrite <- Hx)).
  inversion Hstep as [c c' s u d Hrun | | | c s u ch d ans' Hat' Hwait | c s u d ans' Hat' Hwait | c s u ans' Hat' Hwait Hend
    | | | c s u d ans' err Hat' Hwait [Hend _]]; subst l st st'; cbn [cl sv up down] in *; try congruence.
  - unfold client_run in Hrun. rewrite Hat in Hrun. destruct (d ++ h ++ u) as [| b t] eqn:Hrest; [| by rewrite Hdone in Hrun].
    destruct Hdone as [r Hret]. rewrite Hret in Hrun. injection Hrun as <-.
    apply app_nil in Hrest as [-> [-> ->]%app_nil]. rewrite app_nil_r in Hx. eexists.
    split; [apply (inv_typing cs _ (past ++ [x]) future) | right; unfold decreases, load; cbn; lia]; cbn; try done.
    + by rewrite <- app_assoc.
    + by rewrite Hd, map_app, Hx.
  - rewrite Hat in Hat'. injection Hat' as <-. eexists.
    split; [apply (inv_receiving cs _ past x future (ans ++ [Read1 ch]) (buf ++ [ch]) h) | right; unfold decreases, load; cbn; lia]; cbn; try done.
    + apply (reads_char _ _ _ _ (d ++ h ++ u)); [done |]. by rewrite Hx in Hw.
    + rewrite Hx. by rewrite <- app_assoc.
  - rewrite Hat in Hat'. injection Hat' as <-. eexists.
    split; [apply (inv_receiving cs _ past x future (ans ++ [ReadErr EINTR]) buf h) | by right]; cbn; try done.
    destruct (d ++ h ++ u) as [| b t]; [destruct Hdone; congruence |]. apply (reads_interrupted _ _ _ b t); [done |]. by rewrite <- Hx.
  - by destruct (holds_going _ _ Hh).
  - by destruct (holds_going _ _ Hh).
Qed.

Lemma quitting_preserves l st st' ans out rem h : at_ (cl st) = Sending true quit_line ans -> displayed (cl st) = map Some cs ->
  sends ans (errno (cl st)) quit_line out rem -> holds (sv st) h \/ ended (sv st) /\ h = [] /\ rem = [] -> nonzero (up st ++ rem) -> (length (up st ++ rem) <= 5)%nat -> client_step l st st' ->
  preserved l (3 + 9 * length rem + load st h) st'.
Proof.
  intros Hat Hd Hs Hh Hz Hlen Hstep.
  inversion Hstep as [c c' s u d Hrun | c s u d q msg ans' out' k Hat' Hw | c s u d q msg ans' out' Hat' Hw | | |
    | c s u d q msg ans' out' err Hat' Hw [Hend _] | c s u d q msg ans' out' Hat' Hw [Hend _] |]; subst l st st'; cbn [cl sv up down] in *; try congruence.
  - unfold client_run in Hrun. rewrite Hat, (sends_answer _ _ _ _ _ Hs) in Hrun. destruct rem; [| done]. injection Hrun as <-.
    exists 0%nat. split; [by apply inv_left | by left].
  - rewrite Hat in Hat'. injection Hat' as <- <- <-.
    destruct (sends_write _ _ _ _ _ k Hs (waiting_left _ _ _ _ _ _ Hs Hw)) as (part & rem' & Hp & -> & Hs' & ->). eexists.
    assert (0 < length part)%nat by (destruct part; [done | cbn; lia]).
    split; [apply (inv_quitting cs _ (ans ++ [Wrote k]) (out ++ part) rem' h); cbn; try done | right; unfold decreases, load; cbn; rewrite !length_app; lia].
    + destruct Hh as [Hh | (He & -> & Hnil)]; [by left | by destruct part].
    + by rewrite <- app_assoc.
    + rewrite <- app_assoc. done.
  - rewrite Hat in Hat'. injection Hat' as <- <- <-. eexists.
    split; [apply (inv_quitting cs _ (ans ++ [WriteErr EINTR]) out rem h); cbn; try done | by right].
    apply sends_interrupted; [done |]. by eapply waiting_left.
  - rewrite Hat in Hat'. injection Hat' as <- <- <-. destruct Hh as [Hh | (_ & _ & ->)]; [by destruct (holds_going _ _ Hh) |].
    by destruct (waiting_left _ _ _ _ _ _ Hs Hw).
  - rewrite Hat in Hat'. injection Hat' as <- <- <-. destruct Hh as [Hh | (_ & _ & ->)]; [by destruct (holds_going _ _ Hh) |].
    by destruct (waiting_left _ _ _ _ _ _ Hs Hw).
Qed.

Lemma client_preserves l n st st' : inv cs n st -> client_step l st st' -> preserved l n st'.
Proof.
  intros Hinv Hstep. destruct Hinv as [st past future Hcs Hat Hin Hd Hh Hu Hdn | st past x future ans out rem h Hcs Hat Hin Hd Hs Hh Hx
    | st past x future ans buf h Hcs Hat Hin Hd Hr Hh Hx | st ans out rem h Hat Hd Hs Hh Hz Hlen | st Hat Hd].
  - assert (l = Progress) as -> by (destruct Hstep; cbn in *; congruence). by eapply typing_preserves.
  - by eapply sending_preserves.
  - by eapply receiving_preserves.
  - by eapply quitting_preserves.
  - exfalso. destruct Hstep as [c ? ? ? ? Hrun | | | | | | | |]; cbn in *; try congruence. unfold client_run in Hrun. by rewrite Hat in Hrun.
Qed.

Lemma step_preserves l n st st' : inv cs n st -> step l st st' -> preserved l n st'.
Proof. intros Hinv [H | H]; [by eapply client_preserves | by eapply server_preserves]. Qed.

(** A process waits only while the other one has work. *)
Lemma sending_enabled st q x ans out rem : at_ (cl st) = Sending q x ans -> sends ans (errno (cl st)) x out rem -> exists st', step Progress st st'.
Proof.
  intros Hat Hs. destruct st as [c s u d]. cbn in *. pose proof (sends_answer _ _ _ _ _ Hs) as Hw. destruct rem.
  - eexists. left. apply client_runs. unfold client_run. by rewrite Hat, Hw.
  - eexists. left. by apply (client_writes c s u d q x ans out 1).
Qed.

Lemma echoing_enabled st h : holds (sv st) h -> h ++ up st <> [] \/ absent (cl st) -> exists st', server_step Progress st st'.
Proof.
  intros Hh Hne. destruct st as [c s u d]. cbn in *. unfold holds in Hh. destruct (sat s) as [| text ans | |] eqn:Hs; [| | done..].
  - subst h. destruct u as [| b u].
    + destruct Hne as [Hne | Hleft]; [done |]. eexists. by apply server_reads_end.
    + eexists. apply (server_reads c s [b] u d); [done | done | cbn; lia].
  - destruct Hh as (out & Hsend). pose proof (sends_answer _ _ _ _ _ Hsend) as Hw. destruct h.
    + eexists. apply server_runs. unfold server_run. by rewrite Hs, Hw.
    + eexists. by apply (server_writes c s u d text ans out 1).
Qed.

Lemma enabled n st : inv cs n st -> ~ left_ (cl st) -> exists st', step Progress st st'.
Proof.
  intros Hinv Hleft. destruct Hinv as [st past future Hcs Hat Hin Hd Hh Hu Hdn | st past x future ans out rem h Hcs Hat Hin Hd Hs Hh Hx
    | st past x future ans buf h Hcs Hat Hin Hd Hr Hh Hx | st ans out rem h Hat Hd Hs Hh Hz Hlen | st Hat Hd].
  - destruct st as [c s u d]. cbn in *. eexists. left. apply client_runs. unfold client_run. by rewrite Hat.
  - by eapply sending_enabled.
  - destruct (chunk_in past x future Hcs) as (Hw & _).
    assert (Hdone := reads_done _ _ _ (down st ++ h ++ up st) Hr ltac:(by rewrite <- Hx)).
    destruct (down st ++ h ++ up st) as [| b t] eqn:Hrest.
    + destruct Hdone as [r Hret]. destruct st as [c s u d]. cbn in *. eexists. left. apply client_runs. unfold client_run. by rewrite Hat, Hret.
    + destruct (down st) as [| ch d'] eqn:Hdown.
      * destruct (echoing_enabled st h Hh) as [st' Hst']; [left; cbn in Hrest; by rewrite Hrest | exists st'; by right].
      * destruct st as [c s u d]. cbn in *. subst d. eexists. left. by eapply client_reads.
  - by eapply sending_enabled.
  - done.
Qed.

Definition over (st : system) : Prop := left_ (cl st) /\ displayed (cl st) = map Some cs.

Lemma inv_over n st : inv cs n st -> left_ (cl st) -> over st.
Proof. intros Hinv Hl. unfold left_, over in *. split; [done |]. by destruct Hinv; try congruence. Qed.

Lemma inv_inevitable n : forall st, inv cs n st -> inevitable over st.
Proof.
  induction (lt_wf n) as [n _ IH]. intros st Hinv.
  assert (Hdec : at_ (cl st) = Left \/ at_ (cl st) <> Left) by (destruct (at_ (cl st)); (by left) || (by right)).
  destruct Hdec as [Hl | Hl]; [apply now; by eapply inv_over |].
  apply later; [by eapply enabled |]. intros st' Hst. destruct (step_preserves _ _ _ _ Hinv Hst) as (n' & Hinv' & [Hleft | Hlt]).
  - apply now. by eapply inv_over.
  - by apply (IH n').
Qed.

Lemma reachable_inv e e' st : reachable (session (concat cs) e e') st -> exists n, inv cs n st.
Proof.
  induction 1 as [| l st st' _ (n & Hinv) Hst].
  - eexists. by apply (inv_typing cs _ [] cs).
  - destruct (step_preserves _ _ _ _ Hinv Hst) as (n' & Hinv' & _). by exists n'.
Qed.

Lemma inv_prefix n st : inv cs n st -> exists k, displayed (cl st) = map Some (take k cs).
Proof.
  intros Hinv. destruct Hinv as [st past future -> _ _ Hd | st past x future ? ? ? ? -> _ _ Hd | st past x future ? ? ? -> _ _ Hd | st ? ? ? ? _ Hd | st _ Hd];
    try (exists (length past); by rewrite take_app_length); exists (length cs); by rewrite take_ge.
Qed.
End Session.

(** ** A client that hangs up *)

(** It has gone, everything it sent was read, and the server did not see "quit". *)
Definition lost (st : system) : Prop := left_ (cl st) /\ up st = [] /\ sat (sv st) <> Ended 2.

(** Moreover nothing was sent to it since, so that no reset comes. *)
Definition silent (st : system) : Prop := left_ (cl st) /\ up st = [] /\ down st = [] /\ holds (sv st) [].

Lemma left_stays l st st' : left_ (cl st) -> ~ client_step l st st'.
Proof.
  unfold left_. intros Hl Hst. destruct Hst as [c ? ? ? ? Hrun | | | | | | | |]; cbn in *; try congruence. unfold client_run in Hrun. by rewrite Hl in Hrun.
Qed.

Lemma silent_step l st st' : silent st -> step l st st' -> silent st'.
Proof.
  intros (Hl & Hu & Hd & Hh) [Hst | Hst]; [by destruct (left_stays _ _ _ Hl Hst) |].
  destruct Hst as [c s s' u d Hrun | c s piece u d Hs Hne Hlen | c s d Hs _ | c s u d text ans out k Hs Hw | c s u d text ans out Hs Hw
    | c s u d Hs [_ Hres] | c s u d text ans out err Hs Hw [_ Hres] | c s u d text ans out Hs Hw [_ Hres]]; cbn [cl sv up down] in *; try done;
    unfold silent; cbn [cl sv up down]; unfold holds in Hh.
  - repeat split; try done. unfold server_run in Hrun. destruct (sat s) as [| text ans | |]; [done | | done..]. destruct Hh as (out & Hsend).
    rewrite (sends_answer _ _ _ _ _ Hsend) in Hrun. injection Hrun as <-. by rewrite (proj2 (Z.eqb_neq _ _)) by (pose proof (zlen_nonneg text); lia).
  - by apply app_nil in Hu as [? _].
  - repeat split; try done. exists []. apply sends_start.
  - rewrite Hs in Hh. destruct Hh as (out' & Hsend). by destruct (waiting_left _ _ _ _ _ _ Hsend Hw).
  - rewrite Hs in Hh. destruct Hh as (out' & Hsend). by destruct (waiting_left _ _ _ _ _ _ Hsend Hw).
Qed.

Lemma silent_runs st : silent st -> ~ ended (sv st) /\ exists st', step Progress st st'.
Proof.
  intros (Hl & _ & _ & Hh). split; [by eapply holds_going |].
  destruct (echoing_enabled st [] Hh) as [st' Hst]; [right; by left |]. exists st'. by right.
Qed.

Lemma silent_reachable st st' : silent st -> reachable st st' -> silent st'.
Proof. intros Ha. induction 1 as [| l st1 st2 _ IH Hst]; [done |]. by eapply silent_step. Qed.

Lemma lost_step l st st' : lost st -> step l st st' -> lost st'.
Proof.
  intros (Hl & Hu & Hs2) [Hst | Hst]; [by destruct (left_stays _ _ _ Hl Hst) |].
  destruct Hst as [c s s' u d Hrun | c s piece u d Hs Hne Hlen | | | | | |]; cbn [cl sv up down] in *; unfold lost; cbn [cl sv up down]; (split; [done |]); try done.
  - split; [done |]. unfold server_run in Hrun. destruct (sat s) as [| text ans | |]; [done | | done..].
    destruct (writen _ _ _) as [r w | w]; [| done]. injection Hrun as <-. cbn. by destruct (r =? -1).
  - by apply app_nil in Hu as [? _].
Qed.

Lemma lost_reachable st st' : lost st -> reachable st st' -> lost st'.
Proof. intros Ha. induction 1 as [| l st1 st2 _ IH Hst]; [done |]. by eapply lost_step. Qed.

(** ** Properties *)

(** C27: as long as the network does not fail while both processes are there, whatever the
    interleaving of the two processes, the sizes in which [write] and [read] move the bytes,
    and the interruptions: what the client shows are the lines typed so far, in their order,
    longer ones in pieces of 49 characters; every run without further interruptions ends the
    client with all of them shown. Every line typed is finished by its newline, holds no
    NUL, and does not end in "quit". *)
Theorem lines_echoed cs e e' st : Forall chunk cs -> reachable (session (concat cs) e e') st ->
  (exists k, displayed (cl st) = map Some (take k cs)) /\ (left_ (cl st) -> displayed (cl st) = map Some cs) /\ inevitable (over cs) st.
Proof.
  intros Hcs Hr. destruct (reachable_inv cs Hcs e e' st Hr) as [n Hinv].
  split; [by eapply inv_prefix | split; [intros Hl; by destruct (inv_over cs n st Hinv Hl) | by eapply inv_inevitable]].
Qed.

(** A last line that the user ends with the end of the input. *)
Lemma fgets_short l : forall room, plain l -> (length l < room)%nat -> fgets room l = (l, [], true).
Proof.
  induction l as [| b l IH]; intros [| room] Hp Hl; try (cbn in Hl; lia); cbn [fgets]; [done |].
  inversion Hp; subst. rewrite (proj2 (Z.eqb_neq b newline)), IH by (done || (cbn in Hl; lia)). done.
Qed.

Lemma short_line_leaves l e : l <> [] -> plain l -> zlen l < MAXCHAR - 1 ->
  client_run (fresh_client l e) = Some (mk_client Left [] e None []).
Proof.
  intros Hne Hp Hl. unfold client_run, fresh_client, type_line. cbn [at_ stdin errno output displayed].
  rewrite fgets_short by (done || (unfold zlen in Hl; lia)). by destruct l.
Qed.

(** The end of the session read in two pieces. *)
Definition quitting (e : Z) : client := mk_client (Sending true quit_line []) [] e None [].
Definition quit_written (e : Z) : client := mk_client (Sending true quit_line [Wrote 5]) [] e None [].
Definition gone (e : Z) : client := mk_client Left [] e None [].

Lemma quit_cut e e' : exists st, reachable (session [] e e') st /\ lost st /\ ~ ended (sv st) /\ exists st', reachable st st' /\ sat (sv st') = Killed.
Proof.
  set (s0 := mk_server Reading e'). set (s1 := mk_server (Echoing (lit "it" ++ [newline]) []) e').
  assert (R1 : reachable (session [] e e') (mk_system (quitting e) s0 [] [])).
  { eapply reach_step; [apply reach_start |]. left. by apply client_runs. }
  assert (R2 : reachable (session [] e e') (mk_system (quit_written e) s0 quit_line [])).
  { exact (reach_step _ _ _ _ R1 (or_introl (client_writes (quitting e) s0 [] [] true quit_line [] [] 5 eq_refl eq_refl))). }
  assert (R3 : reachable (session [] e e') (mk_system (gone e) s0 (lit "qu" ++ lit "it" ++ [newline]) [])).
  { eapply reach_step; [exact R2 |]. left. by apply client_runs. }
  assert (R4 : reachable (session [] e e') (mk_system (gone e) (mk_server (Echoing (lit "qu") []) e') (lit "it" ++ [newline]) [])).
  { eapply reach_step; [exact R3 |]. right. apply (server_reads (gone e) s0 (lit "qu")); [done | done | vm_compute; lia]. }
  assert (R5 : reachable (session [] e e') (mk_system (gone e) (mk_server (Echoing (lit "qu") [Wrote 2]) e') (lit "it" ++ [newline]) (lit "qu"))).
  { exact (reach_step _ _ _ _ R4 (or_intror (server_writes (gone e) (mk_server (Echoing (lit "qu") []) e') _ [] (lit "qu") [] [] 2 eq_refl eq_refl))). }
  assert (R6 : reachable (session [] e e') (mk_system (gone e) s0 ((lit "it" ++ [newline]) ++ []) (lit "qu"))).
  { eapply reach_step; [exact R5 |]. right. by apply server_runs. }
  exists (mk_system (gone e) s1 [] (lit "qu")). split; [| split; [done | split; [intros [] |]]].
  - eapply reach_step; [exact R6 |]. right. apply (server_reads (gone e) s0 (lit "it" ++ [newline]) []); [done | done | vm_compute; lia].
  - exists (mk_system (gone e) (set_sphase Killed s1) [] (lit "qu")). split; [| done]. eapply reach_step; [apply reach_start |].
    right. eapply server_killed; [done | done |]. split; [by left | done].
Qed.


(** *** Witnesses *)
Lemma short_chunk body : plain body -> nonzero body -> (length body < 4)%nat -> chunk (body ++ [newline]).
Proof.
  intros Hp Hz Hl. split; [left; exists body; repeat split; try done; unfold zlen, MAXCHAR; lia |].
  split; [apply Forall_app; split; [done | by repeat constructor] |].
  intros [k Hk]. apply (f_equal length) in Hk. rewrite !length_app in Hk. change (length quit_line) with 5%nat in Hk. cbn in Hk. lia.
Qed.

Lemma lines_echoed_witness :
  inevitable (over [lit "hi" ++ [newline]; lit "you" ++ [newline]]) (session (lit "hi" ++ newline :: lit "you" ++ [newline]) 0 0).
Proof.
  assert (Hcs : Forall chunk [lit "hi" ++ [newline]; lit "you" ++ [newline]])
    by (constructor; [| constructor; [| constructor]]; apply short_chunk; first [by repeat constructor | vm_compute; lia]).
  exact (proj2 (proj2 (lines_echoed _ 0 0 _ Hcs (reach_start _)))).
Defined.

End EchoExchange.
