(* ===== verification/LedPanel.v ===== *)
(** * [lab2/lab2b.c]: the counter and display panel

    A polling loop reads four switches and four push buttons: button 1 increments a
    counter, button 2 decrements it, button 3 shows the switches on the LEDs, button 4
    the low four bits of the counter, and anything else turns the LEDs off.  The
    counter is an [int]; each step of it takes a [delay()] of 2^28 iterations, so that
    its overflow is left out and it is a [Z] here. *)

From S2P Require Import Prelude CMem.
From stdpp Require Import base list.
From Stdlib Require Import ZArith Lia.
Open Scope Z_scope.

Module LedPanel.

(** The messages on the console, with the numbers they show. *)
Inductive message := MIncrement (c : Z) | MDecrement (c : Z) | MSwitches (s : Z) | MCount (c : Z).

Record panel := mk_panel {
  count : Z;
  count_masked : option Z;     (* [None]: not yet assigned *)
  btn3_flg : Z;
  btn4_flg : Z;
  leds : option Z;             (* what was last written to the LEDs *)
  log : list message
}.

Definition start : panel := mk_panel 0 None 0 0 None [].

Definition clear (flg : Z) : Z := if flg =? 1 then 0 else flg.

(** One round of the loop; [sw] and [btn] are what the two GPIO channels read. *)
Definition round (sw btn : Z) : M panel unit := fun p =>
  let sw_status := s16 sw in
  let btn_status := s16 btn in
  if btn_status =? 1 then
    let c := count p + 1 in
    let cm := Z.land c 0xF in
    Done tt (mk_panel c (Some cm) (clear (btn3_flg p)) (clear (btn4_flg p)) (leds p) (log p ++ [MIncrement cm]))
  else if btn_status =? 2 then
    let c := count p - 1 in
    let cm := Z.land c 0xF in
    Done tt (mk_panel c (Some cm) (clear (btn3_flg p)) (clear (btn4_flg p)) (leds p) (log p ++ [MDecrement cm]))
  else if btn_status =? 4 then
    if btn3_flg p =? 0 then
      Done tt (mk_panel (count p) (count_masked p) 1 (clear (btn4_flg p)) (Some (u32 sw_status))
        (log p ++ [MSwitches sw_status]))
    else
      Done tt (mk_panel (count p) (count_masked p) (btn3_flg p) (clear (btn4_flg p)) (Some (u32 sw_status)) (log p))
  else if btn_status =? 8 then
    if btn4_flg p =? 0 then
      let cm := Z.land (count p) 0xF in
      Done tt (mk_panel (count p) (Some cm) (clear (btn3_flg p)) 1 (Some (u32 cm)) (log p ++ [MCount cm]))
    else
      match count_masked p with
      | None => Undef Uninitialised p
      | Some cm =>
          Done tt (mk_panel (count p) (count_masked p) (clear (btn3_flg p)) (btn4_flg p) (Some (u32 cm)) (log p))
      end
  else
    Done tt (mk_panel (count p) (count_masked p) (clear (btn3_flg p)) (clear (btn4_flg p)) (Some 0) (log p)).

Fixpoint rounds (inputs : list (Z * Z)) : M panel unit :=
  match inputs with
  | [] => ret tt
  | (sw, btn) :: inputs' => round sw btn ;;; rounds inputs'
  end.

(** ** The rest of [main] and [delay] *)

(** The GPIO blocks: the direction of each channel, a bit per line (1: input).  A block
    that cannot be initialised is reported and used all the same. *)
Record gpio := mk_gpio { led_direction : Z; switch_direction : Z; button_direction : Z; failures : nat }.
Definition setup (led_ok switches_ok : bool) : gpio :=
  mk_gpio 0 1 1 ((if led_ok then 0 else 1) + (if switches_ok then 0 else 1)).
Definition main (led_ok switches_ok : bool) (inputs : list (Z * Z)) : gpio * outcome panel unit :=
  (setup led_ok switches_ok, rounds inputs start).

(** [delay]: the value of [delay_count] at its end. *)
Definition WAIT_VAL : Z := 0x10000000.
Fixpoint delay_loop (fuel : nat) (delay_count : Z) : option Z :=
  match fuel with
  | O => None
  | S n => if delay_count <? WAIT_VAL then delay_loop n (delay_count + 1) else Some delay_count
  end.
Definition delay (fuel : nat) : option Z := delay_loop fuel 0.

(** It counts to [WAIT_VAL], inside the range of an [int], and ends. *)
Lemma delay_ends n : Z.of_nat n = WAIT_VAL -> delay (S n) = Some WAIT_VAL.
Proof.
  intros Hn. unfold delay. enough (H : forall k c, Z.of_nat k = WAIT_VAL - c -> delay_loop (S k) c = Some WAIT_VAL) by (apply H; lia).
  clear n Hn. induction k as [| k IH]; intros c Hk.
  - cbn [delay_loop]. rewrite (proj2 (Z.ltb_ge _ _)) by lia. f_equal. lia.
  - change (delay_loop (S (S k)) c) with (if c <? WAIT_VAL then delay_loop (S k) (c + 1) else Some c).
    rewrite (proj2 (Z.ltb_lt _ _)) by lia. apply IH. lia.
Qed.

(** ** Invariant *)
Record panel_inv (p : panel) : Prop := {
  pi_flg3 : btn3_flg p = 0 \/ btn3_flg p = 1;
  pi_flg4 : btn4_flg p = 0 \/ btn4_flg p = 1;
  pi_one : btn3_flg p = 0 \/ btn4_flg p = 0;
  pi_masked : btn4_flg p = 1 -> count_masked p = Some (Z.land (count p) 0xF)
}.

Lemma start_inv : panel_inv start.
Proof. split; simpl; auto. done. Qed.

Lemma clear_flag z : z = 0 \/ z = 1 -> clear z = 0.
Proof. by intros [-> | ->]. Qed.

(** The change of the counter and what the LEDs show after a round. *)
Definition presses (btn : Z) : Z := if s16 btn =? 1 then 1 else if s16 btn =? 2 then -1 else 0.

Definition shown (p : panel) (sw btn : Z) : option Z :=
  if (s16 btn =? 1) || (s16 btn =? 2) then leds p
  else if s16 btn =? 4 then Some (u32 (s16 sw))
  else if s16 btn =? 8 then Some (count p mod 16)
  else Some 0.

Lemma low4 z : u32 (Z.land z 0xF) = z mod 16.
Proof.
  change 0xF with (Z.ones 4). rewrite Z.land_ones by lia. change (2 ^ 4) with 16.
  unfold u32. pose proof (Z.mod_pos_bound z 16). apply Z.mod_small. lia.
Qed.

Lemma panel_round_spec sw btn p :
  panel_inv p ->
  exists p', round sw btn p = Done tt p' /\ panel_inv p' /\ count p' = count p + presses btn /\
    leds p' = shown p sw btn.
Proof.
  intros [H3 H4 H1 Hm]. unfold round, presses, shown.
  rewrite (clear_flag (btn3_flg p)), (clear_flag (btn4_flg p)) by done.
  destruct (s16 btn =? 1); [| destruct (s16 btn =? 2)]; [| | destruct (s16 btn =? 4)];
    [| | | destruct (s16 btn =? 8)]; cbn [orb].
  - eexists. split; [reflexivity |]. split; [split; simpl; auto; lia | done].
  - eexists. split; [reflexivity |]. split; [split; simpl; auto; lia | done].
  - destruct (Z.eqb_spec (btn3_flg p) 0); eexists; (split; [reflexivity |]);
      (split; [split; simpl; auto; lia | simpl; split; [lia | done]]).
  - destruct (Z.eqb_spec (btn4_flg p) 0) as [E | E].
    + eexists. split; [reflexivity |]. split; [split; simpl; auto |]. simpl. rewrite low4. split; [lia | done].
    + destruct H4 as [? | H4]; [lia |]. rewrite (Hm H4). eexists. split; [reflexivity |].
      split; [split; simpl; auto |]. simpl. rewrite low4. split; [lia | done].
  - eexists. split; [reflexivity |]. split; [split; simpl; auto; lia | simpl; split; [lia | done]].
Qed.

Lemma rounds_spec inputs : forall p,
  panel_inv p -> exists p', rounds inputs p = Done tt p' /\ panel_inv p' /\
    count p' = count p + foldr (fun i => Z.add (presses i.2)) 0 inputs.
Proof.
  induction inputs as [| [sw btn] inputs IH]; intros p Hp.
  - exists p. split; [done |]. split; [done |]. simpl. lia.
  - destruct (panel_round_spec sw btn p Hp) as (p1 & Hr & Hp1 & Hc1 & _).
    destruct (IH p1 Hp1) as (p2 & Hrs & Hp2 & Hc2). exists p2. cbn [rounds]. unfold bind. rewrite Hr.
    split; [done |]. split; [done |]. simpl. lia.
Qed.

(** ** Properties *)

(** After any history of switches and buttons the loop is still running without
    having used an unassigned [count_masked], at most one of the two flags is set,
    and one more round shows, on the LEDs, the switches for button 3, the number of
    presses of button 1 minus those of button 2 modulo 16 for button 4, nothing when
    no single button is pressed, and leaves the LEDs as they are for buttons 1 and 2.*)
Lemma panel_shows inputs sw btn :
  exists p p', rounds inputs start = Done tt p /\ panel_inv p /\
    count p = foldr (fun i => Z.add (presses i.2)) 0 inputs /\
    round sw btn p = Done tt p' /\ leds p' = shown p sw btn.
Proof.
  destruct (rounds_spec inputs start start_inv) as (p & Hr & Hp & Hc).
  destruct (panel_round_spec sw btn p Hp) as (p' & Hr' & _ & _ & Hl). by exists p, p'.
Qed.
End LedPanel.
