(* ===== verification/IrMonitor.v ===== *)
(** * [lab7/src/helloworld.c]: showing the infrared messages without an operating system

    The loop of [main] (lines 64-74): the registers of the demodulator are read over and
    over, and a message is printed when the first one changed.  [reg0_prev] is not
    initialised; its first value is arbitrary. *)

From S2P Require Import Prelude.
From stdpp Require Import base list.
From Stdlib Require Import ZArith.
Open Scope Z_scope.

Module IrMonitor.

(** What one round reads, and the lines printed: the message and the counter. *)
Record registers := mk_registers { reg0 : Z; reg1 : Z; reg3 : Z }.
Record monitor := mk_monitor { reg0_prev : Z; printed : list (Z * Z) }.

Definition round (r : registers) (m : monitor) : monitor :=
  if reg0 r =? reg0_prev m then m else mk_monitor (reg0 r) (printed m ++ [(reg0 r, reg1 r)]).

Definition main (values : list registers) (m : monitor) : monitor := fold_left (fun m r => round r m) values m.

(** The rounds whose message differs from the one of the round before. *)
Definition changes (first : Z) (values : list registers) : list (Z * Z) :=
  map (fun p => (reg0 p.2, reg1 p.2)) (List.filter (fun p => negb (reg0 p.2 =? p.1)) (zip (first :: map reg0 values) values)).

(** Every change of the message is printed once, with the counter read in the same
    round; a first message equal to what [reg0_prev] happened to hold is not. *)
Lemma changes_printed values : forall m,
  printed (main values m) = printed m ++ changes (reg0_prev m) values /\
  reg0_prev (main values m) = default (reg0_prev m) (last (map reg0 values)).
Proof.
  induction values as [| r values IH]; intros m; [by rewrite app_nil_r |].
  unfold main. cbn [fold_left map]. fold (main values (round r m)). destruct (IH (round r m)) as [-> ->].
  assert (Hprev : reg0_prev (round r m) = reg0 r) by (unfold round; by destruct (Z.eqb_spec (reg0 r) (reg0_prev m))).
  rewrite Hprev. split.
  - unfold round, changes. cbn [map zip zip_with List.filter fst snd]. destruct (reg0 r =? reg0_prev m); cbn [negb map fst snd printed]; [done |].
    by rewrite <- app_assoc.
  - rewrite last_cons. by destruct (last (map reg0 values)).
Qed.
End IrMonitor.
