(* ===== verification/Double.v ===== *)
(** * The [double] of the image programs

    The image programs of CSCE646 compute with IEEE 754 binary64 numbers.  They are
    modelled by the Standard Library's executable specification [SpecFloat] at 53 bits
    of precision, with the conversions and the functions of [<cmath>] the programs call
    written on top of it: conversion from and to [int] and [unsigned char], [floor],
    [fmod], [remainder], [std::min], [std::max].

    Most of what the programs do at integer coordinates is exact.  The second part makes
    that precise: [repr x z] says that the double [x] is the integer [z] (zeros of either
    sign are the integer 0), and sums, differences, products, exact quotients,
    comparisons, [floor] and the conversions of such doubles are those of the integers,
    as long as the results stay below 2^53. *)

From S2P Require Import Prelude.
From stdpp Require Import base list.
From Stdlib Require Import ZArith Lia SpecFloat.
Open Scope Z_scope.

Module Double.

Create HintDb doubles.

Definition double : Type := spec_float.
Definition prec : Z := 53.
Definition emax : Z := 1024.

Declare Scope double_scope.
Delimit Scope double_scope with D.

(** ** Arithmetic and comparisons *)
Definition add (x y : double) : double := SFadd prec emax x y.
Definition sub (x y : double) : double := SFsub prec emax x y.
Definition mul (x y : double) : double := SFmul prec emax x y.
Definition div (x y : double) : double := SFdiv prec emax x y.
Definition opp (x : double) : double := SFopp x.
Definition fabs (x : double) : double := SFabs x.
Definition ltb (x y : double) : bool := SFltb x y.
Definition leb (x y : double) : bool := SFleb x y.
Definition eqb (x y : double) : bool := SFeqb x y.

Infix "+" := add : double_scope.
Infix "-" := sub : double_scope.
Infix "*" := mul : double_scope.
Infix "/" := div : double_scope.
Notation "- x" := (opp x) : double_scope.
Infix "<?" := ltb : double_scope.
Infix "<=?" := leb : double_scope.
Infix "=?" := eqb : double_scope.
Notation "x >? y" := (ltb y x) : double_scope.
Notation "x >=? y" := (leb y x) : double_scope.

(** [std::max] and [std::min]: the first argument unless the second is beyond it. *)
Definition max (x y : double) : double := if ltb x y then y else x.
Definition min (x y : double) : double := if ltb y x then y else x.

(** ** Conversions *)

(** [double(z)] of an [int]. *)
Definition of_int (z : Z) : double := binary_normalize prec emax z 0 false.
Notation "# z" := (of_int z) (at level 8, format "# z") : double_scope.

(** The literal [n / 10^k], correctly rounded (for numerators and powers that are
    doubles themselves). *)
Definition dec (n k : Z) : double := div (of_int n) (of_int (10 ^ k)).

(** The integer part; [None] for infinities and NaN. *)
Definition trunc (x : double) : option Z :=
  match x with
  | S754_zero _ => Some 0
  | S754_finite s m e =>
      let a := if 0 <=? e then Zpos m * 2 ^ e else Z.shiftr (Zpos m) (- e) in
      Some (if s then - a else a)
  | _ => None
  end.

(** [int(x)] and the conversion to [unsigned char]: undefined ([None]) when the integer
    part does not fit the type. *)
Definition to_int (x : double) : option Z :=
  match trunc x with
  | Some z => if (- 2147483648 <=? z) && (z <=? 2147483647) then Some z else None
  | None => None
  end.
Definition to_uchar (x : double) : option Z :=
  match trunc x with
  | Some z => if (0 <=? z) && (z <=? 255) then Some z else None
  | None => None
  end.

(** ** Functions of [<cmath>] *)
Definition floor (x : double) : double :=
  match x with
  | S754_finite s m e =>
      if 0 <=? e then x
      else binary_normalize prec emax (Z.shiftr (if s then Zneg m else Zpos m) (- e)) 0 s
  | _ => x
  end.

(** The nearest integer to [a / b], ties to even, for a positive [b]. *)
Definition nearest (a b : Z) : Z :=
  let q := a / b in
  let r := a mod b in
  match 2 * r ?= b with
  | Lt => q
  | Gt => q + 1
  | Eq => if Z.even q then q else q + 1
  end.

(** [x - n * y] computed exactly, where [n] is the integer quotient chosen by [quot];
    a zero has the sign of [x]. *)
Definition reduce (quot : Z -> Z -> Z) (x y : double) : double :=
  match x, y with
  | S754_finite sx mx ex, S754_finite _ my ey =>
      let e := Z.min ex ey in
      let a := (if sx then Zneg mx else Zpos mx) * 2 ^ (ex - e) in
      let b := Zpos my * 2 ^ (ey - e) in
      binary_normalize prec emax (a - quot a b * b) e sx
  | S754_zero _, S754_finite _ _ _ => x
  | S754_zero _, S754_infinity _ => x
  | S754_finite _ _ _, S754_infinity _ => x
  | _, _ => S754_nan
  end.

(** [remainder] rounds the quotient to the nearest integer, [fmod] towards zero. *)
Definition remainder : double -> double -> double := reduce nearest.
Definition fmod : double -> double -> double := reduce Z.quot.

Definition half : double := dec 5 1.

Example one_third : div (of_int 1) (of_int 3) = S754_finite false 6004799503160661 (-54).
Proof. reflexivity. Qed.
Example remainder_tie : remainder (of_int 510) (of_int 255) = S754_zero false /\
  to_int (remainder (of_int 254) (of_int 255)) = Some (-1) /\
  to_int (fmod (dec 55 1) (of_int 2)) = Some 1 /\ floor (dec (-5) 1) = of_int (-1).
Proof. vm_compute. repeat split. Qed.

(** ** Binary lengths *)
Definition dg (p : positive) : Z := Zpos (digits2_pos p).

Lemma dg_size p : dg p = Zpos (Pos.size p).
Proof. reflexivity. Qed.

Lemma dg_bounds p : 2 ^ (dg p - 1) <= Zpos p < 2 ^ dg p.
Proof.
  rewrite dg_size. pose proof (Pos.size_gt p) as Hgt. pose proof (Pos.size_le p) as Hle.
  apply Pos2Z.pos_lt_pos in Hgt. apply Pos2Z.pos_le_pos in Hle.
  rewrite Pos2Z.inj_pow in Hgt, Hle. rewrite (Pos2Z.inj_xO p) in Hle. split; [| done].
  pose proof (Pos2Z.is_pos (Pos.size p)) as Hk. revert Hk Hle. generalize (Zpos (Pos.size p)). intros k Hk Hle.
  replace k with (Z.succ (k - 1)) in Hle by lia. rewrite Z.pow_succ_r in Hle by lia. lia.
Qed.

Lemma dg_pos p : 0 < dg p.
Proof. unfold dg. lia. Qed.

Lemma dg_le p k : 0 <= k -> Zpos p < 2 ^ k -> dg p <= k.
Proof.
  intros Hk Hp. destruct (Z.le_gt_cases (dg p) k) as [| Hgt]; [done |].
  pose proof (dg_bounds p) as [Hlo _]. pose proof (Z.pow_le_mono_r 2 k (dg p - 1)). lia.
Qed.

Lemma dg_unique p k : 2 ^ (k - 1) <= Zpos p < 2 ^ k -> dg p = k.
Proof.
  intros [Hlo Hhi]. assert (0 <= k).
  { destruct (Z.le_gt_cases 0 k) as [| Hk]; [done |]. rewrite (Z.pow_neg_r 2 k) in Hhi by lia. lia. }
  apply Z.le_antisymm; [by apply dg_le |].
  destruct (Z.le_gt_cases k (dg p)) as [| Hgt]; [done |].
  pose proof (dg_bounds p) as [_ Hp]. pose proof (Z.pow_le_mono_r 2 (dg p) (k - 1)). lia.
Qed.

Lemma dg_shift p q n : 0 <= n -> Zpos q = Zpos p * 2 ^ n -> dg q = dg p + n.
Proof.
  intros Hn Hq. apply dg_unique. pose proof (dg_bounds p) as [Hlo Hhi]. pose proof (dg_pos p).
  replace (dg p + n - 1) with (dg p - 1 + n) by lia. rewrite !Z.pow_add_r, Hq by lia.
  split; [apply Z.mul_le_mono_nonneg_r | apply Z.mul_lt_mono_pos_r]; lia.
Qed.

(** ** Rounding a number that needs no rounding *)
Lemma iter_pos_iter {A} (f : A -> A) n : forall x, iter_pos f n x = Nat.iter (Pos.to_nat n) f x.
Proof.
  induction n as [n IH | n IH |]; intros x; cbn [iter_pos].
  - rewrite !IH, <- Nat.iter_add. replace (Pos.to_nat n~1) with (S (Pos.to_nat n + Pos.to_nat n)) by lia.
    by rewrite Nat.iter_succ_r.
  - rewrite !IH, <- Nat.iter_add. by replace (Pos.to_nat n~0) with (Pos.to_nat n + Pos.to_nat n)%nat by lia.
  - done.
Qed.

Lemma shr_1_even z : shr_1 (Build_shr_record (z * 2) false false) = Build_shr_record z false false.
Proof. rewrite Z.mul_comm. by destruct z. Qed.

Lemma shr_exact n : forall z, Nat.iter n shr_1 (Build_shr_record (z * 2 ^ Z.of_nat n) false false) = Build_shr_record z false false.
Proof.
  induction n as [| n IH]; intros z; [simpl; f_equal; lia |].
  rewrite Nat.iter_succ. replace (z * 2 ^ Z.of_nat (S n)) with (z * 2 * 2 ^ Z.of_nat n)
    by (rewrite Nat2Z.inj_succ, Z.pow_succ_r; lia).
  rewrite IH. apply shr_1_even.
Qed.

Lemma shr_fexp_exact p mx ex e : ex <= e -> Zpos mx = Zpos p * 2 ^ (e - ex) -> fexp prec emax (dg p + e) = e ->
  shr_fexp prec emax (Zpos mx) ex loc_Exact = (Build_shr_record (Zpos p) false false, e).
Proof.
  intros Hle Hmx Hf. unfold shr_fexp. cbn [shr_record_of_loc Zdigits2]. fold (dg mx).
  rewrite (dg_shift p mx (e - ex)) by (done || lia).
  replace (dg p + (e - ex) + ex) with (dg p + e) by lia. rewrite Hf. unfold shr.
  destruct (e - ex) as [| k | k] eqn:Hk; [| | lia].
  - simpl in Hmx. assert (mx = p) as -> by lia. f_equal. lia.
  - rewrite iter_pos_iter, Hmx. rewrite <- (positive_nat_Z k). rewrite shr_exact. f_equal. lia.
Qed.

Lemma round_exact s p mx ex e :
  ex <= e -> e <= emax - prec -> Zpos mx = Zpos p * 2 ^ (e - ex) -> fexp prec emax (dg p + e) = e ->
  binary_round_aux prec emax s (Zpos mx) ex loc_Exact = S754_finite s p e.
Proof.
  intros Hle He Hmx Hf. unfold binary_round_aux. rewrite (shr_fexp_exact p mx ex e) by done.
  cbn [loc_of_shr_record round_nearest_even shr_m].
  rewrite (shr_fexp_exact p p e e) by (done || lia || (rewrite Z.sub_diag; lia)).
  cbn [shr_m]. by rewrite (proj2 (Z.leb_le _ _)).
Qed.

(** ** Doubles that are integers *)
Definition mant (p : positive) : positive := Z.to_pos (Zpos p * 2 ^ (prec - dg p)).
Definition fin (s : bool) (p : positive) : double := S754_finite s (mant p) (dg p - prec).

Definition repr (x : double) (z : Z) : Prop :=
  match z with
  | Z0 => exists s, x = S754_zero s
  | Zpos p => dg p <= prec /\ x = fin false p
  | Zneg p => dg p <= prec /\ x = fin true p
  end.

Lemma mant_val p : dg p <= prec -> Zpos (mant p) = Zpos p * 2 ^ (prec - dg p).
Proof. intros Hp. unfold mant. rewrite Z2Pos.id; [done |]. pose proof (Z.pow_pos_nonneg 2 (prec - dg p)). lia. Qed.

Lemma fexp_int d : d <= prec -> 0 < d -> fexp prec emax d = d - prec.
Proof. unfold fexp, emin, prec, emax. lia. Qed.

Lemma dg_mant p : dg p <= prec -> dg (mant p) = prec.
Proof. intros Hp. rewrite (dg_shift p (mant p) (prec - dg p)); [lia | lia | by apply mant_val]. Qed.

(** An exact value below 2^53 with enough bits is rounded to its double. *)
Lemma round_int s p mx ex : dg p <= prec -> ex <= dg p - prec -> Zpos mx = Zpos p * 2 ^ (- ex) ->
  binary_round_aux prec emax s (Zpos mx) ex loc_Exact = fin s p.
Proof.
  intros Hp Hex Hmx. pose proof (dg_pos p). apply round_exact; [lia | unfold emax, prec in *; lia | |].
  - rewrite mant_val, <- Z.mul_assoc, <- Z.pow_add_r, Hmx by lia. do 2 f_equal. lia.
  - rewrite dg_mant by done. replace (prec + (dg p - prec)) with (dg p) by lia. by apply fexp_int.
Qed.

Lemma shl_align_spec m e e' : (shl_align m e e').2 = Z.min e e' /\
  Zpos (shl_align m e e').1 = Zpos m * 2 ^ (e - Z.min e e').
Proof.
  unfold shl_align. destruct (e' - e) as [| d | d] eqn:Hd; cbn [fst snd].
  - replace (Z.min e e') with e by lia. rewrite Z.sub_diag. lia.
  - replace (Z.min e e') with e by lia. rewrite Z.sub_diag. lia.
  - replace (Z.min e e') with e' by lia. split; [done |]. replace (e - e') with (Zpos d) by lia.
    rewrite <- Pos2Z.inj_pow, <- Pos2Z.inj_mul. f_equal. rewrite Pos.mul_comm.
    clear Hd e e'. rewrite <- (Pos.mul_1_l m) at 1. unfold Pos.pow. revert m.
    induction d as [| d IH] using Pos.peano_ind; intros m; [done |].
    rewrite !Pos.iter_succ. rewrite IH. lia.
Qed.

Lemma round_repr s p mx ex : dg p <= prec -> ex <= 0 -> Zpos mx = Zpos p * 2 ^ (- ex) ->
  binary_round prec emax s mx ex = fin s p.
Proof.
  intros Hp Hex Hmx. pose proof (dg_pos p). unfold binary_round. fold (dg mx).
  rewrite (dg_shift p mx (- ex)) by (done || lia). replace (dg p + - ex + ex) with (dg p) by lia.
  rewrite fexp_int by done. pose proof (shl_align_spec mx ex (dg p - prec)) as [He Hm].
  destruct (shl_align mx ex (dg p - prec)) as [mz ez]. cbn [fst snd] in *. subst ez.
  apply round_int; [done | lia |]. rewrite Hm, Hmx, <- Z.mul_assoc, <- Z.pow_add_r by lia. do 2 f_equal. lia.
Qed.

Lemma normalize_repr z m ex sz : Z.abs z < 2 ^ prec -> ex <= 0 -> m = z * 2 ^ (- ex) ->
  repr (binary_normalize prec emax m ex sz) z.
Proof.
  intros Hz Hex ->. destruct z as [| p | p]; cbn [repr binary_normalize].
  - rewrite Z.mul_0_l. cbn [binary_normalize]. by eexists.
  - assert (dg p <= prec) by (apply dg_le; [done | lia]).
    assert (0 < Zpos p * 2 ^ (- ex)) by (pose proof (Z.pow_pos_nonneg 2 (- ex)); lia).
    destruct (Zpos p * 2 ^ (- ex)) as [| q | q] eqn:Hq; [lia | | lia]. cbn [binary_normalize].
    split; [done |]. by apply round_repr.
  - assert (dg p <= prec) by (apply dg_le; [done | lia]).
    assert (0 < Zpos p * 2 ^ (- ex)) by (pose proof (Z.pow_pos_nonneg 2 (- ex)); lia).
    rewrite <- Pos2Z.opp_pos, Z.mul_opp_l.
    destruct (Zpos p * 2 ^ (- ex)) as [| q | q] eqn:Hq; [lia | | lia]. cbn [binary_normalize Z.opp].
    split; [done |]. by apply round_repr.
Qed.

Lemma repr_of_int z : Z.abs z < 2 ^ prec -> repr (of_int z) z.
Proof. intros Hz. apply normalize_repr; [done | done | simpl; lia]. Qed.

Lemma repr_bound x z : repr x z -> Z.abs z < 2 ^ prec.
Proof.
  destruct z as [| p | p]; cbn [repr]; [done | |]; intros [Hp _]; pose proof (dg_bounds p) as [_ Hb];
    pose proof (Z.pow_le_mono_r 2 (dg p) prec); lia.
Qed.

(** A nonzero integer double, with its signed mantissa. *)
Lemma repr_finite x z : repr x z -> z <> 0 ->
  exists s m e, x = S754_finite s m e /\ e <= 0 /\ Zpos m = Z.abs z * 2 ^ (- e) /\ s = (z <? 0) /\
    cond_Zopp s (Zpos m) = z * 2 ^ (- e) /\ e = dg (Z.to_pos (Z.abs z)) - prec /\ dg m = prec.
Proof.
  destruct z as [| p | p]; cbn [repr]; intros Hr Hz; [done | |]; destruct Hr as [Hp ->];
    (do 3 eexists; split; [reflexivity |]); rewrite dg_mant, mant_val by done; cbn [Z.abs cond_Zopp Z.to_pos];
    replace (- (dg p - prec)) with (prec - dg p) by lia; repeat split; try lia; rewrite mant_val by done; lia.
Qed.

Lemma repr_0 x : repr x 0 -> exists s, x = S754_zero s.
Proof. done. Qed.

(** Sums and differences. *)
Lemma align_sum (op : Z -> Z -> Z) sx mx ex sy my ey a b :
  (forall u v w, op (u * w) (v * w) = op u v * w) ->
  ex <= 0 -> ey <= 0 -> cond_Zopp sx (Zpos mx) = a * 2 ^ (- ex) -> cond_Zopp sy (Zpos my) = b * 2 ^ (- ey) ->
  let ez := Z.min ex ey in
  op (cond_Zopp sx (Zpos (shl_align mx ex ez).1)) (cond_Zopp sy (Zpos (shl_align my ey ez).1)) = op a b * 2 ^ (- ez).
Proof.
  intros Hop Hex Hey Ha Hb ez.
  assert (Hs : forall s m e z, e <= 0 -> ez <= e -> cond_Zopp s (Zpos m) = z * 2 ^ (- e) ->
    cond_Zopp s (Zpos (shl_align m e ez).1) = z * 2 ^ (- ez)).
  { intros s m e z He Hle Hz. pose proof (shl_align_spec m e ez) as [_ ->].
    replace (Z.min e ez) with ez by lia.
    replace (- ez) with (- e + (e - ez)) by lia. rewrite Z.pow_add_r, Z.mul_assoc, <- Hz by lia. destruct s; cbn [cond_Zopp]; lia. }
  rewrite (Hs _ _ _ a), (Hs _ _ _ b) by (done || lia). apply Hop.
Qed.

Ltac repr_zero H s := apply repr_0 in H as [s ->].

Lemma repr_add x y a b : repr x a -> repr y b -> Z.abs (a + b) < 2 ^ prec -> repr (x + y)%D (a + b).
Proof.
  intros Hx Hy Hb. destruct (Z.eq_dec a 0) as [-> | Ha].
  - repr_zero Hx s0. destruct (Z.eq_dec b 0) as [-> | Hb0].
    + repr_zero Hy s1. destruct s0, s1; by eexists.
    + destruct (repr_finite y b Hy Hb0) as (s & m & e & -> & _). rewrite Z.add_0_l. done.
  - destruct (repr_finite x a Hx Ha) as (sx & mx & ex & -> & Hex & _ & _ & Hmx & _).
    destruct (Z.eq_dec b 0) as [-> | Hb0].
    + repr_zero Hy s1. by rewrite Z.add_0_r.
    + destruct (repr_finite y b Hy Hb0) as (sy & my & ey & -> & Hey & _ & _ & Hmy & _).
      cbn [add SFadd]. apply normalize_repr; [done | lia |]. apply (align_sum Z.add); [lia | done..].
Qed.

Lemma repr_opp x z : repr x z -> repr (- x)%D (- z).
Proof.
  destruct z as [| p | p]; cbn [repr Z.opp]; [intros [s ->]; by eexists | |]; intros [Hp ->]; by split.
Qed.

Lemma repr_sub x y a b : repr x a -> repr y b -> Z.abs (a - b) < 2 ^ prec -> repr (x - y)%D (a - b).
Proof.
  intros Hx Hy Hb. destruct (Z.eq_dec a 0) as [-> | Ha].
  - repr_zero Hx s0. destruct (Z.eq_dec b 0) as [-> | Hb0].
    + repr_zero Hy s1. destruct s0, s1; by eexists.
    + apply repr_opp in Hy. destruct (repr_finite _ _ Hy) as (s & m & e & He & _); [lia |].
      rewrite Z.sub_0_l. by destruct y.
  - destruct (repr_finite x a Hx Ha) as (sx & mx & ex & -> & Hex & _ & _ & Hmx & _).
    destruct (Z.eq_dec b 0) as [-> | Hb0].
    + repr_zero Hy s1. by rewrite Z.sub_0_r.
    + destruct (repr_finite y b Hy Hb0) as (sy & my & ey & -> & Hey & _ & _ & Hmy & _).
      cbn [sub SFsub]. apply normalize_repr; [done | lia |]. apply (align_sum Z.sub); [lia | done..].
Qed.

(** Products. *)
Lemma dg_mul p q r : Zpos r = Zpos p * Zpos q -> dg p + dg q - 1 <= dg r.
Proof.
  intros Hr. destruct (Z.le_gt_cases (dg p + dg q - 1) (dg r)) as [| Hlt]; [done |].
  pose proof (dg_bounds p) as [Hp _]. pose proof (dg_bounds q) as [Hq _]. pose proof (dg_bounds r) as [_ Hr'].
  pose proof (dg_pos p). pose proof (dg_pos q). pose proof (dg_pos r).
  pose proof (Z.pow_le_mono_r 2 (dg r) ((dg p - 1) + (dg q - 1))) as Hm. rewrite Z.pow_add_r in Hm by lia.
  pose proof (Z.mul_le_mono_nonneg (2 ^ (dg p - 1)) (Zpos p) (2 ^ (dg q - 1)) (Zpos q)) as Hmul.
  pose proof (Z.pow_pos_nonneg 2 (dg p - 1)). pose proof (Z.pow_pos_nonneg 2 (dg q - 1)). lia.
Qed.

Lemma repr_sign z s p : z <> 0 -> s = (z <? 0) -> p = Z.to_pos (Z.abs z) -> dg p <= prec -> repr (fin s p) z.
Proof. intros Hz -> -> Hp. by destruct z. Qed.

Lemma repr_mul x y a b : repr x a -> repr y b -> Z.abs (a * b) < 2 ^ prec -> repr (x * y)%D (a * b).
Proof.
  intros Hx Hy Hb. destruct (Z.eq_dec a 0) as [-> | Ha].
  - repr_zero Hx s0. destruct (Z.eq_dec b 0) as [-> | Hb0].
    + repr_zero Hy s1. by eexists.
    + destruct (repr_finite y b Hy Hb0) as (s & m & e & -> & _). rewrite Z.mul_0_l. by eexists.
  - destruct (repr_finite x a Hx Ha) as (sx & mx & ex & -> & Hex & Hmx & -> & _ & -> & _).
    destruct (Z.eq_dec b 0) as [-> | Hb0].
    + repr_zero Hy s1. rewrite Z.mul_0_r. by eexists.
    + destruct (repr_finite y b Hy Hb0) as (sy & my & ey & -> & Hey & Hmy & -> & _ & -> & _).
      cbn [mul SFmul]. set (p := Z.to_pos (Z.abs a)) in *. set (q := Z.to_pos (Z.abs b)) in *.
      assert (Hp : Zpos p = Z.abs a) by (apply Z2Pos.id; lia). assert (Hq : Zpos q = Z.abs b) by (apply Z2Pos.id; lia).
      assert (Hr : Zpos (p * q) = Z.abs (a * b)) by (rewrite Z.abs_mul; lia).
      assert (dg (p * q) <= prec) by (apply dg_le; [done | lia]).
      pose proof (dg_mul p q (p * q) eq_refl).
      rewrite (round_int _ (p * q)); [| done | unfold prec in *; lia |].
      * apply repr_sign; [lia | | lia | done].
        destruct (Z.ltb_spec a 0), (Z.ltb_spec b 0), (Z.ltb_spec (a * b) 0); simpl; nia.
      * rewrite Pos2Z.inj_mul, Hmx, Hmy, Hr, Z.abs_mul.
        replace (- (dg p - prec + (dg q - prec))) with (- (dg p - prec) + - (dg q - prec)) by lia.
        rewrite Z.pow_add_r by lia. lia.
Qed.

(** Exact quotients. *)
Lemma repr_div x y a b q : repr x a -> repr y b -> b <> 0 -> a = q * b -> repr (x / y)%D q.
Proof.
  intros Hx Hy Hb Hq. destruct (repr_finite y b Hy Hb) as (sy & my & ey & -> & Hey & Hmy & -> & _ & -> & Hdy).
  destruct (Z.eq_dec q 0) as [-> | Hq0].
  - subst a. repr_zero Hx s0. by eexists.
  - assert (Ha : a <> 0) by nia. pose proof (repr_bound x a Hx) as Hab.
    destruct (repr_finite x a Hx Ha) as (sx & mx & ex & -> & Hex & Hmx & -> & _ & -> & Hdx).
    set (pa := Z.to_pos (Z.abs a)) in *. set (pb := Z.to_pos (Z.abs b)) in *.
    assert (Hpa : Zpos pa = Z.abs a) by (apply Z2Pos.id; lia). assert (Hpb : Zpos pb = Z.abs b) by (apply Z2Pos.id; lia).
    set (pq := Z.to_pos (Z.abs q)). assert (Hpq : Zpos pq = Z.abs q) by (apply Z2Pos.id; lia).
    assert (Hmulq : Z.abs a = Z.abs q * Z.abs b) by (by rewrite Hq, Z.abs_mul).
    assert (Hqa : Z.abs q <= Z.abs a) by nia.
    assert (Hdq : dg pq <= prec) by (apply dg_le; [done | lia]).
    assert (Hdab : dg pb + dg pq - 1 <= dg pa) by (apply dg_mul; lia).
    assert (Hda : dg pa <= dg pq + dg pb).
    { apply dg_le; [unfold dg; lia |]. rewrite Hpa, Hmulq, <- Hpq, <- Hpb, Z.pow_add_r by (unfold dg; lia).
      pose proof (dg_bounds pq). pose proof (dg_bounds pb). apply Z.mul_lt_mono_nonneg; lia. }
    pose proof (dg_pos pb). pose proof (dg_pos pa). pose proof (dg_pos pq).
    cbn [div SFdiv]. unfold SFdiv_core_binary. cbn [Zdigits2]. fold (dg mx). fold (dg my). rewrite Hdx, Hdy.
    set (ea := dg pa - prec). set (eb := dg pb - prec).
    assert (He : Z.min (fexp prec emax (prec + ea - (prec + eb))) (ea - eb) = ea - eb - prec)
      by (unfold fexp, emin, emax, prec, ea, eb in *; lia).
    rewrite He. replace (ea - eb - (ea - eb - prec)) with 53 by (unfold prec; lia). cbn iota.
    rewrite Z.shiftl_mul_pow2 by lia.
    assert (Hdiv : Zpos mx * 2 ^ 53 = Z.abs q * 2 ^ (prec - ea + eb) * Zpos my + 0).
    { rewrite Hmx, Hmy, Hmulq. unfold ea, eb.
      replace (prec - (dg pa - prec) + (dg pb - prec)) with ((- (dg pa - prec)) + (dg pb - prec) + prec) by lia.
      assert (H2 : 2 ^ (- (dg pa - prec)) * 2 ^ 53 = 2 ^ (- (dg pa - prec) + (dg pb - prec) + prec) * 2 ^ (- (dg pb - prec)))
        by (rewrite <- !Z.pow_add_r by (unfold prec in *; lia); f_equal; unfold prec; lia).
      nia. }
    assert (Hmod : Zpos mx * 2 ^ 53 mod Zpos my = 0) by (rewrite Hdiv, Z.add_0_r; apply Z.mod_mul; lia).
    assert (Hquo : Zpos mx * 2 ^ 53 / Zpos my = Z.abs q * 2 ^ (prec - ea + eb))
      by (rewrite Hdiv, Z.add_0_r; apply Z.div_mul; lia).
    unfold Z.div in Hquo. unfold Z.modulo in Hmod.
    destruct (Z.div_eucl (Zpos mx * 2 ^ 53) (Zpos my)) as [q0 r0]. subst r0 q0.
    assert (Hloc : new_location (Zpos my) 0 = loc_Exact) by (unfold new_location, new_location_even, new_location_odd; by destruct (Z.even _)).
    rewrite Hloc. assert (0 < Z.abs q * 2 ^ (prec - ea + eb)) by (pose proof (Z.pow_pos_nonneg 2 (prec - ea + eb)); unfold ea, eb in *; lia).
    destruct (Z.abs q * 2 ^ (prec - ea + eb)) as [| mq | mq] eqn:Hmq; [lia | | lia].
    rewrite (round_int _ pq); [| done | unfold ea, eb, prec in *; lia |].
    + apply repr_sign; [done | | done | done].
      destruct (Z.ltb_spec a 0), (Z.ltb_spec b 0), (Z.ltb_spec q 0); simpl; nia.
    + rewrite <- Hmq, Hpq. do 2 f_equal. lia.
Qed.

(** Comparisons. *)
Lemma dg_lt p q : dg p < dg q -> Zpos p < Zpos q.
Proof.
  intros H. pose proof (dg_bounds p) as [_ Hp]. pose proof (dg_bounds q) as [Hq _].
  pose proof (Z.pow_le_mono_r 2 (dg p) (dg q - 1)). lia.
Qed.

Lemma fin_compare p q : dg p <= prec -> dg q <= prec ->
  match dg p - prec ?= dg q - prec with Lt => Lt | Gt => Gt | Eq => Pos.compare_cont Eq (mant p) (mant q) end
  = (Zpos p ?= Zpos q).
Proof.
  intros Hp Hq. destruct (Z.compare_spec (dg p - prec) (dg q - prec)) as [He | Hlt | Hgt].
  - change (Pos.compare_cont Eq (mant p) (mant q)) with (Zpos (mant p) ?= Zpos (mant q)).
    rewrite !mant_val by done. replace (dg q) with (dg p) by lia.
    pose proof (Z.pow_pos_nonneg 2 (prec - dg p)).
    destruct (Z.compare_spec (Zpos p) (Zpos q)) as [-> | |];
      [apply Z.compare_refl | apply Z.compare_lt_iff | apply Z.compare_gt_iff]; apply Z.mul_lt_mono_pos_r; lia.
  - symmetry. apply Z.compare_lt_iff, dg_lt. lia.
  - symmetry. apply Z.compare_gt_iff, dg_lt. lia.
Qed.

Lemma repr_compare x y a b : repr x a -> repr y b -> SFcompare x y = Some (a ?= b).
Proof.
  destruct a as [| p | p], b as [| q | q]; cbn [repr]; intros Hx Hy;
    try destruct Hx as [? ->]; try destruct Hy as [? ->]; try done; cbn [SFcompare fin]; f_equal.
  - by apply fin_compare.
  - change (Zneg p ?= Zneg q) with (CompOpp (Zpos p ?= Zpos q)). rewrite <- fin_compare by done.
    by destruct (_ ?= _).
Qed.

Lemma repr_ltb x y a b : repr x a -> repr y b -> (x <? y)%D = (a <? b).
Proof. intros Hx Hy. unfold ltb, SFltb. rewrite (repr_compare x y a b) by done. unfold Z.ltb. by destruct (a ?= b). Qed.
Lemma repr_leb x y a b : repr x a -> repr y b -> (x <=? y)%D = (a <=? b).
Proof. intros Hx Hy. unfold leb, SFleb. rewrite (repr_compare x y a b) by done. unfold Z.leb. by destruct (a ?= b). Qed.
Lemma repr_eqb x y a b : repr x a -> repr y b -> (x =? y)%D = (a =? b).
Proof.
  intros Hx Hy. unfold eqb, SFeqb. rewrite (repr_compare x y a b) by done.
  destruct (Z.eqb_spec a b) as [-> | Hn]; [by rewrite Z.compare_refl |].
  destruct (Z.compare_spec a b); done.
Qed.

(** Conversions and [floor]. *)
Lemma shiftr_exact z e : e <= 0 -> Z.shiftr (z * 2 ^ (- e)) (- e) = z.
Proof. intros He. rewrite Z.shiftr_div_pow2 by lia. apply Z.div_mul. pose proof (Z.pow_pos_nonneg 2 (- e)). lia. Qed.

Lemma repr_trunc x z : repr x z -> trunc x = Some z.
Proof.
  intros Hx. destruct (Z.eq_dec z 0) as [-> | Hz]; [by repr_zero Hx s0 |].
  destruct (repr_finite x z Hx Hz) as (s & m & e & -> & He & Hm & -> & _). cbn [trunc]. do 2 f_equal.
  assert (Ha : (if 0 <=? e then Zpos m * 2 ^ e else Z.shiftr (Zpos m) (- e)) = Z.abs z).
  { destruct (Z.leb_spec 0 e) as [H0 |]; rewrite Hm; [assert (e = 0) as -> by lia; simpl; lia | by apply shiftr_exact]. }
  rewrite Ha. destruct (Z.ltb_spec z 0); lia.
Qed.

Lemma repr_to_int x z : repr x z -> - 2147483648 <= z <= 2147483647 -> to_int x = Some z.
Proof.
  intros Hx Hz. unfold to_int. rewrite (repr_trunc x z) by done.
  by rewrite (proj2 (Z.leb_le _ _)), (proj2 (Z.leb_le _ _)) by lia.
Qed.

Lemma repr_floor x z : repr x z -> repr (floor x) z.
Proof.
  intros Hx. destruct (Z.eq_dec z 0) as [-> | Hz]; [by repr_zero Hx s0; eexists |].
  pose proof (repr_bound x z Hx).
  destruct (repr_finite x z Hx Hz) as (s & m & e & -> & He & Hm & Hs & Hc & _). cbn [floor].
  destruct (0 <=? e); [done |].
  replace (if s then Zneg m else Zpos m) with (cond_Zopp s (Zpos m)) by (by destruct s).
  rewrite Hc, shiftr_exact by done. apply normalize_repr; [done | done | simpl; lia].
Qed.

Lemma repr_eq x y z : repr x z -> repr y z -> z <> 0 -> x = y.
Proof. destruct z; cbn [repr]; [done | |]; intros [_ ->] [_ ->] _; done. Qed.

#[export] Hint Resolve repr_of_int repr_add repr_sub repr_mul repr_opp repr_floor : doubles.

End Double.
