(* ===== verification/DoubleRange.v ===== *)
(** * Doubles of moderate size

    [sized B x] says that [x] is a finite double whose exponent is at most [B]: operations
    on such doubles give finite doubles, so that the conversions back to [int] which the
    programs apply are defined.  [remainder x 255] of such a double is exact and lies
    between -127.5 and 127.5. *)

From S2P Require Import Prelude Double.
From stdpp Require Import base list.
From Stdlib Require Import ZArith Lia SpecFloat.
Import Double.
Open Scope Z_scope.

Module DoubleRange.

Definition lowest : Z := -1074.

Definition sized (B : Z) (x : double) : Prop :=
  match x with
  | S754_zero _ => True
  | S754_finite _ m e => dg m <= prec /\ lowest <= e <= B
  | _ => False
  end.

Lemma sized_mono B B' x : sized B x -> B <= B' -> sized B' x.
Proof. destruct x; simpl; lia || done. Qed.

(** ** Shifting right *)
Lemma shr_1_div r : 0 <= shr_m r -> shr_m (shr_1 r) = shr_m r / 2.
Proof.
  destruct r as [m b s]. cbn [shr_m]. intros Hm. destruct m as [| [q | q |] | q]; [done | | | done | lia]; cbn [shr_1 shr_m].
  - change (Zpos q~1) with (2 * Zpos q + 1). rewrite Z.mul_comm, Z.div_add_l by lia. change (1 / 2) with 0. lia.
  - change (Zpos q~0) with (2 * Zpos q). rewrite Z.mul_comm, Z.div_mul by lia. done.
Qed.

Lemma shr_iter n : forall r, 0 <= shr_m r -> shr_m (Nat.iter n shr_1 r) = shr_m r / 2 ^ Z.of_nat n.
Proof.
  induction n as [| n IH]; intros r Hr; [simpl; by rewrite Z.div_1_r |].
  rewrite Nat.iter_succ. assert (H0 : 0 <= shr_m (Nat.iter n shr_1 r)).
  { rewrite IH by done. apply Z.div_pos; [done | apply Z.pow_pos_nonneg; lia]. }
  rewrite shr_1_div, IH by done. rewrite Z.div_div by (try apply Z.pow_nonzero; lia).
  f_equal. rewrite Nat2Z.inj_succ, Z.pow_succ_r by lia. lia.
Qed.

Lemma shr_m_of_loc m l : shr_m (shr_record_of_loc m l) = m.
Proof. by destruct l as [| []]. Qed.

(** The mantissa and the exponent after [shr_fexp]. *)
Lemma shr_fexp_div m e l : 0 <= m -> exists r,
  shr_fexp prec emax m e l = (r, Z.max e (fexp prec emax (Zdigits2 m + e))) /\
  shr_m r = m / 2 ^ (Z.max e (fexp prec emax (Zdigits2 m + e)) - e).
Proof.
  intros Hm. unfold shr_fexp, shr. set (d := fexp prec emax (Zdigits2 m + e)).
  destruct (d - e) as [| k | k] eqn:Hk.
  - exists (shr_record_of_loc m l). replace (Z.max e d) with e by lia. rewrite shr_m_of_loc, Z.sub_diag, Z.div_1_r. done.
  - eexists. split; [f_equal; lia |]. rewrite iter_pos_iter, shr_iter by (by rewrite shr_m_of_loc).
    rewrite shr_m_of_loc. do 2 f_equal. lia.
  - exists (shr_record_of_loc m l). replace (Z.max e d) with e by lia. rewrite shr_m_of_loc, Z.sub_diag, Z.div_1_r. done.
Qed.

Lemma Zdigits2_bound m k : 0 <= k -> 0 <= m < 2 ^ k -> Zdigits2 m <= k.
Proof. intros Hk Hm. destruct m as [| p | p]; cbn [Zdigits2]; [done | | lia]. fold (dg p). apply dg_le; lia. Qed.

Lemma Zdigits2_lt m : 0 <= m -> m < 2 ^ Zdigits2 m.
Proof. intros Hm. destruct m as [| p | p]; cbn [Zdigits2]; [lia | | lia]. apply dg_bounds. Qed.

Lemma Zdigits2_nonneg m : 0 <= Zdigits2 m.
Proof. destruct m; cbn [Zdigits2]; lia. Qed.

(** ** Rounding gives a finite double *)
Lemma round_sized s m e l B : 0 <= m -> lowest <= B -> B <= 970 -> e <= B -> Zdigits2 m + e <= B + prec ->
  sized (B + 1) (binary_round_aux prec emax s m e l).
Proof.
  intros Hm HB1 HB2 He Hd. unfold binary_round_aux.
  destruct (shr_fexp_div m e l Hm) as (r1 & -> & Hr1). set (e1 := Z.max e (fexp prec emax (Zdigits2 m + e))) in *.
  pose proof (Zdigits2_lt m Hm) as Hlt. pose proof (Zdigits2_nonneg m) as Hnn.
  assert (He1 : lowest <= e1 <= B) by (unfold e1, fexp, emin, prec, emax, lowest in *; lia).
  assert (Hm1 : 0 <= shr_m r1 < 2 ^ prec).
  { rewrite Hr1. split; [apply Z.div_pos; [done | apply Z.pow_pos_nonneg; lia] |].
    apply Z.div_lt_upper_bound; [apply Z.pow_pos_nonneg; lia |]. rewrite <- Z.pow_add_r by (unfold prec; lia).
    eapply Z.lt_le_trans; [exact Hlt |]. apply Z.pow_le_mono_r; [lia |]. unfold e1, fexp, emin, prec, emax in *; lia. }
  set (z := round_nearest_even (shr_m r1) (loc_of_shr_record r1)).
  assert (Hz : 0 <= z <= 2 ^ prec) by (unfold z, round_nearest_even; destruct (loc_of_shr_record r1) as [| []]; try destruct (Z.even _); lia).
  destruct (shr_fexp_div z e1 loc_Exact) as (r2 & -> & Hr2); [lia |].
  pose proof (Zdigits2_bound z (prec + 1) ltac:(done) ltac:(unfold prec in *; lia)) as Hdz.
  pose proof (Zdigits2_lt z ltac:(lia)) as Hltz. pose proof (Zdigits2_nonneg z) as Hnz.
  set (e2 := Z.max e1 (fexp prec emax (Zdigits2 z + e1))) in *.
  assert (He2 : lowest <= e2 <= B + 1) by (unfold e2, fexp, emin, prec, emax, lowest in *; lia).
  assert (Hm2 : 0 <= shr_m r2 < 2 ^ prec).
  { rewrite Hr2. split; [apply Z.div_pos; [lia | apply Z.pow_pos_nonneg; lia] |].
    apply Z.div_lt_upper_bound; [apply Z.pow_pos_nonneg; lia |]. rewrite <- Z.pow_add_r by (unfold prec; lia).
    eapply Z.lt_le_trans; [exact Hltz |]. apply Z.pow_le_mono_r; [lia |]. unfold e2, fexp, emin, prec, emax in *; lia. }
  destruct (shr_m r2) as [| q | q]; [done | | lia].
  rewrite (proj2 (Z.leb_le e2 (emax - prec))) by (unfold emax, prec; lia). split; [apply dg_le; [done | lia] | done].
Qed.

Lemma normalize_sized m e sz B : lowest <= B -> B <= 970 -> e <= B -> Zdigits2 m + e <= B + prec -> 
  sized (B + 1) (binary_normalize prec emax m e sz).
Proof.
  intros HB1 HB2 He Hd. destruct m as [| q | q]; cbn [binary_normalize]; [done | |];
    unfold binary_round; fold (dg q); cbn [Zdigits2] in Hd; fold (dg q) in Hd;
    pose proof (shl_align_spec q e (fexp prec emax (dg q + e))) as [H1 H2];
    destruct (shl_align q e (fexp prec emax (dg q + e))) as [mz ez]; cbn [fst snd] in *;
    apply round_sized; try lia; cbn [Zdigits2]; fold (dg mz);
    (rewrite (dg_shift q mz (e - Z.min e (fexp prec emax (dg q + e)))) by (done || lia)); lia.
Qed.

Lemma mul_sized B x y : sized B x -> sized B y -> 0 <= B <= 400 -> sized (2 * B + 60) (x * y)%D.
Proof.
  destruct x as [sx | | | sx mx ex], y as [sy | | | sy my ey]; try done. intros [Hx Hex] [Hy Hey] HB.
  cbn [mul SFmul]. apply (sized_mono (2 * B + 53 + 1)); [| lia].
  apply round_sized; try (unfold lowest in *; lia). cbn [Zdigits2]. fold (dg (mx * my)).
  assert (dg (mx * my) <= dg mx + dg my).
  { apply dg_le; [unfold dg; lia |]. rewrite Pos2Z.inj_mul, Z.pow_add_r by (unfold dg; lia).
    pose proof (dg_bounds mx). pose proof (dg_bounds my). apply Z.mul_lt_mono_nonneg; lia. }
  unfold prec in *. lia.
Qed.

Lemma add_sized B x y : sized B x -> sized B y -> 0 <= B <= 900 -> sized (B + 2) (x + y)%D.
Proof.
  destruct x as [sx | | | sx mx ex], y as [sy | | | sy my ey]; try done; intros Hx Hy HB.
  - by destruct sx, sy.
  - by apply (sized_mono B); [exact Hy | lia].
  - by apply (sized_mono B); [exact Hx | lia].
  - destruct Hx as [Hx Hex], Hy as [Hy Hey]. cbn [add SFadd].
    apply (sized_mono (B + 1 + 1)); [| lia].
    assert (Hal : forall s q e', dg q <= prec -> Z.min ex ey <= e' <= B ->
      Z.abs (cond_Zopp s (Zpos (shl_align q e' (Z.min ex ey)).1)) <= 2 ^ (prec + B - Z.min ex ey) - 1).
    { intros s q e' Hq He'. pose proof (shl_align_spec q e' (Z.min ex ey)) as [_ ->].
      replace (Z.min e' (Z.min ex ey)) with (Z.min ex ey) by lia.
      pose proof (dg_bounds q) as [_ Hb]. pose proof (Z.pow_le_mono_r 2 (dg q) prec).
      pose proof (Z.pow_pos_nonneg 2 (e' - Z.min ex ey)).
      assert (Zpos q * 2 ^ (e' - Z.min ex ey) < 2 ^ (prec + (e' - Z.min ex ey))).
      { rewrite Z.pow_add_r by (unfold prec; lia). apply Z.mul_lt_mono_pos_r; lia. }
      pose proof (Z.pow_le_mono_r 2 (prec + (e' - Z.min ex ey)) (prec + B - Z.min ex ey)).
      destruct s; cbn [cond_Zopp]; lia. }
    pose proof (Hal sx mx ex ltac:(lia) ltac:(lia)) as Ha. pose proof (Hal sy my ey ltac:(lia) ltac:(lia)) as Hb.
    apply normalize_sized; [unfold lowest; lia | lia | lia |].
    revert Ha Hb. generalize (cond_Zopp sx (Zpos (shl_align mx ex (Z.min ex ey)).1)). intros u.
    generalize (cond_Zopp sy (Zpos (shl_align my ey (Z.min ex ey)).1)). intros v Ha Hb. set (sum := u + v). assert (Hs : Z.abs sum < 2 ^ (prec + B + 1 - Z.min ex ey)).
    { replace (prec + B + 1 - Z.min ex ey) with (Z.succ (prec + B - Z.min ex ey)) by lia.
      rewrite Z.pow_succ_r by (unfold prec; lia). unfold sum. lia. }
    destruct sum as [| q | q]; cbn [Zdigits2]; [unfold prec; lia | |]; fold (dg q);
      assert (dg q <= prec + B + 1 - Z.min ex ey) by (apply dg_le; [unfold prec; lia |]; cbn [Z.abs] in Hs; exact Hs); lia.
Qed.

Lemma repr_sized x z : repr x z -> sized 0 x.
Proof.
  intros Hx. destruct (Z.eq_dec z 0) as [-> | Hz]; [by repr_zero Hx s0 |].
  destruct (repr_finite x z Hx Hz) as (s & m & e & -> & He & _ & _ & _ & Hexp & Hd).
  split; [lia |]. pose proof (dg_pos (Z.to_pos (Z.abs z))). unfold lowest, prec in *. lia.
Qed.

(** ** The remainder modulo 255 *)

(** The value rounded towards zero of [m * 2^e]. *)
Definition int_part (m e : Z) : Z := if 0 <=? e then m * 2 ^ e else Z.quot m (2 ^ (- e)).

Lemma int_part_shift m e k : 0 <= k -> int_part (m * 2 ^ k) (e - k) = int_part m e.
Proof.
  intros Hk. pose proof (Z.pow_pos_nonneg 2 k ltac:(lia) Hk). unfold int_part.
  destruct (Z.leb_spec 0 e) as [He | He], (Z.leb_spec 0 (e - k)) as [Hek | Hek].
  - rewrite <- Z.mul_assoc, <- Z.pow_add_r by lia. do 2 f_equal. lia.
  - replace k with (e + - (e - k)) at 1 by lia. rewrite Z.pow_add_r, Z.mul_assoc by lia.
    apply Z.quot_mul. pose proof (Z.pow_pos_nonneg 2 (- (e - k))). lia.
  - lia.
  - replace (- (e - k)) with (- e + k) by lia. rewrite Z.pow_add_r by lia. apply Z.quot_mul_cancel_r; [| lia].
    pose proof (Z.pow_pos_nonneg 2 (- e)). lia.
Qed.

Lemma trunc_int_part s m e : trunc (S754_finite s m e) = Some (int_part (cond_Zopp s (Zpos m)) e).
Proof.
  cbn [trunc]. unfold int_part. f_equal. destruct (Z.leb_spec 0 e); destruct s; cbn [cond_Zopp]; try lia;
    rewrite Z.shiftr_div_pow2 by lia; pose proof (Z.pow_pos_nonneg 2 (- e)).
  - rewrite Z.quot_opp_l by lia. rewrite Z.quot_div_nonneg by lia. done.
  - by rewrite Z.quot_div_nonneg by lia.
Qed.

(** Rounding a mantissa of at most 53 bits whose exponent is in range changes nothing. *)
Lemma normalize_exact m e sz : Z.abs m < 2 ^ prec -> lowest <= e <= 900 ->
  trunc (binary_normalize prec emax m e sz) = Some (int_part m e).
Proof.
  intros Hm He.
  assert (Hr : forall s q, Zpos q < 2 ^ prec -> trunc (binary_round prec emax s q e) = Some (int_part (cond_Zopp s (Zpos q)) e)).
  { intros s q Hq. unfold binary_round. fold (dg q). assert (Hdq : dg q <= prec) by (apply dg_le; [done | lia]).
    pose proof (dg_pos q) as Hpos. set (d := fexp prec emax (dg q + e)).
    assert (Hd : d <= e) by (unfold d, fexp, emin, prec, emax, lowest in *; lia).
    pose proof (shl_align_spec q e d) as [H1 H2]. destruct (shl_align q e d) as [mz ez]. cbn [fst snd] in *.
    replace (Z.min e d) with d in * by lia. subst ez.
    rewrite (round_exact s mz mz d d); [| lia | unfold d, fexp, emin, prec, emax, lowest in *; lia | rewrite Z.sub_diag; lia |].
    - rewrite trunc_int_part. f_equal. replace (cond_Zopp s (Zpos mz)) with (cond_Zopp s (Zpos q) * 2 ^ (e - d)) by (rewrite H2; destruct s; cbn [cond_Zopp]; lia).
      replace d with (e - (e - d)) at 2 by lia. apply int_part_shift. lia.
    - rewrite (dg_shift q mz (e - d)) by (done || lia). replace (dg q + (e - d) + d) with (dg q + e) by lia. done. }
  destruct m as [| q | q]; cbn [binary_normalize].
  - unfold int_part. destruct (Z.leb_spec 0 e); [done |]. rewrite Z.quot_0_l; [done |]. pose proof (Z.pow_pos_nonneg 2 (- e)). lia.
  - rewrite Hr by lia. done.
  - rewrite Hr by lia. done.
Qed.

(** The remainder of the nearest quotient. *)
Lemma nearest_bound a b : 0 < b -> 2 * Z.abs (a - nearest a b * b) <= b /\ Z.abs (a - nearest a b * b) <= Z.abs a.
Proof.
  intros Hb. pose proof (Z.div_mod a b ltac:(lia)) as Hdm. pose proof (Z.mod_pos_bound a b Hb) as Hmod.
  assert (Hhalf : 2 * Z.abs (a - nearest a b * b) <= b).
  { unfold nearest. revert Hdm Hmod. generalize (a / b) (a mod b). intros q r -> Hr.
    destruct (Z.compare_spec (2 * r) b); try destruct (Z.even q); nia. }
  split; [done |]. destruct (Z.le_gt_cases b (2 * Z.abs a)); [lia |].
  assert (nearest a b = 0); [| lia].
  unfold nearest. destruct (Z.le_gt_cases 0 a).
  - rewrite (Z.div_small a b), (Z.mod_small a b) by lia. rewrite (proj2 (Z.compare_lt_iff _ _)) by lia. done.
  - assert (a / b = -1) as Hq by (symmetry; apply (Z.div_unique a b (-1) (a + b)); lia).
    assert (a mod b = a + b) as Hr by lia. rewrite Hq, Hr. rewrite (proj2 (Z.compare_gt_iff _ _)) by lia. done.
Qed.

Lemma of_255 : of_int 255 = S754_finite false 8972014882652160 (-45).
Proof. reflexivity. Qed.

(** The remainder modulo 255 has an integer part between -127 and 127. *)
Lemma remainder_255 x : sized 900 x -> exists z, to_int (remainder x (of_int 255)) = Some z /\ -127 <= z <= 127.
Proof.
  rewrite of_255. destruct x as [s | | | s m e]; try done; intros Hx; [exists 0; by split |].
  destruct Hx as [Hd He]. unfold remainder, reduce. set (e0 := Z.min e (-45)).
  set (a := (if s then Zneg m else Zpos m) * 2 ^ (e - e0)). set (b := 8972014882652160 * 2 ^ (-45 - e0)).
  assert (Hb0 : 0 < b) by (unfold b; pose proof (Z.pow_pos_nonneg 2 (-45 - e0)); lia).
  destruct (nearest_bound a b Hb0) as [Hhalf Habs]. set (r := a - nearest a b * b) in *.
  assert (Hr : Z.abs r < 2 ^ prec).
  { destruct (Z.le_gt_cases e (-45)) as [Hle | Hgt].
    - assert (He0 : e0 = e) by lia. pose proof (dg_bounds m) as [_ Hm]. pose proof (Z.pow_le_mono_r 2 (dg m) prec).
      assert (Z.abs a = Zpos m) by (unfold a; rewrite He0, Z.sub_diag; destruct s; lia). lia.
    - assert (He0 : e0 = -45) by lia. unfold b in Hhalf. rewrite He0 in Hhalf. change (2 ^ (-45 - -45)) with 1 in Hhalf.
      change (2 ^ prec) with 9007199254740992. lia. }
  unfold to_int. rewrite normalize_exact by (done || (unfold lowest in *; lia)).
  assert (Hint : -127 <= int_part r e0 <= 127).
  { unfold int_part. rewrite (proj2 (Z.leb_gt 0 e0)) by lia. pose proof (Z.pow_pos_nonneg 2 (- e0)) as Hp.
    assert (Hbe : b = 255 * 2 ^ (- e0)).
    { unfold b. change 8972014882652160 with (255 * 2 ^ 45). rewrite <- Z.mul_assoc, <- Z.pow_add_r by lia. do 2 f_equal. lia. }
    assert (Z.abs (Z.quot r (2 ^ (- e0))) <= 127); [| lia].
    rewrite <- Z.quot_abs, (Z.abs_eq (2 ^ _)) by lia. rewrite Z.quot_div_nonneg by lia.
    enough (Z.abs r / 2 ^ (- e0) < 128) by lia. apply Z.div_lt_upper_bound; lia. }
  exists (int_part r e0). split; [| done].
  rewrite (proj2 (Z.leb_le _ _)), (proj2 (Z.leb_le _ _)) by lia. done.
Qed.

End DoubleRange.
