(* ===== verification/DoubleCanon.v ===== *)
(** * The doubles that a machine has

    [SpecFloat] pairs a mantissa with an exponent; of the pairs with the same value only
    one is a double of the machine.  [canonical] singles it out, every operation gives one,
    and on them the comparisons compare values: a double between 0 and an integer is
    converted to an [int] below that integer, whatever its digits behind the point. *)

From S2P Require Import Prelude Double DoubleRange.
From stdpp Require Import base list.
From Stdlib Require Import ZArith Lia SpecFloat.
Import Double DoubleRange.
Open Scope Z_scope.

Module DoubleCanon.

Definition canonical (x : double) : Prop :=
  match x with S754_finite _ m e => fexp prec emax (dg m + e) = e | _ => True end.

Create HintDb canon.

Lemma canonical_bounds s m e : canonical (S754_finite s m e) -> dg m <= prec /\ lowest <= e /\ (dg m = prec \/ e = lowest).
Proof. cbn [canonical]. unfold fexp, emin, prec, emax, lowest. lia. Qed.

(** ** Rounding *)
Lemma div_pow_digits m k d : 0 <= k -> 0 < d -> 2 ^ (d + k - 1) <= m < 2 ^ (d + k) -> 2 ^ (d - 1) <= m / 2 ^ k < 2 ^ d.
Proof.
  intros Hk Hd [Hlo Hhi]. pose proof (Z.pow_pos_nonneg 2 k ltac:(lia) Hk). split.
  - apply Z.div_le_lower_bound; [done |]. rewrite <- Z.pow_add_r by lia. by replace (k + (d - 1)) with (d + k - 1) by lia.
  - apply Z.div_lt_upper_bound; [done |]. rewrite <- Z.pow_add_r by lia. by replace (k + d) with (d + k) by lia.
Qed.

(** The second normalisation of a rounded mantissa. *)
Lemma renormalized z e1 s : 0 <= z <= 2 ^ prec -> lowest <= e1 -> (e1 = lowest \/ 2 ^ (prec - 1) <= z) ->
  canonical (let '(mrs', e') := shr_fexp prec emax z e1 loc_Exact in
    match shr_m mrs' with
    | Z0 => S754_zero s
    | Zpos m => if e' <=? emax - prec then S754_finite s m e' else S754_infinity s
    | _ => S754_nan
    end).
Proof.
  intros Hz He1 Hnorm. destruct (shr_fexp_div z e1 loc_Exact) as (r & -> & Hr); [lia |]. rewrite Hr.
  destruct (Z.eq_dec z (2 ^ prec)) as [-> | Hne].
  - change (Zdigits2 (2 ^ prec)) with 54. replace (Z.max e1 (fexp prec emax (54 + e1))) with (e1 + 1) by (unfold fexp, emin, prec, emax, lowest in *; lia).
    replace (e1 + 1 - e1) with 1 by lia. change (2 ^ prec / 2 ^ 1) with 4503599627370496. cbv iota beta.
    destruct (e1 + 1 <=? emax - prec); [| done]. cbn [canonical]. change (dg 4503599627370496) with 53.
    unfold fexp, emin, prec, emax, lowest in *; lia.
  - assert (Hd : Zdigits2 z <= prec) by (apply Zdigits2_bound; unfold prec in *; lia).
    replace (Z.max e1 (fexp prec emax (Zdigits2 z + e1))) with e1 by (unfold fexp, emin, prec, emax, lowest in *; lia).
    rewrite Z.sub_diag, Z.div_1_r. destruct z as [| q | q]; [done | | lia]. cbn [Zdigits2] in Hd. fold (dg q) in Hd.
    destruct (e1 <=? emax - prec); [| done]. cbn [canonical]. destruct Hnorm as [-> | Hlo].
    + unfold fexp, emin, prec, emax, lowest in *; lia.
    + rewrite (dg_unique q prec) by (unfold prec in *; lia). unfold fexp, emin, prec, emax, lowest in *; lia.
Qed.

Lemma round_canonical s m e l : 0 < m -> e <= fexp prec emax (Zdigits2 m + e) -> canonical (binary_round_aux prec emax s m e l).
Proof.
  intros Hm He. unfold binary_round_aux. destruct (shr_fexp_div m e l) as (r1 & -> & Hr1); [lia |].
  set (e1 := Z.max e (fexp prec emax (Zdigits2 m + e))) in *. assert (He1 : e1 = fexp prec emax (Zdigits2 m + e)) by lia.
  assert (Hlow : lowest <= e1) by (unfold fexp, emin, prec, emax, lowest in *; lia).
  pose proof (Zdigits2_lt m ltac:(lia)) as Hhi.
  assert (Hlo : 2 ^ (Zdigits2 m - 1) <= m) by (destruct m as [| q | q]; [lia | apply dg_bounds | lia]).
  assert (Hm1 : 0 <= shr_m r1 < 2 ^ prec /\ (e1 = lowest \/ 2 ^ (prec - 1) <= shr_m r1)).
  { rewrite Hr1. pose proof (Z.pow_pos_nonneg 2 (e1 - e) ltac:(lia) ltac:(lia)) as Hp.
    destruct (Z.eq_dec (Zdigits2 m) (prec + (e1 - e))) as [Hd | Hd].
    - rewrite Hd in Hlo, Hhi. destruct (div_pow_digits m (e1 - e) prec ltac:(lia) ltac:(done)) as [H1 H2]; [done |].
      split; [split; [apply Z.div_pos; lia | done] | by right].
    - split; [split; [apply Z.div_pos; lia |] | left; unfold fexp, emin, prec, emax, lowest in *; lia].
      apply Z.div_lt_upper_bound; [done |]. rewrite <- Z.pow_add_r by (unfold prec; lia). eapply Z.lt_le_trans; [exact Hhi |].
      apply Z.pow_le_mono_r; [lia |]. unfold fexp, emin, prec, emax, lowest in *; lia. }
  apply renormalized; [| done |]; unfold round_nearest_even; destruct (loc_of_shr_record r1) as [| []]; try destruct (Z.even _); lia.
Qed.

(** Nothing but a remainder, below the least exponent. *)
Lemma round_nothing s e l : e <= lowest -> canonical (binary_round_aux prec emax s 0 e l).
Proof.
  intros He. unfold binary_round_aux. destruct (shr_fexp_div 0 e l) as (r1 & -> & Hr1); [lia |]. cbn [Zdigits2] in *.
  replace (Z.max e (fexp prec emax (0 + e))) with lowest in * by (unfold fexp, emin, prec, emax, lowest in *; lia).
  rewrite Z.div_0_l in Hr1 by (apply Z.pow_nonzero; lia).
  apply renormalized; [| done | by left]. rewrite Hr1. unfold round_nearest_even, prec. destruct (loc_of_shr_record r1) as [| []]; try destruct (Z.even _); lia.
Qed.

Lemma normalize_canonical m e sz : canonical (binary_normalize prec emax m e sz).
Proof.
  destruct m as [| q | q]; cbn [binary_normalize]; [done | |]; unfold binary_round; fold (dg q);
    pose proof (shl_align_spec q e (fexp prec emax (dg q + e))) as [H1 H2];
    destruct (shl_align q e (fexp prec emax (dg q + e))) as [mz ez]; cbn [fst snd] in *;
    (apply round_canonical; [done |]); cbn [Zdigits2]; fold (dg mz);
    rewrite (dg_shift q mz (e - Z.min e (fexp prec emax (dg q + e)))) by (done || lia); subst ez;
    replace (dg q + (e - Z.min e (fexp prec emax (dg q + e))) + Z.min e (fexp prec emax (dg q + e))) with (dg q + e) by lia; lia.
Qed.

(** ** The operations *)
Lemma canonical_of_int z : canonical (of_int z).
Proof. apply normalize_canonical. Qed.

Lemma canonical_add x y : canonical x -> canonical y -> canonical (x + y)%D.
Proof.
  intros Hx Hy. destruct x as [sx | sx | | sx mx ex], y as [sy | sy | | sy my ey]; cbn [add SFadd];
    try (destruct sx, sy; done); try done. apply normalize_canonical.
Qed.

Lemma canonical_sub x y : canonical x -> canonical y -> canonical (x - y)%D.
Proof.
  intros Hx Hy. destruct x as [sx | sx | | sx mx ex], y as [sy | sy | | sy my ey]; cbn [sub SFsub];
    try (destruct sx, sy; done); try done. apply normalize_canonical.
Qed.

Lemma canonical_mul x y : canonical x -> canonical y -> canonical (x * y)%D.
Proof.
  destruct x as [sx | sx | | sx mx ex], y as [sy | sy | | sy my ey]; try done. intros Hx Hy.
  apply canonical_bounds in Hx as (Hx1 & Hx2 & Hx3), Hy as (Hy1 & Hy2 & Hy3). cbn [mul SFmul].
  apply round_canonical; [done |]. cbn [Zdigits2]. fold (dg (mx * my)).
  pose proof (dg_mul mx my (mx * my) eq_refl). pose proof (dg_pos mx). pose proof (dg_pos my).
  unfold fexp, emin, prec, emax, lowest in *. lia.
Qed.

(** The digits of a quotient. *)
Lemma quotient_digits m m2 s : 0 <= s -> 0 < Zpos m * 2 ^ s / Zpos m2 -> dg m + s - dg m2 <= Zdigits2 (Zpos m * 2 ^ s / Zpos m2).
Proof.
  intros Hs Hq. set (q := Zpos m * 2 ^ s / Zpos m2) in *. pose proof (Zdigits2_lt q ltac:(lia)) as Hlt.
  pose proof (dg_bounds m) as [Hm _]. pose proof (dg_bounds m2) as [_ Hm2]. pose proof (dg_pos m). pose proof (dg_pos m2). pose proof (Zdigits2_nonneg q).
  destruct (Z.le_gt_cases (dg m + s - dg m2) (Zdigits2 q)) as [| Hgt]; [done |].
  assert (Hup : Zpos m * 2 ^ s < Zpos m2 * 2 ^ Zdigits2 q).
  { pose proof (Z.mul_succ_div_gt (Zpos m * 2 ^ s) (Zpos m2) ltac:(lia)) as Hg. fold q in Hg. nia. }
  assert (2 ^ (dg m - 1) * 2 ^ s <= Zpos m * 2 ^ s) by (apply Z.mul_le_mono_nonneg_r; [apply Z.pow_nonneg; lia | done]).
  assert (Zpos m2 * 2 ^ Zdigits2 q < 2 ^ dg m2 * 2 ^ Zdigits2 q) by (apply Z.mul_lt_mono_pos_r; [apply Z.pow_pos_nonneg; lia | done]).
  assert (2 ^ (dg m2 + Zdigits2 q) <= 2 ^ (dg m - 1 + s)) by (apply Z.pow_le_mono_r; lia).
  rewrite !Z.pow_add_r in * by lia. lia.
Qed.

Lemma canonical_div x y : canonical x -> canonical y -> canonical (x / y)%D.
Proof.
  destruct x as [sx | sx | | sx mx ex], y as [sy | sy | | sy my ey]; try done; intros Hx Hy.
  apply canonical_bounds in Hx as (Hx1 & Hx2 & Hx3), Hy as (Hy1 & Hy2 & Hy3).
  cbn [div SFdiv]. unfold SFdiv_core_binary. cbn [Zdigits2]. fold (dg mx). fold (dg my).
  pose proof (dg_pos mx). pose proof (dg_pos my).
  set (d := fexp prec emax (dg mx + ex - (dg my + ey))). set (e' := Z.min d (ex - ey)). set (s := ex - ey - e').
  assert (Hs : 0 <= s) by lia.
  assert (Hm : match s with Z.pos _ => Z.shiftl (Zpos mx) s | 0 => Zpos mx | Z.neg _ => 0 end = Zpos mx * 2 ^ s).
  { destruct s eqn:Hse; [lia | by rewrite Z.shiftl_mul_pow2 | lia]. }
  rewrite Hm. pose proof (Z.div_mod (Zpos mx * 2 ^ s) (Zpos my) ltac:(lia)) as Hdm.
  pose proof (Z.mod_pos_bound (Zpos mx * 2 ^ s) (Zpos my) ltac:(lia)) as Hmod. unfold Z.div, Z.modulo in Hdm, Hmod.
  pose proof (quotient_digits mx my s Hs) as Hdig. unfold Z.div in Hdig.
  destruct (Z.div_eucl (Zpos mx * 2 ^ s) (Zpos my)) as [q r]. pose proof (Z.pow_pos_nonneg 2 s ltac:(lia) Hs).
  assert (Hq : 0 <= q) by nia. destruct (Z.eq_dec q 0) as [-> | Hq0].
  - apply round_nothing. rewrite Z.mul_0_r, Z.add_0_l in Hdm. destruct (Z.le_gt_cases e' lowest) as [| Hgt]; [done |]. exfalso.
    assert (dg my + prec <= dg mx + s) by (unfold s, e', d, fexp, emin, prec, emax, lowest in *; lia).
    pose proof (dg_bounds mx) as [Hm1 _]. pose proof (dg_bounds my) as [_ Hm2].
    assert (2 ^ (dg mx - 1) * 2 ^ s <= Zpos mx * 2 ^ s) by (apply Z.mul_le_mono_nonneg_r; lia).
    rewrite <- Z.pow_add_r in * by lia. pose proof (Z.pow_le_mono_r 2 (dg my) (dg mx - 1 + s) ltac:(lia) ltac:(unfold prec in *; lia)). lia.
  - apply round_canonical; [lia |]. specialize (Hdig ltac:(lia)). unfold s, e', d, fexp, emin, prec, emax, lowest in *. lia.
Qed.

Lemma canonical_opp x : canonical x -> canonical (- x)%D.
Proof. by destruct x. Qed.
#[export] Hint Resolve canonical_div canonical_opp : canon.
#[export] Hint Resolve canonical_of_int canonical_add canonical_sub canonical_mul : canon.

Lemma repr_canonical x z : repr x z -> canonical x.
Proof.
  intros Hr. pose proof (repr_bound x z Hr) as Hb. destruct (Z.eq_dec z 0) as [-> | Hz]; [by destruct (repr_0 x Hr) as (s & ->) |].
  rewrite (repr_eq x (of_int z) z Hr (repr_of_int z Hb) Hz). apply canonical_of_int.
Qed.

(** ** Comparing values

    The value of a finite double without its sign, in units of 2^-1074. *)
Definition units (m : positive) (e : Z) : Z := Zpos m * 2 ^ (e - lowest).

Lemma units_lt s m e s' m' e' : canonical (S754_finite s m e) -> canonical (S754_finite s' m' e') -> e < e' -> units m e < units m' e'.
Proof.
  intros H H' He. apply canonical_bounds in H as (H1 & H2 & _), H' as (H1' & _ & H3'). unfold units.
  assert (Hd : dg m' = prec) by lia. pose proof (dg_bounds m) as [_ Hm]. pose proof (dg_bounds m') as [Hm' _]. rewrite Hd in Hm'.
  pose proof (Z.pow_le_mono_r 2 (dg m) prec ltac:(lia) ltac:(lia)). pose proof (Z.pow_pos_nonneg 2 (e - lowest) ltac:(lia) ltac:(lia)) as Hp.
  apply (Z.lt_le_trans _ (2 ^ prec * 2 ^ (e - lowest))); [apply Z.mul_lt_mono_pos_r; lia |].
  apply (Z.le_trans _ (2 ^ (prec - 1) * 2 ^ (e' - lowest))).
  - rewrite <- !Z.pow_add_r by (unfold prec in *; lia). apply Z.pow_le_mono_r; lia.
  - apply Z.mul_le_mono_nonneg_r; [apply Z.pow_nonneg; lia | lia].
Qed.

Lemma compare_units m e m' e' : canonical (S754_finite false m e) -> canonical (S754_finite false m' e') ->
  SFcompare (S754_finite false m e) (S754_finite false m' e') = Some (units m e ?= units m' e').
Proof.
  intros H H'. cbn [SFcompare]. destruct (Z.compare_spec e e') as [<- | Hlt | Hgt].
  - f_equal. unfold units. apply canonical_bounds in H as (_ & Hl & _).
    pose proof (Z.pow_pos_nonneg 2 (e - lowest) ltac:(lia) ltac:(lia)) as Hp.
    rewrite <- Zmult_compare_compat_r by lia. symmetry. apply Pos2Z.inj_compare.
  - f_equal. symmetry. apply Z.compare_lt_iff. by eapply units_lt.
  - f_equal. symmetry. apply Z.compare_gt_iff. by eapply units_lt.
Qed.

(** The integer part counts whole units of 2^1074. *)
Lemma trunc_units m e : lowest <= e -> trunc (S754_finite false m e) = Some (units m e / 2 ^ 1074).
Proof.
  intros He. rewrite trunc_int_part. cbn [cond_Zopp]. unfold int_part, units. f_equal. destruct (Z.leb_spec 0 e) as [H0 | H0].
  - replace (e - lowest) with (e + 1074) by (unfold lowest; lia). rewrite Z.pow_add_r, Z.mul_assoc by lia. symmetry. by apply Z.div_mul.
  - rewrite Z.quot_div_nonneg by (try apply Z.pow_pos_nonneg; lia).
    replace (2 ^ 1074) with (2 ^ (- e) * 2 ^ (e - lowest)) by (rewrite <- Z.pow_add_r by (unfold lowest in *; lia); f_equal; unfold lowest; lia).
    rewrite Z.div_mul_cancel_r; [done | |]; pose proof (Z.pow_pos_nonneg 2 (- e)); pose proof (Z.pow_pos_nonneg 2 (e - lowest)); lia.
Qed.

Lemma units_int z s m e : 0 < z -> repr (S754_finite s m e) z -> s = false /\ units m e = z * 2 ^ 1074.
Proof.
  intros Hz Hr. destruct (repr_finite _ _ Hr ltac:(lia)) as (s0 & m0 & e0 & [= <- <- <-] & He & Hm & -> & _ & He' & _).
  split; [lia |]. unfold units. rewrite Hm, Z.abs_eq, <- Z.mul_assoc, <- Z.pow_add_r by (unfold lowest, prec in *; pose proof (dg_pos (Z.to_pos (Z.abs z))); lia).
  do 2 f_equal. unfold lowest. lia.
Qed.

(** A double between 0 and an integer above it. *)
Lemma trunc_below x w : canonical x -> 0 < w < 2 ^ prec -> (x >=? of_int 0)%D = true -> (x <? of_int w)%D = true ->
  exists z, trunc x = Some z /\ 0 <= z < w.
Proof.
  intros Hx Hw H0 Hlt. destruct x as [s | s | | s m e]; [exists 0; split; [done | lia] | | done |].
  - destruct s; [done |]. pose proof (repr_of_int w ltac:(lia)) as Hr.
    destruct (repr_finite _ _ Hr ltac:(lia)) as (s & m & e & He & _). rewrite He in Hlt. done.
  - destruct s; [done |]. pose proof (repr_of_int w ltac:(lia)) as Hr. pose proof (canonical_of_int w) as Hc.
    destruct (repr_finite _ _ Hr ltac:(lia)) as (s & m' & e' & He & _). rewrite He in Hlt, Hr, Hc.
    destruct (units_int w s m' e' ltac:(lia) Hr) as [-> Hu].
    unfold ltb, SFltb in Hlt. rewrite compare_units in Hlt by done. rewrite Hu in Hlt.
    pose proof (canonical_bounds _ _ _ Hx) as (_ & Hl & _). exists (units m e / 2 ^ 1074). split; [by apply trunc_units |].
    assert (Hlt' : units m e < w * 2 ^ 1074) by (destruct (Z.compare_spec (units m e) (w * 2 ^ 1074)); (done || lia)).
    assert (Hp : 0 < 2 ^ 1074) by (apply Z.pow_pos_nonneg; lia).
    split; [apply Z.div_pos; [unfold units; pose proof (Z.pow_pos_nonneg 2 (e - lowest)); lia | done] |].
    apply Z.div_lt_upper_bound; lia.
Qed.

End DoubleCanon.
