(* ===== verification/DoubleNear.v ===== *)
(** * Rounding errors

    [val x] is the rational number that a finite double stands for.  Sums, differences and
    products whose exact result is below [2^k] are finite and off by at most one unit in
    the last place, [2^(k-53)]; dividing by 1 changes nothing; [floor] of a double between
    0 and 2^31 is the integer below it. *)

From S2P Require Import Prelude Double DoubleRange DoubleCanon.
From stdpp Require Import base list.
From Stdlib Require Import ZArith QArith Qpower Lqa Lia SpecFloat.
Import Double DoubleRange DoubleCanon.
Open Scope Z_scope.

Module DoubleNear.

Definition pow2 (e : Z) : Q := (2 ^ e)%Q.

Definition finite (x : double) : Prop :=
  match x with S754_zero _ => True | S754_finite _ _ _ => True | _ => False end.
Definition val (x : double) : Q :=
  match x with S754_finite s m e => (inject_Z (cond_Zopp s (Zpos m)) * pow2 e)%Q | _ => 0%Q end.

(** [r] lies within [d] of [v]. *)
Definition near (r v d : Q) : Prop := (v - d <= r /\ r <= v + d)%Q.

Lemma near_eq r v v' d : (v == v')%Q -> near r v d -> near r v' d.
Proof. unfold near. intros He Hn. lra. Qed.

(** ** Powers of two *)
Lemma pow2_pos e : (0 < pow2 e)%Q.
Proof. apply Qpower_0_lt. reflexivity. Qed.
Lemma pow2_add a b : (pow2 (a + b) == pow2 a * pow2 b)%Q.
Proof. apply Qpower_plus. discriminate. Qed.
Lemma pow2_le a b : a <= b -> (pow2 a <= pow2 b)%Q.
Proof. intros H. apply Qpower_le_compat_l; [done | discriminate]. Qed.
Lemma pow2_Z k : 0 <= k -> (inject_Z (2 ^ k) == pow2 k)%Q.
Proof. intros H. unfold pow2. change 2%Q with (inject_Z 2). by apply Zpower_Qpower. Qed.

(** The same number over another power of two. *)
Lemma scale m e k : 0 <= k -> (inject_Z (m * 2 ^ k) * pow2 (e - k) == inject_Z m * pow2 e)%Q.
Proof.
  intros Hk. rewrite inject_Z_mult, pow2_Z by done. rewrite <- Qmult_assoc, <- pow2_add.
  by replace (k + (e - k)) with e by lia.
Qed.

Definition sgn (s : bool) (m : Z) : Z := cond_Zopp s m.

(** ** Rounding *)
Lemma div_within m k : 0 <= k -> 0 <= m -> (inject_Z (m / 2 ^ k) * pow2 k <= inject_Z m)%Q /\ (inject_Z m <= inject_Z (m / 2 ^ k + 1) * pow2 k)%Q.
Proof.
  intros Hk Hm. pose proof (Z.pow_pos_nonneg 2 k ltac:(lia) Hk) as Hp. rewrite <- pow2_Z by done. rewrite <- !inject_Z_mult.
  rewrite <- !Zle_Qle. pose proof (Z.div_mod m (2 ^ k) ltac:(lia)). pose proof (Z.mod_pos_bound m (2 ^ k) Hp). nia.
Qed.

(** The value after the second normalisation is the rounded mantissa at its exponent. *)
Lemma renormalized_val z e1 s : 0 <= z <= 2 ^ prec -> lowest <= e1 <= 900 ->
  let y := (let '(mrs', e') := shr_fexp prec emax z e1 loc_Exact in
    match shr_m mrs' with
    | Z0 => S754_zero s
    | Zpos m => if e' <=? emax - prec then S754_finite s m e' else S754_infinity s
    | _ => S754_nan
    end) in finite y /\ (val y == inject_Z (sgn s z) * pow2 e1)%Q.
Proof.
  intros Hz He1. destruct (shr_fexp_div z e1 loc_Exact) as (r & -> & Hr); [lia |]. rewrite Hr.
  destruct (Z.eq_dec z (2 ^ prec)) as [-> | Hne].
  - change (Zdigits2 (2 ^ prec)) with 54. replace (Z.max e1 (fexp prec emax (54 + e1))) with (e1 + 1) by (unfold fexp, emin, prec, emax, lowest in *; lia).
    replace (e1 + 1 - e1) with 1 by lia. change (2 ^ prec / 2 ^ 1) with 4503599627370496. cbv iota beta zeta.
    rewrite (proj2 (Z.leb_le _ _)) by (unfold emax, prec; lia). split; [done |]. cbn [val].
    change (2 ^ prec) with (4503599627370496 * 2). change (cond_Zopp s 4503599627370496) with (sgn s 4503599627370496).
    generalize 4503599627370496. intros c. replace (sgn s (c * 2)) with (sgn s c * 2) by (destruct s; cbn [sgn cond_Zopp]; lia).
    rewrite inject_Z_mult, (pow2_add e1 1). change (pow2 1) with 2%Q. change (inject_Z 2) with 2%Q. ring.
  - assert (Hd : Zdigits2 z <= prec) by (apply Zdigits2_bound; unfold prec in *; lia).
    replace (Z.max e1 (fexp prec emax (Zdigits2 z + e1))) with e1 by (unfold fexp, emin, prec, emax, lowest in *; lia).
    rewrite Z.sub_diag, Z.div_1_r. destruct z as [| q | q]; [| | lia]; cbv zeta iota.
    + split; [done |]. cbn [val]. destruct s; cbn [sgn cond_Zopp]; change (inject_Z (- 0)) with 0%Q; change (inject_Z 0) with 0%Q; ring.
    + rewrite (proj2 (Z.leb_le _ _)) by (unfold emax, prec; lia). done.
Qed.

Lemma round_val s m e k : 0 < m -> e <= fexp prec emax (Zdigits2 m + e) -> Zdigits2 m + e <= k -> -1021 <= k <= 900 ->
  finite (binary_round_aux prec emax s m e loc_Exact) /\
  near (val (binary_round_aux prec emax s m e loc_Exact)) (inject_Z (sgn s m) * pow2 e)%Q (pow2 (k - 53)).
Proof.
  intros Hm He Hk Hk'. unfold binary_round_aux. destruct (shr_fexp_div m e loc_Exact) as (r1 & -> & Hr1); [lia |].
  set (e1 := Z.max e (fexp prec emax (Zdigits2 m + e))) in *.
  assert (He1 : lowest <= e1 <= k - 53) by (unfold e1, fexp, emin, prec, emax, lowest in *; lia).
  assert (Hm1 : 0 <= shr_m r1 < 2 ^ prec).
  { rewrite Hr1. split; [apply Z.div_pos; [lia | apply Z.pow_pos_nonneg; lia] |].
    apply Z.div_lt_upper_bound; [apply Z.pow_pos_nonneg; lia |]. rewrite <- Z.pow_add_r by (unfold prec; lia).
    eapply Z.lt_le_trans; [apply Zdigits2_lt; lia |]. apply Z.pow_le_mono_r; [lia |]. unfold e1, fexp, emin, prec, emax, lowest in *; lia. }
  set (z := round_nearest_even (shr_m r1) (loc_of_shr_record r1)).
  assert (Hz : z = shr_m r1 \/ z = shr_m r1 + 1) by (unfold z, round_nearest_even; destruct (loc_of_shr_record r1) as [| []]; try destruct (Z.even _); lia).
  destruct (renormalized_val z e1 s ltac:(lia) ltac:(lia)) as [Hf Hv]. split; [exact Hf |].
  unfold near. rewrite Hv. pose proof (pow2_le e1 (k - 53) ltac:(lia)) as Hle.
  destruct (div_within m (e1 - e) ltac:(lia) ltac:(lia)) as [H1 H2]. rewrite <- Hr1 in H1, H2.
  assert (He' : (pow2 e1 == pow2 (e1 - e) * pow2 e)%Q) by (rewrite <- pow2_add; by replace (e1 - e + e) with e1 by lia).
  pose proof (pow2_pos e) as Hpe. pose proof (pow2_pos e1) as Hpe1.
  assert (Hlo : (inject_Z (shr_m r1) * pow2 e1 <= inject_Z m * pow2 e)%Q) by (rewrite He'; apply (Qmult_le_r _ _ (pow2 e) Hpe) in H1; lra).
  assert (Hhi : (inject_Z m * pow2 e <= (inject_Z (shr_m r1) + 1) * pow2 e1)%Q).
  { rewrite He'. rewrite inject_Z_plus in H2. change (inject_Z 1) with 1%Q in H2. apply (Qmult_le_r _ _ (pow2 e) Hpe) in H2. lra. }
  assert (Hzq : (inject_Z z == inject_Z (shr_m r1) \/ inject_Z z == inject_Z (shr_m r1) + 1)%Q).
  { destruct Hz as [-> | ->]; [by left | right]. rewrite inject_Z_plus. reflexivity. }
  destruct s; cbn [sgn cond_Zopp]; rewrite ?inject_Z_opp; destruct Hzq as [-> | ->]; lra.
Qed.

Lemma pow2_lt_inv a b : (pow2 a < pow2 b)%Q -> a < b.
Proof. intros H. destruct (Z.lt_ge_cases a b) as [| Hge]; [done |]. pose proof (pow2_le b a Hge). lra. Qed.

(** A number below [2^k] has few digits. *)
Lemma digits_below q e k : (inject_Z (Zpos q) * pow2 e < pow2 k)%Q -> dg q + e <= k.
Proof.
  intros H. pose proof (dg_bounds q) as [Hlo _]. pose proof (dg_pos q) as Hd.
  enough (dg q - 1 + e < k) by lia. apply pow2_lt_inv. rewrite pow2_add, <- pow2_Z by lia.
  apply (Qle_lt_trans _ (inject_Z (Zpos q) * pow2 e)); [| done]. apply Qmult_le_r; [apply pow2_pos |]. by rewrite <- Zle_Qle.
Qed.

Lemma normalize_val m e sz k : -1021 <= k <= 900 -> (inject_Z (Z.abs m) * pow2 e < pow2 k)%Q ->
  finite (binary_normalize prec emax m e sz) /\ near (val (binary_normalize prec emax m e sz)) (inject_Z m * pow2 e)%Q (pow2 (k - 53)).
Proof.
  intros Hk Hm. pose proof (pow2_pos (k - 53)) as Hpos.
  assert (Hround : forall s q, (inject_Z (Zpos q) * pow2 e < pow2 k)%Q -> finite (binary_round prec emax s q e) /\
    near (val (binary_round prec emax s q e)) (inject_Z (sgn s (Zpos q)) * pow2 e)%Q (pow2 (k - 53))).
  { intros s q Hq. apply digits_below in Hq. unfold binary_round. fold (dg q).
    pose proof (shl_align_spec q e (fexp prec emax (dg q + e))) as [H1 H2]. set (f := fexp prec emax (dg q + e)) in *.
    destruct (shl_align q e f) as [mz ez]. cbn [fst snd] in *. subst ez.
    assert (Hd : dg mz + Z.min e f = dg q + e) by (rewrite (dg_shift q mz (e - Z.min e f)) by (done || lia); lia).
    destruct (round_val s (Zpos mz) (Z.min e f) k) as [Hf Hn]; [done | | | done |]; [cbn [Zdigits2]; fold (dg mz); rewrite Hd; fold f; lia | cbn [Zdigits2]; fold (dg mz); lia |].
    split; [exact Hf |]. replace (sgn s (Zpos mz)) with (sgn s (Zpos q) * 2 ^ (e - Z.min e f)) in Hn by (rewrite H2; destruct s; cbn [sgn cond_Zopp]; lia).
    eapply near_eq; [| exact Hn]. rewrite <- (scale (sgn s (Zpos q)) e (e - Z.min e f)) by lia.
    by replace (e - (e - Z.min e f)) with (Z.min e f) by lia. }
  destruct m as [| q | q]; cbn [binary_normalize].
  - split; [done |]. unfold near. cbn [val]. change (inject_Z 0) with 0%Q. lra.
  - apply (Hround false q). exact Hm.
  - apply (Hround true q). exact Hm.
Qed.

(** ** Operations *)
Lemma align_val s m e e0 : e0 <= e -> (inject_Z (cond_Zopp s (Zpos (shl_align m e e0).1)) * pow2 e0 == val (S754_finite s m e))%Q.
Proof.
  intros He. pose proof (shl_align_spec m e e0) as [_ H2]. replace (Z.min e e0) with e0 in H2 by lia. cbn [val].
  replace (cond_Zopp s (Zpos (shl_align m e e0).1)) with (cond_Zopp s (Zpos m) * 2 ^ (e - e0)) by (rewrite H2; destruct s; cbn [cond_Zopp]; lia).
  rewrite <- (scale (cond_Zopp s (Zpos m)) e (e - e0)) by lia. by replace (e - (e - e0)) with e0 by lia.
Qed.

Lemma abs_val m e b : (- b < inject_Z m * pow2 e)%Q -> (inject_Z m * pow2 e < b)%Q -> (inject_Z (Z.abs m) * pow2 e < b)%Q.
Proof. intros H1 H2. destruct (Z.abs_spec m) as [[_ ->] | [_ ->]]; [done |]. rewrite inject_Z_opp. lra. Qed.

Lemma near_exact r v k : (r == v)%Q -> near r v (pow2 k).
Proof. intros H. pose proof (pow2_pos k). unfold near. lra. Qed.

Lemma add_near x y k : finite x -> finite y -> -1021 <= k <= 900 -> (- pow2 k < val x + val y)%Q -> (val x + val y < pow2 k)%Q ->
  finite (x + y)%D /\ near (val (x + y)%D) (val x + val y)%Q (pow2 (k - 53)).
Proof.
  intros Hx Hy Hk Hlo Hhi. destruct x as [sx | sx | | sx mx ex], y as [sy | sy | | sy my ey]; try done; cbn [add SFadd].
  - destruct sx, sy; (split; [done |]); apply near_exact; cbn [val]; lra.
  - split; [done |]. apply near_exact. cbn [val]. lra.
  - split; [done |]. apply near_exact. cbn [val]. lra.
  - set (e0 := Z.min ex ey). set (u := cond_Zopp sx _). set (v := cond_Zopp sy _).
    assert (Hv : (inject_Z (u + v) * pow2 e0 == val (S754_finite sx mx ex) + val (S754_finite sy my ey))%Q).
    { rewrite inject_Z_plus, Qmult_plus_distr_l. unfold u, v. rewrite !align_val by lia. reflexivity. }
    destruct (normalize_val (u + v) e0 false k Hk) as [Hf Hn]; [apply abs_val; lra |]. split; [exact Hf |]. by eapply near_eq.
Qed.

Lemma sub_near x y k : finite x -> finite y -> -1021 <= k <= 900 -> (- pow2 k < val x - val y)%Q -> (val x - val y < pow2 k)%Q ->
  finite (x - y)%D /\ near (val (x - y)%D) (val x - val y)%Q (pow2 (k - 53)).
Proof.
  intros Hx Hy Hk Hlo Hhi. destruct x as [sx | sx | | sx mx ex], y as [sy | sy | | sy my ey]; try done; cbn [sub SFsub].
  - destruct sx, sy; (split; [done |]); apply near_exact; cbn [val]; lra.
  - split; [done |]. apply near_exact. cbn [val]. replace (cond_Zopp (negb sy) (Z.pos my)) with (- cond_Zopp sy (Z.pos my)) by (destruct sy; cbn [negb cond_Zopp]; lia). rewrite inject_Z_opp. lra.
  - split; [done |]. apply near_exact. cbn [val]. lra.
  - set (e0 := Z.min ex ey). set (u := cond_Zopp sx _). set (v := cond_Zopp sy _).
    assert (Hv : (inject_Z (u - v) * pow2 e0 == val (S754_finite sx mx ex) - val (S754_finite sy my ey))%Q).
    { unfold Z.sub. rewrite inject_Z_plus, inject_Z_opp, Qmult_plus_distr_l. rewrite <- (align_val sx mx ex e0), <- (align_val sy my ey e0) by lia. fold u v. lra. }
    destruct (normalize_val (u - v) e0 false k Hk) as [Hf Hn]; [apply abs_val; lra |]. split; [exact Hf |]. by eapply near_eq.
Qed.

Lemma mul_near x y k : finite x -> finite y -> canonical x -> canonical y -> -1021 <= k <= 900 ->
  (- pow2 k < val x * val y)%Q -> (val x * val y < pow2 k)%Q ->
  finite (x * y)%D /\ near (val (x * y)%D) (val x * val y)%Q (pow2 (k - 53)).
Proof.
  intros Hx Hy Hcx Hcy Hk Hlo Hhi. destruct x as [sx | sx | | sx mx ex], y as [sy | sy | | sy my ey]; try done; cbn [mul SFmul].
  - split; [done |]. apply near_exact. cbn [val]. lra.
  - split; [done |]. apply near_exact. cbn [val]. lra.
  - split; [done |]. apply near_exact. cbn [val]. lra.
  - assert (Hv : (inject_Z (sgn (xorb sx sy) (Zpos (mx * my))) * pow2 (ex + ey) == val (S754_finite sx mx ex) * val (S754_finite sy my ey))%Q).
    { cbn [val]. rewrite pow2_add. replace (sgn (xorb sx sy) (Zpos (mx * my))) with (cond_Zopp sx (Zpos mx) * cond_Zopp sy (Zpos my))
        by (destruct sx, sy; cbn [sgn xorb cond_Zopp]; lia). rewrite inject_Z_mult. ring. }
    assert (Hb : (inject_Z (Zpos (mx * my)) * pow2 (ex + ey) < pow2 k)%Q).
    { replace (Zpos (mx * my)) with (Z.abs (sgn (xorb sx sy) (Zpos (mx * my)))) by (destruct (xorb sx sy); cbn [sgn cond_Zopp]; lia). apply abs_val; lra. }
    apply digits_below in Hb. apply canonical_bounds in Hcx as (Hx1 & Hx2 & Hx3), Hcy as (Hy1 & Hy2 & Hy3).
    pose proof (dg_mul mx my (mx * my) eq_refl). pose proof (dg_pos mx). pose proof (dg_pos my).
    destruct (round_val (xorb sx sy) (Zpos (mx * my)) (ex + ey) k) as [Hf Hn]; [done | | done | done |].
    { cbn [Zdigits2]. fold (dg (mx * my)). unfold fexp, emin, prec, emax, lowest in *. lia. }
    split; [exact Hf |]. by eapply near_eq.
Qed.

(** ** Integers *)
Lemma repr_val x z : repr x z -> finite x /\ (val x == inject_Z z)%Q.
Proof.
  intros Hr. destruct (Z.eq_dec z 0) as [-> | Hz]; [destruct (repr_0 x Hr) as (s & ->); done |].
  destruct (repr_finite x z Hr Hz) as (s & m & e & -> & He & _ & _ & Hv & _). split; [done |]. cbn [val]. rewrite Hv.
  replace e with (0 - - e) at 2 by lia. rewrite scale by lia. change (pow2 0) with 1%Q. ring.
Qed.

(** Division by 1. *)
Lemma div_one x y : canonical x -> finite x -> (- pow2 900 < val x)%Q -> (val x < pow2 900)%Q -> repr y 1 -> (val (x / y)%D == val x)%Q /\ finite (x / y)%D.
Proof.
  intros Hc Hf Hlo Hhi Hy. destruct (repr_finite y 1 Hy ltac:(lia)) as (s & m & e & -> & _ & Hm & -> & _ & He & _).
  change (dg (Z.to_pos (Z.abs 1)) - prec) with (-52) in He. subst e. change (Z.abs 1 * 2 ^ (- -52)) with 4503599627370496 in Hm.
  injection Hm as ->. destruct x as [sx | | | sx mx ex]; [done | done | done |].
  assert (Hb : dg mx + ex <= 900) by (apply digits_below; cbn [val] in *; destruct sx; cbn [cond_Zopp] in *; rewrite ?inject_Z_opp in *; lra).
  pose proof (canonical_bounds _ _ _ Hc) as (H1 & H2 & H3). pose proof (dg_pos mx).
  cbn [div SFdiv]. unfold SFdiv_core_binary. cbn [Zdigits2]. fold (dg mx). change (digits2_pos 4503599627370496) with 53%positive.
  set (d := fexp prec emax (dg mx + ex - (53 + -52))). assert (Hd : ex - 1 <= d <= ex) by (unfold d, fexp, emin, prec, emax, lowest in *; lia).
  replace (Z.min d (ex - -52)) with d by lia. set (s := ex - -52 - d).
  assert (Hm' : match s with Z.pos _ => Z.shiftl (Zpos mx) s | 0 => Zpos mx | Z.neg _ => 0 end = Zpos mx * 2 ^ (ex - d) * 4503599627370496).
  { destruct s eqn:Hse; [lia | | lia]. rewrite Z.shiftl_mul_pow2 by lia. rewrite <- Hse. unfold s.
    change 4503599627370496 with (2 ^ 52). rewrite <- Z.mul_assoc, <- Z.pow_add_r by lia. do 2 f_equal. lia. }
  rewrite Hm'. assert (Hq : Zpos mx * 2 ^ (ex - d) * 4503599627370496 / 4503599627370496 = Zpos mx * 2 ^ (ex - d)) by (by apply Z.div_mul).
  assert (Hr : (Zpos mx * 2 ^ (ex - d) * 4503599627370496) mod 4503599627370496 = 0) by (by apply Z.mod_mul).
  unfold Z.div in Hq. unfold Z.modulo in Hr. destruct (Z.div_eucl _ _) as [q r]. subst q r.
  change (new_location 4503599627370496 0) with loc_Exact.
  assert (Hp : 0 < Zpos mx * 2 ^ (ex - d)) by (pose proof (Z.pow_pos_nonneg 2 (ex - d)); lia).
  destruct (Zpos mx * 2 ^ (ex - d)) as [| mq | mq] eqn:Hmq; [lia | | lia].
  replace (xorb sx (1 <? 0)) with sx by (by destruct sx).
  rewrite (round_exact sx mx mq d ex); [done | lia | unfold emax, prec in *; lia | lia | exact Hc].
Qed.

(** The integer part of a double that is not negative. *)
Lemma trunc_val x : canonical x -> finite x -> (0 <= val x)%Q -> exists z, trunc x = Some z /\ 0 <= z /\ (inject_Z z <= val x)%Q /\ (val x < inject_Z z + 1)%Q.
Proof.
  intros Hc Hf H0. destruct x as [s | | | s m e]; [exists 0; split; [done |]; split; [done |]; cbn [val]; change (inject_Z 0) with 0%Q; lra | done | done |].
  cbn [val] in *. pose proof (pow2_pos e) as Hpe. destruct s; cbn [cond_Zopp] in *.
  { assert (inject_Z (Zpos m) * pow2 e > 0)%Q; [| rewrite inject_Z_opp in H0; lra].
    apply Qmult_lt_0_compat; [reflexivity | done]. }
  rewrite trunc_int_part. unfold int_part. cbn [cond_Zopp]. eexists. split; [reflexivity |]. destruct (Z.leb_spec 0 e) as [He | He].
  - rewrite inject_Z_mult, pow2_Z by done. split; [pose proof (Z.pow_pos_nonneg 2 e); lia | lra].
  - rewrite Z.quot_div_nonneg by (try apply Z.pow_pos_nonneg; lia). pose proof (Z.pow_pos_nonneg 2 (- e) ltac:(lia) ltac:(lia)) as Hp.
    pose proof (Z.div_mod (Zpos m) (2 ^ (- e)) ltac:(lia)) as Hdm. pose proof (Z.mod_pos_bound (Zpos m) (2 ^ (- e)) Hp) as Hmod.
    set (q := Zpos m / 2 ^ (- e)) in *. split; [apply Z.div_pos; lia |].
    assert (Hq : (inject_Z q == inject_Z (q * 2 ^ (- e)) * pow2 e)%Q).
    { pose proof (scale q 0 (- e) ltac:(lia)) as Hs. replace (0 - - e) with e in Hs by lia. change (pow2 0) with 1%Q in Hs. lra. }
    assert (Hq1 : (inject_Z (q + 1) == inject_Z ((q + 1) * 2 ^ (- e)) * pow2 e)%Q).
    { pose proof (scale (q + 1) 0 (- e) ltac:(lia)) as Hs. replace (0 - - e) with e in Hs by lia. change (pow2 0) with 1%Q in Hs. lra. }
    split.
    + rewrite Hq. apply Qmult_le_r; [done |]. rewrite <- Zle_Qle. nia.
    + change 1%Q with (inject_Z 1). rewrite <- inject_Z_plus, Hq1. apply Qmult_lt_r; [done |]. rewrite <- Zlt_Qlt. nia.
Qed.

Lemma floor_val x : canonical x -> finite x -> (0 <= val x)%Q -> (val x < pow2 40)%Q ->
  exists z, 0 <= z < 2 ^ 40 /\ repr (floor x) z /\ (inject_Z z <= val x)%Q /\ (val x < inject_Z z + 1)%Q.
Proof.
  intros Hc Hf H0 Hhi. destruct (trunc_val x Hc Hf H0) as (z & Ht & Hz & Hlo & Hup). exists z.
  assert (Hz40 : z < 2 ^ 40) by (rewrite Zlt_Qlt, pow2_Z by lia; lra). split; [done |]. split; [| done].
  destruct x as [s | | | s m e]; [by injection Ht as <-; eexists | done | done |].
  destruct s; [cbn [val cond_Zopp] in H0; exfalso; assert (inject_Z (Zpos m) * pow2 e > 0)%Q by (apply Qmult_lt_0_compat; [reflexivity | apply pow2_pos]); rewrite inject_Z_opp in H0; lra |].
  cbn [val cond_Zopp] in Hhi. apply digits_below in Hhi. pose proof (canonical_bounds _ _ _ Hc) as (H1 & H2 & H3).
  assert (He : e < 0) by (unfold prec, lowest in *; pose proof (dg_pos m); lia).
  cbn [floor trunc] in *. rewrite (proj2 (Z.leb_gt 0 e)) in * by done. injection Ht as <-. apply repr_of_int. unfold prec. lia.
Qed.

(** ** Guards: comparing with an integer *)
Lemma units_val s m e : canonical (S754_finite s m e) -> (inject_Z (units m e) * pow2 lowest == inject_Z (Zpos m) * pow2 e)%Q.
Proof.
  intros H. apply canonical_bounds in H as (_ & Hl & _). unfold units. rewrite <- (scale (Zpos m) e (e - lowest)) by lia.
  by replace (e - (e - lowest)) with lowest by lia.
Qed.

Lemma pos_val m e : (0 < inject_Z (Zpos m) * pow2 e)%Q.
Proof. apply Qmult_lt_0_compat; [reflexivity | apply pow2_pos]. Qed.

Lemma compare_val x w : canonical x -> finite x -> 0 < w < 2 ^ 31 -> SFcompare x (of_int w) = Some (val x ?= inject_Z w)%Q.
Proof.
  intros Hc Hf Hw. assert (Hr : repr (of_int w) w) by (apply repr_of_int; unfold prec; lia).
  destruct (repr_val _ _ Hr) as [_ Hvw]. pose proof (canonical_of_int w) as Hcw. assert (Hpos : (0 < inject_Z w)%Q) by (change 0%Q with (inject_Z 0); rewrite <- Zlt_Qlt; lia).
  destruct (repr_finite _ _ Hr ltac:(lia)) as (s & m' & e' & He & _). rewrite He in *.
  destruct (units_int w s m' e' ltac:(lia) Hr) as [-> _].
  destruct x as [sx | sx | | sx m e]; [| done | done |].
  - cbn [SFcompare val]. f_equal. symmetry. by apply (proj1 (Qlt_alt _ _)).
  - destruct sx; [cbn [SFcompare val cond_Zopp]; f_equal; symmetry; apply (proj1 (Qlt_alt _ _)); rewrite inject_Z_opp; pose proof (pos_val m e); lra |].
    rewrite compare_units by done. f_equal. cbn [val cond_Zopp] in Hvw |- *. rewrite <- (units_val _ _ _ Hcw) in Hvw.
    pose proof (units_val _ _ _ Hc) as Hv. pose proof (pow2_pos lowest) as Hp.
    destruct (Z.compare_spec (units m e) (units m' e')) as [Heq | Hlt | Hgt]; symmetry.
    + apply (proj1 (Qeq_alt _ _)). rewrite <- Hv, Heq. done.
    + apply (proj1 (Qlt_alt _ _)). rewrite <- Hv, <- Hvw. apply Qmult_lt_r; [done |]. by rewrite <- Zlt_Qlt.
    + apply (proj1 (Qgt_alt _ _)). rewrite <- Hv, <- Hvw. apply Qmult_lt_r; [done |]. by rewrite <- Zlt_Qlt.
Qed.

Lemma ge_zero x : finite x -> (x >=? of_int 0)%D = true <-> (0 <= val x)%Q.
Proof.
  intros Hf. destruct x as [s | | | s m e]; [by destruct s | done | done |]. pose proof (pos_val m e).
  destruct s; cbn [val cond_Zopp]; (split; [done || lra |]); [| done]. rewrite inject_Z_opp. lra.
Qed.

Lemma le_int x w : canonical x -> finite x -> 0 < w < 2 ^ 31 -> (x <=? of_int w)%D = true <-> (val x <= inject_Z w)%Q.
Proof.
  intros Hc Hf Hw. unfold leb, SFleb. rewrite compare_val by done. rewrite Qle_alt. by destruct (_ ?= _)%Q.
Qed.

Lemma lt_int x w : canonical x -> finite x -> 0 < w < 2 ^ 31 -> (x <? of_int w)%D = true <-> (val x < inject_Z w)%Q.
Proof.
  intros Hc Hf Hw. unfold ltb, SFltb. rewrite compare_val by done. rewrite Qlt_alt. by destruct (_ ?= _)%Q.
Qed.

Lemma lt_le x y : (x <? y)%D = true -> (x <=? y)%D = true.
Proof. unfold ltb, leb, SFltb, SFleb. destruct (SFcompare x y) as [[] |]; done. Qed.

(** Only finite numbers pass the guards. *)
Lemma guard_finite x w : 0 < w < 2 ^ 31 -> (x >=? of_int 0)%D = true -> (x <=? of_int w)%D = true -> finite x.
Proof.
  intros Hw H0 Hle. assert (Hr : repr (of_int w) w) by (apply repr_of_int; unfold prec; lia).
  destruct (repr_finite _ _ Hr ltac:(lia)) as (s & m & e & He & _). rewrite He in Hle. destruct x as [| [] | |]; done.
Qed.

End DoubleNear.
