(* ===== verification/Raster.v ===== *)
(** * Loops over pixels

    The image programs are nested counting loops over the pixels of an array stored row
    by row.  This file gives the loops ([for_each] over the list of the values the loop
    variable takes), checked accesses to arrays of any element type, and the lemmas that
    turn a nest of loops which touches each pixel at most once into a statement about
    single pixels. *)

From S2P Require Import Prelude CMem.
From Stdlib Require Import ZArith Lia.
From stdpp Require Import base list numbers.
Open Scope Z_scope.

Module Raster.

(** ** Loops *)
Fixpoint for_each {S A} (l : list A) (body : A -> M S unit) : M S unit :=
  match l with
  | [] => ret tt
  | a :: l' => body a ;;; for_each l' body
  end.

(** [for (int i = lo; i < hi; i++)] and [for (int i = n - 1; i >= 0; i--)]; the bodies
    change neither the variable nor the bounds. *)
Definition for_up {S} (lo hi : Z) (body : Z -> M S unit) : M S unit := for_each (seqZ lo (hi - lo)) body.
Definition for_down {S} (n : Z) (body : Z -> M S unit) : M S unit := for_each (reverse (seqZ 0 n)) body.

(** A loop that carries local variables. *)
Fixpoint fold_each {S A B} (l : list A) (acc : B) (body : B -> A -> M S B) : M S B :=
  match l with
  | [] => ret acc
  | a :: l' => let* acc' := body acc a in fold_each l' acc' body
  end.
Definition fold_up {S B} (lo hi : Z) (acc : B) (body : B -> Z -> M S B) : M S B := fold_each (seqZ lo (hi - lo)) acc body.

(** ** Arrays *)
Definition fetch {A} (l : list A) (i : Z) : option A := if i <? 0 then None else l !! Z.to_nat i.
Definition inside {A} (l : list A) (i : Z) : bool := (0 <=? i) && (i <? Z.of_nat (length l)).

(** An [option] result as a statement: [None] is the given fault. *)
Definition expect {S A} (w : fault) (o : option A) : M S A :=
  match o with Some a => ret a | None => undef w end.

(** ** Running loops *)
Section Loops.
Context {S : Type}.

Lemma bind_done {A B} (m : M S A) (k : A -> M S B) s a s' : m s = Done a s' -> bind m k s = k a s'.
Proof. unfold bind. by intros ->. Qed.

Lemma for_each_app {A} (l l' : list A) (body : A -> M S unit) s :
  for_each (l ++ l') body s = (for_each l body ;;; for_each l' body) s.
Proof.
  revert s. induction l as [| a l IH]; intros s; [done |]. cbn [for_each app]. unfold bind at 1 2 3.
  destruct (body a s); [| done | done]. rewrite IH. done.
Qed.

Lemma for_each_map {A B} (f : A -> B) l (body : B -> M S unit) : for_each (f <$> l) body = for_each l (fun a => body (f a)).
Proof. induction l as [| a l IH]; [done |]. cbn [for_each fmap list_fmap]. by rewrite IH. Qed.

(** A nest of two loops is one loop over the pairs. *)
Lemma for_each_nest {A B} (l : list A) (k : A -> list B) (body : A -> B -> M S unit) s :
  for_each l (fun a => for_each (k a) (body a)) s
  = for_each (l ≫= fun a => pair a <$> k a) (fun c => body c.1 c.2) s.
Proof.
  revert s. induction l as [| a l IH]; intros s; [done |].
  cbn [for_each mbind list_bind]. rewrite for_each_app. unfold bind. rewrite for_each_map. cbn [fst snd].
  destruct (for_each (k a) (body a) s); [apply IH | done | done].
Qed.

Lemma fold_each_app {A B} (l l' : list A) (body : B -> A -> M S B) acc s :
  fold_each (l ++ l') acc body s = (let* acc' := fold_each l acc body in fold_each l' acc' body) s.
Proof.
  revert acc s. induction l as [| a l IH]; intros acc s; [done |]. cbn [fold_each app]. unfold bind at 1 2 3.
  destruct (body acc a s); [| done | done]. apply IH.
Qed.

Lemma fold_each_nest {A B C} (l : list A) (k : list C) (body : A -> B -> C -> M S B) acc s :
  fold_each l acc (fun b a => fold_each k b (body a)) s
  = fold_each (l ≫= fun a => pair a <$> k) acc (fun b c => body c.1 b c.2) s.
Proof.
  assert (Hmap : forall a k' acc s, fold_each (pair a <$> k') acc (fun b c => body c.1 b c.2) s = fold_each k' acc (body a) s).
  { intros a k'. induction k' as [| c k' IH]; intros acc' s'; [done |]. cbn [fold_each fmap list_fmap fst snd]. unfold bind.
    destruct (body a acc' c s'); [apply IH | done | done]. }
  revert acc s. induction l as [| a l IH]; intros acc s; [done |].
  cbn [fold_each mbind list_bind]. rewrite fold_each_app. unfold bind. rewrite Hmap.
  destruct (fold_each k acc (body a) s); [apply IH | done | done].
Qed.

(** A loop over local variables whose rounds do not change the state. *)
Lemma fold_each_pure {A B} (f : B -> A -> B) (Inv : list A -> B -> Prop) l (body : B -> A -> M S B) acc s :
  Inv [] acc ->
  (forall pre a acc', (exists post, l = pre ++ a :: post) -> Inv pre acc' ->
    body acc' a s = Done (f acc' a) s /\ Inv (pre ++ [a]) (f acc' a)) ->
  fold_each l acc body s = Done (fold_left f l acc) s /\ Inv l (fold_left f l acc).
Proof.
  intros H0 Hb. enough (H : forall post pre acc', l = pre ++ post -> Inv pre acc' ->
    fold_each post acc' body s = Done (fold_left f post acc') s /\ Inv l (fold_left f post acc')) by by apply (H l []).
  induction post as [| a post IH]; intros pre acc' Hl Hi.
  - rewrite app_nil_r in Hl. by subst.
  - cbn [fold_each fold_left]. destruct (Hb pre a acc') as [Hrun Hi']; [by exists post | done |].
    rewrite (bind_done _ _ _ _ _ Hrun). apply (IH (pre ++ [a])); [by rewrite <- app_assoc | done].
Qed.

(** A loop whose rounds are total functions under an invariant is a fold. *)
Lemma for_each_fold {A} (Inv : S -> Prop) (step : A -> S -> S) (l : list A) (body : A -> M S unit) s :
  Inv s ->
  (forall a s', a ∈ l -> Inv s' -> body a s' = Done tt (step a s') /\ Inv (step a s')) ->
  for_each l body s = Done tt (fold_left (fun s' a => step a s') l s) /\ Inv (fold_left (fun s' a => step a s') l s).
Proof.
  revert s. induction l as [| a l IH]; intros s Hs Hb; [done |]. cbn [for_each fold_left].
  destruct (Hb a s) as [Hrun Hinv]; [left | done |]. rewrite (bind_done _ _ _ _ _ Hrun).
  apply IH; [done |]. intros a' s' Ha'. apply Hb. by right.
Qed.

Lemma for_each_wp {A} (Inv : list A -> S -> Prop) (l : list A) (body : A -> M S unit) E s :
  Inv [] s ->
  (forall pre a s', (exists post, l = pre ++ a :: post) -> Inv pre s' -> wp (body a) (fun _ s'' => Inv (pre ++ [a]) s'') E s') ->
  wp (for_each l body) (fun _ s' => Inv l s') E s.
Proof.
  intros H0 Hb. enough (H : forall post pre s', l = pre ++ post -> Inv pre s' -> wp (for_each post body) (fun _ s'' => Inv l s'') E s')
    by by apply (H l []).
  induction post as [| a post IH]; intros pre s' Hl Hi.
  - rewrite app_nil_r in Hl. by subst.
  - cbn [for_each]. apply wp_bind. eapply wp_mono; [apply (Hb pre a s'); [by exists post | done] | | done].
    intros [] s'' Hi'. apply (IH (pre ++ [a])); [by rewrite <- app_assoc | done].
Qed.

Lemma for_each_same {A} (l : list A) (body : A -> M S unit) s :
  (forall a, a ∈ l -> body a s = Done tt s) -> for_each l body s = Done tt s.
Proof.
  induction l as [| a l IH]; intros Hb; [done |]. cbn [for_each]. rewrite (bind_done _ _ _ _ _ (Hb a ltac:(left))).
  apply IH. intros; apply Hb. by right.
Qed.

(** A loop in which one round is undefined, whatever the rounds before it did. *)
Lemma for_each_undef {A} (Inv : S -> Prop) (l : list A) (body : A -> M S unit) s :
  Inv s ->
  (forall a s', a ∈ l -> Inv s' -> (exists s'', body a s' = Done tt s'' /\ Inv s'') \/ exists f s'', body a s' = Undef f s'') ->
  (exists a, a ∈ l /\ forall s', Inv s' -> exists f s'', body a s' = Undef f s'') ->
  exists f s', for_each l body s = Undef f s'.
Proof.
  revert s. induction l as [| a l IH]; intros s Hs Hb (a0 & Hin & Ha0); [by apply not_elem_of_nil in Hin |].
  cbn [for_each]. unfold bind. destruct (Hb a s) as [(s1 & Hrun & H1) | (f & s1 & Hrun)]; [left | done | |]; rewrite Hrun.
  - apply elem_of_cons in Hin as [-> | Hin]; [destruct (Ha0 s Hs) as (f & s2 & Hf); congruence |].
    apply IH; [done | | by exists a0]. intros a' s' Ha'. apply Hb. by right.
  - by exists f, s1.
Qed.
End Loops.

(** ** Touching each cell of an array at most once *)
Section Touch.
Context {A V : Type} (target : A -> option nat) (change : A -> V -> V).

Definition touch (m : list V) (c : A) : list V :=
  match target c with Some k => alter (change c) k m | None => m end.

Lemma touch_length cs m : length (fold_left touch cs m) = length m.
Proof.
  revert m. induction cs as [| c cs IH]; intros m; [done |]. cbn [fold_left]. rewrite IH.
  unfold touch. destruct (target c); [apply length_alter | done].
Qed.

Lemma touch_miss cs m k : (forall c, c ∈ cs -> target c <> Some k) -> fold_left touch cs m !! k = m !! k.
Proof.
  revert m. induction cs as [| c cs IH]; intros m Hm; [done |]. cbn [fold_left].
  rewrite IH by (intros; apply Hm; by right). unfold touch.
  destruct (target c) as [k' |] eqn:Hk; [| done]. apply list_lookup_alter_ne.
  intros ->. by apply (Hm c); [left |].
Qed.

(** The only cell with this target decides. *)
Lemma touch_hit cs m k c : NoDup cs -> c ∈ cs -> target c = Some k ->
  (forall c', c' ∈ cs -> target c' = Some k -> c' = c) ->
  fold_left touch cs m !! k = change c <$> m !! k.
Proof.
  intros Hnd Hin Hk Huniq. apply list_elem_of_split in Hin as (l1 & l2 & ->).
  apply list.NoDup_app in Hnd as (_ & Hd & Hnd2). apply list.NoDup_cons in Hnd2 as [Hn _].
  rewrite fold_left_app. cbn [fold_left]. rewrite touch_miss.
  - unfold touch at 1. rewrite Hk, list_lookup_alter_eq. rewrite touch_miss; [done |].
    intros c' Hc' Ht. assert (c' = c) as -> by (apply Huniq; [apply elem_of_app; by left | done]).
    apply (Hd c Hc'). left.
  - intros c' Hc' Ht. assert (c' = c) as -> by (apply Huniq; [apply elem_of_app; right; by right | done]). done.
Qed.
End Touch.

(** A field of the state that every round changes by [ins] alone. *)
Lemma fold_field {S A F} (get : S -> F) (step : A -> S -> S) (ins : F -> A -> F) l s :
  (forall a s', get (step a s') = ins (get s') a) ->
  get (fold_left (fun s' a => step a s') l s) = fold_left ins l (get s).
Proof.
  intros H. revert s. induction l as [| a l IH]; intros s; [done |]. cbn [fold_left]. by rewrite IH, H.
Qed.

Lemma fold_field_same {S A F} (get : S -> F) (step : A -> S -> S) l s :
  (forall a s', get (step a s') = get s') -> get (fold_left (fun s' a => step a s') l s) = get s.
Proof.
  intros H. revert s. induction l as [| a l IH]; intros s; [done |]. cbn [fold_left]. by rewrite IH, H.
Qed.

Lemma insert_alter {V} (k : nat) (v : V) (m : list V) : <[k := v]> m = alter (fun _ => v) k m.
Proof.
  apply list_eq. intros i. destruct (decide (i = k)) as [-> | Hne].
  - rewrite list_lookup_alter_eq. destruct (m !! k) eqn:Hk.
    + rewrite list_lookup_insert_eq; [done |]. by eapply lookup_lt_Some.
    + apply lookup_ge_None in Hk. rewrite list_insert_ge by done. by apply lookup_ge_None.
  - by rewrite list_lookup_insert_ne, list_lookup_alter_ne.
Qed.

(** ** Pixels of an array of rows *)

(** The cells of the rows [y0 .. y1-1] and columns [x0 .. x1-1], row by row. *)
Definition cells (y0 y1 x0 x1 : Z) : list (Z * Z) := seqZ y0 (y1 - y0) ≫= fun y => pair y <$> seqZ x0 (x1 - x0).

(** The position of a pixel. *)
Definition idx (w y x : Z) : nat := Z.to_nat (y * w + x).

Lemma elem_of_cells y0 y1 x0 x1 c : c ∈ cells y0 y1 x0 x1 <-> y0 <= c.1 < y1 /\ x0 <= c.2 < x1.
Proof.
  unfold cells. rewrite list_elem_of_bind. split.
  - intros (y & Hy & Hin). apply list_elem_of_fmap in Hy as (x & -> & Hx). rewrite elem_of_seqZ in *. simpl. lia.
  - intros [Hy Hx]. exists c.1. rewrite elem_of_seqZ. split; [| lia].
    apply list_elem_of_fmap. exists c.2. rewrite elem_of_seqZ. destruct c. split; [done | simpl in *; lia].
Qed.

Lemma NoDup_pairs {A B} (l : list A) (k : A -> list B) :
  NoDup l -> (forall a, NoDup (k a)) -> NoDup (l ≫= fun a => pair a <$> k a).
Proof.
  intros Hl Hk. induction Hl as [| a l Hn _ IH]; [constructor |]. cbn [mbind list_bind].
  apply list.NoDup_app. split; [apply NoDup_fmap; [by intros ? ? [= ->] | done] |]. split; [| done].
  intros [a' b] Hin Hin'. apply list_elem_of_fmap in Hin as (? & [= -> ->] & _).
  apply list_elem_of_bind in Hin' as (a' & Hin' & Ha'). apply list_elem_of_fmap in Hin' as (? & [= <- _] & _). done.
Qed.

(** The [n]-th pair, counted along the second list. *)
Lemma lookup_pairs {A B} (l : list A) (k : list B) (p q : nat) a b :
  l !! p = Some a -> k !! q = Some b -> (l ≫= fun x => pair x <$> k) !! (p * length k + q)%nat = Some (a, b).
Proof.
  intros Hp Hq. pose proof (lookup_lt_Some _ _ _ Hq) as Hlt. revert p Hp.
  induction l as [| x l IH]; intros p Hp; [done |]. cbn [mbind list_bind]. destruct p as [| p].
  - injection Hp as ->. rewrite lookup_app_l by (rewrite length_fmap; lia). rewrite list_lookup_fmap. simpl. by rewrite Hq.
  - rewrite lookup_app_r by (rewrite length_fmap; lia). rewrite length_fmap.
    replace (S p * length k + q - length k)%nat with (p * length k + q)%nat by lia. by apply IH.
Qed.

Lemma NoDup_cells y0 y1 x0 x1 : NoDup (cells y0 y1 x0 x1).
Proof. apply NoDup_pairs; intros; apply NoDup_seqZ. Qed.

Lemma idx_inj w y x y' x' : 0 <= x < w -> 0 <= x' < w -> 0 <= y -> 0 <= y' -> idx w y x = idx w y' x' -> y = y' /\ x = x'.
Proof.
  unfold idx. intros Hx Hx' Hy Hy' He. apply Z2Nat.inj in He; [| nia | nia].
  assert (y = y') by (apply (Z.div_mod_unique w y y' x x'); [by left | by left | lia]). lia.
Qed.

Lemma idx_bound w h y x : 0 <= x < w -> 0 <= y < h -> 0 <= y * w + x < w * h.
Proof. intros. nia. Qed.

(** Every position of the array is the position of one pixel. *)
Lemma idx_surj w h k : 0 < w -> (k < Z.to_nat (w * h))%nat ->
  exists y x, 0 <= y < h /\ 0 <= x < w /\ k = idx w y x.
Proof.
  intros Hw Hk. exists (Z.of_nat k / w), (Z.of_nat k mod w).
  pose proof (Z.mod_pos_bound (Z.of_nat k) w Hw). pose proof (Z.div_mod (Z.of_nat k) w).
  assert (0 <= Z.of_nat k < w * h) by lia.
  split; [split; [apply Z.div_pos; lia | apply Z.div_lt_upper_bound; lia] |]. split; [done |].
  unfold idx. lia.
Qed.

Lemma fetch_idx {A} (l : list A) w y x : 0 <= y * w + x -> fetch l (y * w + x) = l !! idx w y x.
Proof. intros H. unfold fetch, idx. by rewrite (proj2 (Z.ltb_ge _ _)). Qed.

Lemma inside_true {A} (l : list A) i : 0 <= i < Z.of_nat (length l) -> inside l i = true.
Proof. intros. unfold inside. by rewrite (proj2 (Z.leb_le _ _)), (proj2 (Z.ltb_lt _ _)) by lia. Qed.

Lemma fetch_some {A} (l : list A) i : 0 <= i < Z.of_nat (length l) -> exists a, fetch l i = Some a.
Proof.
  intros Hi. unfold fetch. rewrite (proj2 (Z.ltb_ge _ _)) by lia. apply lookup_lt_is_Some. lia.
Qed.

End Raster.
