(* ===== verification/Ppm.v ===== *)
(** * The PPM reader of the image programs ([CSCE646/prNN/myppm.h])

    The class [myppm] is repeated in the programs with small changes.  This file models
    what they share: the record of its fields, [clean_up], and the three forms of
    [ppm_init] (one pixel array in pr01 and pr03, two in pr04 and pr05, an array of hues
    in pr05, one array and the centre in pr06 and pr07), over a model of the C++ streams
    they read from.

    A stream is the bytes not read yet and whether it is still [good()]: every operation
    of a stream that is not good fails and leaves its target alone.  Memory from [new] and
    the array [colors] are not initialised; their contents are the parameter [env]. *)

From S2P Require Import Prelude CMem Double Raster.
From Stdlib Require Import ZArith Lia SpecFloat.
From stdpp Require Import base list numbers.
From Stdlib Require String.
Import String.StringSyntax.
Import Double Raster.
Open Scope Z_scope.

Module Ppm.

(** ** Data *)
Record RGB := mk_RGB { red : Z; green : Z; blue : Z }.
Definition byte_pixel (c : RGB) : Prop := is_byte (red c) /\ is_byte (green c) /\ is_byte (blue c).

(** The fields of the class in all of its versions; a program uses those it declares. *)
Record myppm := mk_myppm {
  width : Z;
  height : Z;
  size : Z;
  RGB_range : Z;
  pixel_map : list RGB;
  new_map : list RGB;
  output_map : list RGB;
  hue_map : list double;
  center : double * double;
  bias : Z;
  translation : double * double
}.

Definition set_width (w : Z) (p : myppm) : myppm :=
  mk_myppm w (height p) (size p) (RGB_range p) (pixel_map p) (new_map p) (output_map p) (hue_map p) (center p) (bias p) (translation p).
Definition set_height (h : Z) (p : myppm) : myppm :=
  mk_myppm (width p) h (size p) (RGB_range p) (pixel_map p) (new_map p) (output_map p) (hue_map p) (center p) (bias p) (translation p).
Definition set_size (n : Z) (p : myppm) : myppm :=
  mk_myppm (width p) (height p) n (RGB_range p) (pixel_map p) (new_map p) (output_map p) (hue_map p) (center p) (bias p) (translation p).
Definition set_range (n : Z) (p : myppm) : myppm :=
  mk_myppm (width p) (height p) (size p) n (pixel_map p) (new_map p) (output_map p) (hue_map p) (center p) (bias p) (translation p).
Definition set_pixel_map (m : list RGB) (p : myppm) : myppm :=
  mk_myppm (width p) (height p) (size p) (RGB_range p) m (new_map p) (output_map p) (hue_map p) (center p) (bias p) (translation p).
Definition set_new_map (m : list RGB) (p : myppm) : myppm :=
  mk_myppm (width p) (height p) (size p) (RGB_range p) (pixel_map p) m (output_map p) (hue_map p) (center p) (bias p) (translation p).
Definition set_output_map (m : list RGB) (p : myppm) : myppm :=
  mk_myppm (width p) (height p) (size p) (RGB_range p) (pixel_map p) (new_map p) m (hue_map p) (center p) (bias p) (translation p).
Definition set_hue_map (m : list double) (p : myppm) : myppm :=
  mk_myppm (width p) (height p) (size p) (RGB_range p) (pixel_map p) (new_map p) (output_map p) m (center p) (bias p) (translation p).
Definition set_center (c : double * double) (p : myppm) : myppm :=
  mk_myppm (width p) (height p) (size p) (RGB_range p) (pixel_map p) (new_map p) (output_map p) (hue_map p) c (bias p) (translation p).
Definition set_bias (b : Z) (p : myppm) : myppm :=
  mk_myppm (width p) (height p) (size p) (RGB_range p) (pixel_map p) (new_map p) (output_map p) (hue_map p) (center p) b (translation p).
Definition set_translation (t : double * double) (p : myppm) : myppm :=
  mk_myppm (width p) (height p) (size p) (RGB_range p) (pixel_map p) (new_map p) (output_map p) (hue_map p) (center p) (bias p) t.

(** A global object of the class before [main]. *)
Definition zeroed : myppm := mk_myppm 0 0 0 0 [] [] [] [] (S754_zero false, S754_zero false) 0 (S754_zero false, S754_zero false).

(** What the program does not initialise: the pixels of the new arrays [pixel_map] (0),
    [new_map] (1) and [output_map] (2), the hues, and the array [colors] in the round for row [i] and column [j]. *)
Record env := mk_env {
  junk : nat -> nat -> RGB;
  junk_hue : nat -> double;
  stale : Z -> Z -> RGB
}.

(** ** Streams *)
Record istream := mk_istream { rest : list Z; good : bool }.

Definition newline : Z := 10.
Definition hash : Z := 35.
Definition EOF : Z := -1.

(** A line and what follows its newline; the second component is [None] when the end of
    the file came first. *)
Fixpoint split_line (l : list Z) : list Z * option (list Z) :=
  match l with
  | [] => ([], None)
  | c :: l' => if c =? newline then ([], Some l') else let (a, b) := split_line l' in (c :: a, b)
  end.

Abbreviation R := (M (istream * myppm)).

Definition get_stream : R istream := fun s => Done s.1 s.
Definition set_stream (f : istream) : R unit := fun s => Done tt (f, s.2).
Definition get_ppm : R myppm := fun s => Done s.2 s.
Definition update (f : myppm -> myppm) : R unit := fun s => Done tt (s.1, f s.2).

(** [getline(file, line)]; the result is the new value of [line]. *)
Definition getline (line : list Z) : R (list Z) :=
  let* f := get_stream in
  if good f then
    match split_line (rest f) with
    | (l, Some r) => set_stream (mk_istream r true) ;;; ret l
    | (l, None) => set_stream (mk_istream [] false) ;;; ret l
    end
  else ret line.

(** [file.peek()]. *)
Definition peek : R Z :=
  let* f := get_stream in
  if good f then
    match rest f with
    | c :: _ => ret c
    | [] => set_stream (mk_istream [] false) ;;; ret EOF
    end
  else ret EOF.

(** [file.read(colors, 3)]: the bytes read, then what the array held. *)
Definition read3 (old : list Z) : R (list Z) :=
  let* f := get_stream in
  if good f then
    let got := take 3 (rest f) in
    set_stream (mk_istream (drop 3 (rest f)) (3 <=? zlen got)) ;;;
    ret (got ++ drop (length got) old)
  else ret old.

(** ** Numbers *)
Definition is_space (c : Z) : bool := (c =? 32) || ((9 <=? c) && (c <=? 13)).
Definition is_digit (c : Z) : bool := (48 <=? c) && (c <=? 57).

Fixpoint drop_while (p : Z -> bool) (l : list Z) : list Z :=
  match l with
  | [] => []
  | c :: l' => if p c then drop_while p l' else l
  end.
Fixpoint take_while (p : Z -> bool) (l : list Z) : list Z :=
  match l with
  | [] => []
  | c :: l' => if p c then c :: take_while p l' else []
  end.

Definition number (ds : list Z) : Z := fold_left (fun v d => v * 10 + (d - 48)) ds 0.
Definition INT_MAX : Z := 2147483647.
Definition INT_MIN : Z := -2147483648.

(** An optional sign and the digits after it. *)
Definition sign_of (l : list Z) : bool * list Z :=
  match l with
  | 45 :: l' => (true, l')
  | 43 :: l' => (false, l')
  | _ => (false, l)
  end.
Definition signed (neg : bool) (v : Z) : Z := if neg then - v else v.

(** [line >> v]: the new value of [v] and the stream; characters of [line] that are left
    and whether it is good. *)
Definition extract (line : istream) (v : Z) : Z * istream :=
  if good line then
    match drop_while is_space (rest line) with
    | [] => (v, mk_istream [] false)
    | l =>
        let (neg, l1) := sign_of l in
        let ds := take_while is_digit l1 in
        let r := drop_while is_digit l1 in
        match ds with
        | [] => (0, mk_istream r false)
        | _ =>
            let n := signed neg (number ds) in
            if INT_MAX <? n then (INT_MAX, mk_istream r false)
            else if n <? INT_MIN then (INT_MIN, mk_istream r false)
            else (n, mk_istream r (match r with [] => false | _ => true end))
        end
    end
  else (v, line).

(** [istringstream(line) >> width >> height]. *)
Definition scan_size (line : list Z) (w h : Z) : Z * Z :=
  let (w', s) := extract (mk_istream line true) w in
  let (h', _) := extract s h in
  (w', h').

(** [stoi]; [None] is one of its exceptions. *)
Definition stoi (line : list Z) : option Z :=
  let (neg, l) := sign_of (drop_while is_space line) in
  match take_while is_digit l with
  | [] => None
  | ds =>
      let n := signed neg (number ds) in
      if (INT_MIN <=? n) && (n <=? INT_MAX) then Some n else None
  end.

(** ** [clean_up]: skip the lines that start with [#] *)
Fixpoint clean_up_loop (fuel : nat) (dumpster : list Z) : R unit :=
  match fuel with
  | O => undef NoFuel
  | S n =>
      let* c := peek in
      if c =? hash then
        let* dumpster' := getline dumpster in clean_up_loop n dumpster'
      else ret tt
  end.
Definition clean_up : R unit := let* f := get_stream in clean_up_loop (S (length (rest f))) [].

(** ** [ppm_init] *)
Definition P6 : list Z := lit "P6".

(** From the first line to the largest colour value. *)
Definition read_header : R unit :=
  let* magic := getline [] in
  if bool_decide (magic = P6) then
    clean_up ;;;
    let* line := getline magic in
    let* p := get_ppm in
    let (w, h) := scan_size line (width p) (height p) in
    update (set_width w) ;;;
    update (set_height h) ;;;
    clean_up ;;;
    let* line2 := getline line in
    let* v := expect Uncaught (stoi line2) in
    update (set_range v)
  else exit (-1).

(** [width * height], the number of elements of a new array: an overflow of [int] is
    undefined, a negative number throws. *)
Definition array_size : R Z :=
  let* p := get_ppm in
  let n := width p * height p in
  if (n <? INT_MIN) || (INT_MAX <? n) then undef IntOverflow
  else if n <? 0 then undef Uncaught
  else ret n.

Definition new_array {A} (fill : nat -> A) (n : Z) : list A := fill <$> seq 0 (Z.to_nat n).

(** [colors] after the read for row [i], column [j]. *)
Definition read_colors (e : env) (i j : Z) : R (list Z) :=
  let c := stale e i j in read3 [red c; green c; blue c].

(** [m[index] = v] for one of the arrays. *)
Definition store {A} (field : myppm -> list A) (set : list A -> myppm -> myppm) (index : Z) (v : A) : R unit := fun s =>
  if inside (field s.2) index
  then Done tt (s.1, set (<[Z.to_nat index := v]> (field s.2)) s.2)
  else Undef OutOfBounds s.

(** The three [char]s as the fields of a pixel. *)
Definition pixel_of (colors : list Z) : RGB :=
  match colors with
  | [r; g; b] => mk_RGB (u8 (s8 r)) (u8 (s8 g)) (u8 (s8 b))
  | _ => mk_RGB 0 0 0
  end.

(** The loop over the pixel data, the bottom row of the array last. *)
Definition read_pixels (e : env) (put : Z -> list Z -> R unit) : R unit :=
  let* p := get_ppm in
  for_down (height p) (fun i =>
    for_up 0 (width p) (fun j =>
      let* colors := read_colors e i j in
      put (i * width p + j) colors)).

(** pr01 and pr03: one array. *)
Definition ppm_init_body (e : env) : R unit :=
  read_header ;;;
  let* n := array_size in
  update (set_pixel_map (new_array (junk e 0) n)) ;;;
  clean_up ;;;
  read_pixels e (fun index colors => store pixel_map set_pixel_map index (pixel_of colors)).

(** pr04 and pr05: the picture and the picture to be drawn. *)
Definition ppm_init2_body (e : env) : R unit :=
  read_header ;;;
  let* n := array_size in
  update (set_pixel_map (new_array (junk e 0) n)) ;;;
  update (set_new_map (new_array (junk e 1) n)) ;;;
  clean_up ;;;
  read_pixels e (fun index colors =>
    store pixel_map set_pixel_map index (pixel_of colors) ;;;
    store new_map set_new_map index (pixel_of colors)).

(** pr06 and pr07: one array, the number of pixels and the centre. *)
Definition ppm_init_center_body (e : env) : R unit :=
  read_header ;;;
  let* n := array_size in
  update (set_size n) ;;;
  let* p := get_ppm in
  update (set_center (of_int (Z.quot (width p) 2), of_int (Z.quot (height p) 2))) ;;;
  update (set_translation (of_int 0, of_int 0)) ;;;
  update (set_pixel_map (new_array (junk e 0) n)) ;;;
  clean_up ;;;
  read_pixels e (fun index colors => store pixel_map set_pixel_map index (pixel_of colors)).

(** Running one of them on the file with these contents ([None]: it cannot be opened)
    and an object with these fields. *)
Definition run_init (body : R unit) (file : option (list Z)) (p : myppm) : outcome myppm unit :=
  let f := match file with Some bytes => mk_istream bytes true | None => mk_istream [] false end in
  match body (f, p) with
  | Done _ s => Done tt s.2
  | Exited c s => Exited c s.2
  | Undef w s => Undef w s.2
  end.
Definition ppm_init (e : env) := run_init (ppm_init_body e).
Definition ppm_init2 (e : env) := run_init (ppm_init2_body e).
Definition ppm_init_center (e : env) := run_init (ppm_init_center_body e).

End Ppm.
