(* ===== verification/PpmRead.v ===== *)
(** * What the PPM reader reads

    [clean_up] ends on every stream; a well-formed header with any number of comments is
    read as its numbers; the pixel data fills the array row by row from the last row to
    the first, which turns the picture upside down as [glDrawPixels] expects it.  The
    comment skipping before the pixel data is also run on the data itself: a picture
    whose first byte is [#] loses everything up to the first newline byte. *)

From S2P Require Import Prelude CMem Double Raster Ppm.
From Stdlib Require Import ZArith Lia.
From stdpp Require Import base list numbers.
From Stdlib Require String.
Import String.StringSyntax.
Import Double Raster Ppm.
Open Scope Z_scope.

Module PpmRead.

(** ** Lines *)
Definition no_newline (l : list Z) : Prop := Forall (fun c => c <> newline) l.

Lemma split_line_app l r : no_newline l -> split_line (l ++ newline :: r) = (l, Some r).
Proof.
  intros Hl. induction Hl as [| c l Hc _ IH]; cbn [split_line app].
  - by rewrite Z.eqb_refl.
  - rewrite (proj2 (Z.eqb_neq c newline)) by done. by rewrite IH.
Qed.

Lemma split_line_shorter l : match split_line l with (_, Some r) => (length r < length l)%nat | _ => True end.
Proof.
  induction l as [| c l IH]; cbn [split_line]; [done |]. destruct (c =? newline); [simpl; lia |].
  destruct (split_line l) as [a [r |]]; simpl; [lia | done].
Qed.

Lemma getline_line line l r p : no_newline l ->
  getline line (mk_istream (l ++ newline :: r) true, p) = Done l (mk_istream r true, p).
Proof. intros Hl. unfold getline, bind, get_stream. cbn [fst good rest]. by rewrite split_line_app. Qed.

(** ** [clean_up] *)

(** One round: the stream after a comment line, or [None] where the loop ends. *)
Definition skip_line (f : istream) : option istream :=
  if good f then
    match rest f with
    | 35 :: _ => Some (match split_line (rest f) with
                       | (_, Some r) => mk_istream r true
                       | (_, None) => mk_istream [] false
                       end)
    | _ => None
    end
  else None.

(** The stream after [peek] found no comment. *)
Definition peeked (f : istream) : istream :=
  if good f then match rest f with [] => mk_istream [] false | _ => f end else f.

Lemma clean_up_round n d f p : exists d', clean_up_loop (S n) d (f, p) =
  match skip_line f with Some f' => clean_up_loop n d' (f', p) | None => Done tt (peeked f, p) end.
Proof.
  destruct f as [r g]. cbn [clean_up_loop]. unfold bind at 1, peek, skip_line, peeked, bind at 1, get_stream. cbn [fst good rest].
  destruct g; [| by exists d].
  destruct r as [| c r]; [by exists d |]. cbn [ret]. unfold ret at 1.
  destruct (Z.eqb_spec c hash) as [-> | Hc].
  - unfold bind, getline, bind, get_stream. cbn [fst good rest].
    destruct (split_line (hash :: r)) as [l [r' |]] eqn:Hs; exists l; done.
  - exists d. unfold hash in Hc. destruct c as [| q | q]; try done. do 6 (destruct q as [q | q |]; try done).
Qed.

Lemma skip_line_shorter f f' : skip_line f = Some f' -> (length (rest f') < length (rest f))%nat.
Proof.
  destruct f as [r []]; unfold skip_line; cbn [good rest]; [| done].
  destruct r as [| c r]; [done |]. intros H.
  assert (Hs : f' = match split_line (c :: r) with (_, Some r') => mk_istream r' true | (_, None) => mk_istream [] false end)
    by (destruct c as [| q | q]; try done; do 6 (destruct q as [q | q |]; try done); by inversion H).
  rewrite Hs. clear H Hs. pose proof (split_line_shorter (c :: r)) as Hlen.
  destruct (split_line (c :: r)) as [l [r' |]]; simpl in *; lia.
Qed.

(** A stream that is not good has nothing left. *)
Definition sane (f : istream) : Prop := good f = false -> rest f = [].

Lemma skip_line_sane f f' : skip_line f = Some f' -> sane f'.
Proof.
  destruct f as [[| c r] []]; unfold skip_line; cbn [good rest]; try done.
  destruct (split_line (c :: r)) as [l [r' |]]; destruct c as [| q | q]; try done;
    do 6 (destruct q as [q | q |]; try done); by intros [= <-].
Qed.

(** The loop always ends; fuel beyond the length of the stream and the old contents of
    [dumpster] make no difference. *)
Lemma clean_up_loop_total n : forall f, (length (rest f) < n)%nat -> exists f',
  (forall n' d p, (length (rest f) < n')%nat -> clean_up_loop n' d (f, p) = Done tt (f', p)) /\
  skip_line f' = None /\ (length (rest f') <= length (rest f))%nat /\ (good f' = true -> rest f' <> []) /\ (sane f -> sane f').
Proof.
  induction n as [| n IH]; intros f Hn; [lia |]. destruct (skip_line f) as [f1 |] eqn:Hs.
  - pose proof (skip_line_shorter f f1 Hs). destruct (IH f1) as (f' & Hrun & Hstop & Hlen & Hne); [lia |].
    exists f'. split; [| split; [done | split; [lia | split; [apply Hne | intros _; by eapply Hne, skip_line_sane]]]].
    intros [| n'] d p Hn'; [lia |]. destruct (clean_up_round n' d f p) as [d' ->]. rewrite Hs. apply Hrun. lia.
  - exists (peeked f). split.
    { intros [| n'] d p Hn'; [lia |]. destruct (clean_up_round n' d f p) as [d' ->]. by rewrite Hs. }
    destruct f as [[| c r] []]; unfold peeked; cbn [good rest]; done.
Qed.

Lemma clean_up_skip f f1 p : skip_line f = Some f1 -> clean_up (f, p) = clean_up (f1, p).
Proof.
  intros Hs. pose proof (skip_line_shorter f f1 Hs). unfold clean_up, bind, get_stream. cbn [fst].
  destruct (clean_up_round (length (rest f)) [] f p) as [d' ->]. rewrite Hs.
  destruct (clean_up_loop_total (length (rest f)) f1) as (f' & Hrun & _); [lia |]. rewrite !Hrun by lia. done.
Qed.

Lemma clean_up_stop c r p : c <> hash -> clean_up (mk_istream (c :: r) true, p) = Done tt (mk_istream (c :: r) true, p).
Proof.
  intros Hc. unfold clean_up, bind at 1, get_stream. cbn [fst].
  destruct (clean_up_round (length (rest (mk_istream (c :: r) true))) [] (mk_istream (c :: r) true) p) as [d' ->].
  unfold skip_line. cbn [good rest]. unfold hash in Hc.
  destruct c as [| q | q]; try done. do 6 (destruct q as [q | q |]; try done).
Qed.

(** Comment lines. *)
Definition comment (l : list Z) : Prop := exists t, l = hash :: t /\ no_newline t.
Definition lines (ls : list (list Z)) : list Z := concat (map (fun l => l ++ [newline]) ls).

Lemma clean_up_line t r p : no_newline t ->
  clean_up (mk_istream (hash :: t ++ newline :: r) true, p) = clean_up (mk_istream r true, p).
Proof.
  intros Ht. apply clean_up_skip. unfold skip_line. cbn [good rest hash].
  change (hash :: t ++ newline :: r) with ((hash :: t) ++ newline :: r). rewrite split_line_app; [done |]. by constructor.
Qed.

Lemma clean_up_comments cs r p : Forall comment cs ->
  clean_up (mk_istream (lines cs ++ r) true, p) = clean_up (mk_istream r true, p).
Proof.
  intros Hcs. induction Hcs as [| l cs (t & -> & Ht) _ IH]; [done |].
  unfold lines. cbn [map concat app]. rewrite <- !app_assoc. cbn [app]. rewrite clean_up_line by done. exact IH.
Qed.

(** ** The header *)

(** A number written with decimal digits, that fits an [int]. *)
Definition numeral (t : list Z) (n : Z) : Prop :=
  t <> [] /\ Forall (fun c => is_digit c = true) t /\ number t = n /\ n <= INT_MAX.

Lemma take_while_app p l r : Forall (fun c => p c = true) l -> (match r with [] => True | c :: _ => p c = false end) ->
  take_while p (l ++ r) = l /\ drop_while p (l ++ r) = r.
Proof.
  intros Hl Hr. induction Hl as [| c l Hc _ [IH1 IH2]]; cbn [app take_while drop_while].
  - destruct r as [| c r]; [done |]. cbn [take_while drop_while]. by rewrite Hr.
  - rewrite Hc. by rewrite IH1.
Qed.

Lemma number_nonneg t : Forall (fun c => is_digit c = true) t -> 0 <= number t.
Proof.
  unfold number. enough (H : forall v, 0 <= v -> Forall (fun c => is_digit c = true) t -> 0 <= fold_left (fun v d => v * 10 + (d - 48)) t v) by by apply H.
  induction t as [| d t IH]; intros v Hv Ht; [done |]. inversion Ht as [| ? ? Hd Ht']; subst. cbn [fold_left]. apply IH; [| done].
  unfold is_digit in Hd. apply andb_true_iff in Hd as [Hd _]. apply Z.leb_le in Hd. lia.
Qed.

(** A digit is neither a space, a sign, a newline nor a comment sign. *)
Lemma digit_neither c : is_digit c = true -> is_space c = false /\ c <> 45 /\ c <> 43 /\ c <> newline /\ c <> hash.
Proof.
  unfold is_digit, is_space, newline, hash. intros H. apply andb_true_iff in H as [H1 H2].
  apply Z.leb_le in H1, H2. repeat split; try lia.
Qed.

Lemma sign_of_other c l : c <> 45 -> c <> 43 -> sign_of (c :: l) = (false, c :: l).
Proof. intros H1 H2. unfold sign_of. destruct c as [| q | q]; try done. do 6 (destruct q as [q | q |]; try done). Qed.

Lemma extract_numeral pre t n r v : Forall (fun c => is_space c = true) pre -> numeral t n ->
  (match r with [] => True | c :: _ => is_digit c = false end) ->
  extract (mk_istream (pre ++ t ++ r) true) v = (n, mk_istream r (match r with [] => false | _ => true end)).
Proof.
  intros Hpre (Hne & Hd & Hn & Hmax) Hr. unfold extract. cbn [good rest]. destruct t as [| c t]; [done |].
  inversion Hd as [| ? ? Hc Hd']; subst. destruct (digit_neither c Hc) as (Hs & H1 & H2 & _).
  cbn [app]. destruct (take_while_app is_space pre (c :: t ++ r)) as [_ ->]; [done | done |].
  rewrite sign_of_other by done. change (c :: t ++ r) with ((c :: t) ++ r).
  destruct (take_while_app is_digit (c :: t) r) as [-> ->]; [done | done |]. cbn [signed].
  pose proof (number_nonneg (c :: t) Hd). rewrite (proj2 (Z.ltb_ge _ _)) by done.
  by rewrite (proj2 (Z.ltb_ge _ _)) by (unfold INT_MIN; lia).
Qed.

Lemma scan_numerals ws w hs h v v' : numeral ws w -> numeral hs h -> scan_size (ws ++ 32 :: hs) v v' = (w, h).
Proof.
  intros Hw Hh. unfold scan_size. rewrite (extract_numeral [] ws w (32 :: hs)) by (done || constructor).
  rewrite <- (app_nil_r hs). change (32 :: hs ++ []) with ([32] ++ hs ++ []).
  rewrite (extract_numeral [32] hs h []); [done | by repeat constructor | done | done].
Qed.

Lemma stoi_numeral t n : numeral t n -> stoi t = Some n.
Proof.
  intros (Hne & Hd & Hn & Hmax). destruct t as [| c t]; [done |].
  inversion Hd as [| ? ? Hc Hd']; subst. destruct (digit_neither c Hc) as (Hs & H1 & H2 & _).
  unfold stoi. cbn [drop_while]. rewrite Hs, sign_of_other by done.
  destruct (take_while_app is_digit (c :: t) []) as [Ht _]; [done | done |]. rewrite app_nil_r in Ht. rewrite Ht.
  cbn [signed]. pose proof (number_nonneg (c :: t) Hd).
  by rewrite (proj2 (Z.leb_le _ _)), (proj2 (Z.leb_le _ _)) by (unfold INT_MIN; lia).
Qed.

Lemma numeral_no_newline t n : numeral t n -> no_newline t.
Proof. intros (_ & Hd & _). eapply list.Forall_impl; [exact Hd |]. intros c Hc. by apply digit_neither. Qed.

Lemma clean_up_numeral t n r p : numeral t n -> clean_up (mk_istream (t ++ r) true, p) = Done tt (mk_istream (t ++ r) true, p).
Proof.
  intros (Hne & Hd & _). destruct t as [| c t]; [done |]. inversion Hd as [| ? ? Hc _]; subst.
  apply clean_up_stop. by apply digit_neither.
Qed.

(** A header: the magic number, comments, width and height, comments, the largest value. *)
Definition header (c1 c2 : list (list Z)) (ws hs ms : list Z) : list Z :=
  P6 ++ [newline] ++ lines c1 ++ ws ++ [32] ++ hs ++ [newline] ++ lines c2 ++ ms ++ [newline].

Lemma read_header_numbers c1 c2 ws w hs h ms m data p :
  Forall comment c1 -> Forall comment c2 -> numeral ws w -> numeral hs h -> numeral ms m ->
  read_header (mk_istream (header c1 c2 ws hs ms ++ data) true, p)
  = Done tt (mk_istream data true, set_range m (set_height h (set_width w p))).
Proof.
  intros H1 H2 Hw Hh Hm. unfold header. rewrite <- !app_assoc. cbn [app].
  unfold read_header. unfold bind at 1.
  rewrite getline_line by (by repeat constructor). rewrite bool_decide_eq_true_2 by done.
  unfold bind at 1. rewrite clean_up_comments, (clean_up_numeral ws w) by done.
  replace (ws ++ 32 :: hs ++ newline :: lines c2 ++ ms ++ newline :: data)
    with ((ws ++ 32 :: hs) ++ newline :: lines c2 ++ ms ++ newline :: data) by (by rewrite <- app_assoc).
  unfold bind at 1. rewrite getline_line.
  2: { apply Forall_app. split; [by eapply numeral_no_newline |]. constructor; [done |]. by eapply numeral_no_newline. }
  unfold bind at 1, get_ppm. cbn [snd]. rewrite (scan_numerals ws w hs h) by done.
  unfold bind at 1, update at 1. cbn [fst snd]. unfold bind at 1, update at 1. cbn [fst snd].
  unfold bind at 1. rewrite clean_up_comments, (clean_up_numeral ms m) by done.
  unfold bind at 1. rewrite getline_line by (by eapply numeral_no_newline).
  unfold bind at 1. rewrite (stoi_numeral ms m) by done. reflexivity.
Qed.

(** ** The pixel data *)

(** The pixels in the order of the file: rows from the last to the first. *)
Definition file_order (w h : Z) : list (Z * Z) := reverse (seqZ 0 h) ≫= fun i => pair i <$> seqZ 0 (w - 0).

(** [colors] after the read for the pixel [c], the [k]-th of the file: its bytes, as far
    as the file has them. *)
Definition colors_at (e : env) (data : list Z) (k : nat) (c : Z * Z) : list Z :=
  let got := take 3 (drop (3 * k) data) in
  let old := stale e c.1 c.2 in
  got ++ drop (length got) [red old; green old; blue old].

Lemma read_colors_step e i j f p : sane f -> exists f', read_colors e i j (f, p) = Done (colors_at e (rest f) 0 (i, j)) (f', p) /\
  rest f' = drop 3 (rest f) /\ sane f'.
Proof.
  intros Hf. unfold read_colors, read3, bind, get_stream, colors_at. cbn [fst snd].
  destruct (good f) eqn:Hg.
  - eexists. split; [reflexivity |]. split; [done |]. unfold sane. cbn [good rest]. intros H3. apply Z.leb_gt in H3.
    apply drop_ge. unfold zlen in H3. rewrite length_take in H3. lia.
  - exists f. rewrite (Hf Hg). done.
Qed.

(** The loop, for a [put] that changes the object by [upd] as long as [Inv] holds: a fold
    over the numbered pixels. *)
Lemma read_pixels_fold e (put : Z -> list Z -> R unit) upd (Inv : myppm -> Prop) f p :
  sane f -> Inv p ->
  (forall c colors f' p', c ∈ cells 0 (height p) 0 (width p) -> Inv p' ->
    put (c.1 * width p + c.2) colors (f', p') = Done tt (f', upd c colors p') /\ Inv (upd c colors p')) ->
  exists f', read_pixels e put (f, p) = Done tt (f', fold_left (fun p' kc => upd kc.2 (colors_at e (rest f) kc.1 kc.2) p')
    (imap pair (file_order (width p) (height p))) p).
Proof.
  intros Hf Hp Hput. unfold read_pixels, bind at 1, get_ppm. cbn [snd]. unfold for_down, for_up. rewrite for_each_nest.
  fold (file_order (width p) (height p)).
  assert (Hin : forall c, c ∈ file_order (width p) (height p) -> c ∈ cells 0 (height p) 0 (width p)).
  { intros c Hc. apply elem_of_cells. apply list_elem_of_bind in Hc as (i & Hc & Hi). apply list_elem_of_fmap in Hc as (j & -> & Hj).
    rewrite elem_of_reverse in Hi. rewrite elem_of_seqZ in *. cbn [fst snd]. lia. }
  revert Hin. generalize (file_order (width p) (height p)). intros cs Hin.
  set (w := width p) in *. clearbody w.
  enough (H : forall cs' k f0 p0, (forall c, c ∈ cs' -> c ∈ cs) -> sane f0 -> rest f0 = drop (3 * k) (rest f) -> Inv p0 ->
    exists f', for_each cs' (fun c => let* colors := read_colors e c.1 c.2 in put (c.1 * w + c.2) colors) (f0, p0)
      = Done tt (f', fold_left (fun p' kc => upd kc.2 (colors_at e (rest f) kc.1 kc.2) p') (imap (fun n c => ((k + n)%nat, c)) cs') p0)).
  { apply (H cs 0%nat f p); auto. }
  induction cs' as [| c cs' IH]; intros k f0 p0 Hsub Hf0 Hrest Hp0; [by eexists |].
  cbn [for_each imap fold_left fst snd]. destruct (read_colors_step e c.1 c.2 f0 p0 Hf0) as (f1 & Hread & Hr1 & Hf1).
  unfold bind at 1. unfold bind at 1. rewrite Hread.
  assert (Hc : colors_at e (rest f0) 0 (c.1, c.2) = colors_at e (rest f) (k + 0) c).
  { unfold colors_at. rewrite Hrest, drop_drop. by replace (3 * k + 3 * 0)%nat with (3 * (k + 0))%nat by lia. }
  rewrite Hc. destruct (Hput c (colors_at e (rest f) (k + 0) c) f1 p0) as [-> Hinv]; [apply Hin, Hsub; left | done |].
  destruct (IH (S k) f1 (upd c (colors_at e (rest f) (k + 0) c) p0)) as (f' & Hrun); [| done | | done |].
  - intros c' Hc'. apply Hsub. by right.
  - rewrite Hr1, Hrest, drop_drop. f_equal. lia.
  - exists f'. rewrite Hrun. do 2 f_equal. f_equal. apply imap_ext. intros n x _. simpl. f_equal. lia.
Qed.

(** The number of a pixel in the file. *)
Lemma file_order_lookup w h i j : 0 <= i < h -> 0 <= j < w -> file_order w h !! idx w (h - 1 - i) j = Some (i, j).
Proof.
  intros Hi Hj. unfold file_order. rewrite Z.sub_0_r.
  replace (idx w (h - 1 - i) j) with (Z.to_nat (h - 1 - i) * length (seqZ 0 w) + Z.to_nat j)%nat
    by (unfold idx; rewrite length_seqZ; nia).
  apply lookup_pairs.
  - rewrite reverse_lookup by (rewrite length_seqZ; lia). apply lookup_seqZ. rewrite length_seqZ. lia.
  - apply lookup_seqZ. lia.
Qed.

Lemma file_order_inv w h k c : file_order w h !! k = Some c -> (0 <= c.1 < h /\ 0 <= c.2 < w) /\ k = idx w (h - 1 - c.1) c.2.
Proof.
  intros Hk. assert (Hc : 0 <= c.1 < h /\ 0 <= c.2 < w).
  { apply list_elem_of_lookup_2, list_elem_of_bind in Hk as (i & Hc & Hi). apply list_elem_of_fmap in Hc as (j & -> & Hj).
    rewrite elem_of_reverse in Hi. rewrite elem_of_seqZ in *. cbn [fst snd]. lia. }
  split; [done |]. pose proof (file_order_lookup w h c.1 c.2 ltac:(lia) ltac:(lia)) as Hk'.
  assert (Hnd : NoDup (file_order w h)).
  { apply NoDup_pairs; intros; [rewrite reverse_Permutation |]; apply NoDup_seqZ. }
  eapply (NoDup_lookup _ _ _ c Hnd); [done |]. by destruct c.
Qed.

(** An array that every round fills at the pixel it read. *)
Lemma filled {V} (val : nat -> Z * Z -> V) w h (m : list V) i j :
  length m = Z.to_nat (w * h) -> 0 <= i < h -> 0 <= j < w ->
  fold_left (fun m' kc => <[idx w kc.2.1 kc.2.2 := val kc.1 kc.2]> m') (imap pair (file_order w h)) m !! idx w i j
  = Some (val (idx w (h - 1 - i) j) (i, j)).
Proof.
  intros Hm Hi Hj. set (k := idx w (h - 1 - i) j).
  transitivity (fold_left (touch (fun kc : nat * (Z * Z) => Some (idx w kc.2.1 kc.2.2)) (fun kc _ => val kc.1 kc.2))
    (imap pair (file_order w h)) m !! idx w i j).
  { f_equal. clear. revert m. induction (imap pair (file_order w h)) as [| c l IH]; intros m; [done |].
    cbn [fold_left]. rewrite <- IH. by rewrite insert_alter. }
  assert (Hel : forall kc, kc ∈ imap pair (file_order w h) <-> file_order w h !! kc.1 = Some kc.2).
  { intros [n c]. rewrite list_elem_of_lookup. split.
    - intros [n' Hn]. rewrite list_lookup_imap in Hn. destruct (file_order w h !! n') eqn:Hl; [| done]. by injection Hn as <- <-.
    - intros Hn. exists n. rewrite list_lookup_imap. cbn [fst snd] in Hn. by rewrite Hn. }
  rewrite (touch_hit _ _ _ _ _ (k, (i, j))); cbn [fst snd].
  - destruct (lookup_lt_is_Some_2 m (idx w i j)) as [v ->]; [| done].
    rewrite Hm. unfold idx. pose proof (idx_bound w h i j). lia.
  - apply NoDup_alt. intros n1 n2 [a c]. rewrite !list_lookup_imap.
    destruct (file_order w h !! n1); [| done]. destruct (file_order w h !! n2); [| done]. intros [= <- _] [= <- _]. done.
  - apply Hel. cbn [fst snd]. by apply file_order_lookup.
  - done.
  - intros [n [i' j']] Hn He. apply Hel in Hn. cbn [fst snd] in *. apply file_order_inv in Hn as [Hb ->]. cbn [fst snd] in *.
    injection He as He. apply idx_inj in He as [-> ->]; [done | lia..].
Qed.

(** ** Whole files *)

(** The bytes of a picture, given row by row from the top. *)
Definition pixel_bytes (c : RGB) : list Z := [red c; green c; blue c].
Definition picture_bytes (pic : list RGB) : list Z := concat (map pixel_bytes pic).

Lemma drop_picture k pic extra : (k <= length pic)%nat ->
  drop (3 * k) (picture_bytes pic ++ extra) = picture_bytes (drop k pic) ++ extra.
Proof.
  revert pic. induction k as [| k IH]; intros pic Hk; [done |]. destruct pic as [| c pic]; [simpl in Hk; lia |].
  replace (3 * S k)%nat with (3 + 3 * k)%nat by lia. rewrite <- drop_drop. unfold picture_bytes. cbn [map concat app pixel_bytes drop].
  apply IH. simpl in Hk. lia.
Qed.

Lemma pixel_of_bytes c : byte_pixel c -> pixel_of (pixel_bytes c) = c.
Proof. intros (H1 & H2 & H3). unfold pixel_of, pixel_bytes. rewrite !u8_s8, !u8_id by done. by destruct c. Qed.

Lemma colors_at_picture e pic extra k c cell : pic !! k = Some c ->
  colors_at e (picture_bytes pic ++ extra) k cell = pixel_bytes c.
Proof.
  intros Hk. unfold colors_at. rewrite drop_picture by (apply lookup_lt_Some in Hk; lia).
  rewrite (drop_S _ _ _ Hk). reflexivity.
Qed.

Lemma array_size_ok f p : 0 <= width p * height p <= INT_MAX -> array_size (f, p) = Done (width p * height p) (f, p).
Proof.
  intros Hn. unfold array_size, bind, get_ppm. cbn [snd].
  rewrite (proj2 (Z.ltb_ge _ INT_MIN)), (proj2 (Z.ltb_ge INT_MAX _)), (proj2 (Z.ltb_ge _ 0)) by (unfold INT_MIN; lia). done.
Qed.

Lemma length_new_array {A} (fill : nat -> A) n : length (new_array fill n) = Z.to_nat n.
Proof. unfold new_array. by rewrite length_fmap, length_seq. Qed.

Lemma store_ok {A} (field : myppm -> list A) set index v f p : 0 <= index < Z.of_nat (length (field p)) ->
  store field set index v (f, p) = Done tt (f, set (<[Z.to_nat index := v]> (field p)) p).
Proof. intros Hi. unfold store. cbn [fst snd]. by rewrite inside_true. Qed.

(** The array after the loop over [data]. *)
Definition picture {V} (conv : list Z -> V) (e : env) (data : list Z) (w h : Z) (m : list V) : list V :=
  fold_left (fun m' kc => <[idx w kc.2.1 kc.2.2 := conv (colors_at e data kc.1 kc.2)]> m') (imap pair (file_order w h)) m.

Lemma picture_lookup {V} (conv : list Z -> V) e data w h m i j : length m = Z.to_nat (w * h) -> 0 <= i < h -> 0 <= j < w ->
  picture conv e data w h m !! idx w i j = Some (conv (colors_at e data (idx w (h - 1 - i) j) (i, j))).
Proof. intros Hm Hi Hj. apply (filled (fun k c => conv (colors_at e data k c)) w h m i j); done. Qed.

Lemma length_picture {V} (conv : list Z -> V) e data w h m : length (picture conv e data w h m) = length m.
Proof.
  unfold picture. generalize (imap pair (file_order w h)). intros l. revert m.
  induction l as [| c l IH]; intros m; [done |]. cbn [fold_left]. by rewrite IH, length_insert.
Qed.

(** Reading into one array of the object, seen through the access to it. *)
Section OneArray.
Context {V : Type} (field : myppm -> list V) (set : list V -> myppm -> myppm) (conv : list Z -> V).
Hypothesis field_set : forall m p, field (set m p) = m.
Hypothesis set_set : forall m m' p, set m (set m' p) = set m p.
Hypothesis set_field : forall p, set (field p) p = p.
Hypothesis set_width_same : forall m p, width (set m p) = width p.
Hypothesis set_height_same : forall m p, height (set m p) = height p.

Lemma read_into e f p : sane f -> length (field p) = Z.to_nat (width p * height p) ->
  exists f', read_pixels e (fun index colors => store field set index (conv colors)) (f, p)
    = Done tt (f', set (picture conv e (rest f) (width p) (height p) (field p)) p).
Proof.
  intros Hf Hlen.
  destruct (read_pixels_fold e (fun index colors => store field set index (conv colors))
    (fun c colors p' => set (<[idx (width p) c.1 c.2 := conv colors]> (field p')) p')
    (fun p' => length (field p') = Z.to_nat (width p * height p)) f p Hf Hlen) as [f' Hrun].
  - intros c colors f1 p1 Hc Hp1. apply elem_of_cells in Hc as [Hi Hj].
    pose proof (idx_bound (width p) (height p) c.1 c.2 Hj Hi).
    rewrite store_ok by lia. split; [done |]. by rewrite field_set, length_insert.
  - exists f'. rewrite Hrun. do 2 f_equal. unfold picture. clear Hrun Hlen Hf.
    generalize (imap pair (file_order (width p) (height p))). intros l. generalize (width p). intros w.
    assert (H : forall p0, fold_left (fun p' kc => set (<[idx w kc.2.1 kc.2.2 := conv (colors_at e (rest f) kc.1 kc.2)]> (field p')) p') l p0
      = set (fold_left (fun m' kc => <[idx w kc.2.1 kc.2.2 := conv (colors_at e (rest f) kc.1 kc.2)]> m') l (field p0)) p0); [| apply H].
    induction l as [| c l IH]; intros p0; cbn [fold_left]; [by rewrite set_field |]. by rewrite IH, field_set, set_set.
Qed.
End OneArray.

Lemma read_pixel_map e f p : sane f -> length (pixel_map p) = Z.to_nat (width p * height p) ->
  exists f', read_pixels e (fun index colors => store pixel_map set_pixel_map index (pixel_of colors)) (f, p)
    = Done tt (f', set_pixel_map (picture pixel_of e (rest f) (width p) (height p) (pixel_map p)) p).
Proof. apply read_into; by try intros []. Qed.

(** Reading into the two arrays of pr04 and pr05. *)
Lemma read_two_maps e f p : sane f ->
  length (pixel_map p) = Z.to_nat (width p * height p) -> length (new_map p) = Z.to_nat (width p * height p) ->
  exists f', read_pixels e (fun index colors => store pixel_map set_pixel_map index (pixel_of colors) ;;;
      store new_map set_new_map index (pixel_of colors)) (f, p)
    = Done tt (f', set_new_map (picture pixel_of e (rest f) (width p) (height p) (new_map p))
                     (set_pixel_map (picture pixel_of e (rest f) (width p) (height p) (pixel_map p)) p)).
Proof.
  intros Hf H1 H2.
  destruct (read_pixels_fold e (fun index colors => store pixel_map set_pixel_map index (pixel_of colors) ;;;
      store new_map set_new_map index (pixel_of colors))
    (fun c colors p' => set_new_map (<[idx (width p) c.1 c.2 := pixel_of colors]> (new_map p'))
       (set_pixel_map (<[idx (width p) c.1 c.2 := pixel_of colors]> (pixel_map p')) p'))
    (fun p' => length (pixel_map p') = Z.to_nat (width p * height p) /\ length (new_map p') = Z.to_nat (width p * height p))
    f p Hf (conj H1 H2)) as [f' Hrun].
  - intros c colors f1 p1 Hc [Hp1 Hp2]. apply elem_of_cells in Hc as [Hi Hj].
    pose proof (idx_bound (width p) (height p) c.1 c.2 Hj Hi).
    rewrite (bind_done _ _ _ _ _ (store_ok pixel_map set_pixel_map (c.1 * width p + c.2) (pixel_of colors) f1 p1 ltac:(lia))).
    rewrite store_ok by (cbn [new_map set_pixel_map]; lia). split; [done |]. cbn [pixel_map new_map set_new_map set_pixel_map].
    by rewrite !length_insert.
  - exists f'. rewrite Hrun. do 2 f_equal. unfold picture. clear.
    generalize (imap pair (file_order (width p) (height p))). intros l. generalize (width p). intros w.
    revert p. induction l as [| c l IH]; intros p; cbn [fold_left]; [by destruct p |]. by rewrite IH.
Qed.

(** *** The three forms of [ppm_init] on a file with a well-formed header *)
Section Files.
Context (c1 c2 : list (list Z)) (ws hs ms : list Z) (w h m : Z).
Hypothesis Hc1 : Forall comment c1.
Hypothesis Hc2 : Forall comment c2.
Hypothesis Hw : numeral ws w.
Hypothesis Hh : numeral hs h.
Hypothesis Hm : numeral ms m.
Hypothesis Hsize : w * h <= INT_MAX.

Let sized (p : myppm) : myppm := set_range m (set_height h (set_width w p)).

Lemma numeral_nonneg t n : numeral t n -> 0 <= n.
Proof. intros (_ & Hd & <- & _). by apply number_nonneg. Qed.

Lemma size_bounds : 0 <= w * h <= INT_MAX.
Proof. pose proof (numeral_nonneg ws w Hw). pose proof (numeral_nonneg hs h Hh). nia. Qed.

(** The data on which the pixel loop runs: what [clean_up] leaves. *)
Definition starts (data : list Z) (f : istream) : Prop :=
  sane f /\ forall p, clean_up (mk_istream data true, p) = Done tt (f, p).

Lemma starts_data c r : c <> hash -> starts (c :: r) (mk_istream (c :: r) true).
Proof. intros Hc. split; [done |]. intros p. by apply clean_up_stop. Qed.

Lemma ppm_init_file e data f p : starts data f ->
  ppm_init e (Some (header c1 c2 ws hs ms ++ data)) p
  = Done tt (set_pixel_map (picture pixel_of e (rest f) w h (new_array (junk e 0) (w * h))) (sized p)).
Proof.
  intros [Hsane Hclean]. unfold ppm_init, run_init, ppm_init_body.
  rewrite (bind_done _ _ _ _ _ (read_header_numbers c1 c2 ws w hs h ms m data p Hc1 Hc2 Hw Hh Hm)). fold (sized p).
  rewrite (bind_done _ _ _ _ _ (array_size_ok _ (sized p) size_bounds)).
  change (width (sized p) * height (sized p)) with (w * h).
  unfold bind at 1, update at 1. cbn [fst snd]. rewrite (bind_done _ _ _ _ _ (Hclean _)).
  destruct (read_pixel_map e f (set_pixel_map (new_array (junk e 0) (w * h)) (sized p)) Hsane) as [f' ->];
    [by apply length_new_array |]. done.
Qed.

Lemma ppm_init2_file e data f p : starts data f ->
  ppm_init2 e (Some (header c1 c2 ws hs ms ++ data)) p
  = Done tt (set_new_map (picture pixel_of e (rest f) w h (new_array (junk e 1) (w * h)))
              (set_pixel_map (picture pixel_of e (rest f) w h (new_array (junk e 0) (w * h))) (sized p))).
Proof.
  intros [Hsane Hclean]. unfold ppm_init2, run_init, ppm_init2_body.
  rewrite (bind_done _ _ _ _ _ (read_header_numbers c1 c2 ws w hs h ms m data p Hc1 Hc2 Hw Hh Hm)). fold (sized p).
  rewrite (bind_done _ _ _ _ _ (array_size_ok _ (sized p) size_bounds)).
  change (width (sized p) * height (sized p)) with (w * h).
  unfold bind at 1, update at 1. cbn [fst snd]. unfold bind at 1, update at 1. cbn [fst snd].
  rewrite (bind_done _ _ _ _ _ (Hclean _)).
  destruct (read_two_maps e f (set_new_map (new_array (junk e 1) (w * h)) (set_pixel_map (new_array (junk e 0) (w * h)) (sized p))) Hsane)
    as [f' ->]; [by apply length_new_array | by apply length_new_array |]. done.
Qed.

Lemma ppm_init_center_file e data f p : starts data f ->
  ppm_init_center e (Some (header c1 c2 ws hs ms ++ data)) p
  = Done tt (set_pixel_map (picture pixel_of e (rest f) w h (new_array (junk e 0) (w * h)))
              (set_translation (of_int 0, of_int 0)
                (set_center (of_int (Z.quot w 2), of_int (Z.quot h 2)) (set_size (w * h) (sized p))))).
Proof.
  intros [Hsane Hclean]. unfold ppm_init_center, run_init, ppm_init_center_body.
  rewrite (bind_done _ _ _ _ _ (read_header_numbers c1 c2 ws w hs h ms m data p Hc1 Hc2 Hw Hh Hm)). fold (sized p).
  rewrite (bind_done _ _ _ _ _ (array_size_ok _ (sized p) size_bounds)).
  change (width (sized p) * height (sized p)) with (w * h).
  unfold bind at 1, update at 1. cbn [fst snd]. unfold bind at 1, get_ppm at 1. cbn [snd].
  do 3 (unfold bind at 1, update at 1; cbn [fst snd]). rewrite (bind_done _ _ _ _ _ (Hclean _)).
  match goal with |- context [read_pixels _ _ (f, ?q)] => destruct (read_pixel_map e f q Hsane) as [f' ->] end;
    [by apply length_new_array |]. done.
Qed.

(** The array shows the picture, given row by row from the top, with its last row first. *)
Definition shown (pic : list RGB) (m0 : list RGB) : Prop :=
  length m0 = Z.to_nat (w * h) /\ forall i j, 0 <= i < h -> 0 <= j < w -> m0 !! idx w i j = pic !! idx w (h - 1 - i) j.

Lemma picture_shown e pic extra m0 : length pic = Z.to_nat (w * h) -> Forall byte_pixel pic -> length m0 = Z.to_nat (w * h) ->
  shown pic (picture pixel_of e (picture_bytes pic ++ extra) w h m0).
Proof.
  intros Hpic Hb Hm0. split; [by rewrite length_picture |]. intros i j Hi Hj. rewrite picture_lookup by done.
  destruct (lookup_lt_is_Some_2 pic (idx w (h - 1 - i) j)) as [c Hc].
  { rewrite Hpic. unfold idx. pose proof (idx_bound w h (h - 1 - i) j). lia. }
  rewrite Hc. f_equal. rewrite (colors_at_picture e pic extra _ c) by done.
  apply pixel_of_bytes. by apply (list.Forall_lookup_1 _ _ _ _ Hb Hc).
Qed.
End Files.

(** An object as [ppm_init] leaves it. *)
Definition ready (p : myppm) : Prop :=
  length (pixel_map p) = Z.to_nat (width p * height p) /\ length (new_map p) = Z.to_nat (width p * height p) /\
  Forall byte_pixel (pixel_map p).

Lemma shown_pixels w h pic m : 0 < w -> length pic = Z.to_nat (w * h) -> Forall byte_pixel pic -> shown w h pic m -> Forall byte_pixel m.
Proof.
  intros Hw Hpic Hb [Hlen Hs]. apply list.Forall_lookup_2. intros k c Hk.
  pose proof (lookup_lt_Some _ _ _ Hk) as Hlt. rewrite Hlen in Hlt.
  destruct (idx_surj w h k Hw Hlt) as (y & x & Hy & Hx & ->). rewrite Hs in Hk by done.
  by apply (list.Forall_lookup_1 _ _ _ _ Hb Hk).
Qed.

(** A PPM file with this picture. *)
Definition ppm_file (w h : Z) (pic : list RGB) (bytes : list Z) : Prop :=
  exists c1 c2 ws hs ms m extra, Forall comment c1 /\ Forall comment c2 /\ numeral ws w /\ numeral hs h /\ numeral ms m /\
    bytes = header c1 c2 ws hs ms ++ picture_bytes pic ++ extra /\
    w * h <= INT_MAX /\ length pic = Z.to_nat (w * h) /\ Forall byte_pixel pic /\
    (exists c pic', pic = c :: pic' /\ red c <> hash).

Lemma ppm_file_starts c pic extra : red c <> hash ->
  starts (picture_bytes (c :: pic) ++ extra) (mk_istream (picture_bytes (c :: pic) ++ extra) true).
Proof. intros Hr. by apply starts_data. Qed.

(** What [ppm_init] makes of such a file: both arrays are the picture. *)
Lemma ppm_init2_ready e w h pic bytes p : ppm_file w h pic bytes -> exists p', ppm_init2 e (Some bytes) p = Done tt p' /\
  ready p' /\ width p' = w /\ height p' = h /\ shown w h pic (pixel_map p') /\ new_map p' = pixel_map p'.
Proof.
  intros (c1 & c2 & ws & hs & ms & m & extra & Hc1 & Hc2 & Hw & Hh & Hm & -> & Hsize & Hpic & Hb & c & pic' & -> & Hr).
  rewrite (ppm_init2_file c1 c2 ws hs ms w h m Hc1 Hc2 Hw Hh Hm Hsize e _ _ p (ppm_file_starts c pic' extra Hr)). cbn [rest].
  set (data := picture_bytes (c :: pic') ++ extra).
  assert (Hshown : forall k, shown w h (c :: pic') (picture pixel_of e data w h (new_array (junk e k) (w * h))))
    by (intros k; apply picture_shown; [done | done | apply length_new_array]).
  assert (Hw0 : 0 < w).
  { pose proof (numeral_nonneg ws w Hw). destruct (Z.eq_dec w 0) as [-> |]; [simpl in Hpic; lia | lia]. }
  eexists. split; [reflexivity |]. split.
  - split; [apply (Hshown 0%nat) |]. split; [apply (Hshown 1%nat) |].
    eapply shown_pixels; [exact Hw0 | exact Hpic | exact Hb | apply (Hshown 0%nat)].
  - split; [done |]. split; [done |]. split; [apply (Hshown 0%nat) |]. cbn [new_map pixel_map set_new_map set_pixel_map].
    apply list_eq. intros k. destruct (decide (k < Z.to_nat (w * h))%nat) as [Hk | Hk].
    + destruct (idx_surj w h k Hw0 Hk) as (y & x & Hy & Hx & ->).
      transitivity ((c :: pic') !! idx w (h - 1 - y) x); [by apply (Hshown 1%nat) | symmetry; by apply (Hshown 0%nat)].
    + rewrite !lookup_ge_None_2; [done | |]; [rewrite (proj1 (Hshown 0%nat)) | rewrite (proj1 (Hshown 1%nat))]; lia.
Qed.

Lemma ppm_file_size w h pic bytes : ppm_file w h pic bytes -> w * h <= INT_MAX.
Proof. intros (c1 & c2 & ws & hs & ms & m & extra & _ & _ & _ & _ & _ & _ & Hs & _). done. Qed.

(** The forms of [ppm_init] with one array: the array is the picture. *)
Definition loaded (w h : Z) (pic : list RGB) (p : myppm) : Prop :=
  0 < w /\ 0 < h /\ width p = w /\ height p = h /\ shown w h pic (pixel_map p) /\ Forall byte_pixel (pixel_map p).

Lemma ppm_file_loaded e w h pic bytes p : ppm_file w h pic bytes ->
  (exists p', ppm_init e (Some bytes) p = Done tt p' /\ loaded w h pic p') /\
  (exists p', ppm_init_center e (Some bytes) p = Done tt p' /\ loaded w h pic p' /\ size p' = w * h /\
     center p' = (of_int (Z.quot w 2), of_int (Z.quot h 2))).
Proof.
  intros (c1 & c2 & ws & hs & ms & m & extra & Hc1 & Hc2 & Hw & Hh & Hm & -> & Hsize & Hpic & Hb & c & pic' & -> & Hr).
  rewrite (ppm_init_file c1 c2 ws hs ms w h m Hc1 Hc2 Hw Hh Hm Hsize e _ _ p (ppm_file_starts c pic' extra Hr)).
  rewrite (ppm_init_center_file c1 c2 ws hs ms w h m Hc1 Hc2 Hw Hh Hm Hsize e _ _ p (ppm_file_starts c pic' extra Hr)). cbn [rest].
  assert (Hs : shown w h (c :: pic') (picture pixel_of e (picture_bytes (c :: pic') ++ extra) w h (new_array (junk e 0) (w * h))))
    by (apply picture_shown; [done | done | apply length_new_array]).
  pose proof (numeral_nonneg ws w Hw). pose proof (numeral_nonneg hs h Hh).
  assert (0 < w * h) by (destruct (Z.eq_dec (w * h) 0) as [Hz |]; [rewrite Hz in Hpic; done | nia]).
  assert (Hl : forall q, width q = w -> height q = h -> pixel_map q = picture pixel_of e (picture_bytes (c :: pic') ++ extra) w h (new_array (junk e 0) (w * h)) ->
    loaded w h (c :: pic') q).
  { intros q Hqw Hqh Hq. unfold loaded. rewrite Hq. repeat split; try done; try nia; try apply Hs. apply (shown_pixels w h (c :: pic')); [nia | done | done | exact Hs]. }
  split; eexists; (split; [reflexivity |]); [by apply Hl |]. split; [by apply Hl |]. done.
Qed.

(** ** Every file *)

(** The ways a run may end: normally with [Q], by [exit(-1)] for a wrong magic number, or
    cut short by an integer overflow or an exception. *)
Definition ends {A S} (Q : A -> S -> Prop) (o : outcome S A) : Prop :=
  match o with
  | Done a s => Q a s
  | Exited c _ => c = -1
  | Undef w _ => w = IntOverflow \/ w = Uncaught
  end.

Lemma ends_bind {S A B} (m : M S A) (k : A -> M S B) (P : A -> S -> Prop) (Q : B -> S -> Prop) s :
  ends P (m s) -> (forall a s', P a s' -> ends Q (k a s')) -> ends Q (bind m k s).
Proof. unfold bind. destruct (m s); cbn [ends]; auto. Qed.

Definition sane_state {A} (a : A) (s : istream * myppm) : Prop := sane s.1.

Lemma getline_sane line f p : sane f -> ends sane_state (getline line (f, p)).
Proof.
  intros Hf. unfold getline, bind, get_stream. cbn [fst]. destruct (good f) eqn:Hg; [| exact Hf].
  destruct (split_line (rest f)) as [l [r |]]; done.
Qed.

Lemma clean_up_done f p : sane f -> exists f', clean_up (f, p) = Done tt (f', p) /\ sane f'.
Proof.
  intros Hf. destruct (clean_up_loop_total (S (length (rest f))) f) as (f' & Hrun & _ & _ & _ & Hs); [lia |].
  exists f'. split; [| by apply Hs]. unfold clean_up, bind, get_stream. cbn [fst]. apply Hrun. lia.
Qed.

Lemma read_header_ends f p : sane f -> ends sane_state (read_header (f, p)).
Proof.
  intros Hf. unfold read_header. eapply ends_bind; [by apply getline_sane |]. intros magic [f1 p1] H1.
  destruct (bool_decide (magic = P6)); [| done].
  destruct (clean_up_done f1 p1 H1) as (f2 & Hc2 & H2). rewrite (bind_done _ _ _ _ _ Hc2).
  eapply ends_bind; [by apply getline_sane |]. intros line [f3 p3] H3.
  unfold bind at 1, get_ppm. cbn [snd]. destruct (scan_size line (width p3) (height p3)) as [w h].
  unfold bind at 1, update at 1. unfold bind at 1, update at 1. cbn [fst snd].
  match goal with |- context [(f3, ?q)] => destruct (clean_up_done f3 q H3) as (f4 & Hc4 & H4); rewrite (bind_done _ _ _ _ _ Hc4) end.
  eapply ends_bind; [by apply getline_sane |]. intros line2 [f5 p5] H5.
  unfold bind. destruct (stoi line2); [exact H5 | by right].
Qed.

Lemma array_size_ends f p : sane f ->
  ends (fun n s => n = width s.2 * height s.2 /\ 0 <= n /\ sane s.1) (array_size (f, p)).
Proof.
  intros Hf. unfold array_size, bind, get_ppm. cbn [snd]. destruct (_ || _); [by left |].
  destruct (Z.ltb_spec (width p * height p) 0); [by right |]. done.
Qed.

(** A finished object: the array has one element for every pixel. *)
Definition complete (p : myppm) : Prop := Z.of_nat (length (pixel_map p)) = width p * height p.

Lemma ppm_init_ends e file p : ends (fun _ p' => complete p') (ppm_init e file p).
Proof.
  unfold ppm_init, run_init. set (f := match file with Some b => _ | None => _ end).
  assert (Hf : sane f) by (subst f; by destruct file).
  enough (H : ends (fun (_ : unit) s => complete s.2) (ppm_init_body e (f, p))) by (destruct (ppm_init_body e (f, p)); exact H).
  unfold ppm_init_body. eapply ends_bind; [by apply read_header_ends |]. intros [] [f1 p1] H1.
  eapply ends_bind; [by apply array_size_ends |]. intros n [f2 p2] (-> & Hn & H2). cbn [fst snd] in *.
  unfold bind at 1, update at 1. cbn [fst snd].
  match goal with |- context [(f2, ?q)] => destruct (clean_up_done f2 q H2) as (f3 & Hc3 & H3); rewrite (bind_done _ _ _ _ _ Hc3);
    destruct (read_pixel_map e f3 q H3) as [f4 ->] end; [by apply length_new_array |].
  cbn [ends snd]. unfold complete. cbn [pixel_map set_pixel_map width height]. rewrite length_picture, length_new_array. lia.
Qed.

(** ** The properties of the reader *)

(** C30: [clean_up] ends on every stream, leaves the object alone, and stops in front of a
    character that starts no comment; and [ppm_init] ends on every file, readable or not:
    by [exit(-1)] when the magic number is wrong, by an exception or an integer overflow
    for the numbers it cannot use, or with an array of exactly [width * height] pixels
    and no access outside it. *)
Theorem reading_terminates :
  (forall f p, exists f', clean_up (f, p) = Done tt (f', p) /\ skip_line f' = None) /\
  (forall e file p, ends (fun _ p' => complete p') (ppm_init e file p)).
Proof.
  split; [| intros; apply ppm_init_ends]. intros f p.
  destruct (clean_up_loop_total (S (length (rest f))) f) as (f' & Hrun & Hs & _); [lia |].
  exists f'. split; [| done]. unfold clean_up, bind, get_stream. cbn [fst]. apply Hrun. lia.
Qed.

(** C29: a PPM file whose header has the magic number, any comment lines, the width and the
    height on one line, any comment lines, and the greatest value, and whose first pixel
    byte is not [#], is read back as its picture: the row at the top of the file is the last
    row of the array, in the single array of pr01 and pr03, in both arrays of pr04 and pr05,
    and in the array of pr06 and pr07, which also record the number of pixels and the
    centre. *)
Theorem picture_read_back c1 c2 ws hs ms w h m c pic extra e p :
  Forall comment c1 -> Forall comment c2 -> numeral ws w -> numeral hs h -> numeral ms m -> w * h <= INT_MAX ->
  length (c :: pic) = Z.to_nat (w * h) -> Forall byte_pixel (c :: pic) -> red c <> hash ->
  let file := Some (header c1 c2 ws hs ms ++ picture_bytes (c :: pic) ++ extra) in
  exists p1 p2 p3,
    ppm_init e file p = Done tt p1 /\ ppm_init2 e file p = Done tt p2 /\ ppm_init_center e file p = Done tt p3 /\
    Forall (fun q => width q = w /\ height q = h /\ RGB_range q = m /\ shown w h (c :: pic) (pixel_map q)) [p1; p2; p3] /\
    shown w h (c :: pic) (new_map p2) /\
    size p3 = w * h /\ center p3 = (of_int (Z.quot w 2), of_int (Z.quot h 2)).
Proof.
  intros Hc1 Hc2 Hw Hh Hm Hsize Hpic Hb Hr file.
  assert (Hst : starts (picture_bytes (c :: pic) ++ extra) (mk_istream (picture_bytes (c :: pic) ++ extra) true))
    by (by apply starts_data).
  pose proof (ppm_init_file c1 c2 ws hs ms w h m Hc1 Hc2 Hw Hh Hm Hsize e _ _ p Hst) as H1.
  pose proof (ppm_init2_file c1 c2 ws hs ms w h m Hc1 Hc2 Hw Hh Hm Hsize e _ _ p Hst) as H2.
  pose proof (ppm_init_center_file c1 c2 ws hs ms w h m Hc1 Hc2 Hw Hh Hm Hsize e _ _ p Hst) as H3.
  do 3 eexists. split; [exact H1 |]. split; [exact H2 |]. split; [exact H3 |]. cbn [rest].
  assert (Hs : forall k, shown w h (c :: pic) (picture pixel_of e (picture_bytes (c :: pic) ++ extra) w h (new_array (junk e k) (w * h))))
    by (intros k; apply picture_shown; [done | done | apply length_new_array]).
  repeat split; repeat constructor; try done; apply Hs.
Qed.

(** The comments are skipped once more in front of the pixel data: when the first byte
    of the first pixel is [#], everything up to the first newline byte is lost, and the
    rest of the data is read as if the file began there.*)
Lemma hash_pixel_lost c1 c2 ws hs ms w h m t data e p :
  Forall comment c1 -> Forall comment c2 -> numeral ws w -> numeral hs h -> numeral ms m -> w * h <= INT_MAX ->
  no_newline t ->
  let file d := Some (header c1 c2 ws hs ms ++ d) in
  ppm_init e (file (hash :: t ++ newline :: data)) p = ppm_init e (file data) p.
Proof.
  intros Hc1 Hc2 Hw Hh Hm Hsize Ht file. 
  destruct (clean_up_done (mk_istream data true) p) as (f & Hf & Hs); [done |].
  assert (Hst : starts data f).
  { split; [done |]. intros q. destruct (clean_up_loop_total (S (length data)) (mk_istream data true)) as (f' & Hrun & _); [simpl; lia |].
    unfold clean_up, bind, get_stream in *. cbn [fst] in *. rewrite Hrun in Hf |- * by (simpl; lia). congruence. }
  unfold file. rewrite (ppm_init_file c1 c2 ws hs ms w h m Hc1 Hc2 Hw Hh Hm Hsize e data f p Hst).
  apply (ppm_init_file c1 c2 ws hs ms w h m); try done. destruct Hst as [_ Hst]. split; [done |].
  intros q. rewrite clean_up_line by done. apply Hst.
Qed.

(** ** Instances *)
Definition junk_env : env := mk_env (fun _ _ => mk_RGB 7 7 7) (fun _ => of_int 0) (fun _ _ => mk_RGB 9 9 9).

Ltac solve_numeral := split; [done |]; split; [by repeat constructor |]; split; [reflexivity | done].

Lemma one_pixel_file : ppm_file 1 1 [mk_RGB 10 20 30] (header [] [] (lit "1") (lit "1") (lit "255") ++ [10; 20; 30] ++ []).
Proof.
  exists [], [], (lit "1"), (lit "1"), (lit "255"), 255, []. split; [constructor |]. split; [constructor |].
  split; [solve_numeral |]. split; [solve_numeral |]. split; [solve_numeral |]. split; [done |]. split; [done |]. split; [done |].
  split; [by repeat constructor |]. by exists (mk_RGB 10 20 30), [].
Qed.

Lemma picture_read_back_witness :
  exists p1 p2 p3,
    let file := Some (header [lit "# gimp"] [] (lit "2") (lit "1") (lit "255") ++ [10; 20; 30; 200; 210; 220] ++ []) in
    ppm_init junk_env file zeroed = Done tt p1 /\ ppm_init2 junk_env file zeroed = Done tt p2 /\
    ppm_init_center junk_env file zeroed = Done tt p3.
Proof.
  destruct (picture_read_back [lit "# gimp"] [] (lit "2") (lit "1") (lit "255") 2 1 255 (mk_RGB 10 20 30) [mk_RGB 200 210 220] []
    junk_env zeroed) as (p1 & p2 & p3 & H1 & H2 & H3 & _).
  - constructor; [| constructor]. exists (lit " gimp"). split; [done |]. by repeat constructor.
  - constructor.
  - solve_numeral.
  - solve_numeral.
  - solve_numeral.
  - done.
  - done.
  - by repeat constructor.
  - done.
  - exists p1, p2, p3. split; [exact H1 |]. split; [exact H2 | exact H3].
Defined.

Lemma hash_pixel_lost_witness :
  ppm_init junk_env (Some (header [] [] (lit "1") (lit "1") (lit "255") ++ hash :: [1; 2; 3] ++ newline :: [4; 5; 6])) zeroed
  = ppm_init junk_env (Some (header [] [] (lit "1") (lit "1") (lit "255") ++ [4; 5; 6])) zeroed.
Proof.
  apply (hash_pixel_lost [] [] (lit "1") (lit "1") (lit "255") 1 1 255 [1; 2; 3] [4; 5; 6] junk_env zeroed);
    [constructor | constructor | solve_numeral | solve_numeral | solve_numeral | done | by repeat constructor].
Defined.

End PpmRead.
