(* ===== verification/Polygon.v ===== *)
(** * The polygon program: [CSCE646/pr02]

    [shape.h] decides whether a point lies inside a polygon given by its corners: it
    takes the polar coordinates of the point around the centre, looks for the edge whose
    two corners enclose the angle, and compares the distance with the one of the edge.
    [myppm.h] keeps the picture and colours every pixel by that test; [pr02.cpp] makes
    the picture and shows it.

    The class [myppm] of this program is the record [canvas].  A pointer to characters is
    named by where it points to, because [ppm_init] compares pointers.  [atan], [sin] and
    [cos] are parameters; [sqrt] is the correctly rounded one of IEEE 754.  The text the
    program prints is left out.

    The claim is that no picture comes out: [main] never stores a corner and never calls
    [draw_poly], whatever its argument, and [draw_poly] itself cannot come to its end,
    because the centre is one of the pixels and has no angle. *)

From S2P Require Import Prelude CMem Double Raster Ppm.
From Stdlib Require Import ZArith Lia SpecFloat.
From stdpp Require Import base list numbers.
From Stdlib Require String.
Import String.StringSyntax.
Import Double Raster Ppm.
Open Scope Z_scope.

Module Polygon.

(** ** Data *)
Definition PI : double := dec 314159265 8.

Record XY := mk_XY { x : double; y : double }.
Record RT := mk_RT { rho : double; theta : double }.

(** [vertex] is a pointer: [None] is null. *)
Record my_poly := mk_my_poly { p_vertex : option (list XY); v_rt : list RT; p_center : XY; p_num : Z }.

Record canvas := mk_canvas {
  c_width : Z;
  c_height : Z;
  pixels : list RGB;        (* [pixel_map] *)
  output : list RGB;        (* [output_map] *)
  c_center : XY;
  vertex : option (list XY);
  v_num : Z
}.
Abbreviation P := (M canvas).

Definition int_ (z : Z) : P Z := if (INT_MIN <=? z) && (z <=? INT_MAX) then ret z else undef IntOverflow.

Section Functions.
Variables atan sin cos : double -> double.

(** ** [shape.h] *)

(** [get_a], [get_b]: the line through two points as [ax + by - 1 = 0]. *)
Definition get_a (p1 p2 : XY) : P double :=
  let det := (x p1 * y p2 - y p1 * x p2)%D in
  if (det =? of_int 0)%D then exit (-1) else ret ((y p2 - y p1) / det)%D.
Definition get_b (p1 p2 : XY) : P double :=
  let det := (x p1 * y p2 - y p1 * x p2)%D in
  if (det =? of_int 0)%D then exit (-1) else ret ((x p1 - x p2) / det)%D.

Definition get_polar (center p : XY) : RT :=
  let px := (x p - x center)%D in
  let py := (y p - y center)%D in
  let angle := atan (py / px)%D in
  mk_RT (SFsqrt prec emax (px * px + py * py)%D)
    (if ((px <? of_int 0) && (py >? of_int 0))%D then (angle + PI)%D
     else if ((px >? of_int 0) && (py <? of_int 0))%D then (angle + of_int 2 * PI)%D
     else angle).

(** [v[i]] through a pointer. *)
Definition corner (v : option (list XY)) (i : Z) : P XY :=
  match v with
  | Some l => expect OutOfBounds (fetch l i)
  | None => undef NullPointer
  end.

(** The constructor with three arguments; [new RT[n0]] fails for a negative [n0]. *)
Definition my_poly_new (v0 : option (list XY)) (n0 : Z) (c0 : XY) : P my_poly :=
  if n0 <? 0 then undef Uncaught
  else
    let* rt := fold_up 0 n0 [] (fun rt i => let* v := corner v0 i in ret (rt ++ [get_polar c0 v])) in
    ret (mk_my_poly v0 rt c0 n0).

(** The loop of [is_fill] from round [i] on, [n] rounds. *)
Fixpoint fill_loop (n : nat) (i : Z) (poly : my_poly) (p_rt : RT) : P bool :=
  match n with
  | O => undef MissingReturn
  | S n' =>
      let* p1 := expect OutOfBounds (fetch (v_rt poly) (Z.rem i (p_num poly))) in
      let* p2 := expect OutOfBounds (fetch (v_rt poly) (Z.rem (i + 1) (p_num poly))) in
      let* p1_xy := corner (p_vertex poly) (Z.rem i (p_num poly)) in
      let* p2_xy := corner (p_vertex poly) (Z.rem (i + 1) (p_num poly)) in
      if ((theta p_rt >=? theta p1) && (theta p_rt <? theta p2))%D then
        let* a := get_a p1_xy p2_xy in
        let* b := get_b p1_xy p2_xy in
        let rho_center := fabs (of_int (-1) / (a * cos (theta p_rt) + b * sin (theta p_rt)))%D in
        if (rho p_rt >? rho_center)%D then ret false else ret true
      else fill_loop n' (i + 1) poly p_rt
  end.

Definition is_fill (poly : my_poly) (p : XY) : P bool :=
  fill_loop (Z.to_nat (p_num poly)) 0 poly (get_polar (p_center poly) p).

(** ** [myppm.h] *)

(** Where a pointer to characters points: into the arguments of the program, or to a
    string literal. *)
Inductive cptr := Argv (i : nat) | Literal (s : list Z).
#[export] Instance cptr_eq_dec : EqDecision cptr.
Proof. solve_decision. Defined.

(** The array of corners is stored in a local variable that hides the field. *)
Definition ppm_init (e : env) (shape : cptr) (width0 height0 : Z) : P unit := fun c =>
  let num := if bool_decide (shape = Literal (lit "star")) then
      let vertex := [mk_XY (of_int 2) (of_int 0); mk_XY (of_int (-2)) (of_int 2); mk_XY (of_int (-3)) (of_int (-2))] in 3
    else v_num c in
  (let* n := int_ (width0 * height0) in
   if n <? 0 then undef Uncaught
   else fun _ => Done tt (mk_canvas width0 height0 (new_array (junk e 0) n) (new_array (junk e 2) n)
     (mk_XY (of_int (Z.quot width0 2)) (of_int (Z.quot height0 2))) (vertex c) num)) c.

Definition set_output (index : Z) (f : RGB -> RGB) : P unit := fun c =>
  if inside (output c) index
  then Done tt (mk_canvas (c_width c) (c_height c) (pixels c) (alter f (Z.to_nat index) (output c)) (c_center c) (vertex c) (v_num c))
  else Undef OutOfBounds c.

Definition set_red (v : RGB) : RGB := mk_RGB 255 (green v) (blue v).
Definition set_blue (v : RGB) : RGB := mk_RGB (red v) (green v) 255.

Definition draw_pixel (polygon : my_poly) (i j : Z) : P unit :=
  let* c := (fun c => Done c c) in
  let* jw := int_ (j * c_width c) in
  let* index := int_ (jw + i) in
  let A := mk_XY (of_int i) (of_int j) in
  let* inside := is_fill polygon A in
  if inside then set_output index set_red else set_output index set_blue.

Definition draw_poly : P unit :=
  let* c := (fun c => Done c c) in
  let* polygon := my_poly_new (vertex c) (v_num c) (c_center c) in
  for_up 0 (c_width c) (fun i => for_up 0 (c_height c) (fun j => draw_pixel polygon i j)).

(** ** [pr02.cpp]: the picture that [main] shows *)
Definition main (e : env) (args : nat) : P unit :=
  if (args <? 1)%nat then exit (-1) else ppm_init e (Argv 1) 800 600.

(** ** How a run can end

    [ends m Q s]: [m] ends normally with [Q], or it prints the message about a line
    through the centre and exits, or it runs past the end of [is_fill]. *)
Definition ends {A} (m : P A) (Q : A -> canvas -> Prop) (c : canvas) : Prop :=
  match m c with
  | Done a c' => Q a c'
  | Exited code _ => code = -1
  | Undef w _ => w = MissingReturn
  end.

Lemma ends_done {A} (m : P A) Q c a c' : m c = Done a c' -> Q a c' -> ends m Q c.
Proof. unfold ends. by intros ->. Qed.

Lemma poly_ends_bind {A B} (m : P A) (k : A -> P B) Q c : ends m (fun a c' => ends (k a) Q c') c -> ends (bind m k) Q c.
Proof. unfold ends, bind. by destruct (m c). Qed.

Lemma ends_mono {A} (m : P A) (Q Q' : A -> canvas -> Prop) c : ends m Q c -> (forall a c', Q a c' -> Q' a c') -> ends m Q' c.
Proof. unfold ends. destruct (m c); auto. Qed.

Lemma ends_for_each {A} (Inv : list A -> canvas -> Prop) (l : list A) (body : A -> P unit) c :
  Inv [] c ->
  (forall pre a c', a ∈ l -> Inv pre c' -> ends (body a) (fun _ c'' => Inv (pre ++ [a]) c'') c') ->
  ends (for_each l body) (fun _ c' => Inv l c') c.
Proof.
  intros H0 Hb. enough (H : forall post pre c', (forall a, a ∈ post -> a ∈ l) -> Inv pre c' ->
    ends (for_each post body) (fun _ c'' => Inv (pre ++ post) c'') c') by (by apply (H l [])).
  induction post as [| a post IH]; intros pre c' Hin Hi; [by rewrite app_nil_r |].
  cbn [for_each]. apply poly_ends_bind. eapply ends_mono; [apply Hb; [apply Hin; left | done] |].
  intros [] c'' Hi'. replace (pre ++ a :: post) with ((pre ++ [a]) ++ post) by by rewrite <- app_assoc.
  apply IH; [| done]. intros; apply Hin. by right.
Qed.

(** The corners that the number promises can be read. *)
Definition readable (v : option (list XY)) (n : Z) : Prop :=
  forall i, 0 <= i < n -> exists l q, v = Some l /\ l !! Z.to_nat i = Some q.

Lemma corner_ok v n i c : readable v n -> 0 <= i < n -> exists q, corner v i c = Done q c.
Proof.
  intros Hv Hi. destruct (Hv i Hi) as (l & q & -> & Hl). exists q.
  unfold corner, fetch. rewrite (proj2 (Z.ltb_ge _ _)) by lia. by rewrite Hl.
Qed.

Lemma my_poly_new_ok v n c0 c : 0 <= n -> readable v n ->
  exists rt, my_poly_new v n c0 c = Done (mk_my_poly v rt c0 n) c /\ length rt = Z.to_nat n.
Proof.
  intros Hn Hv. unfold my_poly_new. rewrite (proj2 (Z.ltb_ge _ _)) by done.
  enough (H : forall l rt, (forall i, i ∈ l -> 0 <= i < n) ->
    exists rt', fold_each l rt (fun rt i => let* q := corner v i in ret (rt ++ [get_polar c0 q])) c = Done rt' c /\
      length rt' = (length rt + length l)%nat).
  { destruct (H (seqZ 0 (n - 0)) []) as (rt & Hrun & Hlen); [intros i Hi; rewrite elem_of_seqZ in Hi; lia |].
    exists rt. unfold fold_up. rewrite (bind_done _ _ _ _ _ Hrun). split; [done |]. rewrite Hlen, length_seqZ. simpl. lia. }
  induction l as [| i l IH]; intros rt Hl; [exists rt; split; [done | simpl; lia] |].
  destruct (corner_ok v n i c Hv) as (q & Hq); [apply Hl; left |].
  destruct (IH (rt ++ [get_polar c0 q])) as (rt' & Hrun & Hlen); [intros; apply Hl; by right |].
  exists rt'. cbn [fold_each]. rewrite (bind_done _ _ c (rt ++ [get_polar c0 q]) c); [| by rewrite (bind_done _ _ _ _ _ Hq)].
  split; [done |]. rewrite Hlen, length_app. simpl. lia.
Qed.

(** A polygon as the constructor leaves it. *)
Definition sound (poly : my_poly) : Prop :=
  0 <= p_num poly /\ readable (p_vertex poly) (p_num poly) /\ length (v_rt poly) = Z.to_nat (p_num poly).

Lemma rt_ok poly i c : sound poly -> 0 <= i < p_num poly -> exists r, (expect OutOfBounds (fetch (v_rt poly) i) : P RT) c = Done r c.
Proof. intros (Hn & _ & Hl) Hi. destruct (fetch_some (v_rt poly) i) as (r & ->); [lia |]. by exists r. Qed.

(** The loop of [is_fill] changes nothing and, whatever the angle, ends in one of the three
    ways; with an angle that is not a number it runs past its end. *)
Lemma fill_loop_ends poly p_rt c : sound poly -> forall n i, (n <= Z.to_nat (p_num poly))%nat -> 0 <= i ->
  ends (fill_loop n i poly p_rt) (fun _ c' => c' = c /\ theta p_rt <> S754_nan) c.
Proof.
  intros Hs. pose proof Hs as (_ & Hv & _). induction n as [| n IH]; intros i Hn Hi; [done |]. cbn [fill_loop].
  pose proof (Z.rem_bound_pos i (p_num poly) ltac:(lia) ltac:(lia)) as Hr1.
  pose proof (Z.rem_bound_pos (i + 1) (p_num poly) ltac:(lia) ltac:(lia)) as Hr2.
  destruct (rt_ok poly _ c Hs Hr1) as (p1 & H1), (rt_ok poly _ c Hs Hr2) as (p2 & H2).
  destruct (corner_ok _ _ _ c Hv Hr1) as (q1 & H3), (corner_ok _ _ _ c Hv Hr2) as (q2 & H4).
  do 4 (apply poly_ends_bind; eapply ends_done; [eassumption |]).
  destruct ((theta p_rt >=? theta p1)%D && (theta p_rt <? theta p2)%D) eqn:Hin; [| by apply IH; lia].
  assert (theta p_rt <> S754_nan).
  { intros Hnan. rewrite Hnan in Hin. destruct (theta p1); discriminate. }
  unfold ends, get_a, get_b, bind. destruct ((x q1 * y q2 - y q1 * x q2) =? of_int 0)%D; [done |]. cbn [ret].
  by destruct (fabs _ <? rho p_rt)%D.
Qed.

Lemma is_fill_ends poly p c : sound poly ->
  ends (is_fill poly p) (fun _ c' => c' = c /\ theta (get_polar (p_center poly) p) <> S754_nan) c.
Proof. intros Hs. apply fill_loop_ends; [done | lia | done]. Qed.

(** ** The centre has no angle *)
Lemma same_point_no_angle (Hatan : atan S754_nan = S754_nan) a b :
  Z.abs a < 2 ^ prec -> Z.abs b < 2 ^ prec ->
  theta (get_polar (mk_XY (of_int a) (of_int b)) (mk_XY (of_int a) (of_int b))) = S754_nan.
Proof.
  intros Ha Hb. unfold get_polar. cbn [x y theta].
  assert (Hz : forall z, Z.abs z < 2 ^ prec -> exists s, (of_int z - of_int z)%D = S754_zero s).
  { intros z Hz. apply repr_0. rewrite <- (Z.sub_diag z). apply repr_sub; [by apply repr_of_int | by apply repr_of_int | lia]. }
  destruct (Hz a Ha) as (sa & ->), (Hz b Hb) as (sb & ->).
  change (S754_zero sb / S754_zero sa)%D with S754_nan. rewrite Hatan. by destruct sa, sb.
Qed.

(** The third quadrant gets the angles of the first one: a point above and to the right of
    the centre and the point opposite to it have the same angle. *)
Lemma offset a c z : Z.abs a < 2 ^ 52 -> Z.abs c < 2 ^ 52 -> z = a - c -> z <> 0 -> (of_int a - of_int c)%D = of_int z.
Proof.
  intros Ha Hc -> Hz. apply (repr_eq _ _ (a - c)); [| apply repr_of_int; unfold prec; lia | done].
  apply repr_sub; [apply repr_of_int | apply repr_of_int |]; unfold prec; lia.
Qed.

Lemma opposite_same_angle cx cy a b : 0 < a < 2 ^ 51 -> 0 < b < 2 ^ 51 -> Z.abs cx < 2 ^ 51 -> Z.abs cy < 2 ^ 51 ->
  theta (get_polar (mk_XY (of_int cx) (of_int cy)) (mk_XY (of_int (cx - a)) (of_int (cy - b))))
  = theta (get_polar (mk_XY (of_int cx) (of_int cy)) (mk_XY (of_int (cx + a)) (of_int (cy + b)))).
Proof.
  intros Ha Hb Hx Hy. unfold get_polar. cbn [x y theta].
  rewrite (offset (cx - a) cx (- a)), (offset (cy - b) cy (- b)), (offset (cx + a) cx a), (offset (cy + b) cy b) by lia.
  assert (Hr : forall z, Z.abs z < 2 ^ 51 -> repr (of_int z) z) by (intros; apply repr_of_int; unfold prec; lia).
  assert (Hop : forall z, 0 < z < 2 ^ 51 -> of_int (- z) = (- of_int z)%D)
    by (intros z Hz; apply (repr_eq _ _ (- z)); [apply Hr; lia | apply repr_opp, Hr; lia | lia]).
  assert (Hlt : forall z z', Z.abs z < 2 ^ 51 -> Z.abs z' < 2 ^ 51 -> (of_int z <? of_int z')%D = (z <? z'))
    by (intros; apply repr_ltb; by apply Hr).
  rewrite !Hlt by lia. rewrite !Hop by done.
  replace (- a <? 0) with true by lia. replace (0 <? - b) with false by lia. replace (0 <? - a) with false by lia.
  replace (a <? 0) with false by lia. replace (0 <? a) with true by lia. replace (b <? 0) with false by lia.
  cbn [andb]. f_equal. unfold div, opp. destruct (repr_finite _ _ (Hr a ltac:(lia)) ltac:(lia)) as (sa & ma & ea & -> & _).
  destruct (repr_finite _ _ (Hr b ltac:(lia)) ltac:(lia)) as (sb & mb & eb & -> & _). cbn. by destruct sa, sb.
Qed.

(** A picture whose arrays are there, with the centre that [ppm_init] gives it. *)
Definition proper (w h : Z) (c : canvas) : Prop :=
  c_width c = w /\ c_height c = h /\ length (output c) = Z.to_nat (w * h).

Lemma draw_pixel_ends (Hatan : atan S754_nan = S754_nan) w h poly i j c :
  sound poly -> p_center poly = mk_XY (of_int (Z.quot w 2)) (of_int (Z.quot h 2)) -> w * h <= INT_MAX ->
  0 <= i < w -> 0 <= j < h -> proper w h c ->
  ends (draw_pixel poly i j) (fun _ c' => proper w h c' /\ (i, j) <> (Z.quot w 2, Z.quot h 2)) c.
Proof.
  intros Hs Hc Hwh Hi Hj (Hw & Hh & Hlen). pose proof (idx_bound w h j i Hi Hj) as Hidx. unfold INT_MAX in *.
  unfold draw_pixel. apply poly_ends_bind. eapply ends_done; [done |]. rewrite Hw.
  do 2 (apply poly_ends_bind; eapply ends_done; [unfold int_, INT_MIN, INT_MAX; rewrite (proj2 (Z.leb_le _ _)), (proj2 (Z.leb_le _ _)) by nia; done |]).
  apply poly_ends_bind. eapply ends_mono; [by apply is_fill_ends |]. intros b c' [-> Hnan].
  enough (Hset : forall f, ends (set_output (j * w + i) f) (fun _ c' => proper w h c' /\ (i, j) <> (Z.quot w 2, Z.quot h 2)) c)
    by (destruct b; apply Hset).
  intros f. unfold ends, set_output. rewrite inside_true by lia. split; [by repeat split; cbn; rewrite ?length_alter |].
  intros [= -> ->]. apply Hnan. rewrite Hc. apply same_point_no_angle; [done | |]; unfold prec; nia.
Qed.

Lemma draw_poly_ends (Hatan : atan S754_nan = S754_nan) w h c :
  1 <= w -> 1 <= h -> w * h <= INT_MAX -> proper w h c ->
  c_center c = mk_XY (of_int (Z.quot w 2)) (of_int (Z.quot h 2)) ->
  0 <= v_num c -> readable (vertex c) (v_num c) ->
  ends draw_poly (fun _ _ => False) c.
Proof.
  intros Hw Hh Hwh Hc Hcen Hn Hv. unfold draw_poly. apply poly_ends_bind. eapply ends_done; [done |].
  destruct (my_poly_new_ok (vertex c) (v_num c) (c_center c) c Hn Hv) as (rt & Hnew & Hrt).
  apply poly_ends_bind. eapply ends_done; [done |]. pose proof Hc as (-> & -> & _).
  set (poly := mk_my_poly _ _ _ _). assert (Hs : sound poly) by by repeat split.
  set (l := seqZ 0 (w - 0) ≫= fun i => pair i <$> seqZ 0 (h - 0)).
  assert (Hl : forall q, q ∈ l <-> 0 <= q.1 < w /\ 0 <= q.2 < h) by (intros q; unfold l; rewrite (elem_of_cells 0 w 0 h); done).
  enough (H : ends (for_each l (fun q => draw_pixel poly q.1 q.2))
    (fun _ c' => proper w h c' /\ (Z.quot w 2, Z.quot h 2) ∉ l) c).
  { unfold ends, for_up in *. rewrite for_each_nest. fold l. destruct (for_each l _ c); [| done | done].
    destruct H as [_ H]. apply H, Hl. cbn [fst snd].
    pose proof (Z.quot_lt w 2). pose proof (Z.quot_lt h 2). pose proof (Z.quot_pos w 2). pose proof (Z.quot_pos h 2). lia. }
  apply (ends_for_each (fun pre c' => proper w h c' /\ (Z.quot w 2, Z.quot h 2) ∉ pre)); [by split; [| apply not_elem_of_nil] |].
  intros pre [i j] c' Hin [Hc' Hpre]. apply Hl in Hin as [Hi Hj]. eapply ends_mono; [by apply (draw_pixel_ends Hatan w h) |].
  intros [] c'' [Hc'' Hne]. split; [done |]. rewrite not_elem_of_app, list_elem_of_singleton. by split.
Qed.

(** C33: no polygon is ever drawn.  With an argument, whichever it is, [main] shows an
    array that was allocated and never written, and stores no corner: the comparison with
    the name of a shape compares pointers.  And [draw_poly], on every picture of at least
    one pixel, every set of corners and all functions [atan] (with no angle for 0/0),
    [sin] and [cos], never comes to its end: it exits at an edge whose line passes the
    centre, or it runs past the end of [is_fill] without a result. *)
Theorem polygon_never_drawn (e : env) (w h : Z) (c : canvas) :
  atan S754_nan = S754_nan ->
  1 <= w -> 1 <= h -> w * h <= INT_MAX -> proper w h c ->
  c_center c = mk_XY (of_int (Z.quot w 2)) (of_int (Z.quot h 2)) ->
  0 <= v_num c -> readable (vertex c) (v_num c) ->
  (forall args c0, (1 <= args)%nat -> exists c', main e args c0 = Done tt c' /\
     output c' = new_array (junk e 2) (800 * 600) /\ vertex c' = vertex c0 /\ v_num c' = v_num c0) /\
  exists c', draw_poly c = Exited (-1) c' \/ draw_poly c = Undef MissingReturn c'.
Proof.
  intros Hatan Hw Hh Hwh Hc Hcen Hn Hv. split.
  - intros args c0 Hargs. unfold main. rewrite (proj2 (Nat.ltb_ge _ _)) by done. unfold ppm_init.
    rewrite bool_decide_false by done. unfold bind, int_. cbn -[new_array]. by eexists.
  - pose proof (draw_poly_ends Hatan w h c Hw Hh Hwh Hc Hcen Hn Hv) as H. unfold ends in H.
    destruct (draw_poly c) as [? ? | code c' | f c']; [done | |]; subst; exists c'; [by left | by right].
Qed.
End Functions.

(** The triangle of [ppm_init] on a picture of three by three pixels. *)
Definition triangle : list XY := [mk_XY (of_int 2) (of_int 0); mk_XY (of_int (-2)) (of_int 2); mk_XY (of_int (-3)) (of_int (-2))].
Definition small : canvas :=
  mk_canvas 3 3 [] (replicate 9 (mk_RGB 0 0 0)) (mk_XY (of_int 1) (of_int 1)) (Some triangle) 3.
Lemma polygon_never_drawn_witness :
  exists c', draw_poly (fun v => v) (fun v => v) (fun v => v) small = Exited (-1) c' \/
             draw_poly (fun v => v) (fun v => v) (fun v => v) small = Undef MissingReturn c'.
Proof.
  apply (proj2 (polygon_never_drawn (fun v => v) (fun v => v) (fun v => v) (mk_env (fun _ _ => mk_RGB 0 0 0) (fun _ => S754_nan) (fun _ _ => mk_RGB 0 0 0))
    3 3 small eq_refl ltac:(lia) ltac:(lia) ltac:(done) ltac:(by repeat split) eq_refl ltac:(done)
    ltac:(intros i Hi; assert (i = 0 \/ i = 1 \/ i = 2) as [-> | [-> | ->]] by (cbn in Hi; lia); by do 2 eexists))).
Defined.

End Polygon.
