(* ===== verification/Window.v ===== *)
(** * The windows of the image programs

    All programs of CSCE646 end by opening a window: the functions [windowResize],
    [ppmwindowDisplay] ([picwindowDisplay] in pr01), [processMouse] and [init] of
    [prNN.cpp], and the calls of GLUT at the end of [main].  GLUT calls the functions for
    as long as the program runs; what happens is a list of events.  OpenGL is not part of
    the programs: it is the interface [OpenGL], whose laws are the documented behaviour the
    programs rely on.  The state is its context and the pictures drawn so far. *)

From S2P Require Import Prelude CMem Raster Ppm PpmRead Polygon.
From Stdlib Require Import ZArith QArith Qreduction Lia.
From stdpp Require Import base list numbers.
From Stdlib Require String.
Import String.StringSyntax.
Import Raster Ppm PpmRead.
Open Scope Z_scope.

Module Window.

Inductive mode := GL_PROJECTION | GL_MODELVIEW.
Inductive call :=
| glutInit
| glutInitDisplayMode
| glutInitWindowPosition (x y : Z)
| glutInitWindowSize (w h : Z)
| glutCreateWindow (title : list Z)
| glClearColor (r g b a : Z)
| glViewport (x y w h : Z)
| glMatrixMode (m : mode)
| glLoadIdentity
| glOrtho (left right bottom top near far : Z)
| glClear
| glRasterPos2i (x y : Z)
| glPixelStorei_alignment (a : Z)
| glDrawPixels (w h : Z)
| glFlush.

(** ** OpenGL *)

(** [place c x y]: the position in the window of a point; [raster c]: the current raster
    position, if it is valid; [unpack c]: the alignment of rows in memory. *)
Class OpenGL := {
  ctx : Type;
  new_ctx : ctx;
  gl_call : call -> ctx -> ctx;
  place : ctx -> Z -> Z -> option (Q * Q);
  raster : ctx -> option (Q * Q);
  unpack : ctx -> Z
}.

Definition gl_calls `{OpenGL} (ks : list call) (c : ctx) : ctx := fold_left (fun c k => gl_call k c) ks c.

(** The calls that move the picture, and the others. *)
Definition moves (k : call) : bool :=
  match k with glViewport _ _ _ _ | glMatrixMode _ | glLoadIdentity | glOrtho _ _ _ _ _ _ => true | _ => false end.
Definition is_raster (k : call) : bool := match k with glRasterPos2i _ _ => true | _ => false end.
Definition is_store (k : call) : bool := match k with glPixelStorei_alignment _ => true | _ => false end.

(** [glOrtho] maps its left and bottom border to the lower left corner of the viewport;
    [glRasterPos] takes the position of its point; the alignment is the one set last. *)
Class OpenGLLaws (G : OpenGL) := {
  ortho_corner : forall c x y w h l r b t, 0 < w -> 0 < h -> l < r -> b < t ->
    place (gl_calls [glViewport x y w h; glMatrixMode GL_PROJECTION; glLoadIdentity; glOrtho l r b t 0 1; glMatrixMode GL_MODELVIEW; glLoadIdentity] c) l b
      = Some (inject_Z x, inject_Z y);
  place_kept : forall k c x y, moves k = false -> place (gl_call k c) x y = place c x y;
  raster_set : forall c x y, raster (gl_call (glRasterPos2i x y) c) = place c x y;
  raster_kept : forall k c, is_raster k = false -> raster (gl_call k c) = raster c;
  unpack_set : forall c a, In a [1; 2; 4; 8] -> unpack (gl_call (glPixelStorei_alignment a) c) = a;
  unpack_kept : forall k c, is_store k = false -> unpack (gl_call k c) = unpack c
}.

Section Functions.
Context {G : OpenGL}.

(** A picture drawn: where its lower left corner is, its size and its rows from below. *)
Definition frame : Type := Q * Q * Z * Z * list Z.
Record screen := mk_screen { context : ctx; drawn : list frame }.
Abbreviation W := (M screen).

Definition gl (k : call) : W unit := fun s => Done tt (mk_screen (gl_call k (context s)) (drawn s)).

(** The distance of two rows in memory, and the rows that [glDrawPixels] reads, each at the
    next multiple of the alignment; [None]: outside the array. *)
Definition stride (w a : Z) : Z := (3 * w + a - 1) / a * a.
Fixpoint rows_of (n : nat) (w off step : Z) (bytes : list Z) : option (list Z) :=
  match n with
  | O => Some []
  | S n' =>
      if in_bounds bytes off (3 * w) then
        match rows_of n' w (off + step) step bytes with
        | Some l => Some (slice bytes off (3 * w) ++ l)
        | None => None
        end
      else None
  end.

(** A negative size is an error of OpenGL, which draws nothing; so does it without a valid
    raster position. *)
Definition draw_pixels (w h : Z) (bytes : list Z) : W unit := fun s =>
  if (w <? 0) || (h <? 0) then Done tt s
  else match raster (context s) with
  | None => Done tt s
  | Some corner =>
      match rows_of (Z.to_nat h) w 0 (stride w (unpack (context s))) bytes with
      | Some rows => Done tt (mk_screen (gl_call (glDrawPixels w h) (context s)) (drawn s ++ [(corner, w, h, rows)]))
      | None => Undef OutOfBounds s
      end
  end.

(** ** The functions that GLUT calls *)
Definition windowResize (w h : Z) : W unit :=
  gl (glViewport 0 0 w h) ;;;
  gl (glMatrixMode GL_PROJECTION) ;;;
  gl glLoadIdentity ;;;
  gl (glOrtho 0 (Z.quot w 2) 0 (Z.quot h 2) 0 1) ;;;
  gl (glMatrixMode GL_MODELVIEW) ;;;
  gl glLoadIdentity.

Definition windowDisplay (w h : Z) (bytes : list Z) : W unit :=
  gl glClear ;;;
  gl (glRasterPos2i 0 0) ;;;
  gl (glPixelStorei_alignment 1) ;;;
  draw_pixels w h bytes ;;;
  gl glFlush.
Definition ppmwindowDisplay (w h : Z) (map : list RGB) : W unit := windowDisplay w h (picture_bytes map).

Definition GLUT_DOWN : Z := 0.
Definition GLUT_UP : Z := 1.
Definition processMouse (button state x y : Z) : W unit := if state =? GLUT_UP then exit 0 else ret tt.

Definition init : W unit := gl (glClearColor 1 1 1 1).

(** ** The end of [main] *)
Inductive event := Resize (w h : Z) | Redraw | Mouse (button state x y : Z).

(** The functions registered with [glutReshapeFunc], [glutDisplayFunc] and [glutMouseFunc]. *)
Definition handle (display : W unit) (e : event) : W unit :=
  match e with
  | Resize w h => windowResize w h
  | Redraw => display
  | Mouse b s x y => processMouse b s x y
  end.

Definition glutMainLoop (callbacks : event -> W unit) (es : list event) : W unit := for_each es callbacks.

Definition open_window (title : list Z) (w h : Z) (callbacks : event -> W unit) (es : list event) : W unit :=
  gl glutInit ;;;
  gl (glutInitWindowPosition 100 100) ;;;
  gl (glutInitWindowSize w h) ;;;
  gl glutInitDisplayMode ;;;
  gl (glutCreateWindow title) ;;;
  init ;;;
  glutMainLoop callbacks es.

(** ** The programs *)
Definition pr01_own (w h : Z) (pixmap : list Z) (es : list event) : W unit :=
  open_window (lit "my picture") w h (handle (windowDisplay w h pixmap)) es.

Definition pr01_callbacks (p : myppm) : event -> W unit := handle (ppmwindowDisplay (width p) (height p) (pixel_map p)).
Definition pr01_show (p : myppm) (es : list event) : W unit := open_window (lit "pr01") (width p) (height p) (pr01_callbacks p) es.
Definition pr03_callbacks (p : myppm) : event -> W unit := handle (ppmwindowDisplay (width p) (height p) (pixel_map p)).
Definition pr03_show (p : myppm) (es : list event) : W unit := open_window (lit "pr03") (width p) (height p) (pr03_callbacks p) es.
Definition pr04_callbacks (p : myppm) : event -> W unit := handle (ppmwindowDisplay (width p) (height p) (new_map p)).
Definition pr04_show (p : myppm) (es : list event) : W unit := open_window (lit "pr04") (width p) (height p) (pr04_callbacks p) es.
Definition pr05_callbacks (p : myppm) : event -> W unit := handle (ppmwindowDisplay (width p) (height p) (new_map p)).
Definition pr05_show (p : myppm) (es : list event) : W unit := open_window (lit "pr05") (width p) (height p) (pr05_callbacks p) es.
Definition pr06_callbacks (p : myppm) : event -> W unit := handle (ppmwindowDisplay (width p) (height p) (output_map p)).
Definition pr06_show (p : myppm) (es : list event) : W unit := open_window (lit "pr06") (width p) (height p) (pr06_callbacks p) es.
Definition pr07_callbacks (p : myppm) : event -> W unit := handle (ppmwindowDisplay (width p) (height p) (output_map p)).
Definition pr07_show (p : myppm) (es : list event) : W unit := open_window (lit "pr07") (width p) (height p) (pr07_callbacks p) es.
Definition pr02_callbacks (c : Polygon.canvas) : event -> W unit := handle (ppmwindowDisplay (Polygon.c_width c) (Polygon.c_height c) (Polygon.output c)).
Definition pr02_show (c : Polygon.canvas) (es : list event) : W unit :=
  open_window (lit "pr02") (Polygon.c_width c) (Polygon.c_height c) (pr02_callbacks c) es.

(** ** What a user sees *)
Definition releases (e : event) : bool := match e with Mouse _ s _ _ => s =? GLUT_UP | _ => false end.
Fixpoint until_release (es : list event) : list event :=
  match es with [] => [] | e :: es' => if releases e then [] else e :: until_release es' end.
Definition redraws (es : list event) : nat :=
  length (List.filter (fun e => match e with Redraw => true | _ => false end) es).
End Functions.

(** GLUT gives the window its size before it is drawn; every size is at least 2 by 2. *)
Definition sizes_ok (e : event) : Prop := match e with Resize w h => 2 <= w /\ 2 <= h | _ => True end.
Definition sized (es : list event) : Prop := Forall sizes_ok es /\ match es with Redraw :: _ => False | Mouse _ _ _ _ :: _ => False | _ => True end.

(** Row [r] of a picture, as bytes. *)
Definition row_bytes (w r : Z) (bytes : list Z) : list Z := take (Z.to_nat (3 * w)) (drop (Z.to_nat (3 * w * r)) bytes).

Lemma length_picture_bytes m : length (picture_bytes m) = (3 * length m)%nat.
Proof. induction m as [| c m IH]; [done |]. unfold picture_bytes in *. cbn [map concat]. rewrite length_app, IH. simpl. lia. Qed.

(** Rows without gaps. *)
Lemma stride_1 w : stride w 1 = 3 * w.
Proof. unfold stride. rewrite Z.div_1_r. lia. Qed.

Lemma rows_all w n : 0 <= w -> forall off bytes, 0 <= off -> zlen bytes = off + 3 * w * Z.of_nat n ->
  rows_of n w off (3 * w) bytes = Some (drop (Z.to_nat off) bytes).
Proof.
  intros Hw. induction n as [| n IH]; intros off bytes Hoff Hl; cbn [rows_of].
  - f_equal. symmetry. apply drop_ge. unfold zlen in Hl. lia.
  - rewrite in_bounds_true by nia. rewrite IH by nia. f_equal. unfold slice.
    replace (Z.to_nat (off + 3 * w)) with (Z.to_nat off + Z.to_nat (3 * w))%nat by lia. rewrite <- drop_drop. apply take_drop.
Qed.

Section Shown.
Context {G : OpenGL} {HG : OpenGLLaws G}.

Lemma gl_place k s x y : moves k = false -> place (gl_call k s) x y = place s x y.
Proof. apply place_kept. Qed.

(** A redraw of a window whose origin is its lower left corner. *)
Lemma display_ok w h bytes s : 0 <= w -> 0 <= h -> zlen bytes = 3 * w * h -> place (context s) 0 0 = Some (0%Q, 0%Q) ->
  exists c', windowDisplay w h bytes s = Done tt (mk_screen c' (drawn s ++ [(0%Q, 0%Q, w, h, bytes)])) /\ place c' 0 0 = Some (0%Q, 0%Q).
Proof.
  intros Hw Hh Hb Hc. unfold windowDisplay, draw_pixels, gl, bind. cbn [context drawn].
  rewrite (proj2 (Z.ltb_ge w 0)), (proj2 (Z.ltb_ge h 0)) by done. cbn [orb].
  rewrite raster_kept, raster_set, gl_place, Hc by done. rewrite unpack_set by (cbn; auto).
  rewrite stride_1, rows_all by lia. eexists. split; [reflexivity |]. cbn [context]. rewrite !gl_place by done. exact Hc.
Qed.

Lemma resize_ok w h s : 2 <= w -> 2 <= h ->
  exists c', windowResize w h s = Done tt (mk_screen c' (drawn s)) /\ place c' 0 0 = Some (0%Q, 0%Q).
Proof.
  intros Hw Hh. eexists. split; [reflexivity |]. cbn [context].
  assert (Hq : forall z, 2 <= z -> 0 < Z.quot z 2) by (intros z Hz; apply Z.quot_str_pos; lia).
  exact (ortho_corner (context s) 0 0 w h 0 (Z.quot w 2) 0 (Z.quot h 2) ltac:(lia) ltac:(lia) (Hq w Hw) (Hq h Hh)).
Qed.

Lemma loop_ok w h bytes es : 0 <= w -> 0 <= h -> zlen bytes = 3 * w * h -> Forall sizes_ok es -> forall s, place (context s) 0 0 = Some (0%Q, 0%Q) ->
  exists c', glutMainLoop (handle (windowDisplay w h bytes)) es s = (if existsb releases es then Exited 0 else Done tt)
    (mk_screen c' (drawn s ++ replicate (redraws (until_release es)) (0%Q, 0%Q, w, h, bytes))).
Proof.
  intros Hw Hh Hb Hes. unfold glutMainLoop. induction Hes as [| e es He _ IH]; intros s Hs; [exists (context s); destruct s; by rewrite app_nil_r |].
  cbn [for_each existsb until_release]. destruct e as [rw rh | | b st x y].
  - destruct He as [Hrw Hrh]. cbn [handle releases orb]. destruct (resize_ok rw rh s Hrw Hrh) as (c1 & Hrun & Hc1).
    rewrite (bind_done _ _ _ _ _ Hrun). destruct (IH (mk_screen c1 (drawn s)) Hc1) as (c' & H'). by exists c'.
  - cbn [handle releases orb]. destruct (display_ok w h bytes s Hw Hh Hb Hs) as (c1 & Hrun & Hc1).
    rewrite (bind_done _ _ _ _ _ Hrun). destruct (IH (mk_screen c1 (drawn s ++ [(0%Q, 0%Q, w, h, bytes)])) Hc1) as (c' & H'). exists c'.
    rewrite H'. cbn [drawn]. by rewrite <- app_assoc.
  - cbn [handle releases]. unfold processMouse. destruct (st =? GLUT_UP) eqn:Hu; cbn [orb].
    + exists (context s). destruct s. unfold bind, exit. cbn. by rewrite app_nil_r.
    + unfold bind, ret. destruct (IH s Hs) as (c' & H'). by exists c'.
Qed.

(** The program's window from its creation on. *)
Definition blank : screen := mk_screen new_ctx [].

Lemma window_ok title w h bytes es : 0 <= w -> 0 <= h -> zlen bytes = 3 * w * h -> sized es ->
  exists c', open_window title w h (handle (windowDisplay w h bytes)) es blank = (if existsb releases es then Exited 0 else Done tt)
    (mk_screen c' (replicate (redraws (until_release es)) (0%Q, 0%Q, w, h, bytes))).
Proof.
  intros Hw Hh Hb [Hes Hfirst]. unfold open_window, init, gl, bind. cbn [context drawn blank].
  destruct es as [| [rw rh | | ] es]; [by eexists | | done | done]. inversion Hes as [| ? ? Hsz Hes2]; subst. cbn in Hsz. destruct Hsz as [Hrw Hrh].
  unfold glutMainLoop. cbn [for_each handle existsb releases orb until_release].
  match goal with |- context [(_ ;;; _) ?s] => destruct (resize_ok rw rh s Hrw Hrh) as (c1 & Hrun & Hc1) end.
  rewrite (bind_done _ _ _ _ _ Hrun). cbn [drawn]. exact (loop_ok w h bytes es Hw Hh Hb Hes2 (mk_screen c1 []) Hc1).
Qed.

(** Without a picture nothing is drawn. *)
Lemma display_negative w h bytes s : w < 0 \/ h < 0 -> exists c', windowDisplay w h bytes s = Done tt (mk_screen c' (drawn s)).
Proof.
  intros Hn. unfold windowDisplay, draw_pixels, gl, bind. cbn [context drawn].
  assert ((w <? 0) || (h <? 0) = true) as ->. { apply orb_true_iff. destruct Hn; [left | right]; by apply Z.ltb_lt. }
  by eexists.
Qed.

Lemma window_negative title w h bytes es : w < 0 \/ h < 0 ->
  exists c', open_window title w h (handle (windowDisplay w h bytes)) es blank = (if existsb releases es then Exited 0 else Done tt) (mk_screen c' []).
Proof.
  intros Hn. unfold open_window, init, gl, bind. cbn [context drawn blank]. unfold glutMainLoop.
  match goal with |- context [for_each es _ (mk_screen ?c [])] => generalize c end.
  induction es as [| e es IH]; intros c; [by eexists |]. cbn [for_each existsb]. destruct e as [rw rh | | b st x y]; cbn [handle releases orb].
  - unfold windowResize, gl, bind. cbn [context drawn]. apply IH.
  - destruct (display_negative w h bytes (mk_screen c []) Hn) as (c1 & Hrun). rewrite (bind_done _ _ _ _ _ Hrun). apply IH.
  - unfold processMouse. destruct (st =? GLUT_UP); cbn [orb]; [by eexists | apply IH].
Qed.
End Shown.

(** ** Upright *)
Lemma row_of_picture w r m : 0 <= w -> 0 <= r ->
  row_bytes w r (picture_bytes m) = picture_bytes (take (Z.to_nat w) (drop (Z.to_nat (w * r)) m)).
Proof.
  intros Hw Hr. unfold row_bytes. assert (Hd : forall k l, drop (3 * k) (picture_bytes l) = picture_bytes (drop k l)).
  { intros k. induction k as [| k IH]; intros l; [done |]. destruct l as [| c l]; [by rewrite !drop_nil |].
    replace (3 * S k)%nat with (3 + 3 * k)%nat by lia. rewrite <- drop_drop. apply IH. }
  assert (Ht : forall k l, take (3 * k) (picture_bytes l) = picture_bytes (take k l)).
  { intros k. induction k as [| k IH]; intros l; [done |]. destruct l as [| c l]; [by rewrite !take_nil |].
    replace (3 * S k)%nat with (S (S (S (3 * k)))) by lia. unfold picture_bytes in *. cbn [map concat pixel_bytes app take]. by rewrite IH. }
  replace (Z.to_nat (3 * w * r)) with (3 * Z.to_nat (w * r))%nat by nia. replace (Z.to_nat (3 * w)) with (3 * Z.to_nat w)%nat by lia.
  by rewrite Hd, Ht.
Qed.

Lemma shown_row w h pic m r : 0 <= w -> 0 <= r < h -> length pic = Z.to_nat (w * h) -> shown w h pic m ->
  take (Z.to_nat w) (drop (Z.to_nat (w * r)) m) = take (Z.to_nat w) (drop (Z.to_nat (w * (h - 1 - r))) pic).
Proof.
  intros Hw Hr Hpic [Hm Hs]. apply list_eq. intros k. destruct (decide (k < Z.to_nat w)%nat) as [Hk | Hk].
  - rewrite !lookup_take, !lookup_drop. specialize (Hs r (Z.of_nat k) Hr ltac:(lia)). unfold idx in Hs.
    assert (Ha : forall a, 0 <= a -> (Z.to_nat (w * a) + k)%nat = Z.to_nat (a * w + Z.of_nat k))
      by (intros a H0; rewrite Z2Nat.inj_add, Nat2Z.id, Z.mul_comm by nia; done).
    rewrite !decide_True by done. rewrite (Ha r), (Ha (h - 1 - r)) by lia. exact Hs.
  - by rewrite !lookup_take, !decide_False.
Qed.

(** ** An OpenGL that obeys the laws *)
Record machine := mk_machine {
  view : Z * Z * Z * Z; in_projection : bool; ortho : Z * Z * Z * Z; at_raster : option (Q * Q); alignment : Z
}.
Definition place_in (m : machine) (x y : Z) : option (Q * Q) :=
  let '(vx, vy, vw, vh) := view m in
  let '(l, r, b, t) := ortho m in
  if (l <? r) && (b <? t) && (l <=? x) && (x <=? r) && (b <=? y) && (y <=? t)
  then Some (Qred (inject_Z vx + inject_Z (vw * (x - l)) / inject_Z (r - l)), Qred (inject_Z vy + inject_Z (vh * (y - b)) / inject_Z (t - b)))%Q
  else None.
Definition run_call (k : call) (m : machine) : machine :=
  match k with
  | glViewport x y w h => mk_machine (x, y, w, h) (in_projection m) (ortho m) (at_raster m) (alignment m)
  | glMatrixMode GL_PROJECTION => mk_machine (view m) true (ortho m) (at_raster m) (alignment m)
  | glMatrixMode GL_MODELVIEW => mk_machine (view m) false (ortho m) (at_raster m) (alignment m)
  | glLoadIdentity => if in_projection m then mk_machine (view m) true (-1, 1, -1, 1) (at_raster m) (alignment m) else m
  | glOrtho l r b t _ _ => if in_projection m then mk_machine (view m) true (l, r, b, t) (at_raster m) (alignment m) else m
  | glRasterPos2i x y => mk_machine (view m) (in_projection m) (ortho m) (place_in m x y) (alignment m)
  | glPixelStorei_alignment a => mk_machine (view m) (in_projection m) (ortho m) (at_raster m) a
  | _ => m
  end.
#[export] Instance sample_gl : OpenGL := {|
  ctx := machine; new_ctx := mk_machine (0, 0, 1, 1) false (-1, 1, -1, 1) (Some (0%Q, 0%Q)) 4;
  gl_call := run_call; place := place_in; raster := at_raster; unpack := alignment |}.

#[export] Instance sample_gl_laws : OpenGLLaws sample_gl.
Proof.
  split.
  - intros c x y w h l r b t Hw Hh Hl Hb. cbn. unfold place_in. cbn.
    rewrite (proj2 (Z.ltb_lt l r)), (proj2 (Z.ltb_lt b t)), !Z.leb_refl, (proj2 (Z.leb_le l r)), (proj2 (Z.leb_le b t)) by lia. cbn [andb].
    rewrite !Z.sub_diag, !Z.mul_0_r.
    assert (Hz : forall v d, Qred (inject_Z v + inject_Z 0 / d) = inject_Z v).
    { intros v d. transitivity (Qred (inject_Z v)); [apply Qred_complete; unfold Qdiv; rewrite Qmult_0_l; apply Qplus_0_r |].
      unfold inject_Z, Qred. pose proof (Z.ggcd_gcd v 1) as Hg. pose proof (Z.ggcd_correct_divisors v 1) as Hd.
      destruct (Z.ggcd v 1) as (g & aa & bb). cbn [fst snd] in *. rewrite Z.gcd_1_r in Hg. subst g. destruct Hd as [Ha Hb']. f_equal; [lia |].
      by replace bb with 1 by lia. }
    by rewrite !Hz.
  - intros k c x y Hk. by destruct k as [| | | | | | | [] | | | | | | |].
  - done.
  - intros k c Hk. destruct k as [| | | | | | | [] | | | | | | |]; try done; cbn; by destruct (in_projection c).
  - done.
  - intros k c Hk. destruct k as [| | | | | | | [] | | | | | | |]; try done; cbn; by destruct (in_projection c).
Qed.

End Window.
