(* ===== verification/Gradient.v ===== *)
(** * The first image program: [CSCE646/pr01]

    Without arguments it draws a picture of its own ([coolpicture]); with a file name it
    shows the file, read by [Ppm.ppm_init].  The globals [width], [height] and [pixmap] are
    the record [screen]; [pixmap] holds three bytes for every pixel. *)

From S2P Require Import Prelude CMem Double Raster Ppm PpmRead.
From Stdlib Require Import ZArith Lia.
From stdpp Require Import base list numbers.
From Stdlib Require String.
Import String.StringSyntax.
Import Double Raster Ppm PpmRead.
Open Scope Z_scope.

Module Gradient.

Record screen := mk_screen { swidth : Z; sheight : Z; pixmap : list Z }.
Abbreviation G := (M screen).

Definition globals : G screen := fun s => Done s s.
Definition int_ (z : Z) : G Z := if (INT_MIN <=? z) && (z <=? INT_MAX) then ret z else undef IntOverflow.

(** [pixmap[i] = v], to an [unsigned char]. *)
Definition set_byte (i v : Z) : G unit := fun s =>
  if inside (pixmap s) i then Done tt (mk_screen (swidth s) (sheight s) (<[Z.to_nat i := u8 v]> (pixmap s))) else Undef OutOfBounds s.

(** [int v = n * 255 / (double)d] *)
Definition shade (n d : Z) : G Z :=
  let* m := int_ (n * 255) in expect IntOverflow (to_int (of_int m / of_int d)%D).

(** The loops over the rows and columns. *)
Definition pixels (body : Z -> Z -> G unit) : G unit := fun s =>
  for_up 0 (sheight s) (fun y => for_up 0 (swidth s) (fun x => body y x)) s.

Definition position (y x : Z) : G Z :=
  let* s := globals in
  let* yw := int_ (y * swidth s) in
  let* n := int_ (yw + x) in
  int_ (n * 3).

Definition setPixels : G unit :=
  pixels (fun y x =>
    let* i := position y x in
    set_byte i 0 ;;;
    set_byte (i + 1) 0 ;;;
    set_byte (i + 2) 0).

Definition coolpicture : G unit :=
  pixels (fun y x =>
    let* s := globals in
    let* i := position y x in
    let* x0 := shade x (sheight s) in
    let* y0 := shade y (swidth s) in
    set_byte i x0 ;;;
    set_byte (i + 1) y0 ;;;
    set_byte (i + 2) (Z.quot (x0 + y0) 2)).

(** What [main] shows: its own picture or the one of the file. *)
Definition main (e : env) (fill : nat -> Z) (files : list Z -> option (list Z)) (args : list (list Z))
    : outcome screen unit + outcome myppm unit :=
  match args with
  | [] => inl (coolpicture (mk_screen 256 256 (new_array fill (256 * 256 * 3))))
  | file :: _ => inr (Ppm.ppm_init e (files file) zeroed)
  end.

(** ** The picture *)
Definition shades_checked : bool :=
  forallb (fun n => match to_int (of_int (n * 255) / of_int 256)%D with Some v => v =? n * 255 / 256 | None => false end) (seqZ 0 256).
Lemma shades_checked_true : shades_checked = true.
Proof. vm_compute. reflexivity. Qed.

Definition level (n : Z) : Z := n * 255 / 256.

Lemma level_range n : 0 <= n < 256 -> 0 <= level n <= 254.
Proof. intros Hn. unfold level. pose proof (Z.div_pos (n * 255) 256). pose proof (Z.div_lt_upper_bound (n * 255) 256 255). lia. Qed.

Lemma int_ok z s : INT_MIN <= z <= INT_MAX -> int_ z s = Done z s.
Proof. intros Hz. unfold int_. by rewrite (proj2 (Z.leb_le _ _)), (proj2 (Z.leb_le _ _)) by lia. Qed.

Lemma shade_256 n s : 0 <= n < 256 -> shade n 256 s = Done (level n) s.
Proof.
  intros Hn. unfold shade, bind. rewrite int_ok by (unfold INT_MIN, INT_MAX; lia).
  pose proof shades_checked_true as Hc. unfold shades_checked in Hc. rewrite forallb_forall in Hc.
  specialize (Hc n). rewrite <- list_elem_of_In, elem_of_seqZ in Hc. specialize (Hc ltac:(lia)).
  destruct (to_int _) as [v |]; [| done]. cbn [expect ret]. f_equal. unfold level. lia.
Qed.

(** The three bytes of a pixel. *)
Definition tint (y x : Z) : list Z := [level x; level y; (level x + level y) / 2].
Definition paint (m : list Z) (c : Z * Z) : list Z :=
  let k := (3 * idx 256 c.1 c.2)%nat in
  <[(k + 2)%nat := (level c.2 + level c.1) / 2]> (<[(k + 1)%nat := level c.1]> (<[k := level c.2]> m)).

Lemma set_byte_ok i v w h m : 0 <= i < Z.of_nat (length m) -> is_byte v ->
  set_byte i v (mk_screen w h m) = Done tt (mk_screen w h (<[Z.to_nat i := v]> m)).
Proof. intros Hi Hv. unfold set_byte. cbn [pixmap swidth sheight]. by rewrite inside_true, u8_id. Qed.

Abbreviation whole m := (length m = Z.to_nat (256 * 256 * 3)).

Lemma tint_bytes y x : 0 <= x < 256 -> 0 <= y < 256 -> Forall is_byte (tint y x).
Proof.
  intros Hx Hy. pose proof (level_range x Hx). pose proof (level_range y Hy).
  pose proof (Z.div_pos (level x + level y) 2). pose proof (Z.div_lt_upper_bound (level x + level y) 2 256).
  unfold is_byte. repeat constructor; lia.
Qed.

(** One round of the loop. *)
Lemma cool_round y x m : 0 <= x < 256 -> 0 <= y < 256 -> whole m ->
  (let* s := globals in let* i := position y x in let* x0 := shade x (sheight s) in let* y0 := shade y (swidth s) in
   set_byte i x0 ;;; set_byte (i + 1) y0 ;;; set_byte (i + 2) (Z.quot (x0 + y0) 2)) (mk_screen 256 256 m)
  = Done tt (mk_screen 256 256 (paint m (y, x))).
Proof.
  intros Hx Hy Hm. pose proof (level_range x Hx). pose proof (level_range y Hy).
  pose proof (tint_bytes y x Hx Hy) as Hb. unfold tint in Hb. rewrite !list.Forall_cons in Hb. destruct Hb as (Hb1 & Hb2 & Hb3 & _).
  assert (Hpos : position y x (mk_screen 256 256 m) = Done (3 * (y * 256 + x)) (mk_screen 256 256 m)).
  { unfold position, globals, bind at 1. cbn [swidth]. do 2 (unfold bind at 1; rewrite int_ok by (unfold INT_MIN, INT_MAX; lia)).
    rewrite int_ok by (unfold INT_MIN, INT_MAX; lia). f_equal. lia. }
  unfold bind at 1, globals. cbn [swidth sheight]. rewrite (bind_done _ _ _ _ _ Hpos).
  rewrite (bind_done _ _ _ _ _ (shade_256 x _ Hx)), (bind_done _ _ _ _ _ (shade_256 y _ Hy)).
  rewrite Z.quot_div_nonneg by lia. do 2 (unfold bind at 1; rewrite set_byte_ok by (done || (rewrite ?length_insert; lia))).
  rewrite set_byte_ok by (done || (rewrite !length_insert; lia)). do 2 f_equal.
  unfold paint, idx. cbn [fst snd]. repeat f_equal; lia.
Qed.

Definition painted (m : list Z) (c : Z * Z) : Prop :=
  forall k, (k < 3)%nat -> m !! (3 * idx 256 c.1 c.2 + k)%nat = tint c.1 c.2 !! k.

Lemma paint_length m c : length (paint m c) = length m.
Proof. unfold paint. by rewrite !length_insert. Qed.

Definition on_screen (c : Z * Z) : Prop := 0 <= c.1 < 256 /\ 0 <= c.2 < 256.

Lemma paint_painted m c : whole m -> on_screen c -> painted (paint m c) c.
Proof.
  intros Hm [Hy Hx] k Hk. pose proof (idx_bound 256 256 c.1 c.2 Hx Hy). unfold paint, tint.
  assert (3 * idx 256 c.1 c.2 + 2 < length m)%nat by (unfold idx; lia).
  destruct k as [| [| [| k]]]; [| | | lia]; cbn [lookup list_lookup];
    repeat (rewrite list_lookup_insert_ne by lia); rewrite ?Nat.add_0_r; by rewrite list_lookup_insert_eq by (rewrite ?length_insert; lia).
Qed.

Lemma paint_other m c c' : on_screen c -> on_screen c' -> c <> c' -> painted m c -> painted (paint m c') c.
Proof.
  intros [Hy Hx] [Hy' Hx'] Hne Hp k Hk. rewrite <- (Hp k Hk). unfold paint.
  assert (idx 256 c.1 c.2 <> idx 256 c'.1 c'.2).
  { intros He. apply idx_inj in He; [| lia..]. apply Hne. destruct c, c'. simpl in *. f_equal; lia. }
  by rewrite !list_lookup_insert_ne by lia.
Qed.

Lemma paint_all l m c : whole m -> (forall c', c' ∈ l -> on_screen c') -> c ∈ l -> painted (fold_left paint l m) c.
Proof.
  intros Hm Hl Hc. assert (Hon : on_screen c) by (by apply Hl).
  enough (H : forall m, whole m -> c ∈ l \/ painted m c -> painted (fold_left paint l m) c) by (apply H; [done | by left]).
  clear m Hm Hc. induction l as [| c' l IH]; intros m Hm [Hc | Hc]; cbn [fold_left];
    [by apply not_elem_of_nil in Hc | done | |]; apply IH; try (by rewrite paint_length); try (intros; apply Hl; by right).
  - apply elem_of_cons in Hc as [-> | Hc]; [right; by apply paint_painted | by left].
  - right. destruct (decide (c = c')) as [-> | Hne]; [by apply paint_painted |]. apply paint_other; try done. apply Hl. left.
Qed.

Lemma cool_run fill : exists m, coolpicture (mk_screen 256 256 (new_array fill (256 * 256 * 3))) = Done tt (mk_screen 256 256 m) /\
  whole m /\ forall c, on_screen c -> painted m c.
Proof.
  set (m0 := new_array fill (256 * 256 * 3)). assert (Hm0 : whole m0) by apply length_new_array.
  assert (Hon : forall c, c ∈ cells 0 256 0 256 -> on_screen c) by (intros c Hc; by apply elem_of_cells).
  exists (fold_left paint (cells 0 256 0 256) m0). split; [| split].
  - unfold coolpicture, pixels, for_up. cbn [swidth sheight]. rewrite for_each_nest.
    change (seqZ 0 (256 - 0) ≫= fun a => pair a <$> seqZ 0 (256 - 0)) with (cells 0 256 0 256).
    clearbody m0. revert m0 Hm0. induction (cells 0 256 0 256) as [| c l IH]; intros m0 Hm0; [done |]. cbn [for_each fold_left].
    destruct (Hon c ltac:(left)) as [Hy Hx]. rewrite (bind_done _ _ _ _ _ (cool_round c.1 c.2 m0 Hx Hy Hm0)).
    destruct c as [y x]. apply IH; [intros; apply Hon; by right | by rewrite paint_length].
  - clear Hon. clearbody m0. revert m0 Hm0. induction (cells 0 256 0 256) as [| c l IH]; intros m0 Hm0; [done |].
    apply IH. by rewrite paint_length.
  - intros c Hc. apply paint_all; [done | done |]. by apply elem_of_cells.
Qed.

(** [pr01] without arguments shows a picture of 256 by 256 pixels whose red is
    255/256 of the column, green 255/256 of the row and blue their mean, each rounded
    down, with no access outside [pixmap]; with a file name it shows the picture of the file.*)
Lemma gradient_drawn e fill files w h pic bytes file more :
  ppm_file w h pic bytes -> files file = Some bytes ->
  (exists m, main e fill files [] = inl (Done tt (mk_screen 256 256 m)) /\
    forall y x, 0 <= y < 256 -> 0 <= x < 256 ->
      take 3 (drop (3 * idx 256 y x) m) = [x * 255 / 256; y * 255 / 256; (x * 255 / 256 + y * 255 / 256) / 2]) /\
  exists p, main e fill files (file :: more) = inr (Done tt p) /\ loaded w h pic p.
Proof.
  intros Hppm Hfile. split.
  - destruct (cool_run fill) as (m & Hrun & Hm & Hp). exists m. unfold main. rewrite Hrun. split; [done |]. intros y x Hy Hx.
    pose proof (Hp (y, x) (conj Hy Hx)) as Hk. cbn [fst snd] in Hk. apply list_eq. intros k. destruct (decide (k < 3)%nat).
    + rewrite lookup_take_lt, lookup_drop by done. by apply Hk.
    + rewrite lookup_take_ge by lia. by destruct k as [| [| [| k]]]; [lia.. |].
  - unfold main. rewrite Hfile. destruct (ppm_file_loaded e w h pic bytes zeroed Hppm) as [(p & -> & Hl) _]. by exists p.
Qed.

(** ** Instances *)
Lemma gradient_drawn_witness : exists p,
  main junk_env (fun _ => 0) (fun _ => Some (header [] [] (lit "1") (lit "1") (lit "255") ++ [10; 20; 30] ++ [])) [lit "a.ppm"] = inr (Done tt p) /\
  loaded 1 1 [mk_RGB 10 20 30] p.
Proof.
  exact (proj2 (gradient_drawn junk_env (fun _ => 0) (fun _ => Some (header [] [] (lit "1") (lit "1") (lit "255") ++ [10; 20; 30] ++ []))
    1 1 [mk_RGB 10 20 30] _ (lit "a.ppm") [] one_pixel_file eq_refl)).
Defined.

End Gradient.
