(* ===== verification/Sweep.v ===== *)
(** * Sweeping a window over a picture

    What the filters of pr04 and pr05 share: statements of methods of [myppm] that read
    [pixel_map] and write [new_map], and the lemma that describes a nest of loops writing
    one pixel of [new_map] in each round by what it does to a single pixel.  Windows are
    summed and minimised over the list of their positions. *)

From S2P Require Import Prelude CMem Double Raster Ppm.
From Stdlib Require Import ZArith Lia.
From stdpp Require Import base list numbers.
Import Double Raster Ppm.
Open Scope Z_scope.

Module Sweep.

Abbreviation P := (M myppm).
Definition this : P myppm := fun p => Done p p.
Definition modify (f : myppm -> myppm) : P unit := fun p => Done tt (f p).

(** An [int] result. *)
Definition int_of (z : Z) : P Z := if (INT_MIN <=? z) && (z <=? INT_MAX) then ret z else undef IntOverflow.

Lemma int_of_ok z p : INT_MIN <= z <= INT_MAX -> int_of z p = Done z p.
Proof. intros Hz. unfold int_of. by rewrite (proj2 (Z.leb_le _ _)), (proj2 (Z.leb_le _ _)) by lia. Qed.

(** [pixel_map[index]] and [new_map[index] = v]. *)
Definition pixel (index : Z) : P RGB := let* p := this in expect OutOfBounds (fetch (pixel_map p) index).
Definition set_new (index : Z) (v : RGB) : P unit := fun p =>
  if inside (new_map p) index then Done tt (set_new_map (<[Z.to_nat index := v]> (new_map p)) p) else Undef OutOfBounds p.

(** ** Sweeping a picture *)

(** The pixel at row [y] and column [x] of an array with rows of [w] pixels. *)
Definition black : RGB := mk_RGB 0 0 0.
Definition at_ (m : list RGB) (w y x : Z) : RGB := default black (m !! idx w y x).

Lemma fetch_at m w h y x : length m = Z.to_nat (w * h) -> 0 <= y < h -> 0 <= x < w -> fetch m (y * w + x) = Some (at_ m w y x).
Proof.
  intros Hm Hy Hx. pose proof (idx_bound w h y x Hx Hy). rewrite fetch_idx by lia. unfold at_.
  destruct (lookup_lt_is_Some_2 m (idx w y x)) as [c Hc]; [unfold idx; lia |]. by rewrite Hc.
Qed.

Lemma at_byte m w y x : Forall byte_pixel m -> byte_pixel (at_ m w y x).
Proof.
  intros Hm. unfold at_. destruct (m !! idx w y x) as [c |] eqn:Hc; [by apply (list.Forall_lookup_1 _ _ _ _ Hm Hc) | done].
Qed.

Lemma fold_new_map {A} (T : list RGB -> A -> list RGB) l p :
  fold_left (fun s c => set_new_map (T (new_map s) c) s) l p = set_new_map (fold_left T l (new_map p)) p.
Proof. revert p. induction l as [| c l IH]; intros p; cbn [fold_left]; [by destruct p |]. by rewrite IH. Qed.

(** Two nested loops that write one pixel of [new_map] in each round. *)
Lemma sweep (body : Z -> Z -> P unit) (val : Z -> Z -> RGB) p y0 y1 x0 x1 :
  0 <= y0 -> y1 <= height p -> 0 <= x0 -> x1 <= width p -> length (new_map p) = Z.to_nat (width p * height p) ->
  (forall m y x, length m = length (new_map p) -> y0 <= y < y1 -> x0 <= x < x1 ->
    body y x (set_new_map m p) = Done tt (set_new_map (<[idx (width p) y x := val y x]> m) p)) ->
  exists m, for_up y0 y1 (fun y => for_up x0 x1 (body y)) p = Done tt (set_new_map m p) /\
    length m = length (new_map p) /\
    forall y x, 0 <= y < height p -> 0 <= x < width p -> m !! idx (width p) y x =
      if (y0 <=? y) && (y <? y1) && (x0 <=? x) && (x <? x1) then Some (val y x) else new_map p !! idx (width p) y x.
Proof.
  intros Hy0 Hy1 Hx0 Hx1 Hlen Hbody. set (w := width p) in *.
  set (T := touch (fun c : Z * Z => Some (idx w c.1 c.2)) (fun c _ => val c.1 c.2)).
  set (cs := cells y0 y1 x0 x1). exists (fold_left T cs (new_map p)).
  unfold for_up. rewrite (for_each_nest (seqZ y0 (y1 - y0)) (fun _ => seqZ x0 (x1 - x0)) body). fold (cells y0 y1 x0 x1). fold cs.
  destruct (for_each_fold (fun s => exists m, s = set_new_map m p /\ length m = length (new_map p))
    (fun c s => set_new_map (T (new_map s) c) s) cs (fun c => body c.1 c.2) p) as [Hrun _].
  - exists (new_map p). split; [by destruct p | done].
  - intros c s Hc (m & -> & Hm). apply elem_of_cells in Hc as [Hcy Hcx]. rewrite Hbody by done.
    unfold T, touch. cbn [new_map set_new_map]. rewrite <- insert_alter. split; [done |].
    eexists. split; [reflexivity |]. by rewrite length_insert.
  - rewrite Hrun. split.
    { f_equal. apply fold_new_map. }
    split; [apply touch_length |]. intros y x Hy Hx.
    destruct ((y0 <=? y) && (y <? y1) && (x0 <=? x) && (x <? x1)) eqn:Hin.
    + rewrite !andb_true_iff, !Z.leb_le, !Z.ltb_lt in Hin. unfold T. rewrite (touch_hit _ _ _ _ _ (y, x)); cbn [fst snd].
      * destruct (lookup_lt_is_Some_2 (new_map p) (idx w y x)) as [c ->]; [| done].
        rewrite Hlen. unfold idx. pose proof (idx_bound w (height p) y x). lia.
      * apply NoDup_cells.
      * apply elem_of_cells. cbn [fst snd]. lia.
      * done.
      * intros [y' x'] Hc He. apply elem_of_cells in Hc as [Hcy Hcx]. cbn [fst snd] in *. injection He as He.
        apply idx_inj in He as [-> ->]; [done | lia..].
    + unfold T. apply touch_miss. intros [y' x'] Hc He. apply elem_of_cells in Hc as [Hcy Hcx]. cbn [fst snd] in *. injection He as He.
      apply idx_inj in He as [-> ->]; [| lia..].
      rewrite !andb_false_iff, !Z.leb_gt, !Z.ltb_ge in Hin. lia.
Qed.

(** ** Windows *)

(** The positions of a window, in the order of the loops ([yk] outside) and in the order
    of the kernel's rows. *)
Definition window (size : Z) : list (Z * Z) := cells 0 size 0 size.
Definition turn (c : Z * Z) : Z * Z := (c.2, c.1).

Lemma window_turn size : turn <$> window size ≡ₚ window size.
Proof.
  apply NoDup_Permutation.
  - apply NoDup_fmap_2; [| apply NoDup_cells]. intros [a b] [c d] [= -> ->]. done.
  - apply NoDup_cells.
  - intros [a b]. rewrite list_elem_of_fmap. unfold window. split.
    + intros ([c d] & [= -> ->] & Hc). apply elem_of_cells in Hc. apply elem_of_cells. cbn [fst snd] in *. lia.
    + intros Hc. exists (b, a). split; [done |]. apply elem_of_cells in Hc. apply elem_of_cells. cbn [fst snd] in *. lia.
Qed.

Definition sumZ (l : list Z) : Z := foldr Z.add 0 l.

#[export] Instance sumZ_proper : Proper ((≡ₚ) ==> (=)) sumZ.
Proof. intros l l' H. unfold sumZ. induction H; simpl; lia. Qed.

Lemma sumZ_app l l' : sumZ (l ++ l') = sumZ l + sumZ l'.
Proof. unfold sumZ. induction l; simpl; lia. Qed.

Lemma sumZ_nonneg l : Forall (fun x => 0 <= x) l -> 0 <= sumZ l.
Proof. unfold sumZ. induction 1; simpl; lia. Qed.

(** A sum of products with factors between 0 and 255. *)
Lemma sumZ_weighted {A} (f k : A -> Z) l : (forall a, a ∈ l -> 0 <= f a <= 255) ->
  Z.abs (sumZ ((fun a => f a * k a) <$> l)) <= 255 * sumZ ((fun a => Z.abs (k a)) <$> l).
Proof.
  unfold sumZ. induction l as [| a l IH]; intros Hf; [done |]. cbn [fmap list_fmap foldr].
  assert (Z.abs (foldr Z.add 0 ((fun a => f a * k a) <$> l)) <= 255 * foldr Z.add 0 ((fun a => Z.abs (k a)) <$> l))
    by (apply IH; intros; apply Hf; by right).
  pose proof (Hf a ltac:(left)). assert (Z.abs (f a * k a) <= 255 * Z.abs (k a)) by (rewrite Z.abs_mul; nia). lia.
Qed.

(** The least value over a list of positions. *)
Definition min_over {A} (g : A -> Z) (l : list A) (a0 : Z) : Z := fold_left (fun a c => Z.min (g c) a) l a0.

Lemma min_over_spec {A} (g : A -> Z) l : forall a0, min_over g l a0 <= a0 /\ (forall c, c ∈ l -> min_over g l a0 <= g c) /\
  (min_over g l a0 = a0 \/ exists c, c ∈ l /\ min_over g l a0 = g c).
Proof.
  induction l as [| c l IH]; intros a0.
  - split; [done |]. split; [intros c Hc; by apply not_elem_of_nil in Hc | by left].
  - unfold min_over in *. cbn [fold_left]. destruct (IH (Z.min (g c) a0)) as (H1 & H2 & H3). split; [lia |]. split.
    + intros c' [-> | Hc']%elem_of_cons; [lia | by apply H2].
    + destruct H3 as [H3 | (c' & Hc' & H3)].
      * destruct (Z.le_gt_cases (g c) a0); [right; exists c; split; [left | lia] | left; lia].
      * right. exists c'. split; [by right | done].
Qed.

(** The three accumulators of an erosion after one more pixel, and after a list of them. *)
Definition lower3 (acc : Z * Z * Z) (q : RGB) : Z * Z * Z :=
  let '(r, g, b) := acc in (Z.min (red q) r, Z.min (green q) g, Z.min (blue q) b).

Lemma lower3_fold {A} (q : A -> RGB) l : forall r g b, fold_left (fun acc c => lower3 acc (q c)) l (r, g, b) =
  (min_over (fun c => red (q c)) l r, min_over (fun c => green (q c)) l g, min_over (fun c => blue (q c)) l b).
Proof. induction l as [| c l IH]; intros r g b; [done |]. cbn [fold_left]. unfold lower3 at 2. by rewrite IH. Qed.

(** A window of odd size around a pixel that is far enough from the border stays inside
    the picture. *)
Lemma window_inside (n w h y x i j : Z) : 0 <= n -> n <= y < h - n -> n <= x < w - n ->
  0 <= i < 2 * n + 1 -> 0 <= j < 2 * n + 1 -> 0 <= y - n + i < h /\ 0 <= x - n + j < w.
Proof. lia. Qed.

Lemma range_of_odd n : 0 <= n -> Z.quot (2 * n + 1 - 1) 2 = n.
Proof. intros Hn. replace (2 * n + 1 - 1) with (n * 2) by lia. by apply Z.quot_mul. Qed.

End Sweep.
