(* ===== verification/Filter.v ===== *)
(** * The filters of [CSCE646/pr04]: convolution, emboss, motion blur and erosion

    [conv_blur] and [dilation] sweep a window over the picture [pixel_map] and write the
    result of each window to [new_map]; the pixels whose window would leave the picture
    keep their colour.  The model follows [myppm.h] and [pr04.cpp] of pr04 statement by
    statement: sums in [int], the scaled sum in [double], [remainder], the conversions
    back.  The theorems equate both sweeps with a description of the single pixel. *)

From S2P Require Import Prelude CMem Double DoubleRange Raster Ppm PpmRead Sweep.
From Stdlib Require Import ZArith Lia.
From stdpp Require Import base list numbers.
From Stdlib Require String.
Import String.StringSyntax.
Import Double DoubleRange Raster Ppm PpmRead Sweep.
Open Scope Z_scope.

Module Filter.

(** ** [conv_single_pixel] *)

(** One position of the window, for the three accumulators.  A product is at most 255
    times an entry of the kernel, so that only the sums are compared with the range of [int]. *)
Definition accumulate (kernel : list Z) (size x0 y0 yk : Z) (acc : Z * Z * Z) (xk : Z) : P (Z * Z * Z) :=
  let* p := this in
  let* c := pixel ((x0 + xk) * width p + (y0 + yk)) in
  let* k := expect OutOfBounds (fetch kernel (xk * size + yk)) in
  let '(r, g, b) := acc in
  let* r' := int_of (r + red c * k) in
  let* g' := int_of (g + green c * k) in
  let* b' := int_of (b + blue c * k) in
  ret (r', g', b').

(** [remainder(accumulator * factor + bias, 255)] as an [int]. *)
Definition tone (factor : double) (bias0 acc : Z) : option Z :=
  to_int (remainder (of_int acc * factor + of_int bias0) (of_int 255))%D.

Definition conv_single_pixel (kernel : list Z) (size : Z) (factor : double) (x y : Z) : P unit :=
  let conv_range := Z.quot (size - 1) 2 in
  let x0 := x - conv_range in
  let y0 := y - conv_range in
  let* acc := fold_up 0 size (0, 0, 0) (fun acc yk => fold_up 0 size acc (accumulate kernel size x0 y0 yk)) in
  let '(r, g, b) := acc in
  let* p := this in
  let* r' := expect IntOverflow (tone factor (bias p) r) in
  let* g' := expect IntOverflow (tone factor (bias p) g) in
  let* b' := expect IntOverflow (tone factor (bias p) b) in
  set_new (x * width p + y) (mk_RGB (u8 r') (u8 g') (u8 b')).

(** ** [conv_blur]; [None] is the null pointer *)
Definition conv_blur (kernel : option (list Z)) (size : Z) (factor : double) (bias0 : Z) : P unit :=
  match kernel with
  | None => ret tt
  | Some k =>
      modify (set_bias bias0) ;;;
      let conv_range := Z.quot (size - 1) 2 in
      let* p := this in
      for_up conv_range (height p - conv_range) (fun y =>
        for_up conv_range (width p - conv_range) (fun x =>
          conv_single_pixel k size factor y x))
  end.

(** ** [morphological_single_pixel] and [dilation] *)
Definition lower (x0 y0 yk : Z) (acc : Z * Z * Z) (xk : Z) : P (Z * Z * Z) :=
  let* p := this in
  let* c := pixel ((x0 + xk) * width p + (y0 + yk)) in
  let '(r, g, b) := acc in
  ret (Z.min (red c) r, Z.min (green c) g, Z.min (blue c) b).

Definition morphological_single_pixel (size x y : Z) : P unit :=
  let conv_range := Z.quot (size - 1) 2 in
  let x0 := x - conv_range in
  let y0 := y - conv_range in
  let* acc := fold_up 0 size (255, 255, 255) (fun acc yk => fold_up 0 size acc (lower x0 y0 yk)) in
  let '(r, g, b) := acc in
  let* p := this in
  set_new (x * width p + y) (mk_RGB (u8 r) (u8 g) (u8 b)).

Definition dilation (size : Z) : P unit :=
  let conv_range := Z.quot (size - 1) 2 in
  let* p := this in
  for_up conv_range (height p - conv_range) (fun y =>
    for_up conv_range (width p - conv_range) (fun x =>
      morphological_single_pixel size y x)).

(** ** [main] of [pr04.cpp], up to the display of [new_map] *)
Definition ppm_init := Ppm.ppm_init2.
Definition clean_up := Ppm.clean_up.

Definition box_kernel : list Z := replicate 25 1.
Definition emboss_kernel : list Z := [-1; -1; 0; -1; 0; 1; 0; 1; 1].
Definition motion_kernel : list Z :=
  [1; 0; 0; 0; 0; 0; 0; 0; 0;
   0; 3; 0; 0; 0; 0; 0; 0; 0;
   0; 0; 5; 0; 0; 0; 0; 0; 0;
   0; 0; 0; 7; 0; 0; 0; 0; 0;
   0; 0; 0; 0; 9; 0; 0; 0; 0;
   0; 0; 0; 0; 0; 7; 0; 0; 0;
   0; 0; 0; 0; 0; 0; 5; 0; 0;
   0; 0; 0; 0; 0; 0; 0; 3; 0;
   0; 0; 0; 0; 0; 0; 0; 0; 1].

Definition command (name : list Z) : P unit :=
  if bool_decide (name = lit "convolution") then conv_blur (Some box_kernel) 5 (of_int 1 / of_int 25)%D 255
  else if bool_decide (name = lit "emboss") then conv_blur (Some emboss_kernel) 3 (of_int 1 / of_int 9)%D 128
  else if bool_decide (name = lit "motion") then conv_blur (Some motion_kernel) 9 (of_int 1 / of_int 41)%D 0
  else if bool_decide (name = lit "erosion") then dilation 9
  else exit (-1).

(** [args] are the arguments after the name of the program, [files] the files. *)
Definition main (e : env) (files : list Z -> option (list Z)) (args : list (list Z)) : outcome myppm unit :=
  match args with
  | name :: file :: _ =>
      match ppm_init e (files file) zeroed with
      | Done _ p => command name p
      | o => o
      end
  | _ => Exited (-1) zeroed
  end.

(** ** Erosion *)

(** [v] is the least value of the channel [ch] in the window of radius [n] around the
    pixel at row [y], column [x]. *)
Definition window_min (m : list RGB) (w n y x : Z) (ch : RGB -> Z) (v : Z) : Prop :=
  (forall i j, - n <= i <= n -> - n <= j <= n -> v <= ch (at_ m w (y + i) (x + j))) /\
  (exists i j, - n <= i <= n /\ - n <= j <= n /\ v = ch (at_ m w (y + i) (x + j))).

Lemma min_over_window m w n y x ch : 0 <= n -> (forall c, byte_pixel c -> is_byte (ch c)) -> Forall byte_pixel m ->
  window_min m w n y x ch (min_over (fun c => ch (at_ m w (y - n + c.2) (x - n + c.1))) (window (2 * n + 1)) 255).
Proof.
  intros Hn Hch Hm. destruct (min_over_spec (fun c => ch (at_ m w (y - n + c.2) (x - n + c.1))) (window (2 * n + 1)) 255) as (H1 & H2 & H3).
  assert (Hin : forall i j, - n <= i <= n -> - n <= j <= n -> (n + j, n + i) ∈ window (2 * n + 1))
    by (intros; apply elem_of_cells; cbn [fst snd]; lia).
  split.
  - intros i j Hi Hj. specialize (H2 _ (Hin i j Hi Hj)). cbn [fst snd] in H2.
    replace (y - n + (n + i)) with (y + i) in H2 by lia. replace (x - n + (n + j)) with (x + j) in H2 by lia. done.
  - destruct H3 as [H3 | ([b a] & Hc & H3)].
    + exists (- n), (- n). split; [lia |]. split; [lia |].
      specialize (H2 _ (Hin (- n) (- n) ltac:(lia) ltac:(lia))). cbn [fst snd] in H2.
      replace (y - n + (n + - n)) with (y + - n) in H2 by lia. replace (x - n + (n + - n)) with (x + - n) in H2 by lia.
      pose proof (Hch _ (at_byte m w (y + - n) (x + - n) Hm)) as [_ Hb]. lia.
    + apply elem_of_cells in Hc. cbn [fst snd] in *. exists (a - n), (b - n). split; [lia |]. split; [lia |].
      rewrite H3. do 2 f_equal; lia.
Qed.

(** The pixel that [morphological_single_pixel] writes. *)
Definition eroded (m : list RGB) (w n y x : Z) : RGB :=
  let low ch := u8 (min_over (fun c => ch (at_ m w (y - n + c.2) (x - n + c.1))) (window (2 * n + 1)) 255) in
  mk_RGB (low red) (low green) (low blue).

Lemma morphological_writes p m n y x : 0 <= n -> length (pixel_map p) = Z.to_nat (width p * height p) ->
  length m = Z.to_nat (width p * height p) -> n <= y < height p - n -> n <= x < width p - n ->
  morphological_single_pixel (2 * n + 1) y x (set_new_map m p)
  = Done tt (set_new_map (<[idx (width p) y x := eroded (pixel_map p) (width p) n y x]> m) p).
Proof.
  intros Hn Hp Hm Hy Hx. unfold morphological_single_pixel. rewrite range_of_odd by done.
  set (f := fun (acc : Z * Z * Z) (c : Z * Z) => lower3 acc (at_ (pixel_map p) (width p) (y - n + c.2) (x - n + c.1))).
  assert (Hrun : fold_up 0 (2 * n + 1) (255, 255, 255) (fun acc yk => fold_up 0 (2 * n + 1) acc (lower (y - n) (x - n) yk)) (set_new_map m p)
    = Done (fold_left f (window (2 * n + 1)) (255, 255, 255)) (set_new_map m p)).
  { unfold fold_up. rewrite (fold_each_nest (seqZ 0 (2 * n + 1 - 0)) (seqZ 0 (2 * n + 1 - 0)) (lower (y - n) (x - n))).
    apply (fold_each_pure f (fun _ _ => True)); [done |]. intros pre c acc (post & Hl) _. split; [| done].
    assert (Hc : c ∈ window (2 * n + 1)) by (rewrite Hl; apply elem_of_app; right; left).
    apply elem_of_cells in Hc as [Hc1 Hc2]. unfold lower, bind at 1, this at 1. unfold pixel, bind at 1, bind at 1, this.
    cbn [pixel_map width set_new_map].
    destruct (window_inside n (width p) (height p) y x c.2 c.1 Hn Hy Hx Hc2 Hc1) as [Hi Hj].
    rewrite (fetch_at _ _ (height p)) by done. destruct acc as [[r g] b]. done. }
  unfold bind at 1. rewrite Hrun.
  unfold f. rewrite lower3_fold. unfold bind, this. cbn [width set_new_map]. unfold set_new. cbn [new_map set_new_map].
  pose proof (idx_bound (width p) (height p) y x ltac:(lia) ltac:(lia)). rewrite inside_true by lia. done.
Qed.

Lemma dilation_run p n : 0 <= n -> length (pixel_map p) = Z.to_nat (width p * height p) -> length (new_map p) = Z.to_nat (width p * height p) ->
  exists m, dilation (2 * n + 1) p = Done tt (set_new_map m p) /\ length m = length (new_map p) /\
    forall y x, 0 <= y < height p -> 0 <= x < width p -> m !! idx (width p) y x =
      if (n <=? y) && (y <? height p - n) && (n <=? x) && (x <? width p - n)
      then Some (eroded (pixel_map p) (width p) n y x) else new_map p !! idx (width p) y x.
Proof.
  intros Hn Hp Hm. unfold dilation. rewrite range_of_odd by done. unfold bind, this.
  apply (sweep (morphological_single_pixel (2 * n + 1)) (eroded (pixel_map p) (width p) n) p n (height p - n) n (width p - n));
    [lia | lia | lia | lia | done |].
  intros m y x Hlen Hy Hx. apply morphological_writes; [done | done | lia | done | done].
Qed.

(** ** Convolution *)
Definition kern (kernel : list Z) (i : Z) : Z := default 0 (kernel !! Z.to_nat i).

(** The weighted sum of the channel [ch] over the window of radius [n] around the pixel at
    row [y], column [x], taken along the rows of the kernel. *)
Definition window_sum (kernel : list Z) (n : Z) (m : list RGB) (w y x : Z) (ch : RGB -> Z) : Z :=
  sumZ ((fun c => ch (at_ m w (y - n + c.1) (x - n + c.2)) * kern kernel (c.1 * (2 * n + 1) + c.2)) <$> window (2 * n + 1)).

Definition weight (kernel : list Z) (n : Z) : Z :=
  sumZ ((fun c => Z.abs (kern kernel (c.1 * (2 * n + 1) + c.2))) <$> window (2 * n + 1)).

(** The three sums of a window. *)
Definition sums (kernel : list Z) (n : Z) (m : list RGB) (w y x : Z) : Z * Z * Z :=
  (window_sum kernel n m w y x red, window_sum kernel n m w y x green, window_sum kernel n m w y x blue).

(** One term of a sum, for a position of the window as the loops visit it. *)
Definition term (kernel : list Z) (n : Z) (m : list RGB) (w y x : Z) (ch : RGB -> Z) (c : Z * Z) : Z :=
  ch (at_ m w (y - n + c.2) (x - n + c.1)) * kern kernel (c.2 * (2 * n + 1) + c.1).

Lemma window_sum_turn kernel n m w y x ch :
  sumZ (term kernel n m w y x ch <$> window (2 * n + 1)) = window_sum kernel n m w y x ch.
Proof. unfold window_sum. rewrite <- (window_turn (2 * n + 1)) at 2. by rewrite <- list_fmap_compose. Qed.

Lemma weight_turn kernel n :
  sumZ ((fun c => Z.abs (kern kernel (c.2 * (2 * n + 1) + c.1))) <$> window (2 * n + 1)) = weight kernel n.
Proof. unfold weight. rewrite <- (window_turn (2 * n + 1)) at 2. by rewrite <- list_fmap_compose. Qed.

Definition channel (ch : RGB -> Z) : Prop := forall c, byte_pixel c -> is_byte (ch c).
Lemma channels : channel red /\ channel green /\ channel blue.
Proof. split; [| split]; by intros c (H1 & H2 & H3). Qed.

(** A sum over some of the first positions stays within 255 times the weight. *)
Lemma partial_bound kernel n m w y x ch pre post : channel ch -> Forall byte_pixel m -> window (2 * n + 1) = pre ++ post ->
  Z.abs (sumZ (term kernel n m w y x ch <$> pre)) <= 255 * weight kernel n.
Proof.
  intros Hch Hm Hw. eapply Z.le_trans; [apply sumZ_weighted |].
  - intros c _. pose proof (Hch _ (at_byte m w (y - n + c.2) (x - n + c.1) Hm)) as []. lia.
  - rewrite <- weight_turn, Hw, fmap_app, sumZ_app.
    assert (0 <= sumZ ((fun c => Z.abs (kern kernel (c.2 * (2 * n + 1) + c.1))) <$> post)); [| lia].
    apply sumZ_nonneg, Forall_fmap, list.Forall_true. intros c. simpl. lia.
Qed.

Lemma int_of_abs z p : Z.abs z <= INT_MAX -> int_of z p = Done z p.
Proof. intros Hz. apply int_of_ok. unfold INT_MIN, INT_MAX in *. lia. Qed.

(** The accumulators after the loops over the window. *)
Lemma accumulate_window kernel n p m y x : 0 <= n -> length kernel = Z.to_nat ((2 * n + 1) * (2 * n + 1)) ->
  255 * weight kernel n <= INT_MAX -> Forall byte_pixel (pixel_map p) -> length (pixel_map p) = Z.to_nat (width p * height p) ->
  n <= y < height p - n -> n <= x < width p - n ->
  fold_up 0 (2 * n + 1) (0, 0, 0) (fun acc yk => fold_up 0 (2 * n + 1) acc (accumulate kernel (2 * n + 1) (y - n) (x - n) yk)) (set_new_map m p)
  = Done (sums kernel n (pixel_map p) (width p) y x) (set_new_map m p).
Proof.
  intros Hn Hk Hwt Hb Hp Hy Hx. set (T := term kernel n (pixel_map p) (width p) y x).
  set (f := fun (acc : Z * Z * Z) (c : Z * Z) => let '(r, g, b) := acc in (r + T red c, g + T green c, b + T blue c)).
  unfold fold_up. rewrite (fold_each_nest (seqZ 0 (2 * n + 1 - 0)) (seqZ 0 (2 * n + 1 - 0)) (accumulate kernel (2 * n + 1) (y - n) (x - n))).
  destruct (fold_each_pure f (fun pre acc => acc = (sumZ (T red <$> pre), sumZ (T green <$> pre), sumZ (T blue <$> pre)))
    (window (2 * n + 1)) (fun b c => accumulate kernel (2 * n + 1) (y - n) (x - n) c.1 b c.2) (0, 0, 0) (set_new_map m p)) as [Hrun Hsum]; [done | |].
  - intros pre c acc (post & Hl) ->.
    assert (Hc : c ∈ window (2 * n + 1)) by (rewrite Hl; apply elem_of_app; right; left).
    apply elem_of_cells in Hc as [Hc1 Hc2].
    destruct (window_inside n (width p) (height p) y x c.2 c.1 Hn Hy Hx Hc2 Hc1) as [Hi Hj].
    assert (Hsnoc : forall ch, sumZ (T ch <$> pre ++ [c]) = sumZ (T ch <$> pre) + T ch c)
      by (intros ch; rewrite fmap_app, sumZ_app; unfold sumZ; simpl; lia).
    assert (Hbound : forall ch, channel ch -> Z.abs (sumZ (T ch <$> pre) + T ch c) <= INT_MAX).
    { intros ch Hch. rewrite <- Hsnoc. eapply Z.le_trans; [| exact Hwt].
      apply (partial_bound _ _ _ _ _ _ ch (pre ++ [c]) post); [done | done |]. rewrite <- app_assoc. exact Hl. }
    unfold f. rewrite !Hsnoc. split; [| done].
    unfold accumulate, bind at 1, this at 1. unfold pixel, bind at 1, bind at 1, this. cbn [pixel_map width set_new_map].
    rewrite (fetch_at _ _ (height p)) by done. unfold expect at 1, ret at 1. unfold bind at 1.
    assert (Hker : fetch kernel (c.2 * (2 * n + 1) + c.1) = Some (kern kernel (c.2 * (2 * n + 1) + c.1))).
    { unfold fetch, kern. rewrite (proj2 (Z.ltb_ge _ _)) by nia.
      destruct (lookup_lt_is_Some_2 kernel (Z.to_nat (c.2 * (2 * n + 1) + c.1))) as [v ->]; [rewrite Hk; nia | done]. }
    rewrite Hker. unfold expect at 1, ret at 1. destruct channels as (Hr & Hg & Hbl).
    rewrite (bind_done _ _ _ _ _ (int_of_abs _ _ (Hbound red Hr))), (bind_done _ _ _ _ _ (int_of_abs _ _ (Hbound green Hg))),
      (bind_done _ _ _ _ _ (int_of_abs _ _ (Hbound blue Hbl))). done.
  - unfold window, cells in Hrun. rewrite Hrun. unfold window, cells in Hsum. rewrite Hsum. unfold sums.
    by rewrite !(window_sum_turn kernel n (pixel_map p) (width p) y x).
Qed.

(** The scaled sum of a window always fits. *)
Lemma tone_total factor bias0 acc : sized 0 factor -> Z.abs acc <= INT_MAX -> Z.abs bias0 <= INT_MAX ->
  exists z, tone factor bias0 acc = Some z /\ -127 <= z <= 127.
Proof.
  intros Hf Ha Hb. unfold tone. apply remainder_255.
  assert (Hs : forall z, Z.abs z <= INT_MAX -> sized 0 (of_int z))
    by (intros z Hz; apply (repr_sized _ z), repr_of_int; unfold INT_MAX, prec in *; lia).
  apply (sized_mono 62); [| lia]. apply (add_sized 60); [by apply (mul_sized 0); auto | | lia].
  apply (sized_mono 0); [by apply Hs | lia].
Qed.

Definition tone_byte (factor : double) (bias0 acc : Z) : Z := u8 (default 0 (tone factor bias0 acc)).
Definition blurred (kernel : list Z) (n : Z) (factor : double) (bias0 : Z) (m : list RGB) (w y x : Z) : RGB :=
  let t ch := tone_byte factor bias0 (window_sum kernel n m w y x ch) in mk_RGB (t red) (t green) (t blue).

Lemma tone_expect {B} factor bias0 acc p (k : Z -> P B) : sized 0 factor -> Z.abs acc <= INT_MAX -> Z.abs bias0 <= INT_MAX ->
  (let* z := expect IntOverflow (tone factor bias0 acc) in k z) p = k (default 0 (tone factor bias0 acc)) p.
Proof. intros Hf Ha Hb. destruct (tone_total factor bias0 acc Hf Ha Hb) as (z & -> & _). done. Qed.

Lemma conv_writes kernel n factor p m y x : 0 <= n -> length kernel = Z.to_nat ((2 * n + 1) * (2 * n + 1)) ->
  255 * weight kernel n <= INT_MAX -> Forall byte_pixel (pixel_map p) -> length (pixel_map p) = Z.to_nat (width p * height p) ->
  sized 0 factor -> Z.abs (bias p) <= INT_MAX ->
  length m = Z.to_nat (width p * height p) -> n <= y < height p - n -> n <= x < width p - n ->
  conv_single_pixel kernel (2 * n + 1) factor y x (set_new_map m p)
  = Done tt (set_new_map (<[idx (width p) y x := blurred kernel n factor (bias p) (pixel_map p) (width p) y x]> m) p).
Proof.
  intros Hn Hk Hwt Hb Hp Hf Hbias Hm Hy Hx. unfold conv_single_pixel. rewrite range_of_odd by done.
  rewrite (bind_done _ _ _ _ _ (accumulate_window kernel n p m y x Hn Hk Hwt Hb Hp Hy Hx)). unfold sums.
  unfold bind at 1, this at 1.
  assert (Hs : forall ch, channel ch -> Z.abs (window_sum kernel n (pixel_map p) (width p) y x ch) <= INT_MAX).
  { intros ch Hch. rewrite <- window_sum_turn. eapply Z.le_trans; [| exact Hwt].
    apply (partial_bound _ _ _ _ _ _ ch (window (2 * n + 1)) []); [done | done | by rewrite app_nil_r]. }
  destruct channels as (Hr & Hg & Hbl). cbn [bias set_new_map].
  rewrite !tone_expect by (done || by apply Hs). cbn [width set_new_map].
  unfold set_new. cbn [new_map set_new_map]. pose proof (idx_bound (width p) (height p) y x ltac:(lia) ltac:(lia)).
  rewrite inside_true by lia. done.
Qed.

(** The pixels of the picture that lie at least [n] away from its border. *)
Definition interior (w h n y x : Z) : bool := (n <=? y) && (y <? h - n) && (n <=? x) && (x <? w - n).

(** The array [m] is the picture [m0] with the pixels of the interior replaced by [val]. *)
Definition replaced (w h n : Z) (val : Z -> Z -> RGB) (m0 m : list RGB) : Prop :=
  length m = length m0 /\ forall y x, 0 <= y < h -> 0 <= x < w ->
    m !! idx w y x = if interior w h n y x then Some (val y x) else m0 !! idx w y x.

Lemma conv_blur_run kernel n factor bias0 p :
  0 <= n -> length kernel = Z.to_nat ((2 * n + 1) * (2 * n + 1)) -> 255 * weight kernel n <= INT_MAX ->
  sized 0 factor -> Z.abs bias0 <= INT_MAX -> ready p ->
  exists m, conv_blur (Some kernel) (2 * n + 1) factor bias0 p = Done tt (set_new_map m (set_bias bias0 p)) /\
    replaced (width p) (height p) n (blurred kernel n factor bias0 (pixel_map p) (width p)) (new_map p) m.
Proof.
  intros Hn Hk Hwt Hf Hb (Hp & Hnew & Hbytes). cbn [conv_blur]. unfold bind at 1, modify. unfold bind at 1, this.
  rewrite range_of_odd by done.
  destruct (sweep (conv_single_pixel kernel (2 * n + 1) factor) (blurred kernel n factor bias0 (pixel_map p) (width p)) (set_bias bias0 p)
    n (height p - n) n (width p - n)) as (m & Hrun & Hlen & Hlook); cbn [width height new_map set_bias]; [lia | lia | lia | lia | done | |].
  - intros m y x Hlen Hy Hx. apply (conv_writes kernel n factor (set_bias bias0 p)); cbn [pixel_map width height bias set_bias]; try done. lia.
  - exists m. split; [exact Hrun |]. split; [exact Hlen | exact Hlook].
Qed.

(** C34: on a picture read by [ppm_init], [conv_blur] with a kernel of odd size is the
    discrete convolution: every pixel whose window fits becomes the tone of the weighted
    sum of its window (each channel for itself), every other pixel and the picture itself
    stay, no array is left, no sum overflows and every conversion is defined. *)
Theorem conv_blur_convolves kernel n factor bias0 p :
  0 <= n -> length kernel = Z.to_nat ((2 * n + 1) * (2 * n + 1)) -> 255 * weight kernel n <= INT_MAX ->
  sized 0 factor -> Z.abs bias0 <= INT_MAX -> ready p ->
  exists m, conv_blur (Some kernel) (2 * n + 1) factor bias0 p = Done tt (set_new_map m (set_bias bias0 p)) /\
    replaced (width p) (height p) n (blurred kernel n factor bias0 (pixel_map p) (width p)) (new_map p) m.
Proof. apply conv_blur_run. Qed.

(** [dilation] replaces every pixel whose window fits by the least value of each
    channel in its window, which is an erosion in spite of the name; every other pixel
    and the picture itself stay and no array is left.*)
Lemma dilation_erodes n p : 0 <= n -> ready p ->
  exists m, dilation (2 * n + 1) p = Done tt (set_new_map m p) /\ length m = length (new_map p) /\
    forall y x, 0 <= y < height p -> 0 <= x < width p ->
      if interior (width p) (height p) n y x
      then exists c, m !! idx (width p) y x = Some c /\ window_min (pixel_map p) (width p) n y x red (red c) /\
             window_min (pixel_map p) (width p) n y x green (green c) /\ window_min (pixel_map p) (width p) n y x blue (blue c)
      else m !! idx (width p) y x = new_map p !! idx (width p) y x.
Proof.
  intros Hn (Hp & Hnew & Hbytes). destruct (dilation_run p n Hn Hp Hnew) as (m & Hrun & Hlen & Hlook).
  exists m. split; [done |]. split; [done |]. intros y x Hy Hx. specialize (Hlook y x Hy Hx). unfold interior.
  destruct ((n <=? y) && (y <? height p - n) && (n <=? x) && (x <? width p - n)); [| done].
  eexists. split; [exact Hlook |]. destruct channels as (Hr & Hg & Hb).
  assert (Hmin : forall ch, channel ch -> window_min (pixel_map p) (width p) n y x ch
    (u8 (min_over (fun c => ch (at_ (pixel_map p) (width p) (y - n + c.2) (x - n + c.1))) (window (2 * n + 1)) 255))).
  { intros ch Hch. pose proof (min_over_window (pixel_map p) (width p) n y x ch Hn Hch Hbytes) as Hm.
    rewrite u8_id; [done |]. destruct Hm as (_ & i & j & _ & _ & ->). by apply Hch, at_byte. }
  unfold eroded. cbn [red green blue]. auto.
Qed.

(** ** Instances *)
Definition small : myppm :=
  set_new_map (replicate 9 (mk_RGB 5 6 7)) (set_pixel_map (replicate 9 (mk_RGB 5 6 7)) (set_height 3 (set_width 3 zeroed))).

Lemma small_ready : ready small.
Proof. split; [done |]. split; [done |]. by repeat constructor. Qed.

Lemma conv_blur_convolves_witness :
  exists m, conv_blur (Some emboss_kernel) (2 * 1 + 1) (of_int 1) 128 small = Done tt (set_new_map m (set_bias 128 small)) /\
    m !! 4%nat = Some (blurred emboss_kernel 1 (of_int 1) 128 (pixel_map small) 3 1 1).
Proof.
  destruct (conv_blur_convolves emboss_kernel 1 (of_int 1) 128 small) as (m & Hrun & _ & Hm);
    [done | done | done | done | done | apply small_ready |].
  exists m. split; [exact Hrun |]. exact (Hm 1 1 ltac:(done) ltac:(done)).
Defined.

Lemma dilation_erodes_witness :
  exists m, dilation (2 * 1 + 1) small = Done tt (set_new_map m small) /\ m !! 0%nat = new_map small !! 0%nat.
Proof.
  destruct (dilation_erodes 1 small) as (m & Hrun & _ & Hm); [done | apply small_ready |].
  exists m. split; [exact Hrun |]. exact (Hm 0 0 ltac:(done) ltac:(done)).
Defined.

End Filter.
