(* ===== verification/FilterMain.v ===== *)
(** * The program [pr04]: its commands on a file

    What each command of [pr04.cpp] shows for a PPM file, and what the three convolutions
    do to areas of one colour. *)

From S2P Require Import Prelude CMem Double DoubleRange Raster Ppm PpmRead Sweep Filter.
From Stdlib Require Import ZArith Lia.
From stdpp Require Import base list numbers.
From Stdlib Require String.
Import String.StringSyntax.
Import Double DoubleRange Raster Ppm PpmRead Sweep Filter.
Open Scope Z_scope.

Module FilterMain.

(** ** Areas of one colour *)
Definition total (kernel : list Z) (n : Z) : Z := sumZ ((fun c => kern kernel (c.1 * (2 * n + 1) + c.2)) <$> window (2 * n + 1)).

(** The channel [ch] has the value [v] in the whole window. *)
Definition flat (m : list RGB) (w n y x : Z) (ch : RGB -> Z) (v : Z) : Prop :=
  forall i j, - n <= i <= n -> - n <= j <= n -> ch (at_ m w (y + i) (x + j)) = v.

Lemma flat_sum kernel n m w y x ch v : flat m w n y x ch v -> window_sum kernel n m w y x ch = v * total kernel n.
Proof.
  intros Hf. unfold window_sum, total.
  assert (Hall : forall c, c ∈ window (2 * n + 1) -> ch (at_ m w (y - n + c.1) (x - n + c.2)) = v).
  { intros c Hc. apply elem_of_cells in Hc as [H1 H2].
    replace (y - n + c.1) with (y + (c.1 - n)) by lia. replace (x - n + c.2) with (x + (c.2 - n)) by lia. apply Hf; lia. }
  revert Hall. generalize (window (2 * n + 1)). induction l as [| c l IH]; intros Hall; [unfold sumZ; simpl; lia |].
  cbn [fmap list_fmap]. unfold sumZ in *. cbn [foldr]. rewrite IH by (intros; apply Hall; by right). rewrite Hall by left. lia.
Qed.

(** The tone of an area of colour [v] for a kernel of this total weight. *)
Definition flat_tone (v : Z) : Z := if v <=? 127 then v else u8 (v + 1).

Lemma for_bytes (f : Z -> bool) : forallb f (seqZ 0 256) = true -> forall v, is_byte v -> f v = true.
Proof.
  intros H v Hv. rewrite forallb_forall in H. apply H. apply list_elem_of_In, elem_of_seqZ. unfold is_byte in Hv. lia.
Qed.

Lemma box_tones v : is_byte v -> tone_byte (of_int 1 / of_int 25)%D 255 (v * 25) = flat_tone v.
Proof. intros Hv. apply Z.eqb_eq. revert v Hv. apply for_bytes. vm_compute. reflexivity. Qed.

Lemma motion_tones v : is_byte v -> tone_byte (of_int 1 / of_int 41)%D 0 (v * 41) = flat_tone v.
Proof. intros Hv. apply Z.eqb_eq. revert v Hv. apply for_bytes. vm_compute. reflexivity. Qed.

(** In an area of one colour the box and the motion blur leave the values up to 127
    alone, but make every brighter value one unit brighter, and white black, because
    [remainder] maps to -127..127 and the result is stored in an [unsigned char]; the
    emboss filter makes every such area the grey 129.*)
Lemma flat_areas m w y x ch v :
  is_byte v ->
  (flat m w 2 y x ch v -> tone_byte (of_int 1 / of_int 25)%D 255 (window_sum box_kernel 2 m w y x ch) = flat_tone v) /\
  (flat m w 4 y x ch v -> tone_byte (of_int 1 / of_int 41)%D 0 (window_sum motion_kernel 4 m w y x ch) = flat_tone v) /\
  (flat m w 1 y x ch v -> tone_byte (of_int 1 / of_int 9)%D 128 (window_sum emboss_kernel 1 m w y x ch) = 129) /\
  flat_tone 255 = 0.
Proof.
  intros Hv. split; [| split; [| split; [| done]]]; intros Hf; rewrite (flat_sum _ _ _ _ _ _ _ v Hf).
  - by apply box_tones.
  - by apply motion_tones.
  - change (total emboss_kernel 1) with 0. rewrite Z.mul_0_r. reflexivity.
Qed.

(** ** The commands on a file *)

(** The radius of the window of a command and the colour it gives to a pixel. *)
Definition effect (name : list Z) : option (Z * (list RGB -> Z -> Z -> Z -> RGB)) :=
  if bool_decide (name = lit "convolution") then Some (2, blurred box_kernel 2 (of_int 1 / of_int 25)%D 255)
  else if bool_decide (name = lit "emboss") then Some (1, blurred emboss_kernel 1 (of_int 1 / of_int 9)%D 128)
  else if bool_decide (name = lit "motion") then Some (4, blurred motion_kernel 4 (of_int 1 / of_int 41)%D 0)
  else if bool_decide (name = lit "erosion") then Some (4, fun m w => eroded m w 4)
  else None.

Lemma conv_effect kernel n factor bias0 p : 0 <= n -> length kernel = Z.to_nat ((2 * n + 1) * (2 * n + 1)) ->
  255 * weight kernel n <= INT_MAX -> sized 0 factor -> Z.abs bias0 <= INT_MAX -> ready p ->
  exists p', conv_blur (Some kernel) (2 * n + 1) factor bias0 p = Done tt p' /\
    replaced (width p) (height p) n (blurred kernel n factor bias0 (pixel_map p) (width p)) (new_map p) (new_map p').
Proof.
  intros Hn Hk Hw Hf Hb Hp. destruct (conv_blur_run kernel n factor bias0 p Hn Hk Hw Hf Hb Hp) as (m & Hrun & Hrep).
  eexists. split; [exact Hrun | exact Hrep].
Qed.

Lemma command_effect name n val p : effect name = Some (n, val) -> ready p ->
  exists p', command name p = Done tt p' /\ replaced (width p) (height p) n (val (pixel_map p) (width p)) (new_map p) (new_map p').
Proof.
  intros He Hp. unfold effect in He. unfold command.
  destruct (bool_decide (name = lit "convolution")); [injection He as <- <-; apply (conv_effect box_kernel 2); done |].
  destruct (bool_decide (name = lit "emboss")); [injection He as <- <-; apply (conv_effect emboss_kernel 1); done |].
  destruct (bool_decide (name = lit "motion")); [injection He as <- <-; apply (conv_effect motion_kernel 4); done |].
  destruct (bool_decide (name = lit "erosion")); [| done]. injection He as <- <-.
  destruct Hp as (H1 & H2 & _). destruct (dilation_run p 4) as (m & Hrun & Hlen & Hlook); [done | done | done |].
  exists (set_new_map m p). split; [exact Hrun |]. split; [exact Hlen | exact Hlook].
Qed.

(** For a PPM file whose first byte of pixel data is not [#], [pr04] with one of its
    four commands shows the picture of the file, upside down as it is drawn, with every
    pixel at least the radius of the command's window away from the border replaced by
    the tone of its window (or its minimum) and the border unchanged; with any other
    command it exits with -1, and so it does with fewer than two arguments.*)
Lemma commands_show_file e files name file more w h pic bytes :
  ppm_file w h pic bytes -> files file = Some bytes ->
  match effect name with
  | Some (n, val) => exists p m0, main e files (name :: file :: more) = Done tt p /\
      shown w h pic m0 /\ replaced w h n (val m0 w) m0 (new_map p)
  | None => exists p, main e files (name :: file :: more) = Exited (-1) p
  end /\ main e files [name] = Exited (-1) zeroed.
Proof.
  intros Hppm Hfile. split; [| done]. cbn [main]. rewrite Hfile. unfold ppm_init.
  destruct (ppm_init2_ready e w h pic bytes zeroed Hppm) as (p0 & -> & Hready & <- & <- & Hshown & Hsame).
  destruct (effect name) as [[n val] |] eqn:He.
  - destruct (command_effect name n val p0 He Hready) as (p' & Hrun & Hrep). exists p', (pixel_map p0).
    split; [exact Hrun |]. split; [done |]. by rewrite Hsame in Hrep.
  - exists p0. unfold effect in He. unfold command. repeat (case_bool_decide; [done |]). done.
Qed.

(** ** Instances *)
Lemma flat_areas_witness :
  tone_byte (of_int 1 / of_int 25)%D 255 (window_sum box_kernel 2 (replicate 25 (mk_RGB 255 0 0)) 5 2 2 red) = flat_tone 255.
Proof.
  apply (proj1 (flat_areas (replicate 25 (mk_RGB 255 0 0)) 5 2 2 red 255 ltac:(done))). intros i j Hi Hj. unfold at_.
  rewrite lookup_replicate_2; [done |]. unfold idx. lia.
Defined.

Lemma commands_show_file_witness :
  exists p m0, main junk_env (fun _ => Some (header [] [] (lit "1") (lit "1") (lit "255") ++ [10; 20; 30] ++ [])) [lit "erosion"; lit "a.ppm"] = Done tt p /\
    shown 1 1 [mk_RGB 10 20 30] m0 /\ replaced 1 1 4 (eroded m0 1 4) m0 (new_map p).
Proof.
  apply (proj1 (commands_show_file junk_env (fun _ => Some (header [] [] (lit "1") (lit "1") (lit "255") ++ [10; 20; 30] ++ []))
    (lit "erosion") (lit "a.ppm") [] 1 1 [mk_RGB 10 20 30] _ one_pixel_file eq_refl)).
Defined.

End FilterMain.
