(* ===== verification/HueFilter.v ===== *)
(** * The filters of [CSCE646/pr05], directed by the hue of a second picture

    pr05 reads the hue of every pixel of a control picture and blurs or erodes the input
    picture along a line whose direction depends on the hue at the same place.  The
    kernels are arrays of [double] with integer entries; the theorems show that their sums
    are exact, so that a pixel is what the integer filter of pr04 would make of it, and
    that the control picture's bytes above 127 are taken as negative numbers. *)

From S2P Require Import Prelude CMem Double DoubleRange Raster Ppm PpmRead Sweep Filter.
From Stdlib Require Import ZArith Lia SpecFloat.
From stdpp Require Import base list numbers.
From Stdlib Require String.
Import String.StringSyntax.
Import Double DoubleRange Raster Ppm PpmRead Sweep.
Import Filter (replaced, blurred).
Open Scope Z_scope.

Module HueFilter.

(** ** [get_hue] *)
Definition get_hue (r g b : Z) : double :=
  let RED := (of_int r / of_int 255)%D in
  let GREEN := (of_int g / of_int 255)%D in
  let BLUE := (of_int b / of_int 255)%D in
  let MAX := Double.max RED (Double.max GREEN BLUE) in
  let MIN := Double.min RED (Double.min GREEN BLUE) in
  if (MAX =? of_int 0)%D then of_int 0
  else
    let delta := (MAX - MIN)%D in
    if (delta =? of_int 0)%D then of_int 0
    else
      let h :=
        if (RED =? MAX)%D then ((GREEN - BLUE) / delta)%D
        else if (GREEN =? MAX)%D then (of_int 2 + (BLUE - RED) / delta)%D
        else (of_int 4 + (RED - GREEN) / delta)%D in
      let h := (h * of_int 60)%D in
      if (h <? of_int 0)%D then (h + of_int 360)%D else h.

(** ** [ppm_init_hsv]: the bytes are passed to [get_hue] as [char] *)
Definition hue_of (colors : list Z) : double :=
  match colors with
  | [r; g; b] => get_hue (s8 r) (s8 g) (s8 b)
  | _ => of_int 0
  end.

Definition ppm_init_hsv_body (e : env) : R unit :=
  read_header ;;;
  let* n := array_size in
  update (set_hue_map (new_array (junk_hue e) n)) ;;;
  Ppm.clean_up ;;;
  read_pixels e (fun index colors => store hue_map set_hue_map index (hue_of colors)).
Definition ppm_init_hsv (e : env) := run_init (ppm_init_hsv_body e).

Definition ppm_init := Ppm.ppm_init2.
Definition clean_up := Ppm.clean_up.

(** ** The kernels *)
Definition kernel0 : list Z :=
  [0; 0; 0; 0; 0; 0; 0; 0; 0;
   0; 0; 0; 0; 0; 0; 0; 0; 0;
   0; 0; 0; 0; 0; 0; 0; 0; 0;
   0; 0; 0; 0; 0; 0; 0; 0; 0;
   1; 1; 1; 1; 1; 1; 1; 1; 1;
   0; 0; 0; 0; 0; 0; 0; 0; 0;
   0; 0; 0; 0; 0; 0; 0; 0; 0;
   0; 0; 0; 0; 0; 0; 0; 0; 0;
   0; 0; 0; 0; 0; 0; 0; 0; 0].
Definition kernel1 : list Z :=
  [0; 0; 0; 0; 0; 0; 0; 0; 0;
   0; 0; 0; 0; 0; 0; 0; 0; 0;
   0; 0; 0; 0; 0; 0; 0; 0; 2;
   0; 0; 0; 0; 0; 0; 2; 0; 0;
   0; 0; 0; 0; 1; 0; 0; 0; 0;
   0; 0; 2; 0; 0; 0; 0; 0; 0;
   2; 0; 0; 0; 0; 0; 0; 0; 0;
   0; 0; 0; 0; 0; 0; 0; 0; 0;
   0; 0; 0; 0; 0; 0; 0; 0; 0].
Definition kernel2 : list Z :=
  [0; 0; 0; 0; 0; 0; 0; 0; 1;
   0; 0; 0; 0; 0; 0; 0; 1; 0;
   0; 0; 0; 0; 0; 0; 1; 0; 0;
   0; 0; 0; 0; 0; 1; 0; 0; 0;
   0; 0; 0; 0; 1; 0; 0; 0; 0;
   0; 0; 0; 1; 0; 0; 0; 0; 0;
   0; 0; 1; 0; 0; 0; 0; 0; 0;
   0; 1; 0; 0; 0; 0; 0; 0; 0;
   1; 0; 0; 0; 0; 0; 0; 0; 0].
Definition kernel3 : list Z :=
  [0; 0; 0; 0; 0; 0; 2; 0; 0;
   0; 0; 0; 0; 0; 0; 0; 0; 0;
   0; 0; 0; 0; 0; 2; 0; 0; 0;
   0; 0; 0; 0; 0; 0; 0; 0; 0;
   0; 0; 0; 0; 1; 0; 0; 0; 0;
   0; 0; 0; 0; 0; 0; 0; 0; 0;
   0; 0; 0; 2; 0; 0; 0; 0; 0;
   0; 0; 0; 0; 0; 0; 0; 0; 0;
   0; 0; 2; 0; 0; 0; 0; 0; 0].
Definition kernel4 : list Z :=
  [0; 0; 0; 0; 1; 0; 0; 0; 0;
   0; 0; 0; 0; 1; 0; 0; 0; 0;
   0; 0; 0; 0; 1; 0; 0; 0; 0;
   0; 0; 0; 0; 1; 0; 0; 0; 0;
   0; 0; 0; 0; 1; 0; 0; 0; 0;
   0; 0; 0; 0; 1; 0; 0; 0; 0;
   0; 0; 0; 0; 1; 0; 0; 0; 0;
   0; 0; 0; 0; 1; 0; 0; 0; 0;
   0; 0; 0; 0; 1; 0; 0; 0; 0].
Definition kernel5 : list Z :=
  [0; 0; 2; 0; 0; 0; 0; 0; 0;
   0; 0; 0; 0; 0; 0; 0; 0; 0;
   0; 0; 0; 2; 0; 0; 0; 0; 0;
   0; 0; 0; 0; 0; 0; 0; 0; 0;
   0; 0; 0; 0; 1; 0; 0; 0; 0;
   0; 0; 0; 0; 0; 0; 0; 0; 0;
   0; 0; 0; 0; 0; 2; 0; 0; 0;
   0; 0; 0; 0; 0; 0; 0; 0; 0;
   0; 0; 0; 0; 0; 0; 2; 0; 0].
Definition kernel6 : list Z :=
  [1; 0; 0; 0; 0; 0; 0; 0; 0;
   0; 1; 0; 0; 0; 0; 0; 0; 0;
   0; 0; 1; 0; 0; 0; 0; 0; 0;
   0; 0; 0; 1; 0; 0; 0; 0; 0;
   0; 0; 0; 0; 1; 0; 0; 0; 0;
   0; 0; 0; 0; 0; 1; 0; 0; 0;
   0; 0; 0; 0; 0; 0; 1; 0; 0;
   0; 0; 0; 0; 0; 0; 0; 1; 0;
   0; 0; 0; 0; 0; 0; 0; 0; 1].
Definition kernel7 : list Z :=
  [0; 0; 0; 0; 0; 0; 0; 0; 0;
   0; 0; 0; 0; 0; 0; 0; 0; 0;
   2; 0; 0; 0; 0; 0; 0; 0; 0;
   0; 0; 2; 0; 0; 0; 0; 0; 0;
   0; 0; 0; 0; 1; 0; 0; 0; 0;
   0; 0; 0; 0; 0; 0; 2; 0; 0;
   0; 0; 0; 0; 0; 0; 0; 0; 2;
   0; 0; 0; 0; 0; 0; 0; 0; 0;
   0; 0; 0; 0; 0; 0; 0; 0; 0].

(** The arrays of the two methods. *)
Definition conv_kernels : list (list double) :=
  map (map of_int) [kernel0; kernel1; kernel2; kernel3; kernel4; kernel5; kernel6; kernel7].
Definition dilation_kernels : list (list double) :=
  map (map of_int) [kernel0; kernel1; kernel2; kernel3; kernel4; kernel5; kernel6; kernel7].

(** The literals of the comparisons: multiples of a half. *)
Definition halves (n : Z) : double := (of_int n / of_int 2)%D.

(** The kernel chosen for a hue. *)
Definition direction (hue : double) : nat :=
  if (hue <? halves 45)%D then 0
  else if (hue <? of_int 45)%D then 1
  else if (hue <? halves 135)%D then 2
  else if (hue <? of_int 90)%D then 3
  else if (hue <? halves 225)%D then 4
  else if (hue <? of_int 135)%D then 5
  else if (hue <? halves 315)%D then 6
  else if (hue <? of_int 180)%D then 7
  else if (hue <? halves 405)%D then 0
  else if (hue <? of_int 225)%D then 1
  else if (hue <? halves 495)%D then 2
  else if (hue <? of_int 270)%D then 3
  else if (hue <? halves 585)%D then 4
  else if (hue <? of_int 315)%D then 5
  else if (hue <? halves 675)%D then 6
  else 7.
Definition dilation_direction := direction.

(** ** [conv_single_pixel] *)
Definition accumulate (kernel : list double) (size x0 y0 yk : Z) (acc : Z * Z * Z) (xk : Z) : P (Z * Z * Z) :=
  let* p := this in
  let* c := pixel ((x0 + xk) * width p + (y0 + yk)) in
  let* k := expect OutOfBounds (fetch kernel (xk * size + yk)) in
  let '(r, g, b) := acc in
  let* r' := expect IntOverflow (to_int (of_int r + of_int (red c) * k)%D) in
  let* g' := expect IntOverflow (to_int (of_int g + of_int (green c) * k)%D) in
  let* b' := expect IntOverflow (to_int (of_int b + of_int (blue c) * k)%D) in
  ret (r', g', b').

(** [remainder(accumulator * factor + bias, 255)] as an [int]. *)
Definition tone (factor : double) (bias0 acc : Z) : option Z :=
  to_int (remainder (of_int acc * factor + of_int bias0) (of_int 255))%D.

Definition conv_single_pixel (kernel : list double) (size : Z) (factor : double) (x y : Z) : P unit :=
  let conv_range := Z.quot (size - 1) 2 in
  let x0 := x - conv_range in
  let y0 := y - conv_range in
  let* acc := fold_up 0 size (0, 0, 0) (fun acc yk => fold_up 0 size acc (accumulate kernel size x0 y0 yk)) in
  let '(r, g, b) := acc in
  let* p := this in
  let* r' := expect IntOverflow (tone factor (bias p) r) in
  let* g' := expect IntOverflow (tone factor (bias p) g) in
  let* b' := expect IntOverflow (tone factor (bias p) b) in
  set_new (x * width p + y) (mk_RGB (u8 r') (u8 g') (u8 b')).

Definition conv_blur (size : Z) (factor : double) (bias0 : Z) (hue_map0 : list double) : P unit :=
  modify (set_bias bias0) ;;;
  let conv_range := Z.quot (size - 1) 2 + 3 in
  let* p := this in
  for_up conv_range (height p - conv_range) (fun y =>
    for_up conv_range (width p - conv_range) (fun x =>
      let* hue := expect OutOfBounds (fetch hue_map0 (y * width p + x)) in
      let* kernel := expect OutOfBounds (conv_kernels !! direction hue) in
      conv_single_pixel kernel size factor y x)).

(** ** [morphological_single_pixel] and [dilation] *)
Definition lower (kernel : list double) (size x0 y0 yk : Z) (acc : Z * Z * Z) (xk : Z) : P (Z * Z * Z) :=
  let* p := this in
  let* k := expect OutOfBounds (fetch kernel (xk * size + yk)) in
  if negb (k =? of_int 0)%D then
    let* c := pixel ((x0 + xk) * width p + (y0 + yk)) in
    let '(r, g, b) := acc in
    ret (Z.min (red c) r, Z.min (green c) g, Z.min (blue c) b)
  else ret acc.

Definition morphological_single_pixel (kernel : list double) (size x y : Z) : P unit :=
  let conv_range := Z.quot (size - 1) 2 in
  let x0 := x - conv_range in
  let y0 := y - conv_range in
  let* acc := fold_up 0 size (255, 255, 255) (fun acc yk => fold_up 0 size acc (lower kernel size x0 y0 yk)) in
  let '(r, g, b) := acc in
  let* p := this in
  set_new (x * width p + y) (mk_RGB (u8 r) (u8 g) (u8 b)).

Definition dilation (size : Z) (hue_map0 : list double) : P unit :=
  let conv_range := Z.quot (size - 1) 2 in
  let* p := this in
  for_up conv_range (height p - conv_range) (fun y =>
    for_up conv_range (width p - conv_range) (fun x =>
      let* hue := expect OutOfBounds (fetch hue_map0 (y * width p + x)) in
      let* kernel := expect OutOfBounds (dilation_kernels !! dilation_direction hue) in
      morphological_single_pixel kernel size y x)).

(** ** [main] of [pr05.cpp], up to the display of [new_map]

    [args] are the arguments after the name of the program; a missing third one is a null
    pointer made into a [string]. *)
Definition command (name : list Z) (hues : list double) : P unit :=
  if bool_decide (name = lit "motion") then conv_blur 9 (of_int 1 / of_int 9)%D 0 hues
  else if bool_decide (name = lit "erosion") then dilation 9 hues
  else exit (-1).

Definition main (e e' : env) (files : list Z -> option (list Z)) (args : list (list Z)) : outcome myppm unit :=
  match args with
  | name :: file :: more =>
      match ppm_init e (files file) zeroed with
      | Done _ p =>
          match more with
          | [] => Undef NullPointer p
          | control :: _ =>
              match ppm_init_hsv e' (files control) zeroed with
              | Done _ q => command name (hue_map q) p
              | Exited c _ => Exited c p
              | Undef w _ => Undef w p
              end
          end
      | o => o
      end
  | _ => Exited (-1) zeroed
  end.

(** ** Kernels with integer entries *)

Definition int_range (acc : Z * Z * Z) : Prop :=
  let '(r, g, b) := acc in Z.abs r <= 2 ^ 31 /\ Z.abs g <= 2 ^ 31 /\ Z.abs b <= 2 ^ 31.

(** The exact sum of the accumulator and one product. *)
Lemma exact_step a c k : Z.abs a <= 2 ^ 31 -> is_byte c -> Z.abs k <= 2 ^ 20 ->
  @expect myppm Z IntOverflow (to_int (of_int a + of_int c * of_int k)%D) = int_of (a + c * k).
Proof.
  intros Ha Hc Hk. unfold is_byte in Hc. assert (Hck : Z.abs (c * k) <= 255 * 2 ^ 20) by (rewrite Z.abs_mul; nia).
  assert (Hr : repr (of_int a + of_int c * of_int k)%D (a + c * k)).
  { apply repr_add; [apply repr_of_int; unfold prec; lia | | unfold prec; lia].
    apply repr_mul; [apply repr_of_int; unfold prec; lia | apply repr_of_int; unfold prec; lia | unfold prec; lia]. }
  unfold to_int, int_of. rewrite (repr_trunc _ _ Hr). unfold INT_MIN, INT_MAX. by destruct (_ && _).
Qed.

Lemma fetch_map (kz : list Z) i : fetch (map of_int kz) i = of_int <$> fetch kz i.
Proof. unfold fetch. destruct (i <? 0); [done |]. apply list_lookup_fmap. Qed.

Lemma fetch_bound (Pz : Z -> Prop) (l : list Z) i z : Forall Pz l -> fetch l i = Some z -> Pz z.
Proof. intros Hl. unfold fetch. destruct (i <? 0); [done |]. intros Hz. by apply (list.Forall_lookup_1 _ _ _ _ Hl Hz). Qed.

Lemma accumulate_same kz size x0 y0 yk acc xk p : Forall (fun k => Z.abs k <= 2 ^ 20) kz -> Forall byte_pixel (pixel_map p) ->
  int_range acc -> accumulate (map of_int kz) size x0 y0 yk acc xk p = Filter.accumulate kz size x0 y0 yk acc xk p.
Proof.
  intros Hk Hb Hacc. unfold accumulate, Filter.accumulate, pixel, bind, this.
  destruct (fetch (pixel_map p) _) as [c |] eqn:Hc; [| done].
  assert (Hcb : byte_pixel c).
  { unfold fetch in Hc. destruct (_ <? 0); [done |]. by apply (list.Forall_lookup_1 _ _ _ _ Hb Hc). }
  rewrite fetch_map. destruct (fetch kz (xk * size + yk)) as [k |] eqn:Hkk; [| done].
  apply (fetch_bound _ _ _ _ Hk) in Hkk. destruct acc as [[r g] b]. destruct Hacc as (Hr & Hg & Hbl), Hcb as (H1 & H2 & H3).
  cbn [fmap option_fmap option_map]. unfold expect at 1 2 6 7, ret. by rewrite !exact_step.
Qed.

Lemma accumulate_range kz size x0 y0 yk acc xk p acc' p' :
  Filter.accumulate kz size x0 y0 yk acc xk p = Done acc' p' -> int_range acc' /\ p' = p.
Proof.
  unfold Filter.accumulate, bind at 1, this. unfold bind at 1, pixel, bind at 1, this.
  destruct (fetch (pixel_map p) _) as [c |]; [| done]. cbn [expect]. unfold ret at 1. unfold bind at 1.
  destruct (fetch kz _) as [k |]; [| done]. cbn [expect]. unfold ret at 1. destruct acc as [[r g] b].
  assert (Hi : forall z q z' q', int_of z q = Done z' q' -> Z.abs z' <= 2 ^ 31 /\ q' = q).
  { intros z q z' q'. unfold int_of, INT_MIN, INT_MAX. destruct (_ && _) eqn:Hz; [| done]. intros [= <- <-].
    rewrite andb_true_iff, !Z.leb_le in Hz. split; [lia | done]. }
  unfold bind. destruct (int_of (r + red c * k) p) as [r' p1 | |] eqn:H1; [| done | done]. apply Hi in H1 as [H1 ->].
  destruct (int_of (g + green c * k) p) as [g' p1 | |] eqn:H2; [| done | done]. apply Hi in H2 as [H2 ->].
  destruct (int_of (b + blue c * k) p) as [b' p1 | |] eqn:H3; [| done | done]. apply Hi in H3 as [H3 ->].
  intros [= <- <-]. done.
Qed.

(** With such a kernel the method of pr05 is the method of pr04. *)
Lemma conv_single_pixel_same kz size factor x y p : Forall (fun k => Z.abs k <= 2 ^ 20) kz -> Forall byte_pixel (pixel_map p) ->
  conv_single_pixel (map of_int kz) size factor x y p = Filter.conv_single_pixel kz size factor x y p.
Proof.
  intros Hk Hb. unfold conv_single_pixel, Filter.conv_single_pixel.
  set (x0 := x - _). set (y0 := y - _). unfold bind at 1. unfold bind at 5.
  assert (Hfold : fold_up 0 size (0, 0, 0) (fun acc yk => fold_up 0 size acc (accumulate (map of_int kz) size x0 y0 yk)) p
    = fold_up 0 size (0, 0, 0) (fun acc yk => fold_up 0 size acc (Filter.accumulate kz size x0 y0 yk)) p); [| by rewrite Hfold].
  unfold fold_up. rewrite !fold_each_nest.
  generalize (seqZ 0 (size - 0) ≫= (fun a => pair a <$> seqZ 0 (size - 0))). intros l.
  assert (H0 : int_range (0, 0, 0)) by done. revert H0. generalize (0, 0, 0). induction l as [| c l IH]; intros acc Hacc; [done |].
  cbn [fold_each]. unfold bind. rewrite accumulate_same by done.
  destruct (Filter.accumulate kz size x0 y0 c.1 acc c.2 p) as [acc' p' | |] eqn:Hr; [| done | done].
  apply accumulate_range in Hr as [Hr ->]. by apply IH.
Qed.

(** ** The two sweeps *)
Definition ikernels : list (list Z) := [kernel0; kernel1; kernel2; kernel3; kernel4; kernel5; kernel6; kernel7].

(** The kernel for the pixel at row [y], column [x]. *)
Definition kernel_at (hues : list double) (w y x : Z) : list Z :=
  default kernel0 (ikernels !! direction (default (of_int 0) (hues !! idx w y x))).

Lemma direction_bound hue : (direction hue < 8)%nat.
Proof. unfold direction. repeat (destruct (Double.ltb hue _); [lia |]). lia. Qed.

(** Every kernel is a 9 by 9 array of small entries with total weight 9, with a positive
    entry at its centre, and symmetric about it. *)
Definition line_kernel (kz : list Z) : Prop :=
  length kz = 81%nat /\ Forall (fun k => 0 <= k <= 2) kz /\ Filter.weight kz 4 = 9 /\ Filter.kern kz 40 = 1 /\ reverse kz = kz.

Lemma ikernels_lines : Forall line_kernel ikernels.
Proof. repeat constructor; try done; by vm_compute. Qed.

Lemma kernel_at_line hues w y x : line_kernel (kernel_at hues w y x).
Proof.
  unfold kernel_at. destruct (lookup_lt_is_Some_2 ikernels (direction (default (of_int 0) (hues !! idx w y x)))) as [k Hk];
    [apply direction_bound |]. rewrite Hk. by apply (list.Forall_lookup_1 _ _ _ _ ikernels_lines Hk).
Qed.

Lemma pick_kernel {B} hues p y x (k : list double -> P B) q : length hues = Z.to_nat (width p * height p) ->
  0 <= y < height p -> 0 <= x < width p ->
  (let* hue := expect OutOfBounds (fetch hues (y * width p + x)) in
   let* kernel := expect OutOfBounds (conv_kernels !! direction hue) in k kernel) q
  = k (map of_int (kernel_at hues (width p) y x)) q.
Proof.
  intros Hlen Hy Hx. pose proof (idx_bound (width p) (height p) y x Hx Hy). rewrite fetch_idx by lia.
  destruct (lookup_lt_is_Some_2 hues (idx (width p) y x)) as [hue Hh]; [unfold idx; lia |].
  unfold kernel_at. rewrite Hh. cbn [expect default]. unfold bind at 1, ret.
  destruct (lookup_lt_is_Some_2 ikernels (direction hue)) as [kz Hk]; [apply direction_bound |]. cbn [from_option]. unfold id. rewrite Hk.
  assert (Hck : conv_kernels !! direction hue = Some (map of_int kz)) by (unfold conv_kernels; rewrite list_lookup_fmap; fold ikernels; by rewrite Hk).
  rewrite Hck. done.
Qed.

Lemma motion_run p hues factor bias0 : ready p -> length hues = Z.to_nat (width p * height p) ->
  sized 0 factor -> Z.abs bias0 <= INT_MAX ->
  exists m, conv_blur 9 factor bias0 hues p = Done tt (set_new_map m (set_bias bias0 p)) /\
    replaced (width p) (height p) 7 (fun y x => blurred (kernel_at hues (width p) y x) 4 factor bias0 (pixel_map p) (width p) y x) (new_map p) m.
Proof.
  intros (Hp & Hnew & Hbytes) Hh Hf Hb. unfold conv_blur, bind at 1, modify. unfold bind at 1, this.
  change (Z.quot (9 - 1) 2 + 3) with 7.
  match goal with |- context [for_up 7 _ (fun y => for_up 7 _ (@?b y))] => set (body := b) end.
  destruct (sweep body (fun y x => blurred (kernel_at hues (width p) y x) 4 factor bias0 (pixel_map p) (width p) y x) (set_bias bias0 p)
    7 (height p - 7) 7 (width p - 7)) as (m & Hrun & Hlen & Hlook); cbn [width height new_map set_bias]; [lia | lia | lia | lia | done | |].
  - intros m y x Hlen Hy Hx. unfold body. rewrite (pick_kernel hues (set_bias bias0 p)) by (cbn [width height set_bias]; (done || lia)).
    destruct (kernel_at_line hues (width p) y x) as (Hk1 & Hk2 & Hk3 & _). cbn [width set_bias].
    rewrite conv_single_pixel_same; [| eapply list.Forall_impl; [exact Hk2 | simpl; lia] | done].
    apply (Filter.conv_writes _ 4 factor (set_bias bias0 p)); cbn [pixel_map width height bias set_bias]; try done; try lia.
    rewrite Hk3. done.
  - exists m. split; [exact Hrun |]. split; [exact Hlen | exact Hlook].
Qed.

(** ** Erosion along a line *)

(** The positions of a kernel's window that are not zero, as the loops visit them. *)
Definition on_line (kz : list Z) (c : Z * Z) : bool := negb (Filter.kern kz (c.2 * 9 + c.1) =? 0).
Definition line (kz : list Z) : list (Z * Z) := List.filter (on_line kz) (window 9).

(** [v] is the least value of the channel [ch] on the line of [kz] through the pixel at
    row [y], column [x]. *)
Definition line_min (kz : list Z) (m : list RGB) (w y x : Z) (ch : RGB -> Z) (v : Z) : Prop :=
  (forall i j, -4 <= i <= 4 -> -4 <= j <= 4 -> Filter.kern kz ((4 + i) * 9 + (4 + j)) <> 0 -> v <= ch (at_ m w (y + i) (x + j))) /\
  (exists i j, -4 <= i <= 4 /\ -4 <= j <= 4 /\ Filter.kern kz ((4 + i) * 9 + (4 + j)) <> 0 /\ v = ch (at_ m w (y + i) (x + j))).

Definition line_low (kz : list Z) (m : list RGB) (w y x : Z) (ch : RGB -> Z) : Z :=
  min_over (fun c => ch (at_ m w (y - 4 + c.2) (x - 4 + c.1))) (line kz) 255.

Lemma line_low_min kz m w y x ch : Filter.kern kz 40 = 1 -> Filter.channel ch -> Forall byte_pixel m ->
  line_min kz m w y x ch (line_low kz m w y x ch).
Proof.
  intros Hmid Hch Hm. unfold line_low.
  destruct (min_over_spec (fun c => ch (at_ m w (y - 4 + c.2) (x - 4 + c.1))) (line kz) 255) as (H1 & H2 & H3).
  assert (Hin : forall i j, -4 <= i <= 4 -> -4 <= j <= 4 -> Filter.kern kz ((4 + i) * 9 + (4 + j)) <> 0 -> (4 + j, 4 + i) ∈ line kz).
  { intros i j Hi Hj Hk. apply list_elem_of_In, List.filter_In. split; [apply list_elem_of_In, elem_of_cells; cbn [fst snd]; lia |].
    unfold on_line. cbn [fst snd]. by rewrite (proj2 (Z.eqb_neq _ _)). }
  assert (Hat : forall i j, at_ m w (y - 4 + (4 + i)) (x - 4 + (4 + j)) = at_ m w (y + i) (x + j)) by (intros; f_equal; lia).
  split.
  - intros i j Hi Hj Hk. specialize (H2 _ (Hin i j Hi Hj Hk)). cbn [fst snd] in H2. by rewrite Hat in H2.
  - destruct H3 as [H3 | ([b a] & Hc & H3)].
    + exists 0, 0. split; [lia |]. split; [lia |]. split; [change ((4 + 0) * 9 + (4 + 0)) with 40; lia |].
      assert (Hk0 : Filter.kern kz ((4 + 0) * 9 + (4 + 0)) <> 0) by (change ((4 + 0) * 9 + (4 + 0)) with 40; lia).
      specialize (H2 _ (Hin 0 0 ltac:(lia) ltac:(lia) Hk0)). cbn [fst snd] in H2. rewrite Hat in H2.
      pose proof (Hch _ (at_byte m w (y + 0) (x + 0) Hm)) as [_ Hb]. lia.
    + apply list_elem_of_In, List.filter_In in Hc as [Hc Hk]. apply list_elem_of_In, elem_of_cells in Hc. unfold on_line in Hk. cbn [fst snd] in *.
      exists (a - 4), (b - 4). split; [lia |]. split; [lia |]. split.
      * apply negb_true_iff, Z.eqb_neq in Hk. by replace ((4 + (a - 4)) * 9 + (4 + (b - 4))) with (a * 9 + b) by lia.
      * rewrite H3. do 2 f_equal; lia.
Qed.

Definition eroded (kz : list Z) (m : list RGB) (w y x : Z) : RGB :=
  mk_RGB (u8 (line_low kz m w y x red)) (u8 (line_low kz m w y x green)) (u8 (line_low kz m w y x blue)).

Lemma fold_filter {A B} (q : A -> bool) (f : B -> A -> B) l : forall acc,
  fold_left (fun acc c => if q c then f acc c else acc) l acc = fold_left f (List.filter q l) acc.
Proof. induction l as [| c l IH]; intros acc; [done |]. cbn [fold_left List.filter]. by destruct (q c); rewrite IH. Qed.

Lemma directed_writes kz p m y x : line_kernel kz -> length (pixel_map p) = Z.to_nat (width p * height p) ->
  length m = Z.to_nat (width p * height p) -> 4 <= y < height p - 4 -> 4 <= x < width p - 4 ->
  morphological_single_pixel (map of_int kz) 9 y x (set_new_map m p)
  = Done tt (set_new_map (<[idx (width p) y x := eroded kz (pixel_map p) (width p) y x]> m) p).
Proof.
  intros (Hlen & Hsmall & _) Hp Hm Hy Hx. unfold morphological_single_pixel. change (Z.quot (9 - 1) 2) with 4.
  set (g := fun (acc : Z * Z * Z) (c : Z * Z) => lower3 acc (at_ (pixel_map p) (width p) (y - 4 + c.2) (x - 4 + c.1))).
  assert (Hrun : fold_up 0 9 (255, 255, 255) (fun acc yk => fold_up 0 9 acc (lower (map of_int kz) 9 (y - 4) (x - 4) yk)) (set_new_map m p)
    = Done (fold_left g (line kz) (255, 255, 255)) (set_new_map m p)).
  { unfold fold_up. rewrite (fold_each_nest (seqZ 0 (9 - 0)) (seqZ 0 (9 - 0)) (lower (map of_int kz) 9 (y - 4) (x - 4))).
    unfold line. rewrite <- (fold_filter (on_line kz) g (window 9)).
    apply (fold_each_pure (fun acc c => if on_line kz c then g acc c else acc) (fun _ _ => True)); [done |].
    intros pre c acc (post & Hl) _. split; [| done].
    assert (Hc : c ∈ window 9) by (rewrite Hl; apply elem_of_app; right; left).
    apply elem_of_cells in Hc as [Hc1 Hc2]. unfold lower, bind at 1, this at 1. rewrite fetch_map.
    assert (Hker : fetch kz (c.2 * 9 + c.1) = Some (Filter.kern kz (c.2 * 9 + c.1))).
    { unfold fetch, Filter.kern. rewrite (proj2 (Z.ltb_ge _ _)) by lia.
      destruct (lookup_lt_is_Some_2 kz (Z.to_nat (c.2 * 9 + c.1))) as [v ->]; [lia | done]. }
    pose proof (fetch_bound _ _ _ _ Hsmall Hker) as Hk. cbn beta in Hk. rewrite Hker. cbn [fmap option_fmap option_map expect]. unfold bind at 1, ret at 1.
    rewrite (repr_eqb _ _ (Filter.kern kz (c.2 * 9 + c.1)) 0) by (apply repr_of_int; unfold prec; lia). unfold on_line. destruct (Filter.kern kz (c.2 * 9 + c.1) =? 0); [done |]. cbn [negb].
    unfold pixel, bind, this. cbn [pixel_map width set_new_map].
    destruct (window_inside 4 (width p) (height p) y x c.2 c.1) as [Hi Hj]; [lia.. |].
    rewrite (fetch_at _ _ (height p)) by done. by destruct acc as [[r gg] b]. }
  unfold bind at 1. rewrite Hrun.
  unfold g. rewrite lower3_fold. unfold bind, this. cbn [width set_new_map]. unfold set_new. cbn [new_map set_new_map].
  pose proof (idx_bound (width p) (height p) y x ltac:(lia) ltac:(lia)). rewrite inside_true by lia. done.
Qed.

Lemma erosion_run p hues : ready p -> length hues = Z.to_nat (width p * height p) ->
  exists m, dilation 9 hues p = Done tt (set_new_map m p) /\
    replaced (width p) (height p) 4 (fun y x => eroded (kernel_at hues (width p) y x) (pixel_map p) (width p) y x) (new_map p) m.
Proof.
  intros (Hp & Hnew & Hbytes) Hh. unfold dilation, bind at 1, this. change (Z.quot (9 - 1) 2) with 4.
  match goal with |- context [for_up 4 _ (fun y => for_up 4 _ (@?b y))] => set (body := b) end.
  destruct (sweep body (fun y x => eroded (kernel_at hues (width p) y x) (pixel_map p) (width p) y x) p
    4 (height p - 4) 4 (width p - 4)) as (m & Hrun & Hlen & Hlook); [lia | lia | lia | lia | done | |].
  - intros m y x Hlen Hy Hx. unfold body. change dilation_kernels with conv_kernels. change dilation_direction with direction.
    rewrite (pick_kernel hues p) by (done || lia). apply directed_writes; [apply kernel_at_line | done | lia | done | done].
  - exists m. split; [exact Hrun |]. split; [exact Hlen | exact Hlook].
Qed.

End HueFilter.
