(* ===== verification/HueMain.v ===== *)
(** * The program [pr05] on an input and a control picture

    The hues read from the control file, what the two commands show, and what happens
    when the control picture is smaller than the input. *)

From S2P Require Import Prelude CMem Double DoubleRange Raster Ppm PpmRead Sweep Filter HueFilter.
From Stdlib Require Import ZArith Lia SpecFloat.
From stdpp Require Import base list numbers.
From Stdlib Require String.
Import String.StringSyntax.
Import Double DoubleRange Raster Ppm PpmRead Sweep HueFilter.
Import Filter (replaced, blurred).
Open Scope Z_scope.

Module HueMain.

(** ** The control picture *)
Lemma read_hue_map e f p : sane f -> length (hue_map p) = Z.to_nat (width p * height p) ->
  exists f', read_pixels e (fun index colors => store hue_map set_hue_map index (hue_of colors)) (f, p)
    = Done tt (f', set_hue_map (picture hue_of e (rest f) (width p) (height p) (hue_map p)) p).
Proof. apply read_into; by try intros []. Qed.

Section Files.
Context (c1 c2 : list (list Z)) (ws hs ms : list Z) (w h m : Z).
Hypothesis Hc1 : Forall comment c1.
Hypothesis Hc2 : Forall comment c2.
Hypothesis Hw : numeral ws w.
Hypothesis Hh : numeral hs h.
Hypothesis Hm : numeral ms m.
Hypothesis Hsize : w * h <= INT_MAX.

Lemma ppm_init_hsv_file e data f p : starts data f ->
  ppm_init_hsv e (Some (header c1 c2 ws hs ms ++ data)) p
  = Done tt (set_hue_map (picture hue_of e (rest f) w h (new_array (junk_hue e) (w * h))) (set_range m (set_height h (set_width w p)))).
Proof.
  intros [Hsane Hclean]. unfold ppm_init_hsv, run_init, ppm_init_hsv_body.
  rewrite (bind_done _ _ _ _ _ (read_header_numbers c1 c2 ws w hs h ms m data p Hc1 Hc2 Hw Hh Hm)).
  rewrite (bind_done _ _ _ _ _ (array_size_ok _ (set_range m (set_height h (set_width w p))) (size_bounds ws hs w h Hw Hh Hsize))).
  change (width (set_range m (set_height h (set_width w p))) * height (set_range m (set_height h (set_width w p)))) with (w * h).
  unfold bind at 1, update at 1. cbn [fst snd]. rewrite (bind_done _ _ _ _ _ (Hclean _)).
  match goal with |- context [read_pixels _ _ (f, ?q)] => destruct (read_hue_map e f q Hsane) as [f' ->] end;
    [by apply length_new_array |]. done.
Qed.
End Files.

(** The hue the program takes for a pixel of the control picture: its bytes as [char]. *)
Definition hue_taken (c : RGB) : double := get_hue (s8 (red c)) (s8 (green c)) (s8 (blue c)).

(** The hues of the picture [pic], given row by row from the top, as [hue_map]. *)
Definition hues_shown (w h : Z) (pic : list RGB) (hues : list double) : Prop :=
  length hues = Z.to_nat (w * h) /\
  forall y x, 0 <= y < h -> 0 <= x < w -> hues !! idx w y x = hue_taken <$> pic !! idx w (h - 1 - y) x.

Lemma hues_read e pic extra w h m0 : length pic = Z.to_nat (w * h) -> length m0 = Z.to_nat (w * h) ->
  hues_shown w h pic (picture hue_of e (picture_bytes pic ++ extra) w h m0).
Proof.
  intros Hpic Hm0. split; [by rewrite length_picture |]. intros y x Hy Hx. rewrite picture_lookup by done.
  destruct (lookup_lt_is_Some_2 pic (idx w (h - 1 - y) x)) as [c Hc].
  { rewrite Hpic. unfold idx. pose proof (idx_bound w h (h - 1 - y) x). lia. }
  rewrite Hc. by rewrite (colors_at_picture e pic extra _ c).
Qed.

(** ** The two commands *)

(** The radius a command leaves at the border, and the colour it gives to a pixel for the
    hues of the control picture. *)
Definition effect (name : list Z) (hues : list double) : option (Z * (list RGB -> Z -> Z -> Z -> RGB)) :=
  if bool_decide (name = lit "motion")
  then Some (7, fun m w y x => blurred (kernel_at hues w y x) 4 (of_int 1 / of_int 9)%D 0 m w y x)
  else if bool_decide (name = lit "erosion") then Some (4, fun m w y x => eroded (kernel_at hues w y x) m w y x)
  else None.

(** Every 22.5 degrees the next of the eight lines. *)
Lemma direction_of_degrees d : 0 <= d < 360 -> direction (of_int d) = Z.to_nat ((2 * d / 45) mod 8).
Proof.
  intros Hd. assert (H : forallb (fun d => Nat.eqb (direction (of_int d)) (Z.to_nat ((2 * d / 45) mod 8))) (seqZ 0 360) = true) by (by vm_compute).
  rewrite forallb_forall in H. apply Nat.eqb_eq, H. rewrite <- list_elem_of_In, elem_of_seqZ. lia.
Qed.

(** The bytes of the control picture are passed to [get_hue] as [char]. *)
Lemma hue_signed c : byte_pixel c -> hue_taken c =
  get_hue (if red c <? 128 then red c else red c - 256) (if green c <? 128 then green c else green c - 256)
    (if blue c <? 128 then blue c else blue c - 256).
Proof. intros (H1 & H2 & H3). unfold hue_taken, s8. by rewrite !u8_id. Qed.

(** C35: for an input and a control picture of the same size, [pr05] shows the input with
    every pixel that is far enough from the border blurred or eroded along the line which
    its kernel has for the hue taken at the same place of the control picture; the sums
    over the kernels of doubles are the integer sums, no array is left and no conversion
    is undefined.  The hue is not that of the control picture's colour but of its three
    bytes taken as signed characters: a byte above 127 counts as the byte minus 256.  The
    line turns to the next of eight every 22.5 degrees of hue.  Any other
    command exits with -1, and a missing control picture is a null pointer. *)
Theorem directed_filters e e' files name file control more w h pic bytes pic' bytes' :
  ppm_file w h pic bytes -> files file = Some bytes -> ppm_file w h pic' bytes' -> files control = Some bytes' ->
  exists hues, hues_shown w h pic' hues /\
    match effect name hues with
    | Some (n, val) => exists p m0, main e e' files (name :: file :: control :: more) = Done tt p /\
        shown w h pic m0 /\ replaced w h n (val m0 w) m0 (new_map p)
    | None => exists p, main e e' files (name :: file :: control :: more) = Exited (-1) p
    end /\ (exists p, main e e' files [name; file] = Undef NullPointer p) /\
    (forall d, 0 <= d < 360 -> direction (of_int d) = Z.to_nat ((2 * d / 45) mod 8)) /\
    forall c, byte_pixel c -> hue_taken c =
      get_hue (if red c <? 128 then red c else red c - 256) (if green c <? 128 then green c else green c - 256)
        (if blue c <? 128 then blue c else blue c - 256).
Proof.
  intros Hppm Hfile Hctl Hcfile. cbn [main]. rewrite Hfile, Hcfile. unfold ppm_init.
  destruct (ppm_init2_ready e w h pic bytes zeroed Hppm) as (p0 & -> & Hready & <- & <- & Hshown & Hsame).
  destruct Hctl as (c1 & c2 & ws & hs & ms & m & extra & Hc1 & Hc2 & Hw & Hh & Hm & -> & Hsize & Hpic & Hb & c & pc & -> & Hr).
  rewrite (ppm_init_hsv_file c1 c2 ws hs ms (width p0) (height p0) m Hc1 Hc2 Hw Hh Hm Hsize e' _ _ zeroed (ppm_file_starts c pc extra Hr)).
  cbn [rest hue_map set_hue_map]. set (hues := picture hue_of e' _ _ _ _). exists hues.
  assert (Hhues : hues_shown (width p0) (height p0) (c :: pc) hues) by (apply hues_read; [done | apply length_new_array]).
  split; [done |]. split; [| split; [by eexists | split; [apply direction_of_degrees | exact hue_signed]]]. unfold effect, command.
  case_bool_decide; [| case_bool_decide].
  - destruct (motion_run p0 hues (of_int 1 / of_int 9)%D 0 Hready (proj1 Hhues)) as (mm & Hrun & Hrep); [done | done |].
    do 2 eexists. split; [exact Hrun |]. split; [exact Hshown |]. by rewrite Hsame in Hrep.
  - destruct (erosion_run p0 hues Hready (proj1 Hhues)) as (mm & Hrun & Hrep).
    do 2 eexists. split; [exact Hrun |]. split; [exact Hshown |]. by rewrite Hsame in Hrep.
  - by eexists.
Qed.

(** So pure green and pure blue
    at full brightness get the hue 0 and with it the kernel of red, while at half
    brightness they get their hues 120 and 240. *)
Lemma bright_hues_lost :
  hue_taken (mk_RGB 0 255 0) = of_int 0 /\ hue_taken (mk_RGB 0 0 255) = of_int 0 /\
  to_int (hue_taken (mk_RGB 0 127 0)) = Some 120 /\ to_int (hue_taken (mk_RGB 0 0 127)) = Some 240 /\
  to_int (get_hue 0 255 0) = Some 120 /\ to_int (get_hue 0 0 255) = Some 240.
Proof. by vm_compute. Qed.

(** ** Instances: both commands on 15 by 15 pixels under a dim green *)
Definition ramp : list RGB := (fun n => mk_RGB ((n mod 15) * (n mod 15)) (10 * (n / 15)) n) <$> seqZ 0 225.
Definition green_picture : list RGB := replicate 225 (mk_RGB 0 100 0).
Definition file15 (pic : list RGB) : list Z := header [] [] (lit "15") (lit "15") (lit "255") ++ picture_bytes pic ++ [].
Definition files15 (name : list Z) : option (list Z) := Some (file15 (if bool_decide (name = lit "a.ppm") then ramp else green_picture)).

Lemma file15_ok pic c rest : length pic = 225%nat -> Forall byte_pixel pic -> pic = c :: rest -> red c <> hash -> ppm_file 15 15 pic (file15 pic).
Proof.
  intros Hl Hb Hpic Hc. exists [], [], (lit "15"), (lit "15"), (lit "255"), 255, []. split; [constructor |]. split; [constructor |].
  split; [solve_numeral |]. split; [solve_numeral |]. split; [solve_numeral |]. split; [done |]. split; [done |]. split; [exact Hl |].
  split; [exact Hb |]. by exists c, rest.
Qed.
Lemma ramp_file : ppm_file 15 15 ramp (file15 ramp).
Proof.
  eapply file15_ok; [done | | reflexivity | done]. apply Forall_fmap, list.Forall_forall. intros n Hn. apply elem_of_seqZ in Hn.
  cbn. pose proof (Z.mod_pos_bound n 15). pose proof (Z.div_pos n 15). pose proof (Z.div_lt_upper_bound n 15 15). split; [| split]; unfold is_byte; cbn; nia.
Qed.
Lemma green_file : ppm_file 15 15 green_picture (file15 green_picture).
Proof. eapply file15_ok; [done | by apply Forall_replicate | reflexivity | done]. Qed.

(** The pixel in the middle, number 112, before the filter [(49, 70, 112)]. *)
Definition middle (o : outcome myppm unit) : option RGB := match o with Done _ q => new_map q !! 112%nat | _ => None end.
Lemma directed_filters_witness :
  (exists p, main junk_env junk_env files15 [lit "motion"; lit "a.ppm"; lit "b.ppm"] = Done tt p /\ new_map p !! 112%nat = Some (mk_RGB 51 70 112)) /\
  (exists p, main junk_env junk_env files15 [lit "erosion"; lit "a.ppm"; lit "b.ppm"] = Done tt p /\ new_map p !! 112%nat = Some (mk_RGB 25 30 54)).
Proof.
  split.
  - destruct (directed_filters junk_env junk_env files15 (lit "motion") (lit "a.ppm") (lit "b.ppm") [] 15 15 ramp _ green_picture _
      ramp_file eq_refl green_file eq_refl) as (hues & _ & (p & m0 & Hrun & _) & _).
    exists p. split; [exact Hrun |]. change (new_map p !! 112%nat) with (middle (Done tt p)). rewrite <- Hrun. vm_compute. reflexivity.
  - destruct (directed_filters junk_env junk_env files15 (lit "erosion") (lit "a.ppm") (lit "b.ppm") [] 15 15 ramp _ green_picture _
      ramp_file eq_refl green_file eq_refl) as (hues & _ & (p & m0 & Hrun & _) & _).
    exists p. split; [exact Hrun |]. change (new_map p !! 112%nat) with (middle (Done tt p)). rewrite <- Hrun. vm_compute. reflexivity.
Defined.

End HueMain.
