(* ===== verification/ColorMap.v ===== *)
(** * Colour manipulation: [CSCE646/pr03]

    pr03 builds a table of 256 entries for each channel, from a piecewise linear function
    or from a cubic through four points, and maps every pixel through the tables; or it
    gives every pixel of a picture the hue of a control picture, through HSV.  The model
    follows [myppm.h] and [pr03.cpp] of pr03. *)

From S2P Require Import Prelude CMem Double Raster Ppm PpmRead.
From Stdlib Require Import ZArith Lia SpecFloat.
From stdpp Require Import base list numbers.
From Stdlib Require String.
Import String.StringSyntax.
Import Double Raster Ppm PpmRead.
Open Scope Z_scope.

Module ColorMap.

Definition ppm_init := Ppm.ppm_init.
Definition clean_up := Ppm.clean_up.

(** The object: the picture and the field [RGB_map]. *)
Record manipulation_map := mk_maps { r_map : list Z; g_map : list Z; b_map : list Z }.
Record xypair := mk_xy { px : double; py : double }.

(** ** [piecewise_linear_single]: the state is the array [color_map] *)
Abbreviation T := (M (list Z)).

Definition set_entry (i v : Z) : T unit := fun m =>
  if inside m i then Done tt (<[Z.to_nat i := v]> m) else Undef OutOfBounds m.

(** [linear_slope[i]], [dot[i].x] and [dot[i].y] for [0 <= i < n], and [dot[n]]. *)
Definition get (rn : list double) (i : Z) : T double := expect OutOfBounds (fetch rn i).
Definition slope (n : Z) (rn : list double) (i : Z) : T double :=
  let* a := get rn (i + 1) in
  let* b := get rn i in
  ret ((a - b) * of_int n)%D.
Definition dot_x (n i : Z) : double := if i =? n then of_int 1 else (of_int i / of_int n)%D.

Definition linear_value (k x y : double) (rgb_index : Z) : option Z :=
  to_int ((k * (of_int rgb_index / of_int 255 - x) + y) * of_int 255)%D.

(** The [while] of segment [i]; its result is the new [rgb_index]. *)
Fixpoint segment (fuel : nat) (k x y l_boundary r_boundary : double) (rgb_index : Z) : T Z :=
  match fuel with
  | O => undef NoFuel
  | S f =>
      if ((of_int rgb_index >=? l_boundary) && (of_int rgb_index <? r_boundary))%D then
        let* v := expect IntOverflow (linear_value k x y rgb_index) in
        set_entry rgb_index v ;;;
        segment f k x y l_boundary r_boundary (rgb_index + 1)
      else ret rgb_index
  end.

Definition piecewise_linear_single (n : Z) (rn : list double) : T unit :=
  let* rgb_index := fold_up 0 n 0 (fun rgb_index i =>
    let* k := slope n rn i in
    let* y := get rn i in
    segment 257 k (dot_x n i) y (dot_x n i * of_int 255)%D (dot_x n (i + 1) * of_int 255)%D rgb_index) in
  let* yn := get rn n in
  let* v := expect IntOverflow (to_int (of_int 255 * yn)%D) in
  set_entry rgb_index v.

(** ** [cubic_curve_single] *)
Definition others (j : nat) : list nat := List.filter (fun k => negb (Nat.eqb k j)) [0; 1; 2; 3]%nat.

(** The [j]-th Lagrange term at [i / 255]. *)
Definition cubic_term (point : list xypair) (i : Z) (j : nat) : option double :=
  match point !! j with
  | Some pj =>
      fold_left (fun fraction k =>
        match fraction, point !! k with
        | Some f, Some pk => Some (f * (of_int i / of_int 255 - px pk) / (px pj - px pk))%D
        | _, _ => None
        end) (others j) (Some (py pj))
  | None => None
  end.

Definition cubic_value (point : list xypair) (i : Z) : option double :=
  fold_left (fun result j =>
    match result, cubic_term point i j with
    | Some r, Some f => Some (r + f)%D
    | _, _ => None
    end) [0; 1; 2; 3]%nat (Some (of_int 0)).

Definition cubic_curve_single (point : list xypair) : T unit :=
  for_up 0 256 (fun i =>
    let* result := expect OutOfBounds (cubic_value point i) in
    let* v := expect IntOverflow (to_int (result * of_int 255)%D) in
    set_entry i v).

(** ** The three tables *)
Definition run_single {A} (m : T unit) (old : list Z) (k : list Z -> outcome A unit) (s : A) : outcome A unit :=
  match m old with
  | Done _ t => k t
  | Exited c _ => Exited c s
  | Undef w _ => Undef w s
  end.

(** The second array is never used: the green table is made from the third. *)
Definition piecewise_linear_RGB (n1 : Z) (rn1 : list double) (n2 : Z) (rn2 : list double) (n3 : Z) (rn3 : list double) : M manipulation_map unit := fun s =>
  run_single (piecewise_linear_single n1 rn1) (r_map s) (fun r =>
  run_single (piecewise_linear_single n2 rn3) (g_map s) (fun g =>
  run_single (piecewise_linear_single n3 rn3) (b_map s) (fun b => Done tt (mk_maps r g b)) s) s) s.

Definition cubic_curve_RGB (R_point G_point B_point : list xypair) : M manipulation_map unit := fun s =>
  run_single (cubic_curve_single R_point) (r_map s) (fun r =>
  run_single (cubic_curve_single G_point) (g_map s) (fun g =>
  run_single (cubic_curve_single B_point) (b_map s) (fun b => Done tt (mk_maps r g b)) s) s) s.

(** ** [color_manipulation] *)
Definition change (f : RGB -> option RGB) (i : Z) : M myppm unit := fun p =>
  match fetch (pixel_map p) i with
  | Some c =>
      match f c with
      | Some c' => Done tt (set_pixel_map (<[Z.to_nat i := c']> (pixel_map p)) p)
      | None => Undef OutOfBounds p
      end
  | None => Undef OutOfBounds p
  end.

Definition through (maps : manipulation_map) (c : RGB) : option RGB :=
  match fetch (r_map maps) (red c), fetch (g_map maps) (green c), fetch (b_map maps) (blue c) with
  | Some r, Some g, Some b => Some (mk_RGB (u8 r) (u8 g) (u8 b))
  | _, _, _ => None
  end.

Definition color_manipulation (maps : manipulation_map) : M myppm unit := fun p =>
  for_up 0 (height p) (fun y => for_up 0 (width p) (fun x => change (through maps) (y * width p + x))) p.

(** ** HSV *)
Definition RGBtoHSV (r g b : Z) : double * double * double :=
  let RED := (of_int r / of_int 255)%D in
  let GREEN := (of_int g / of_int 255)%D in
  let BLUE := (of_int b / of_int 255)%D in
  let MAX := Double.max RED (Double.max GREEN BLUE) in
  let MIN := Double.min RED (Double.min GREEN BLUE) in
  if (MAX =? of_int 0)%D then (of_int 0, of_int 0, MAX)
  else
    let s := ((MAX - MIN) / MAX)%D in
    let delta := (MAX - MIN)%D in
    if (delta =? of_int 0)%D then (of_int 0, s, MAX)
    else
      let h :=
        if (RED =? MAX)%D then ((GREEN - BLUE) / delta)%D
        else if (GREEN =? MAX)%D then (of_int 2 + (BLUE - RED) / delta)%D
        else (of_int 4 + (RED - GREEN) / delta)%D in
      let h := (h * of_int 60)%D in
      ((if (h <? of_int 0)%D then (h + of_int 360)%D else h), s, MAX).

(** [R], [G] and [B] of [HSVtoRGB] before they are scaled; [None]: never assigned. *)
Definition sector (h intermediate2 : double) : option (double * double * double) :=
  if (h <? of_int 120)%D then
    Some (if (h <? of_int 60)%D then of_int 1 else intermediate2,
          if (h <? of_int 60)%D then intermediate2 else of_int 1, of_int 0)
  else if (h <? of_int 240)%D then
    Some (of_int 0,
          if (h <? of_int 180)%D then of_int 1 else intermediate2,
          if (h <? of_int 180)%D then intermediate2 else of_int 1)
  else if (h >? of_int 240)%D then
    Some (if (h <? of_int 300)%D then intermediate2 else of_int 1, of_int 0,
          if (h <? of_int 300)%D then of_int 1 else intermediate2)
  else None.

Definition HSVtoRGB {S} (h s v : double) : M S (Z * Z * Z) :=
  let intermediate1 := (s * v)%D in
  let intermediate2 := (intermediate1 * (of_int 1 - fabs (fmod (h / of_int 60) (of_int 2) - of_int 1)))%D in
  let n := (v - intermediate1)%D in
  let* rgb := expect Uninitialised (sector h intermediate2) in
  let '(R, G, B) := rgb in
  let* r := expect IntOverflow (to_int ((R + n) * of_int 255)%D) in
  let* g := expect IntOverflow (to_int ((G + n) * of_int 255)%D) in
  let* b := expect IntOverflow (to_int ((B + n) * of_int 255)%D) in
  ret (r, g, b).

(** ** [change_hue]; the state is [output] *)
Definition recolor (control : myppm) (i : Z) : M myppm unit :=
  let* c := expect OutOfBounds (fetch (pixel_map control) i) in
  let '(hue, _, _) := RGBtoHSV (red c) (green c) (blue c) in
  let* o := (fun p => Done p p) in
  let* d := expect OutOfBounds (fetch (pixel_map o) i) in
  let '(_, saturation, value) := RGBtoHSV (red d) (green d) (blue d) in
  let* rgb := HSVtoRGB hue saturation value in
  let '(r, g, b) := rgb in
  change (fun _ => Some (mk_RGB (u8 r) (u8 g) (u8 b))) i.

Definition change_hue (control : myppm) : M myppm unit :=
  for_up 0 (height control) (fun y => for_up 0 (width control) (fun x => recolor control (y * width control + x))).

(** ** [main] of [pr03.cpp], up to the display of [pixel_map] *)
Definition arr1 : list double := [of_int 0; dec 5 1; dec 6 1; dec 8 1; dec 9 1; of_int 1].
Definition arr2 : list double := [of_int 0; dec 2 1; dec 4 1; dec 6 1; dec 8 1; of_int 1].
Definition arr3 : list double := arr2.
Definition R_point : list xypair := [mk_xy (of_int 0) (dec 5 1); mk_xy (dec 25 2) (dec 75 2); mk_xy (dec 75 2) (dec 25 2); mk_xy (of_int 1) (dec 5 1)].
Definition G_point : list xypair := R_point.
Definition B_point : list xypair := R_point.

Definition no_maps : manipulation_map := mk_maps (replicate 256 0) (replicate 256 0) (replicate 256 0).

Definition with_maps (m : M manipulation_map unit) (p : myppm) : outcome myppm unit :=
  match m no_maps with
  | Done _ maps => color_manipulation maps p
  | Exited c _ => Exited c p
  | Undef w _ => Undef w p
  end.

(** [p0] are the fields of the local object [control] before it is read. *)
Definition main (e e' : env) (p0 : myppm) (files : list Z -> option (list Z)) (args : list (list Z)) : outcome myppm unit :=
  match args with
  | name :: file :: more =>
      if bool_decide (name = lit "linear") then
        match ppm_init e (files file) zeroed with
        | Done _ p => with_maps (piecewise_linear_RGB 5 arr1 5 arr2 5 arr3) p
        | o => o
        end
      else if bool_decide (name = lit "cubic") then
        match ppm_init e (files file) zeroed with
        | Done _ p => with_maps (cubic_curve_RGB R_point G_point B_point) p
        | o => o
        end
      else if bool_decide (name = lit "hue") then
        match ppm_init e' (files file) p0 with
        | Done _ control =>
            match more with
            | [] => Undef NullPointer zeroed
            | output :: _ =>
                match ppm_init e (files output) zeroed with
                | Done _ p => change_hue control p
                | o => o
                end
            end
        | Exited c _ => Exited c zeroed
        | Undef w _ => Undef w zeroed
        end
      else Done tt zeroed
  | _ => Exited (-1) zeroed
  end.

End ColorMap.
