(* ===== verification/ColorMapMain.v ===== *)
(** * What [pr03] shows

    The tables of the two curve commands, their effect on a picture, and two defects of
    the hue command. *)

From S2P Require Import Prelude CMem Double Raster Ppm PpmRead ColorMap.
From Stdlib Require Import ZArith Lia SpecFloat.
From stdpp Require Import base list numbers.
From Stdlib Require String.
Import String.StringSyntax.
Import Double Raster Ppm PpmRead ColorMap.
Open Scope Z_scope.

Module ColorMapMain.

(** ** Changing every pixel in place *)
Lemma fold_pixel_map {A} (F : list RGB -> A -> list RGB) l p :
  fold_left (fun s c => set_pixel_map (F (pixel_map s) c) s) l p = set_pixel_map (fold_left F l (pixel_map p)) p.
Proof. revert p. induction l as [| c l IH]; intros p; cbn [fold_left]; [by destruct p |]. by rewrite IH. Qed.

Lemma sweep_in_place (f : RGB -> option RGB) (f' : RGB -> RGB) p : 0 <= width p -> 0 <= height p ->
  length (pixel_map p) = Z.to_nat (width p * height p) -> (forall c, byte_pixel c -> f c = Some (f' c) /\ byte_pixel (f' c)) ->
  Forall byte_pixel (pixel_map p) ->
  for_up 0 (height p) (fun y => for_up 0 (width p) (fun x => change f (y * width p + x))) p
  = Done tt (set_pixel_map (f' <$> pixel_map p) p).
Proof.
  intros Hw Hh Hlen Hf Hb. unfold for_up. rewrite !Z.sub_0_r.
  rewrite (for_each_nest (seqZ 0 (height p)) (fun _ => seqZ 0 (width p)) (fun y x => change f (y * width p + x))).
  set (F := touch (fun c : Z * Z => Some (idx (width p) c.1 c.2)) (fun _ => f')).
  set (cs := seqZ 0 (height p) ≫= fun y => pair y <$> seqZ 0 (width p)).
  assert (Hcs : cs = cells 0 (height p) 0 (width p)) by (unfold cs, cells; by rewrite !Z.sub_0_r).
  destruct (for_each_fold (fun s => exists m, s = set_pixel_map m p /\ length m = length (pixel_map p) /\ Forall byte_pixel m)
    (fun c s => set_pixel_map (F (pixel_map s) c) s) cs (fun c => change f (c.1 * width p + c.2)) p) as [Hrun _].
  - exists (pixel_map p). split; [by destruct p | done].
  - intros c s Hc (m & -> & Hm & Hmb). rewrite Hcs in Hc. apply elem_of_cells in Hc as [Hy Hx].
    pose proof (idx_bound (width p) (height p) c.1 c.2 Hx Hy) as Hi. unfold change. cbn [pixel_map set_pixel_map].
    rewrite fetch_idx by lia. destruct (lookup_lt_is_Some_2 m (idx (width p) c.1 c.2)) as [q Hq]; [unfold idx; lia |]. rewrite Hq.
    destruct (Hf q (list.Forall_lookup_1 _ _ _ _ Hmb Hq)) as [-> Hq']. fold (idx (width p) c.1 c.2).
    assert (Halt : <[idx (width p) c.1 c.2 := f' q]> m = alter f' (idx (width p) c.1 c.2) m).
    { apply list_eq. intros k. destruct (decide (k = idx (width p) c.1 c.2)) as [-> | Hne].
      - rewrite list_lookup_insert_eq by (by eapply lookup_lt_Some). by rewrite list_lookup_alter_eq, Hq.
      - by rewrite list_lookup_insert_ne, list_lookup_alter_ne. }
    unfold F, touch. rewrite <- Halt. split; [done |]. eexists. split; [reflexivity |]. split; [by rewrite length_insert |].
    apply Forall_insert; done.
  - rewrite Hrun. f_equal. rewrite fold_pixel_map. f_equal. apply list_eq. intros k.
    rewrite list_lookup_fmap. destruct (decide (k < length (pixel_map p))%nat) as [Hk | Hk].
    + rewrite Hlen in Hk. assert (0 < width p) by (destruct (Z.eq_dec (width p) 0) as [H0 |]; [rewrite H0 in Hk; simpl in Hk; lia | lia]).
      destruct (idx_surj (width p) (height p) k) as (y & x & Hy & Hx & ->); [done | done |].
      unfold F. rewrite (touch_hit _ _ _ _ _ (y, x)); cbn [fst snd]; [done | rewrite Hcs; apply NoDup_cells | | done |].
      * rewrite Hcs. apply elem_of_cells. cbn [fst snd]. lia.
      * intros [y' x'] Hc He. rewrite Hcs in Hc. apply elem_of_cells in Hc as [Hcy Hcx]. cbn [fst snd] in *. injection He as He.
        apply idx_inj in He as [-> ->]; [done | lia..].
    + rewrite !lookup_ge_None_2; [done | lia |]. unfold F. rewrite touch_length. lia.
Qed.

(** ** The tables *)
Definition table_of (m : T unit) : list Z := match m (replicate 256 0) with Done _ t => t | _ => [] end.
Definition linear_red : list Z := Eval vm_compute in table_of (piecewise_linear_single 5 arr1).
Definition linear_green : list Z := Eval vm_compute in table_of (piecewise_linear_single 5 arr3).
Definition cubic_table : list Z := Eval vm_compute in table_of (cubic_curve_single R_point).

Lemma linear_red_table : piecewise_linear_single 5 arr1 (replicate 256 0) = Done tt linear_red.
Proof. vm_compute. reflexivity. Qed.
Lemma linear_green_table : piecewise_linear_single 5 arr3 (replicate 256 0) = Done tt linear_green.
Proof. vm_compute. reflexivity. Qed.
Lemma linear_tables_run rn2 : piecewise_linear_RGB 5 arr1 5 rn2 5 arr3 no_maps = Done tt (mk_maps linear_red linear_green linear_green).
Proof.
  unfold piecewise_linear_RGB, run_single. cbn [r_map g_map b_map no_maps]. by rewrite linear_red_table, linear_green_table.
Qed.
Lemma cubic_table_run : cubic_curve_single R_point (replicate 256 0) = Done tt cubic_table.
Proof. vm_compute. reflexivity. Qed.

Definition entry (t : list Z) (v : Z) : Z := default 0 (fetch t v).

(** The piecewise linear function through the points [(i / 5, ys[i] / 10)], scaled to
    0..255, rounded down. *)
Definition exact_linear (ys : list Z) (v : Z) : Z :=
  let i := Z.min 4 (v / 51) in
  let y0 := default 0 (fetch ys i) in
  let y1 := default 0 (fetch ys (i + 1)) in
  (255 * y0 + (y1 - y0) * 5 * (v - 51 * i)) / 10.

Definition table_ok (t : list Z) (ys : list Z) : bool :=
  (Nat.eqb (length t) 256) &&
  forallb (fun v => (0 <=? entry t v) && (entry t v <=? 255) &&
    (exact_linear ys v - 1 <=? entry t v) && (entry t v <=? exact_linear ys v) &&
    ((v =? 0) || (entry t (v - 1) <=? entry t v))) (seqZ 0 256).

Lemma linear_tables_ok : table_ok linear_red [0; 5; 6; 8; 9; 10] = true /\ table_ok linear_green [0; 2; 4; 6; 8; 10] = true.
Proof. vm_compute. done. Qed.

(** ** The two curve commands on a file *)

(** A table whose entries are bytes. *)
Definition byte_table (t : list Z) : Prop := length t = 256%nat /\ Forall is_byte t.

Lemma through_bytes r g b c : byte_table r -> byte_table g -> byte_table b -> byte_pixel c ->
  through (mk_maps r g b) c = Some (mk_RGB (entry r (red c)) (entry g (green c)) (entry b (blue c))) /\
  byte_pixel (mk_RGB (entry r (red c)) (entry g (green c)) (entry b (blue c))).
Proof.
  intros Hr Hg Hb (H1 & H2 & H3).
  assert (He : forall t v, byte_table t -> is_byte v -> fetch t v = Some (entry t v) /\ is_byte (entry t v)).
  { intros t v [Hl Ht] Hv. unfold is_byte in Hv. destruct (fetch_some t v) as [a Ha]; [rewrite Hl; lia |]. unfold entry. rewrite Ha.
    split; [done |]. unfold fetch in Ha. destruct (v <? 0); [done |]. by apply (list.Forall_lookup_1 _ _ _ _ Ht Ha). }
  destruct (He r (red c) Hr H1) as [Er Br], (He g (green c) Hg H2) as [Eg Bg], (He b (blue c) Hb H3) as [Eb Bb].
  unfold through. cbn [r_map g_map b_map]. rewrite Er, Eg, Eb. rewrite !u8_id by done. done.
Qed.

Lemma bytes_check t : forallb (fun v => (0 <=? v) && (v <? 256)) t = true -> length t = 256%nat -> byte_table t.
Proof.
  intros H Hl. split; [done |]. apply list.Forall_forall. intros v Hv. rewrite forallb_forall in H.
  apply list_elem_of_In in Hv. apply H in Hv. rewrite andb_true_iff, Z.leb_le, Z.ltb_lt in Hv. done.
Qed.

Lemma tables_bytes : byte_table linear_red /\ byte_table linear_green /\ byte_table cubic_table.
Proof. split; [| split]; apply bytes_check; done. Qed.

Lemma manipulation_maps r g b p w h pic : byte_table r -> byte_table g -> byte_table b -> loaded w h pic p ->
  color_manipulation (mk_maps r g b) p
  = Done tt (set_pixel_map ((fun c => mk_RGB (entry r (red c)) (entry g (green c)) (entry b (blue c))) <$> pixel_map p) p).
Proof.
  intros Hr Hg Hb (Hw & Hh & <- & <- & Hs & Hby). unfold color_manipulation.
  apply sweep_in_place; [lia | lia | apply Hs | | done]. intros c Hc. by apply through_bytes.
Qed.

(** How near a table is to the exact function: at most one below it, never above, with
    values that grow, from 0 to 255. *)
Definition follows (ys : list Z) (t : list Z) : Prop :=
  forall v, is_byte v -> is_byte (entry t v) /\ exact_linear ys v - 1 <= entry t v <= exact_linear ys v /\
    (0 < v -> entry t (v - 1) <= entry t v).

Lemma table_ok_follows t ys : table_ok t ys = true -> follows ys t.
Proof.
  unfold table_ok. rewrite andb_true_iff. intros [_ H] v Hv. rewrite forallb_forall in H. unfold is_byte in *.
  specialize (H v). rewrite !andb_true_iff, orb_true_iff, !Z.leb_le, Z.eqb_eq in H.
  destruct H as ((((H1 & H2) & H3) & H4) & H5); [apply list_elem_of_In, elem_of_seqZ; lia |].
  split; [lia |]. split; [lia |]. intros H0. destruct H5; lia.
Qed.

(** C36: [pr03 linear] shows the picture of the file with each channel mapped through a
    table that follows its piecewise linear function (the red one through the values
    0, 0.5, 0.6, 0.8, 0.9, 1, the green and the blue one through 0, 0.2, ..., 1, nearly the
    identity): every entry is the exact value rounded down, or one less where the doubles
    fall short of it; the tables never decrease and all entries are bytes.  The green and the
    blue table are both made from the third array of [main]: whatever array is passed as
    the second one, the three tables are the same. *)
Theorem linear_command e e' p0 files file more w h pic bytes :
  ppm_file w h pic bytes -> files file = Some bytes ->
  exists tr tg m0 p, follows [0; 5; 6; 8; 9; 10] tr /\ follows [0; 2; 4; 6; 8; 10] tg /\
    entry tr 0 = 0 /\ entry tr 255 = 255 /\ entry tg 0 = 0 /\ entry tg 255 = 255 /\
    (forall rn2, piecewise_linear_RGB 5 arr1 5 rn2 5 arr3 no_maps = Done tt (mk_maps tr tg tg)) /\
    main e e' p0 files (lit "linear" :: file :: more) = Done tt p /\ shown w h pic m0 /\
    pixel_map p = (fun c => mk_RGB (entry tr (red c)) (entry tg (green c)) (entry tg (blue c))) <$> m0.
Proof.
  intros Hppm Hfile. exists linear_red, linear_green.
  destruct (ppm_file_loaded e w h pic bytes zeroed Hppm) as [(q & Hq & Hl) _].
  destruct tables_bytes as (Hr & Hg & _). pose proof Hl as (_ & _ & _ & _ & Hs & _).
  eexists (pixel_map q), _. split; [apply table_ok_follows, linear_tables_ok |]. split; [apply table_ok_follows, linear_tables_ok |].
  do 4 (split; [done |]). split; [exact linear_tables_run |]. split; [| split; [exact Hs |]].
  - cbn [main]. rewrite Hfile. unfold ppm_init. rewrite Hq. rewrite bool_decide_eq_true_2 by done.
    unfold with_maps. rewrite linear_tables_run. apply (manipulation_maps _ _ _ q w h pic); done.
  - done.
Qed.

(** [pr03 cubic] shows the picture of the file with every channel mapped through the
    cubic through (0, 0.5), (0.25, 0.75), (0.75, 0.25), (1, 0.5): 127 at both ends, between
    62 and 192 everywhere, so that no value is cut when it is stored.*)
Lemma cubic_command e e' p0 files file more w h pic bytes :
  ppm_file w h pic bytes -> files file = Some bytes ->
  exists t m0 p, entry t 0 = 127 /\ entry t 255 = 127 /\ entry t 64 = 191 /\ entry t 191 = 63 /\
    (forall v, is_byte v -> 62 <= entry t v <= 192) /\
    main e e' p0 files (lit "cubic" :: file :: more) = Done tt p /\ shown w h pic m0 /\
    pixel_map p = (fun c => mk_RGB (entry t (red c)) (entry t (green c)) (entry t (blue c))) <$> m0.
Proof.
  intros Hppm Hfile. exists cubic_table.
  destruct (ppm_file_loaded e w h pic bytes zeroed Hppm) as [(q & Hq & Hl) _].
  destruct tables_bytes as (_ & _ & Hc). pose proof Hl as (_ & _ & _ & _ & Hs & _).
  eexists (pixel_map q), _. do 4 (split; [done |]). split; [| split; [| split; [exact Hs |]]].
  - intros v Hv. assert (H : forallb (fun v => (62 <=? entry cubic_table v) && (entry cubic_table v <=? 192)) (seqZ 0 256) = true) by (vm_compute; done).
    rewrite forallb_forall in H. specialize (H v). rewrite andb_true_iff, !Z.leb_le in H. apply H.
    apply list_elem_of_In, elem_of_seqZ. unfold is_byte in Hv. lia.
  - cbn [main]. rewrite Hfile. unfold ppm_init. rewrite Hq. rewrite bool_decide_eq_false_2, bool_decide_eq_true_2 by done.
    unfold with_maps, cubic_curve_RGB, run_single. cbn [r_map g_map b_map no_maps]. unfold G_point, B_point.
    rewrite cubic_table_run. apply (manipulation_maps _ _ _ q w h pic); done.
  - done.
Qed.

(** ** The hue command *)

(** A byte other than 0 as a fraction of 255. *)
Lemma byte_fraction b : 1 <= b <= 255 -> exists m e, (of_int b / of_int 255)%D = S754_finite false m e.
Proof.
  intros Hb. assert (H : forallb (fun b => match (of_int b / of_int 255)%D with S754_finite false _ _ => true | _ => false end) (seqZ 1 255) = true)
    by (vm_compute; done).
  rewrite forallb_forall in H. specialize (H b ltac:(apply list_elem_of_In, elem_of_seqZ; lia)).
  destruct (of_int b / of_int 255)%D as [| | | [] m e]; try done. by eauto.
Qed.

(** The hue of pure blue is exactly 240, for which [HSVtoRGB] assigns nothing. *)
Lemma blue_hue b : 1 <= b <= 255 -> (RGBtoHSV 0 0 b).1.1 = of_int 240.
Proof.
  intros Hb. destruct (byte_fraction b Hb) as (m & e & Hx). unfold RGBtoHSV. rewrite Hx.
  change (of_int 0 / of_int 255)%D with (S754_zero false). reflexivity.
Qed.

Lemma HSVtoRGB_240 {S} s v (st : S) : HSVtoRGB (of_int 240) s v st = Undef Uninitialised st.
Proof. reflexivity. Qed.

Lemma recolor_not_exited control i p k p' : recolor control i p <> Exited k p'.
Proof.
  unfold recolor, HSVtoRGB, bind, expect. intros H.
  destruct (fetch (pixel_map control) i) as [c |]; [| done]. unfold ret in H.
  destruct (RGBtoHSV (red c) (green c) (blue c)) as [[hue s] v].
  destruct (fetch (pixel_map p) i) as [d |] eqn:Hd; [| done].
  destruct (RGBtoHSV (red d) (green d) (blue d)) as [[hue' s'] v'].
  destruct (sector hue _) as [[[R G] B] |]; [| done].
  repeat match type of H with context [to_int ?x] => destruct (to_int x); [| done] end.
  unfold change in H. by rewrite Hd in H.
Qed.

(** [change_hue] has no case for the hue 240: when any pixel of the control picture is
    a pure blue, of whatever brightness, the run uses variables that were never assigned
    (or leaves the output picture), whatever the rest of both pictures.*)
Lemma blue_control_undefined control p y x b : 0 <= y < height control -> 0 <= x < width control -> 1 <= b <= 255 ->
  fetch (pixel_map control) (y * width control + x) = Some (mk_RGB 0 0 b) ->
  exists w p', change_hue control p = Undef w p'.
Proof.
  intros Hy Hx Hb Hblue. unfold change_hue, for_up. rewrite (for_each_nest _ (fun _ => seqZ 0 (width control - 0)) (fun y x => recolor control (y * width control + x))).
  apply (for_each_undef (fun _ => True)); [done | |].
  - intros c p1 _ _. pose proof (recolor_not_exited control (c.1 * width control + c.2) p1) as Hno.
    destruct (recolor control _ p1) as [[] p2 | k p2 | f p2]; [left; by exists p2 | by destruct (Hno k p2) | right; by exists f, p2].
  - exists (y, x). split; [by apply (elem_of_cells 0 (height control) 0 (width control)) |]. intros p1 _. cbn [fst snd]. unfold recolor, bind at 1. rewrite Hblue. cbn [expect]. unfold ret at 1. cbn [red green blue].
    pose proof (blue_hue b Hb) as Hh. destruct (RGBtoHSV 0 0 b) as [[hue s] v]. cbn [fst] in Hh. subst hue.
    unfold bind at 1. unfold bind at 1. destruct (fetch (pixel_map p1) _) as [d |]; cbn [expect]; [| by do 2 eexists].
    unfold ret at 1. destruct (RGBtoHSV (red d) (green d) (blue d)) as [[h' s'] v']. unfold bind at 1. rewrite HSVtoRGB_240. by do 2 eexists.
Qed.

(** A grey pixel under a control pixel of hue 0, the hue of every grey: its red channel is
    computed from [1 + value] and stored modulo 256. *)
Lemma grey_turns v : is_byte v ->
  exists r g, (let '(_, s, value) := RGBtoHSV v v v in @HSVtoRGB unit (of_int 0) s value tt) = Done (r, g, g) tt /\
    254 + v <= r <= 255 + v /\ v - 1 <= g <= v.
Proof.
  intros Hv. assert (H : forallb (fun v => match (let '(_, s, value) := RGBtoHSV v v v in @HSVtoRGB unit (of_int 0) s value tt) with
    | Done (r, g, b) _ => (g =? b) && (254 + v <=? r) && (r <=? 255 + v) && (v - 1 <=? g) && (g <=? v) | _ => false end) (seqZ 0 256) = true)
    by (vm_compute; done).
  rewrite forallb_forall in H. specialize (H v ltac:(apply list_elem_of_In, elem_of_seqZ; unfold is_byte in Hv; lia)).
  destruct (let '(_, s, value) := RGBtoHSV v v v in @HSVtoRGB unit (of_int 0) s value tt) as [[[r g] b] [] | |]; [| done | done].
  rewrite !andb_true_iff, !Z.leb_le, Z.eqb_eq in H. destruct H as ((((-> & H1) & H2) & H3) & H4). by exists r, b.
Qed.

(** ** Instances *)
Definition blue_control : myppm := set_pixel_map [mk_RGB 0 0 9] (set_height 1 (set_width 1 zeroed)).

Lemma blue_control_undefined_witness : exists w p', change_hue blue_control zeroed = Undef w p'.
Proof. apply (blue_control_undefined blue_control zeroed 0 0 9); done. Defined.

Lemma linear_command_witness :
  exists tr p, entry tr 255 = 255 /\ main junk_env junk_env zeroed
    (fun _ => Some (header [] [] (lit "1") (lit "1") (lit "255") ++ [10; 20; 30] ++ [])) [lit "linear"; lit "a.ppm"] = Done tt p.
Proof.
  destruct (linear_command junk_env junk_env zeroed (fun _ => Some (header [] [] (lit "1") (lit "1") (lit "255") ++ [10; 20; 30] ++ []))
    (lit "a.ppm") [] 1 1 [mk_RGB 10 20 30] _ one_pixel_file eq_refl) as (tr & tg & m0 & p & _ & _ & _ & H255 & _ & _ & _ & Hrun & _).
  exists tr, p. split; [exact H255 | exact Hrun].
Defined.

Lemma cubic_command_witness :
  exists t p, entry t 0 = 127 /\ main junk_env junk_env zeroed
    (fun _ => Some (header [] [] (lit "1") (lit "1") (lit "255") ++ [10; 20; 30] ++ [])) [lit "cubic"; lit "a.ppm"] = Done tt p.
Proof.
  destruct (cubic_command junk_env junk_env zeroed (fun _ => Some (header [] [] (lit "1") (lit "1") (lit "255") ++ [10; 20; 30] ++ []))
    (lit "a.ppm") [] 1 1 [mk_RGB 10 20 30] _ one_pixel_file eq_refl) as (t & m0 & p & H0 & _ & _ & _ & _ & Hrun & _).
  exists t, p. split; [exact H0 | exact Hrun].
Defined.

End ColorMapMain.
