(* ===== verification/ImageTests.v ===== *)
(** * The small test programs of the image filters

    [CSCE646/pr03/test.cpp] tries the curves of pr03 on arrays of [int] and prints every
    entry; [CSCE646/pr04/test.cpp] tries the convolution of pr04 on a picture of five by
    five characters.  A global variable of each program chooses the case it runs; its
    value in the source is 4 in the first one and 1 in the second one.  [main3] is
    the first program for any value of it. *)

From S2P Require Import Prelude CMem Double Raster ColorMap ColorMapMain.
From Stdlib Require Import ZArith Lia SpecFloat.
From stdpp Require Import base list numbers.
From Stdlib Require String.
Import String.StringSyntax.
Import Double Raster ColorMap.
Open Scope Z_scope.

Module ImageTests.

(** ** Curves: the array, and the lines printed so far *)
Record curve := mk_curve { color_map : list Z; printed : list (Z * Z) }.
Abbreviation C := (M curve).

Definition set_color (i v : Z) : C unit := fun s =>
  if inside (color_map s) i then Done tt (mk_curve (<[Z.to_nat i := v]> (color_map s)) (printed s)) else Undef OutOfBounds s.
Definition get_color (i : Z) : C Z := fun s => expect OutOfBounds (fetch (color_map s) i) s.
(** [cout << i << color_map[i] << endl] *)
Definition print_color (i : Z) : C unit := fun s =>
  match fetch (color_map s) i with
  | Some v => Done tt (mk_curve (color_map s) (printed s ++ [(i, v)]))
  | None => Undef OutOfBounds s
  end.

(** One round of [cubic_curve_single]: unlike in pr03, the curve is taken at the old entry. *)
Definition cubic_round (point : list xypair) (i : Z) : C unit :=
  let* x := get_color i in
  let* result := expect OutOfBounds (cubic_value point x) in
  let* v := expect IntOverflow (to_int (result * of_int 255)%D) in
  set_color i v ;;;
  print_color i.
Definition cubic_curve_single (point : list xypair) : C unit := for_up 0 256 (cubic_round point).

(** [piecewise_linear]; the slopes and points are those of [piecewise_linear_single] of pr03. *)
Definition get_rn (rn : list double) (i : Z) : C double := expect OutOfBounds (fetch rn i).
Fixpoint segment (fuel : nat) (k x y l_boundary r_boundary : double) (rgb_index : Z) : C Z :=
  match fuel with
  | O => undef NoFuel
  | S f =>
      if ((of_int rgb_index >=? l_boundary) && (of_int rgb_index <? r_boundary))%D then
        let* v := expect IntOverflow (linear_value k x y rgb_index) in
        set_color rgb_index v ;;;
        print_color rgb_index ;;;
        segment f k x y l_boundary r_boundary (rgb_index + 1)
      else ret rgb_index
  end.
Definition piecewise_linear (n : Z) (rn : list double) : C unit :=
  let* rgb_index := fold_up 0 n 0 (fun rgb_index i =>
    let* b := get_rn rn (i + 1) in
    let* a := get_rn rn i in
    segment 257 ((b - a) * of_int n)%D (dot_x n i) a (dot_x n i * of_int 255)%D (dot_x n (i + 1) * of_int 255)%D rgb_index) in
  let* yn := get_rn rn n in
  let* v := expect IntOverflow (to_int (of_int 255 * yn)%D) in
  set_color rgb_index v ;;;
  print_color rgb_index.

(** The third case; the array is not initialised. *)
Definition case3 (new_map : list Z) : outcome curve unit :=
  piecewise_linear 5 [of_int 0; dec 5 1; dec 4 1; dec 6 1; dec 8 1; dec 5 1] (mk_curve new_map []).

(** The fourth case, which [main] runs. *)
Definition points : list xypair :=
  [mk_xy (of_int 0) (dec 5 1); mk_xy (dec 25 2) (dec 25 2); mk_xy (dec 75 2) (dec 75 2); mk_xy (of_int 1) (dec 5 1)].
Definition fill_map : C unit := for_up 0 256 (fun i => set_color i i).
Definition case4 (map : list Z) : outcome curve unit :=
  (fill_map ;;; cubic_curve_single points) (mk_curve map []).

(** The first case asks for numbers for ever and uses none; what it has shown after [n] rounds.
    The second one converts a digit. *)
Fixpoint case1 (n : nat) (shown : list (list Z)) : list (list Z) :=
  match n with O => shown | S n' => case1 n' (shown ++ [lit "Enter RGB"]) end.
Definition case2 : Z := Z.rem (51 - 48) 48.

(** [main], with the number of rounds it is watched for. *)
Inductive run3 := Asking (shown : list (list Z)) | Number (b : Z) | Curve (o : outcome curve unit) | Silent.
Definition main3 (testcase : Z) (n : nat) (new_map map : list Z) : run3 :=
  if testcase =? 1 then Asking (case1 n [])
  else if testcase =? 2 then Number case2
  else if testcase =? 3 then Curve (case3 new_map)
  else if testcase =? 4 then Curve (case4 map)
  else Silent.

(** ** Convolution: the array [new_map] *)
Definition width : Z := 5.
Abbreviation K := (M (list Z)).

Definition read_at (l : list Z) (i : Z) : K Z := expect OutOfBounds (fetch l i).
Definition write_at (i v : Z) : K unit := fun m =>
  if inside m i then Done tt (<[Z.to_nat i := u8 v]> m) else Undef OutOfBounds m.

Definition accumulate (kernel pixel_map : list Z) (size x0 y0 yk : Z) (acc xk : Z) : K Z :=
  let* p := read_at pixel_map ((x0 + xk) * width + (y0 + yk)) in
  let* k := read_at kernel (xk * size + yk) in
  ret (acc + p * k).

Definition conv_single_pixel (kernel : list Z) (size x y : Z) (pixel_map : list Z) : K unit :=
  let conv_range := Z.quot (size - 1) 2 in
  let x0 := x - conv_range in
  let y0 := y - conv_range in
  let* acc := fold_up 0 size 0 (fun acc yk => fold_up 0 size acc (accumulate kernel pixel_map size x0 y0 yk)) in
  let* mean := expect IntOverflow (to_int (of_int acc / of_int (size * size))%D) in
  write_at (x * width + y) mean.

(** The loops of [main] over the inner pixels. *)
Definition ones : list Z := replicate 9 1.
Definition blur (map : list Z) : K unit :=
  for_up 1 4 (fun i => for_up 1 4 (fun j => conv_single_pixel ones 3 i j map)).

(** The loops that print: two spaces after every character, a new line after five. *)
Definition row_ends (i : Z) : bool := (i =? 4) || (i =? 9) || (i =? 14) || (i =? 19) || (i =? 24).
Definition show_one (m : list Z) (i : Z) : option (list Z) :=
  match fetch m i with
  | Some c => Some ([c; 32; 32] ++ if row_ends i then [10] else [])
  | None => None
  end.
Fixpoint show (m : list Z) (l : list Z) : option (list Z) :=
  match l with
  | [] => Some []
  | i :: l' => match show_one m i, show m l' with Some a, Some b => Some (a ++ b) | _, _ => None end
  end.

Definition map : list Z :=
  [48; 48; 48; 48; 48; 48; 57; 57; 57; 48; 48; 57; 57; 57; 48; 48; 57; 57; 57; 48; 48; 48; 48; 48; 48].
(** What [main] shows after the two headings. *)
Definition main : option (list Z * list Z) :=
  match show map (seqZ 0 25), blur map map with
  | Some before, Done _ new_map => match show new_map (seqZ 0 25) with Some after => Some (before, after) | None => None end
  | _, _ => None
  end.

(** ** The mean of nine bytes in [double] *)
Definition mean_right (s : Z) : bool := match to_int (of_int s / of_int 9)%D with Some v => v =? s / 9 | None => false end.
Lemma means_right : forallb mean_right (seqZ 0 2296) = true.
Proof. vm_compute. reflexivity. Qed.

Lemma mean_9 s : 0 <= s <= 2295 -> to_int (of_int s / of_int 9)%D = Some (s / 9).
Proof.
  intros Hs. assert (Hr : mean_right s = true).
  { apply (proj1 (forallb_forall mean_right (seqZ 0 2296)) means_right). apply list_elem_of_In, elem_of_seqZ. lia. }
  unfold mean_right in Hr. destruct (to_int _); [f_equal; lia | done].
Qed.

(** The nine pixels around a pixel. *)
Definition at_ (m : list Z) (x y : Z) : Z := m !!! idx 5 x y.
Definition window (m : list Z) (x y : Z) : Z :=
  at_ m (x - 1) (y - 1) + at_ m x (y - 1) + at_ m (x + 1) (y - 1) +
  at_ m (x - 1) y + at_ m x y + at_ m (x + 1) y +
  at_ m (x - 1) (y + 1) + at_ m x (y + 1) + at_ m (x + 1) (y + 1).

Lemma at_fetch m x y : length m = 25%nat -> 0 <= x < 5 -> 0 <= y < 5 -> forall s, read_at m (x * width + y) s = Done (at_ m x y) s.
Proof.
  intros Hm Hx Hy s. unfold read_at, at_, width. rewrite fetch_idx by lia.
  rewrite (list_lookup_lookup_total_lt m) by (unfold idx; lia). done.
Qed.

Lemma at_is_byte m x y : length m = 25%nat -> Forall is_byte m -> 0 <= x < 5 -> 0 <= y < 5 -> is_byte (at_ m x y).
Proof.
  intros Hm Hb Hx Hy. unfold at_. eapply list.Forall_lookup_1; [exact Hb |].
  apply list_lookup_lookup_total_lt. unfold idx. lia.
Qed.

Lemma window_range m x y : length m = 25%nat -> Forall is_byte m -> 1 <= x < 4 -> 1 <= y < 4 -> 0 <= window m x y <= 2295.
Proof.
  intros Hm Hb Hx Hy. unfold window.
  assert (H : forall a b, -1 <= a <= 1 -> -1 <= b <= 1 -> is_byte (at_ m (x + a) (y + b))) by (intros; apply at_is_byte; (done || lia)).
  pose proof (H (-1) (-1)); pose proof (H 0 (-1)); pose proof (H 1 (-1)); pose proof (H (-1) 0); pose proof (H 0 0);
  pose proof (H 1 0); pose proof (H (-1) 1); pose proof (H 0 1); pose proof (H 1 1).
  unfold is_byte in *. replace (x + -1) with (x - 1) in * by lia. replace (y + -1) with (y - 1) in * by lia.
  rewrite !Z.add_0_r in *. lia.
Qed.

Lemma one_at i s : 0 <= i < 9 -> read_at ones i s = Done 1 s.
Proof.
  intros Hi. unfold read_at, fetch. rewrite (proj2 (Z.ltb_ge _ _)) by lia.
  unfold ones. rewrite lookup_replicate_2 by lia. done.
Qed.

Lemma accumulate_ok m x y yk xk acc s : length m = 25%nat -> 1 <= x < 4 -> 1 <= y < 4 -> 0 <= yk < 3 -> 0 <= xk < 3 ->
  accumulate ones m 3 (x - 1) (y - 1) yk acc xk s = Done (acc + at_ m (x - 1 + xk) (y - 1 + yk)) s.
Proof.
  intros Hm Hx Hy Hyk Hxk. unfold accumulate. rewrite (bind_done _ _ _ _ _ (at_fetch m (x - 1 + xk) (y - 1 + yk) Hm ltac:(lia) ltac:(lia) s)).
  rewrite (bind_done _ _ _ _ _ (one_at (xk * 3 + yk) s ltac:(lia))). unfold ret. by rewrite Z.mul_1_r.
Qed.

Lemma conv_ok m n x y : length m = 25%nat -> Forall is_byte m -> length n = 25%nat -> 1 <= x < 4 -> 1 <= y < 4 ->
  conv_single_pixel ones 3 x y m n = Done tt (<[idx 5 x y := window m x y / 9]> n).
Proof.
  intros Hm Hb Hn Hx Hy. unfold conv_single_pixel. change (Z.quot (3 - 1) 2) with 1. change (3 * 3) with 9.
  erewrite (bind_done _ _ n (window m x y) n).
  - pose proof (window_range m x y Hm Hb Hx Hy) as Hw. rewrite mean_9 by done. cbn [expect]. unfold bind, ret, write_at, width.
    rewrite inside_true by lia. rewrite u8_id; [done |]. unfold is_byte.
    pose proof (Z.div_pos (window m x y) 9). pose proof (Z.div_lt_upper_bound (window m x y) 9 256). lia.
  - unfold fold_up. change (seqZ 0 (3 - 0)) with [0; 1; 2]. cbn [fold_each]. unfold bind.
    do 9 (rewrite accumulate_ok by (done || lia); cbn [ret]). unfold ret, window. f_equal.
    replace (x - 1 + 0) with (x - 1) by lia. replace (y - 1 + 0) with (y - 1) by lia.
    replace (x - 1 + 1) with x by lia. replace (y - 1 + 1) with y by lia.
    replace (x - 1 + 2) with (x + 1) by lia. replace (y - 1 + 2) with (y + 1) by lia. lia.
Qed.

(** The cells in the order of the loops, and what they leave. *)
Definition inner : list (Z * Z) := cells 1 4 1 4.
Definition blurred (m n : list Z) : list Z :=
  fold_left (fun n' (c : Z * Z) => <[idx 5 c.1 c.2 := window m c.1 c.2 / 9]> n') inner n.

Lemma blur_run m n : length m = 25%nat -> Forall is_byte m -> length n = 25%nat -> blur m n = Done tt (blurred m n).
Proof.
  intros Hm Hb Hn. unfold blur, for_up. rewrite for_each_nest.
  destruct (for_each_fold (fun n' => length n' = 25%nat) (fun c n' => <[idx 5 c.1 c.2 := window m c.1 c.2 / 9]> n')
    inner (fun c => conv_single_pixel ones 3 c.1 c.2 m) n Hn) as [Hrun _]; [| exact Hrun].
  intros c n' Hc Hn'. apply elem_of_cells in Hc as [Hx Hy]. rewrite length_insert. split; [by apply conv_ok | done].
Qed.

Lemma blurred_length m n : length n = 25%nat -> length (blurred m n) = 25%nat.
Proof.
  unfold blurred. generalize inner. intros l. revert n. induction l as [| c l IH]; intros n Hn; [done |].
  cbn [fold_left]. apply IH. by rewrite length_insert.
Qed.

Lemma blurred_at m n x y : length n = 25%nat -> 0 <= x < 5 -> 0 <= y < 5 ->
  at_ (blurred m n) x y = if (1 <=? x) && (x <=? 3) && (1 <=? y) && (y <=? 3) then window m x y / 9 else at_ n x y.
Proof.
  intros Hn Hx Hy. do 25 (destruct n as [| ? n]; [done |]). destruct n; [| done].
  assert (x = 0 \/ x = 1 \/ x = 2 \/ x = 3 \/ x = 4) as Hx' by lia. assert (y = 0 \/ y = 1 \/ y = 2 \/ y = 3 \/ y = 4) as Hy' by lia.
  unfold blurred, at_. change inner with [(1, 1); (1, 2); (1, 3); (2, 1); (2, 2); (2, 3); (3, 1); (3, 2); (3, 3)].
  cbn [fold_left fst snd].
  generalize (window m). intros f.
  by destruct Hx' as [-> | [-> | [-> | [-> | ->]]]]; destruct Hy' as [-> | [-> | [-> | [-> | ->]]]].
Qed.

(** ** The curves *)
Lemma length_S {A} (l : list A) n : length l = S n -> exists a l', l = a :: l' /\ length l' = n.
Proof. destruct l as [| a l]; [done |]. intros [= H]. by exists a, l. Qed.
Ltac spell H := lazymatch type of H with
  | length ?l = 0%nat => apply nil_length_inv in H; subst l
  | length ?l = S _ => let a := fresh "a" in let l' := fresh "l" in apply length_S in H as (a & l' & -> & H); spell H
  end.

Definition table_of (o : outcome curve unit) : list Z := match o with Done _ s => color_map s | _ => [] end.
Definition linear_table : list Z := Eval vm_compute in table_of (case3 (replicate 256 0)).
Definition cubic_table : list Z := Eval vm_compute in table_of (case4 (replicate 256 0)).
Definition all_printed (t : list Z) : curve := mk_curve t (zip (seqZ 0 256) t).

Lemma case3_run m : length m = 256%nat -> case3 m = Done tt (all_printed linear_table) /\
  ColorMap.piecewise_linear_single 5 [of_int 0; dec 5 1; dec 4 1; dec 6 1; dec 8 1; dec 5 1] m = Done tt linear_table.
Proof. intros Hm. spell Hm. split; vm_compute; reflexivity. Qed.

Lemma case4_run m : length m = 256%nat -> case4 m = Done tt (all_printed cubic_table) /\
  ColorMap.cubic_curve_single points m = Done tt cubic_table.
Proof. intros Hm. spell Hm. split; vm_compute; reflexivity. Qed.

(** What the first program does for the other values of its variable: for 1 it asks at least
    as often as it is watched, that is, it does not end; for 2 it shows 3. *)
Lemma case1_asks n : forall shown, case1 n shown = shown ++ replicate n (lit "Enter RGB").
Proof.
  induction n as [| n IH]; intros shown; [by rewrite app_nil_r |]. cbn [case1 replicate]. rewrite IH, <- app_assoc. done.
Qed.
Lemma main3_others n m1 m2 : main3 1 n m1 m2 = Asking (replicate n (lit "Enter RGB")) /\ main3 2 n m1 m2 = Number 3.
Proof. split; [| done]. unfold main3. cbn [Z.eqb Pos.eqb]. by rewrite case1_asks. Qed.


(** The test programs find what the programs do.  Both curve tests, whatever their
    arrays held, print every index from 0 to 255 once, in order, with the entry that the
    functions of pr03 store for the same points; and the blur test replaces every inner
    character of every picture of five by five by the mean of the nine around it, rounded
    down, and leaves the border: its own picture of a square of nines comes out with 4 at
    the corners of the square, 6 at its sides and 9 in the middle.*)
Lemma image_tests (m pic new : list Z) : length m = 256%nat -> length pic = 25%nat -> Forall is_byte pic -> length new = 25%nat ->
  (exists t, length t = 256%nat /\ case3 m = Done tt (all_printed t) /\
     ColorMap.piecewise_linear_single 5 [of_int 0; dec 5 1; dec 4 1; dec 6 1; dec 8 1; dec 5 1] m = Done tt t) /\
  (exists t, length t = 256%nat /\ case4 m = Done tt (all_printed t) /\ ColorMap.cubic_curve_single points m = Done tt t) /\
  (exists new', blur pic new = Done tt new' /\ length new' = 25%nat /\
     forall x y, 0 <= x < 5 -> 0 <= y < 5 ->
       at_ new' x y = if (1 <=? x) && (x <=? 3) && (1 <=? y) && (y <=? 3) then window pic x y / 9 else at_ new x y) /\
  exists before after, main = Some (before, after) /\
    after = concat ((fun row => concat ((fun c => [c; 32; 32]) <$> row) ++ [10]) <$>
      [[48; 48; 48; 48; 48]; [48; 52; 54; 52; 48]; [48; 54; 57; 54; 48]; [48; 52; 54; 52; 48]; [48; 48; 48; 48; 48]]).
Proof.
  intros Hm Hpic Hb Hnew. split; [exists linear_table; split; [done | by apply case3_run] |].
  split; [exists cubic_table; split; [done | by apply case4_run] |]. split; [| by do 2 eexists].
  exists (blurred pic new). split; [by apply blur_run |]. split; [apply blurred_length; done |]. intros x y Hx Hy. by apply blurred_at.
Qed.

Lemma image_tests_witness : exists new', blur map map = Done tt new' /\ length new' = 25%nat.
Proof.
  destruct (proj1 (proj2 (proj2 (image_tests (replicate 256 0) map map eq_refl eq_refl ltac:(repeat constructor; done) eq_refl))))
    as (new' & Hrun & Hlen & _).
  exists new'. split; [exact Hrun | exact Hlen].
Defined.

End ImageTests.
