(* ===== verification/Warp.v ===== *)
(** * Geometric transformations: [CSCE646/pr06] and [CSCE646/pr07]

    [transformation] moves every pixel of [pixel_map] to the place a matrix gives it in the
    new array [output_map], which is not initialised, and then fills the pixels of
    [output_map] that are black by looking up the place they came from with [bilinear].
    The two programs share the case of 2 by 2 matrices; pr06 treats 3 by 3 matrices
    around the centre and without the second pass, pr07 around the origin and with it,
    and adds a wave effect.  [sin] and [cos] are parameters.

    The determinants and the inverse matrix of pr07 are written over any type with the
    four operations, to be read both over [double] and over the rational numbers. *)

From S2P Require Import Prelude CMem Double Raster Ppm PpmRead Sweep.
From Stdlib Require Import ZArith QArith Lia SpecFloat.
From stdpp Require Import base list numbers.
From Stdlib Require String.
Import String.StringSyntax.
Import Double Raster Ppm PpmRead Sweep.
Open Scope Z_scope.

(** ** Arithmetic *)
Class Arith (A : Type) := { aadd : A -> A -> A; asub : A -> A -> A; amul : A -> A -> A; adiv : A -> A -> A }.
#[export] Instance arith_double : Arith double := {| aadd := Double.add; asub := Double.sub; amul := Double.mul; adiv := Double.div |}.
#[export] Instance arith_Q : Arith Q := {| aadd := Qplus; asub := Qminus; amul := Qmult; adiv := Qdiv |}.

Declare Scope arith_scope.
Delimit Scope arith_scope with A.
Infix "+" := aadd : arith_scope.
Infix "-" := asub : arith_scope.
Infix "*" := amul : arith_scope.
Infix "/" := adiv : arith_scope.

Module Warp.

(** ** Matrices: the array [mtrx] of nine elements, row by row *)
Record mtrx3 (A : Type) := mk_mtrx3 { a11 : A; a12 : A; a13 : A; a21 : A; a22 : A; a23 : A; a31 : A; a32 : A; a33 : A }.
Arguments mk_mtrx3 {A}. Arguments a11 {A}. Arguments a12 {A}. Arguments a13 {A}. Arguments a21 {A}. Arguments a22 {A}.
Arguments a23 {A}. Arguments a31 {A}. Arguments a32 {A}. Arguments a33 {A}.

Section Matrices.
Context {A : Type} `{Arith A}.

Definition det_2x2 (a b c d : A) : A := (a * d - b * c)%A.
(** The overload on an array, of which it uses the first four elements. *)
Definition det_2x2_array (m : mtrx3 A) : A := (a11 m * a21 m - a12 m * a13 m)%A.

Definition det_3x3 (m : mtrx3 A) : A :=
  (a11 m * (a22 m * a33 m - a23 m * a32 m) - a12 m * (a21 m * a33 m - a23 m * a31 m)
   + a13 m * (a21 m * a32 m - a22 m * a31 m))%A.

Definition inv_mtrx_3x3 (m : mtrx3 A) : mtrx3 A :=
  let det := det_3x3 m in
  mk_mtrx3 (det_2x2 (a22 m) (a23 m) (a32 m) (a33 m) / det)%A
           (det_2x2 (a13 m) (a12 m) (a33 m) (a32 m) / det)%A
           (det_2x2 (a12 m) (a13 m) (a22 m) (a23 m) / det)%A
           (det_2x2 (a23 m) (a21 m) (a33 m) (a31 m) / det)%A
           (det_2x2 (a11 m) (a13 m) (a31 m) (a33 m) / det)%A
           (det_2x2 (a13 m) (a11 m) (a23 m) (a21 m) / det)%A
           (det_2x2 (a21 m) (a22 m) (a31 m) (a32 m) / det)%A
           (det_2x2 (a12 m) (a11 m) (a32 m) (a31 m) / det)%A
           (det_2x2 (a11 m) (a12 m) (a21 m) (a22 m) / det)%A.
End Matrices.

(** ** [getpixel] and [bilinear] *)
Definition XY : Type := double * double.

Definition to_i (x : double) : P Z := expect IntOverflow (to_int x).

Definition getpixel (point : XY) : P RGB :=
  let* p := this in
  let* y := to_i point.2 in
  let* x := to_i point.1 in
  let* yw := int_of (y * width p) in
  let* index := int_of (yw + x) in
  if (0 <=? index) && (index <=? width p * height p) then pixel index
  else exit (-1).

(** The four places around the point and the interpolation in both directions. *)
Definition blend (x y x1 x2 y1 y2 : double) (q11 q21 q12 q22 : Z) : P Z :=
  expect IntOverflow (to_uchar
    ((y2 - y) / (y2 - y1) * (of_int q11 * (x2 - x) / (x2 - x1) + of_int q21 * (x - x1) / (x2 - x1))
     + (y - y1) / (y2 - y1) * (of_int q12 * (x2 - x) / (x2 - x1) + of_int q22 * (x - x1) / (x2 - x1)) + half)%D).
Definition blend_y (y y1 y2 : double) (q11 q12 : Z) : P Z :=
  expect IntOverflow (to_uchar ((y2 - y) / (y2 - y1) * of_int q11 + (y - y1) / (y2 - y1) * of_int q12 + half)%D).
Definition blend_x (x x1 x2 : double) (q11 q21 : Z) : P Z :=
  expect IntOverflow (to_uchar (of_int q11 * (x2 - x) / (x2 - x1) + of_int q21 * (x - x1) / (x2 - x1) + half)%D).

Definition each (f : (RGB -> Z) -> P Z) : P RGB :=
  let* r := f red in
  let* g := f green in
  let* b := f blue in
  ret (mk_RGB r g b).

(** Only the first case returns its result. *)
Definition bilinear (point : XY) : P RGB :=
  let* p := this in
  let x := point.1 in
  let y := point.2 in
  let x1 := floor x in
  let x2 := (x1 + of_int 1)%D in
  let y1 := floor y in
  let y2 := (y1 + of_int 1)%D in
  if ((x2 <? of_int (width p)) && (y2 <? of_int (height p)))%D then
    let* q11 := getpixel (x1, y1) in
    let* q21 := getpixel (x2, y1) in
    let* q12 := getpixel (x1, y2) in
    let* q22 := getpixel (x2, y2) in
    each (fun ch => blend x y x1 x2 y1 y2 (ch q11) (ch q21) (ch q12) (ch q22))
  else if ((x2 =? of_int (width p)) && (y2 <? of_int (height p)))%D then
    let* q11 := getpixel (x1, y1) in
    let* q12 := getpixel (x1, y2) in
    let* xy := each (fun ch => blend_y y y1 y2 (ch q11) (ch q12)) in
    undef MissingReturn
  else if ((x2 <? of_int (width p)) && (y2 =? of_int (width p)))%D then
    let* q11 := getpixel (x1, y1) in
    let* q21 := getpixel (x2, y1) in
    let* xy := each (fun ch => blend_x x x1 x2 (ch q11) (ch q21)) in
    undef MissingReturn
  else
    let* xy := expect OutOfBounds (fetch (output_map p) (width p * width p - 1)) in
    undef MissingReturn.

(** ** The passes *)
Definition set_output (index : Z) (v : RGB) : P unit := fun p =>
  if inside (output_map p) index then Done tt (set_output_map (<[Z.to_nat index := v]> (output_map p)) p) else Undef OutOfBounds p.

Definition is_black (c : RGB) : bool := (red c =? 0) && (green c =? 0) && (blue c =? 0).

(** The loops over the columns and, inside, the rows. *)
Definition columns (body : Z -> Z -> P unit) : P unit := fun p =>
  for_up 0 (width p) (fun i => for_up 0 (height p) (fun j => body i j)) p.

Definition image_point (a b c d : double) (p : myppm) (i j : Z) : XY :=
  let dx := (of_int i - (center p).1)%D in
  let dy := (of_int j - (center p).2)%D in
  ((a * dx + b * dy + (center p).1)%D, (c * dx + d * dy + (center p).2)%D).

(** Moving the pixel of column [i], row [j] to the place [place i j]. *)
Definition forward (place : myppm -> Z -> Z -> XY) (i j : Z) : P unit :=
  let* p := this in
  let index := j * width p + i in
  let '(x, y) := place p i j in
  if ((x >=? of_int 0) && (x <? of_int (width p)) && (y >=? of_int 0) && (y <? of_int (height p)))%D then
    let* yi := to_i y in
    let* xi := to_i x in
    let* yw := int_of (yi * width p) in
    let* new_index := int_of (yw + xi) in
    if (new_index <? size p) && (0 <=? new_index) then
      let* c := pixel index in
      set_output new_index c
    else ret tt
  else ret tt.

(** Filling a black pixel from the place [origin i j] it came from. *)
Definition backward (origin : myppm -> Z -> Z -> XY) (check : bool) (i j : Z) : P unit :=
  let* p := this in
  let index := j * width p + i in
  let* c := expect OutOfBounds (fetch (output_map p) index) in
  if is_black c then
    let '(x_origin, y_origin) := origin p i j in
    if ((x_origin >=? of_int 0) && (y_origin >=? of_int 0) && (x_origin <=? of_int (width p)) && (y_origin <=? of_int (height p)))%D then
      let fill := let* v := bilinear (x_origin, y_origin) in set_output index v in
      if check then
        let* yi := to_i y_origin in
        let* xi := to_i x_origin in
        let* yw := int_of (yi * width p) in
        let* index_origin := int_of (yw + xi) in
        if (0 <=? index_origin) && (index_origin <? size p) then fill else ret tt
      else fill
    else ret tt
  else ret tt.

(** *** 2 by 2 matrices, in both programs *)
Definition origin_point (a b c d : double) (p : myppm) (i j : Z) : XY :=
  let det := (a * d - b * c)%D in
  let dx := (of_int i - (center p).1)%D in
  let dy := (of_int j - (center p).2)%D in
  (((d * dx - b * dy) / det + (center p).1)%D, ((- c * dx + a * dy) / det + (center p).2)%D).

Definition transform2 (a b c d : double) : P unit :=
  columns (forward (image_point a b c d)) ;;;
  columns (backward (origin_point a b c d) true).

(** *** 3 by 3 matrices: one pixel of the first pass *)
Definition forward3 (place : myppm -> Z -> Z -> XY) (i j : Z) : P unit :=
  let* p := this in
  let index := j * width p + i in
  let '(x, y) := place p i j in
  let* yi := to_i y in
  let* xi := to_i x in
  let* yw := int_of (yi * width p) in
  let* new_index := int_of (yw + xi) in
  if (new_index <? width p * height p) && ((x >? of_int 0) && (y >? of_int 0) && (y <? of_int (height p)) && (x <? of_int (width p)))%D then
    let* c := pixel index in
    set_output new_index c
  else ret tt.

Definition project (x y z : double) : XY := ((x / z)%D, (y / z)%D).

(** pr06: around the centre. *)
Definition place3_center (m : mtrx3 double) (p : myppm) (i j : Z) : XY :=
  let dx := (of_int i - (center p).1)%D in
  let dy := (of_int j - (center p).2)%D in
  project (a11 m * dx + a12 m * dy + a13 m + (center p).1)%D (a21 m * dx + a22 m * dy + a23 m + (center p).2)%D
          (a31 m * dx + a32 m * dy + a33 m)%D.
(** pr07: around the origin. *)
Definition place3 (m : mtrx3 double) (p : myppm) (i j : Z) : XY :=
  project (a11 m * of_int i + a12 m * of_int j + a13 m)%D (a21 m * of_int i + a22 m * of_int j + a23 m)%D
          (a31 m * of_int i + a32 m * of_int j + a33 m)%D.

Definition new_output (e : env) : P unit :=
  let* p := this in
  let* n := int_of (width p * height p) in
  if n <? 0 then undef Uncaught else modify (set_output_map (new_array (junk e 2) n)).

(** ** [transformation] of pr06 *)
Definition transformation (e : env) (mtrx : mtrx3 double) (dimension : Z) (point : XY) : P unit :=
  if negb (dimension =? 2) && negb (dimension =? 3) then exit (-1)
  else
    modify (set_translation point) ;;;
    new_output e ;;;
    (if dimension =? 2 then transform2 (a11 mtrx) (a12 mtrx) (a13 mtrx) (a21 mtrx) else ret tt) ;;;
    (if dimension =? 3 then columns (forward3 (place3_center mtrx)) else ret tt).

(** ** [transformation] of pr07 *)
Section Wave.
Variable sin : double -> double.

Definition wave_place (p : myppm) (i j : Z) : P XY :=
  let* yi := to_i (of_int 5 * sin (of_int i) + dec 11 1 * of_int j)%D in
  ret ((dec 11 1 * of_int i)%D, of_int yi).
Definition wave_forward (i j : Z) : P unit :=
  let* p := this in
  let* xy := wave_place p i j in
  forward (fun _ _ _ => xy) i j.

Definition wave_backward (i j : Z) : P unit :=
  let* p := this in
  let* c := expect OutOfBounds (fetch (output_map p) (j * width p + i)) in
  if is_black c then
    let x_origin := (of_int i / dec 11 1)%D in
    let* yi := to_i ((of_int j - of_int 5 * sin x_origin) / dec 11 1)%D in
    backward (fun _ _ _ => (x_origin, of_int yi)) false i j
  else ret tt.

(** The case of dimension 3. *)
Definition transform3 (mtrx : mtrx3 double) : P unit :=
  columns (forward3 (place3 mtrx)) ;;;
  columns (backward (place3 (inv_mtrx_3x3 mtrx)) true).

Definition transformation7 (e : env) (mtrx : mtrx3 double) (dimension : Z) (point : XY) (argv : list Z) : P unit :=
  if negb (dimension =? 2) && negb (dimension =? 3) && negb (dimension =? 0) then exit (-1)
  else
    modify (set_translation point) ;;;
    new_output e ;;;
    if dimension =? 0 then columns wave_forward ;;; columns wave_backward
    else if dimension =? 2 then transform2 (a11 mtrx) (a12 mtrx) (a13 mtrx) (a21 mtrx)
    else if ((dimension =? 3) && negb (bool_decide (argv = lit "s"))) || negb (bool_decide (argv = lit "special")) then
      transform3 mtrx
    else ret tt.
End Wave.

(** ** The commands *)
Section Commands.
Variables sin cos : double -> double.
(** The array [mtrx] before it is assigned. *)
Variable mtrx : mtrx3 double.

Definition first4 (a b c d : double) : mtrx3 double :=
  mk_mtrx3 a b c d (a22 mtrx) (a23 mtrx) (a31 mtrx) (a32 mtrx) (a33 mtrx).
Definition at_int (x y : Z) : XY := (of_int x, of_int y).

(** A command sets the matrix, the dimension and the point; [None]: [dem] is never assigned. *)
Definition setting : Type := mtrx3 double * Z * XY.

Definition rotation : setting :=
  let theta := (dec 31415926 7 / of_int 12)%D in
  (first4 (cos theta) (- sin theta)%D (sin theta) (cos theta), 2, at_int 0 0).
Definition shear : setting := (first4 (dec 7 1) (dec 1 1) (dec 1 1) (dec 7 1), 2, at_int 255 170).
Definition mirror : setting := (first4 (of_int 1) (of_int 0) (of_int 0) (of_int (-1)), 2, at_int 255 170).
Definition shift (dx dy : Z) : setting :=
  (mk_mtrx3 (of_int 1) (of_int 0) (of_int dx) (of_int 0) (of_int 1) (of_int dy) (of_int 0) (of_int 0) (of_int 1), 3, at_int dx dy).
Definition perspective : setting :=
  (mk_mtrx3 (of_int 1) (of_int 0) (of_int 5) (of_int 1) (of_int 10) (of_int 5) (dec 1 2) (dec 1 2) (of_int 1), 3, at_int 0 0).

(** pr06 *)
Definition command6 (name : list Z) : option setting :=
  if bool_decide (name = lit "rotation") then Some rotation
  else if bool_decide (name = lit "scaling") then Some (first4 (dec 13 1) (of_int 0) (of_int 0) (dec 13 1), 2, at_int 0 0)
  else if bool_decide (name = lit "shear") then Some shear
  else if bool_decide (name = lit "mirror") then Some mirror
  else if bool_decide (name = lit "translation") then Some (shift 100 100)
  else if bool_decide (name = lit "perspective") then Some perspective
  else None.

Definition main6 (e : env) (files : list Z -> option (list Z)) (args : list (list Z)) : outcome myppm unit :=
  match args with
  | [] => Exited (-1) zeroed
  | [_] => Undef NullPointer zeroed
  | name :: file :: _ =>
      match Ppm.ppm_init_center e (files file) zeroed with
      | Done _ p =>
          match command6 name with
          | Some (m, dem, point) => transformation e m dem point p
          | None => Undef Uninitialised p
          end
      | o => o
      end
  end.

(** pr07 *)
Definition either (name : list Z) (a b : list Z) : bool := bool_decide (name = a) || bool_decide (name = b).
Definition command7 (name : list Z) : option setting :=
  if either name (lit "rotation") (lit "r") then Some rotation
  else if bool_decide (name = lit "scaling") then Some (first4 (of_int 2) (of_int 0) (of_int 0) (of_int 2), 2, at_int 0 0)
  else if bool_decide (name = lit "shear") then Some shear
  else if either name (lit "mirror") (lit "m") then Some mirror
  else if either name (lit "translation") (lit "t") then Some (shift (-225) (-170))
  else if either name (lit "perspective") (lit "p") then
    Some (mk_mtrx3 (dec 1255 3) (dec 255 3) (dec (-108375) 3) (dec 17 2) (dec 117 2) (dec (-7225) 2) (dec 1 3) (dec 1 3) (dec 575 3), 3, at_int 0 0)
  else if either name (lit "bilinear") (lit "b") then
    Some (mk_mtrx3 (dec 526549 6) (dec (-156458) 6) (dec 187085 3) (dec 26632 5) (dec 44932 5) (dec 3264 2) (dec 5 4) (dec 5 4) (of_int 1), 3, at_int 0 0)
  else if either name (lit "special") (lit "s") then
    Some (mk_mtrx3 (of_int 1) (of_int 0) (of_int 0) (of_int 0) (of_int 1) (of_int 0) (of_int 0) (of_int 0) (of_int 1), 0, at_int 0 0)
  else None.

Definition main7 (e : env) (files : list Z -> option (list Z)) (args : list (list Z)) : outcome myppm unit :=
  match args with
  | [] => Exited (-1) zeroed
  | [_] => Undef NullPointer zeroed
  | name :: file :: _ =>
      match Ppm.ppm_init_center e (files file) zeroed with
      | Done _ p =>
          match command7 name with
          | Some (m, dem, point) => transformation7 sin e m dem point name p
          | None => Undef Uninitialised p
          end
      | o => o
      end
  end.
End Commands.

(** The copies of the reader in the two programs. *)
Definition ppm_init6 := Ppm.ppm_init_center.
Definition clean_up6 := Ppm.clean_up.
Definition ppm_init7 := Ppm.ppm_init_center.
Definition clean_up7 := Ppm.clean_up.
Definition getpixel7 := getpixel.
Definition bilinear7 := bilinear.
Definition transform2_7 := transform2.

End Warp.
