(* ===== verification/Shapes.v ===== *)
(** * The shape of a picture

    A window shows [width * height] pixels of an array, whatever the array holds: that nothing
    behind the array is read rests on all operations of the image programs keeping the
    fields [width] and [height] and the lengths of the arrays as they were allocated.  This file gives a
    judgement for statements that keep a preorder on states, rules for each kind of
    statement, the judgement of every operation of pr03 to pr07, and the shape of
    the picture each [main] leaves for its window. *)

From S2P Require Import Prelude CMem Double Raster Ppm PpmRead Sweep Filter HueFilter ColorMap Warp.
From Stdlib Require Import ZArith Lia SpecFloat.
From stdpp Require Import base list numbers.
From Stdlib Require String.
Import String.StringSyntax.
Import Double Raster Ppm Sweep.
Open Scope Z_scope.

Module Shapes.

(** ** The judgement

    [kept R m]: however the statement [m] ends, its last state is related to its first. *)
Definition kept {S A} (R : relation S) (m : M S A) : Prop := forall s, R s (final (m s)).

Create HintDb shapes.

Section Rules.
Context {S : Type} (R : relation S) `{!PreOrder R}.

Lemma kept_ret {A} (a : A) : kept R (ret a).
Proof. by intros s. Qed.
Lemma kept_undef {A} w : kept R (undef w : M S A).
Proof. by intros s. Qed.
Lemma kept_exit {A} c : kept R (exit c : M S A).
Proof. by intros s. Qed.
Lemma kept_expect {A} w (o : option A) : kept R (expect w o).
Proof. by destruct o; intros s. Qed.

Lemma kept_bind {A B} (m : M S A) (k : A -> M S B) : kept R m -> (forall a, kept R (k a)) -> kept R (bind m k).
Proof.
  intros Hm Hk s. specialize (Hm s). unfold bind. destruct (m s) as [a s' | |]; [| done | done].
  transitivity s'; [done | apply Hk].
Qed.

Lemma kept_for_each {A} (l : list A) (body : A -> M S unit) : (forall a, kept R (body a)) -> kept R (for_each l body).
Proof. intros Hb. induction l as [| a l IH]; [apply kept_ret |]. cbn [for_each]. by apply kept_bind. Qed.

Lemma kept_fold_each {A B} (l : list A) (acc : B) (body : B -> A -> M S B) :
  (forall b a, kept R (body b a)) -> kept R (fold_each l acc body).
Proof. intros Hb. revert acc. induction l as [| a l IH]; intros acc; [apply kept_ret |]. cbn [fold_each]. by apply kept_bind. Qed.
End Rules.

(** Taking a statement apart. *)
Ltac shapes_step :=
  match goal with
  | |- kept _ (ret _) => apply kept_ret; exact _
  | |- kept _ (undef _) => apply kept_undef; exact _
  | |- kept _ (exit _) => apply kept_exit; exact _
  | |- kept _ (expect _ _) => apply kept_expect; exact _
  | |- kept _ (for_each _ _) => apply kept_for_each; [exact _ | intros ?]
  | |- kept _ (for_up _ _ _) => apply kept_for_each; [exact _ | intros ?]
  | |- kept _ (for_down _ _) => apply kept_for_each; [exact _ | intros ?]
  | |- kept _ (fold_up _ _ _ _) => apply kept_fold_each; [exact _ | intros ? ?]
  | |- kept _ (bind _ _) => apply kept_bind; [exact _ | | intros ?]
  | |- kept _ (if ?b then _ else _) => destruct b
  | |- kept _ (let '(_, _) := ?p in _) => destruct p
  | |- kept _ (match ?o with _ => _ end) => destruct o
  | |- kept _ _ => solve [eauto with shapes]
  end.
Ltac shapes := repeat shapes_step.

(** ** Shapes *)
Definition shape (p q : myppm) : Prop :=
  width q = width p /\ height q = height p /\ length (pixel_map q) = length (pixel_map p) /\
  length (new_map q) = length (new_map p) /\ length (output_map q) = length (output_map p).
#[export] Instance shape_preorder : PreOrder shape.
Proof. split; [by intros p | intros p q r (? & ? & ? & ? & ?) (? & ? & ? & ? & ?); repeat split; congruence]. Qed.

(** The shape of the object a reader fills, whatever it does to the stream. *)
Definition read_shape (s t : istream * myppm) : Prop := shape s.2 t.2.
#[export] Instance read_shape_preorder : PreOrder read_shape.
Proof. split; [by intros s | intros r s t; unfold read_shape; apply transitivity]. Qed.

(** [p] has a picture: [map p] has an element for each pixel. *)
Definition filled (map : myppm -> list RGB) (p : myppm) : Prop :=
  0 <= width p * height p /\ length (map p) = Z.to_nat (width p * height p).

Lemma filled_pixel p q : shape p q -> filled pixel_map p -> filled pixel_map q.
Proof. intros (Hw & Hh & Hp & _) [Hn Hl]. unfold filled in *. by rewrite Hw, Hh, Hp. Qed.
Lemma filled_new p q : shape p q -> filled new_map p -> filled new_map q.
Proof. intros (Hw & Hh & _ & Hp & _) [Hn Hl]. unfold filled in *. by rewrite Hw, Hh, Hp. Qed.
Lemma filled_output p q : shape p q -> filled output_map p -> filled output_map q.
Proof. intros (Hw & Hh & _ & _ & Hp) [Hn Hl]. unfold filled in *. by rewrite Hw, Hh, Hp. Qed.

(** ** The readers *)
Lemma kept_get_stream : kept read_shape get_stream.
Proof. by intros s. Qed.
Lemma kept_set_stream f : kept read_shape (set_stream f).
Proof. by intros [s p]. Qed.
Lemma kept_get_ppm : kept read_shape get_ppm.
Proof. by intros s. Qed.
#[export] Hint Resolve kept_get_stream kept_set_stream kept_get_ppm : shapes.

Lemma kept_getline line : kept read_shape (getline line).
Proof. unfold getline. shapes. Qed.
Lemma kept_peek : kept read_shape peek.
Proof. unfold peek. shapes. Qed.
Lemma kept_read3 old : kept read_shape (read3 old).
Proof. unfold read3. shapes. Qed.
#[export] Hint Resolve kept_getline kept_peek kept_read3 : shapes.

Lemma kept_clean_up : kept read_shape clean_up.
Proof.
  unfold clean_up. apply kept_bind; [exact _ | shapes |]. intros f. generalize ([] : list Z). generalize (S (length (rest f))).
  intros n. induction n as [| n IH]; intros d; cbn [clean_up_loop]; shapes.
Qed.
#[export] Hint Resolve kept_clean_up : shapes.

Lemma kept_read_pixels e put : (forall index colors, kept read_shape (put index colors)) -> kept read_shape (read_pixels e put).
Proof. intros Hput. unfold read_pixels, read_colors. shapes. Qed.

Lemma kept_store_pixel index v : kept read_shape (store pixel_map set_pixel_map index v).
Proof. intros [s p]. unfold store. destruct (inside _ _); [| done]. repeat split. apply length_insert. Qed.
Lemma kept_store_new index v : kept read_shape (store new_map set_new_map index v).
Proof. intros [s p]. unfold store. destruct (inside _ _); [| done]. repeat split. apply length_insert. Qed.
#[export] Hint Resolve kept_store_pixel kept_store_new : shapes.

(** A reader that gets the size of the array, allocates it and then keeps the shape. *)
Lemma array_size_done s n s' : array_size s = Done n s' -> s' = s /\ 0 <= n /\ n = width s.2 * height s.2.
Proof.
  unfold array_size, get_ppm, bind. destruct (_ || _); [done |]. destruct (_ <? 0) eqn:Hn; [done |]. intros [= <- <-]. apply Z.ltb_ge in Hn. done.
Qed.

Lemma bind_inv {S A B} (m : M S A) (k : A -> M S B) s b s' : (bind m k) s = Done b s' -> exists a s1, m s = Done a s1 /\ k a s1 = Done b s'.
Proof. unfold bind. destruct (m s) as [a s1 | |]; [| done | done]. intros H. by exists a, s1. Qed.

Lemma kept_done {S A} (R : relation S) (m : M S A) s a s' : kept R m -> m s = Done a s' -> R s s'.
Proof. intros Hm H. specialize (Hm s). by rewrite H in Hm. Qed.

Lemma run_init_done body file p q : run_init body file p = Done tt q -> exists s t, body s = Done tt t /\ t.2 = q.
Proof.
  unfold run_init. set (f := match file with Some _ => _ | None => _ end).
  destruct (body (f, p)) as [[] t | |] eqn:Hb; [| done | done]. intros [= <-]. by exists (f, p), t.
Qed.

Lemma reader_shape (alloc rest_ : Z -> R unit) file p q (P : myppm -> Prop) :
  run_init (read_header ;;; let* n := array_size in alloc n ;;; rest_ n) file p = Done tt q ->
  (forall n, kept read_shape (rest_ n)) ->
  (forall s n t, 0 <= n -> n = width s.2 * height s.2 -> alloc n s = Done tt t -> P t.2) ->
  (forall p q, shape p q -> P p -> P q) -> P q.
Proof.
  intros Hrun Hrest Halloc HP. apply run_init_done in Hrun as (s & t & Hrun & <-).
  apply bind_inv in Hrun as ([] & s1 & _ & Hrun). apply bind_inv in Hrun as (n & s2 & Hn & Hrun).
  apply array_size_done in Hn as (-> & Hn0 & Hn). apply bind_inv in Hrun as ([] & s3 & Ha & Hrun).
  apply (HP s3.2); [exact (kept_done _ _ _ _ _ (Hrest n) Hrun) | exact (Halloc s1 n s3 Hn0 Hn Ha)].
Qed.

Lemma ppm_init_filled e file p q : ppm_init e file p = Done tt q -> filled pixel_map q.
Proof.
  intros H. apply (reader_shape (fun n => update (set_pixel_map (new_array (junk e 0) n)))
    (fun _ => clean_up ;;; read_pixels e (fun index colors => store pixel_map set_pixel_map index (pixel_of colors))) file p q); [exact H | | | exact filled_pixel].
  - intros n. shapes. apply kept_read_pixels. intros. shapes.
  - intros s n t Hn Heq [= <-]. unfold filled. cbn. rewrite <- Heq. by rewrite PpmRead.length_new_array.
Qed.

Lemma ppm_init2_filled e file p q : ppm_init2 e file p = Done tt q -> filled new_map q.
Proof.
  intros H. apply (reader_shape (fun n => update (set_pixel_map (new_array (junk e 0) n)) ;;; update (set_new_map (new_array (junk e 1) n)))
    (fun _ => clean_up ;;; read_pixels e (fun index colors => store pixel_map set_pixel_map index (pixel_of colors) ;;;
      store new_map set_new_map index (pixel_of colors))) file p q); [exact H | | | exact filled_new].
  - intros n. shapes. apply kept_read_pixels. intros. shapes.
  - intros s n t Hn Heq [= <-]. unfold filled. cbn. rewrite <- Heq. by rewrite PpmRead.length_new_array.
Qed.

(** ** The filters *)
Lemma kept_this : kept shape this.
Proof. by intros p. Qed.
#[export] Hint Resolve kept_this : shapes.
Lemma kept_pixel index : kept shape (pixel index).
Proof. unfold pixel. shapes. Qed.
Lemma kept_int_of z : kept shape (int_of z).
Proof. unfold int_of. shapes. Qed.
Lemma kept_modify_bias b : kept shape (modify (set_bias b)).
Proof. by intros p. Qed.
Lemma kept_modify_translation t : kept shape (modify (set_translation t)).
Proof. by intros p. Qed.
Lemma kept_set_new index v : kept shape (set_new index v).
Proof. intros p. unfold set_new. destruct (inside _ _); [| done]. repeat split. apply length_insert. Qed.
Lemma kept_set_output index v : kept shape (Warp.set_output index v).
Proof. intros p. unfold Warp.set_output. destruct (inside _ _); [| done]. repeat split. apply length_insert. Qed.
#[export] Hint Resolve kept_pixel kept_int_of kept_modify_bias kept_modify_translation kept_set_new kept_set_output : shapes.

Lemma kept_conv_blur kernel n factor b : kept shape (Filter.conv_blur kernel n factor b).
Proof. unfold Filter.conv_blur, Filter.conv_single_pixel, Filter.accumulate. shapes. Qed.
Lemma kept_dilation n : kept shape (Filter.dilation n).
Proof. unfold Filter.dilation, Filter.morphological_single_pixel, Filter.lower. shapes. Qed.
Lemma kept_conv_blur5 n factor b hues : kept shape (HueFilter.conv_blur n factor b hues).
Proof. unfold HueFilter.conv_blur, HueFilter.conv_single_pixel, HueFilter.accumulate. shapes. Qed.
Lemma kept_dilation5 n hues : kept shape (HueFilter.dilation n hues).
Proof. unfold HueFilter.dilation, HueFilter.morphological_single_pixel, HueFilter.lower. shapes. Qed.
#[export] Hint Resolve kept_conv_blur kept_dilation kept_conv_blur5 kept_dilation5 : shapes.

Lemma kept_command4 name : kept shape (Filter.command name).
Proof. unfold Filter.command. shapes. Qed.
Lemma kept_command5 name hues : kept shape (HueFilter.command name hues).
Proof. unfold HueFilter.command. shapes. Qed.

(** ** The colours *)
Lemma kept_change f i : kept shape (ColorMap.change f i).
Proof.
  intros p. unfold ColorMap.change. destruct (fetch _ _) as [c |]; [| done]. destruct (f c) as [c' |]; [| done].
  repeat split. apply length_insert.
Qed.
#[export] Hint Resolve kept_change : shapes.

Lemma kept_color_manipulation maps : kept shape (ColorMap.color_manipulation maps).
Proof. intros p. unfold ColorMap.color_manipulation. apply (kept_for_each shape). intros y. shapes. Qed.
Lemma kept_change_hue control : kept shape (ColorMap.change_hue control).
Proof. unfold ColorMap.change_hue, ColorMap.recolor, ColorMap.HSVtoRGB. shapes. Qed.
Lemma kept_with_maps m : kept shape (ColorMap.with_maps m).
Proof. intros p. unfold ColorMap.with_maps. destruct (m _); [apply kept_color_manipulation | done | done]. Qed.

(** ** The transformations *)
Lemma kept_to_i x : kept shape (Warp.to_i x).
Proof. unfold Warp.to_i. shapes. Qed.
#[export] Hint Resolve kept_to_i : shapes.
Lemma kept_getpixel point : kept shape (Warp.getpixel point).
Proof. unfold Warp.getpixel. shapes. Qed.
#[export] Hint Resolve kept_getpixel : shapes.
Lemma kept_bilinear point : kept shape (Warp.bilinear point).
Proof. unfold Warp.bilinear, Warp.each, Warp.blend, Warp.blend_x, Warp.blend_y. cbv zeta. shapes. Qed.
#[export] Hint Resolve kept_bilinear : shapes.

Lemma kept_columns body : (forall i j, kept shape (body i j)) -> kept shape (Warp.columns body).
Proof. intros Hb p. unfold Warp.columns. apply (kept_for_each shape). intros i. shapes. Qed.
Lemma kept_forward place i j : kept shape (Warp.forward place i j).
Proof. unfold Warp.forward. shapes. Qed.
Lemma kept_backward origin check i j : kept shape (Warp.backward origin check i j).
Proof. unfold Warp.backward. cbv zeta. shapes. Qed.
Lemma kept_forward3 place i j : kept shape (Warp.forward3 place i j).
Proof. unfold Warp.forward3. shapes. Qed.
#[export] Hint Resolve kept_columns kept_forward kept_backward kept_forward3 : shapes.

Lemma kept_wave_forward sin i j : kept shape (Warp.wave_forward sin i j).
Proof. unfold Warp.wave_forward, Warp.wave_place. shapes. Qed.
Lemma kept_wave_backward sin i j : kept shape (Warp.wave_backward sin i j).
Proof. unfold Warp.wave_backward, Warp.wave_place. shapes. Qed.
#[export] Hint Resolve kept_wave_forward kept_wave_backward : shapes.

Lemma kept_transform2 a b c d : kept shape (Warp.transform2 a b c d).
Proof. unfold Warp.transform2. shapes. Qed.
Lemma kept_transform3 m : kept shape (Warp.transform3 m).
Proof. unfold Warp.transform3. shapes. Qed.
#[export] Hint Resolve kept_transform2 kept_transform3 : shapes.

(** What follows the allocation of [output_map] keeps it. *)
Lemma new_output_filled e p q : Warp.new_output e p = Done tt q -> filled output_map q.
Proof.
  intros H. unfold Warp.new_output in H. apply bind_inv in H as (p1 & s1 & [= -> <-] & H). apply bind_inv in H as (n & s2 & Hn & H).
  unfold int_of in Hn. destruct (_ && _); [| done]. injection Hn as <- <-.
  destruct (_ <? 0) eqn:H0; [done |]. apply Z.ltb_ge in H0. injection H as <-. split; [exact H0 |]. apply PpmRead.length_new_array.
Qed.

Lemma output_then {A} e (first : M myppm unit) (k : M myppm A) p a q :
  kept shape k -> (first ;;; Warp.new_output e ;;; k) p = Done a q -> filled output_map q.
Proof.
  intros Hk H. apply bind_inv in H as ([] & s1 & _ & H). apply bind_inv in H as ([] & s2 & Ho & H).
  apply (filled_output s2); [exact (kept_done _ _ _ _ _ Hk H) | exact (new_output_filled _ _ _ Ho)].
Qed.

Lemma transformation_filled e m n point p q : Warp.transformation e m n point p = Done tt q -> filled output_map q.
Proof. unfold Warp.transformation. destruct (_ && _); [done |]. apply output_then. shapes. Qed.
Lemma transformation7_filled sin e m n point name p q : Warp.transformation7 sin e m n point name p = Done tt q -> filled output_map q.
Proof. unfold Warp.transformation7. destruct (_ && _); [done |]. apply output_then. shapes. Qed.

(** ** The programs *)
Lemma pr03_filled e e' p0 files args q : ColorMap.main e e' p0 files args = Done tt q -> filled pixel_map q.
Proof.
  assert (Hmaps : forall file m, match ColorMap.ppm_init e file zeroed with Done _ p => ColorMap.with_maps m p | o => o end = Done tt q -> filled pixel_map q).
  { intros file m. destruct (ColorMap.ppm_init e file zeroed) as [[] p | |] eqn:Hp; [| done | done]. intros H.
    apply (filled_pixel p); [exact (kept_done _ _ _ _ _ (kept_with_maps m) H) | exact (ppm_init_filled _ _ _ _ Hp)]. }
  unfold ColorMap.main. destruct args as [| name [| file more]]; [done | done |].
  do 2 (case_bool_decide; [apply Hmaps |]). case_bool_decide; [| by intros [= <-]].
  destruct (ColorMap.ppm_init e' (files file) p0); [| done | done]. destruct more as [| output more]; [done |].
  destruct (ColorMap.ppm_init e (files output) zeroed) as [[] p | |] eqn:Hp; [| done | done]. intros Hd.
  apply (filled_pixel p); [exact (kept_done _ _ _ _ _ (kept_change_hue _) Hd) | exact (ppm_init_filled _ _ _ _ Hp)].
Qed.

Lemma pr04_filled e files args q : Filter.main e files args = Done tt q -> filled new_map q.
Proof.
  unfold Filter.main. destruct args as [| name [| file more]]; [done | done |].
  destruct (Filter.ppm_init e (files file) zeroed) as [[] p | |] eqn:Hp; [| done | done]. intros H.
  apply (filled_new p); [exact (kept_done _ _ _ _ _ (kept_command4 name) H) | exact (ppm_init2_filled _ _ _ _ Hp)].
Qed.

Lemma pr05_filled e e' files args q : HueFilter.main e e' files args = Done tt q -> filled new_map q.
Proof.
  unfold HueFilter.main. destruct args as [| name [| file more]]; [done | done |].
  destruct (HueFilter.ppm_init e (files file) zeroed) as [[] p | |] eqn:Hp; [| done | done]. destruct more as [| control more]; [done |].
  destruct (HueFilter.ppm_init_hsv e' _ _) as [[] c | |]; [| done | done]. intros H.
  apply (filled_new p); [exact (kept_done _ _ _ _ _ (kept_command5 name _) H) | exact (ppm_init2_filled _ _ _ _ Hp)].
Qed.

Lemma pr06_filled sin cos mtrx e files args q : Warp.main6 sin cos mtrx e files args = Done tt q -> filled output_map q.
Proof.
  unfold Warp.main6. destruct args as [| name [| file more]]; [done | done |].
  destruct (Ppm.ppm_init_center e (files file) zeroed) as [[] p | |]; [| done | done].
  destruct (Warp.command6 sin cos mtrx name) as [[[m n] point] |]; [apply transformation_filled | done].
Qed.

Lemma pr07_filled sin cos mtrx e files args q : Warp.main7 sin cos mtrx e files args = Done tt q -> filled output_map q.
Proof.
  unfold Warp.main7. destruct args as [| name [| file more]]; [done | done |].
  destruct (Ppm.ppm_init_center e (files file) zeroed) as [[] p | |]; [| done | done].
  destruct (Warp.command7 sin cos mtrx name) as [[[m n] point] |]; [apply transformation7_filled | done].
Qed.

End Shapes.
