(* ===== verification/Show.v ===== *)
(** * From the command line to the window

    What the programs of CSCE646 show: [main] of each program prepares a picture and opens
    a window for it ([Window.v]); the shapes of the pictures ([Shapes.v]) make sure that OpenGL reads
    exactly the array, and the reader ([PpmRead.v]) that the picture of a file is upright. *)

From S2P Require Import Prelude CMem Double Raster Ppm PpmRead Polygon Window Gradient Filter HueFilter ColorMap ImageTests Warp Shapes.
From Stdlib Require Import ZArith QArith Lia SpecFloat.
From stdpp Require Import base list numbers.
From Stdlib Require String.
Import String.StringSyntax.
Import Double Raster Ppm PpmRead Window.
Open Scope Z_scope.

Module Show.

Section Windows.
Context {G : OpenGL} {HG : OpenGLLaws G}.

(** [opens show w h bytes]: some program, started with some arguments, files and
    uninitialised memory, comes to its window; [show] is the rest of its run and [bytes]
    the array it hands to OpenGL as a picture of [w] columns and [h] rows. *)
Inductive opens : (list event -> M screen unit) -> Z -> Z -> list Z -> Prop :=
| opens_pr01_own e fill files args s : Gradient.main e fill files args = inl (Done tt s) ->
    opens (pr01_own (Gradient.swidth s) (Gradient.sheight s) (Gradient.pixmap s)) (Gradient.swidth s) (Gradient.sheight s) (Gradient.pixmap s)
| opens_pr01 e fill files args p : Gradient.main e fill files args = inr (Done tt p) ->
    opens (pr01_show p) (width p) (height p) (picture_bytes (pixel_map p))
| opens_pr02 e args c0 c : Polygon.main e args c0 = Done tt c ->
    opens (pr02_show c) (Polygon.c_width c) (Polygon.c_height c) (picture_bytes (Polygon.output c))
| opens_pr03 e e' p0 files args p : ColorMap.main e e' p0 files args = Done tt p ->
    opens (pr03_show p) (width p) (height p) (picture_bytes (pixel_map p))
| opens_pr04 e files args p : Filter.main e files args = Done tt p ->
    opens (pr04_show p) (width p) (height p) (picture_bytes (new_map p))
| opens_pr05 e e' files args p : HueFilter.main e e' files args = Done tt p ->
    opens (pr05_show p) (width p) (height p) (picture_bytes (new_map p))
| opens_pr06 sin cos mtrx e files args p : Warp.main6 sin cos mtrx e files args = Done tt p ->
    opens (pr06_show p) (width p) (height p) (picture_bytes (output_map p))
| opens_pr07 sin cos mtrx e files args p : Warp.main7 sin cos mtrx e files args = Done tt p ->
    opens (pr07_show p) (width p) (height p) (picture_bytes (output_map p)).

(** The array has exactly the bytes of the picture. *)
Definition exact (w h : Z) (bytes : list Z) : Prop := 0 <= w * h /\ zlen bytes = 3 * (w * h).

Lemma filled_exact map p : Shapes.filled map p -> exact (width p) (height p) (picture_bytes (map p)).
Proof. intros [H0 Hl]. split; [done |]. unfold zlen. rewrite length_picture_bytes, Hl. lia. Qed.

Lemma polygon_exact e args c0 c : Polygon.main e args c0 = Done tt c ->
  exact (Polygon.c_width c) (Polygon.c_height c) (picture_bytes (Polygon.output c)).
Proof.
  unfold Polygon.main. destruct (_ <? _)%nat; [done |]. unfold Polygon.ppm_init, bind.
  change (Polygon.int_ (800 * 600) c0) with (Done (800 * 600) c0). cbv beta iota zeta. change (800 * 600 <? 0) with false. cbv iota. intros [= <-].
  split; cbn [Polygon.c_width Polygon.c_height Polygon.output]; [lia |]. unfold zlen. rewrite length_picture_bytes, length_new_array. lia.
Qed.

Lemma opens_exact show w h bytes : opens show w h bytes -> exact w h bytes.
Proof.
  intros H. destruct H as [e fill files args s H | e fill files args p H | e args c0 c H | e e' p0 files args p H | e files args p H | e e' files args p H |
    sin cos mtrx e files args p H | sin cos mtrx e files args p H].
  - destruct args; [| done]. destruct (Gradient.cool_run fill) as (m & Hrun & Hm & _). unfold Gradient.main in H. rewrite Hrun in H. clear Hrun. injection H as <-.
    split; [done |]. unfold zlen. cbn [Gradient.pixmap]. rewrite Hm. cbn [Gradient.swidth Gradient.sheight]. lia.
  - destruct args; [done |]. injection H as H. exact (filled_exact _ _ (Shapes.ppm_init_filled _ _ _ _ H)).
  - exact (polygon_exact _ _ _ _ H).
  - exact (filled_exact _ _ (Shapes.pr03_filled _ _ _ _ _ _ H)).
  - exact (filled_exact _ _ (Shapes.pr04_filled _ _ _ _ H)).
  - exact (filled_exact _ _ (Shapes.pr05_filled _ _ _ _ _ H)).
  - exact (filled_exact _ _ (Shapes.pr06_filled _ _ _ _ _ _ _ H)).
  - exact (filled_exact _ _ (Shapes.pr07_filled _ _ _ _ _ _ _ H)).
Qed.

Lemma opens_window show w h bytes : opens show w h bytes ->
  exists title, forall es, show es = open_window title w h (handle (windowDisplay w h bytes)) es.
Proof. intros H. destruct H; by eexists. Qed.

End Windows.

(** *** Witness: a user of pr04 with the emboss filter on one pixel *)
Definition user : list event := [Resize 2 2; Redraw; Mouse 0 GLUT_DOWN 0 0; Redraw; Mouse 0 GLUT_UP 0 0; Redraw].
Definition one_pixel : list Z := header [] [] (lit "1") (lit "1") (lit "255") ++ [10; 20; 30] ++ [].
Definition embossed : myppm := final (Filter.main junk_env (fun _ => Some one_pixel) [lit "emboss"; lit "a.ppm"]).

End Show.
