(* ===== verification/WarpFacts.v ===== *)
(** * Running the transformations of pr06 and pr07 on exact coordinates

    Lemmas on [Warp]: the inverse matrix over the rational numbers, [getpixel] and
    [bilinear] at integer coordinates, and the passes of [transformation] for matrices
    whose places are integers. *)

From S2P Require Import Prelude CMem Double Raster Ppm PpmRead Sweep Warp.
From Stdlib Require Import ZArith QArith Qfield Lia SpecFloat.
From stdpp Require Import base list numbers.
Import Double Raster Ppm PpmRead Sweep Warp.
Open Scope Z_scope.

Module WarpFacts.

(** ** Matrices over the rational numbers *)
Definition mtrx_mul {A} `{Arith A} (m n : mtrx3 A) : mtrx3 A :=
  let dot a b c x y z := (a * x + b * y + c * z)%A in
  let row a b c := (dot a b c (a11 n) (a21 n) (a31 n), dot a b c (a12 n) (a22 n) (a32 n), dot a b c (a13 n) (a23 n) (a33 n)) in
  let '(x1, x2, x3) := row (a11 m) (a12 m) (a13 m) in
  let '(y1, y2, y3) := row (a21 m) (a22 m) (a23 m) in
  let '(z1, z2, z3) := row (a31 m) (a32 m) (a33 m) in
  mk_mtrx3 x1 x2 x3 y1 y2 y3 z1 z2 z3.

Definition identity : mtrx3 Q := (mk_mtrx3 1 0 0 0 1 0 0 0 1)%Q.

Definition mtrx_eq (m n : mtrx3 Q) : Prop :=
  (a11 m == a11 n)%Q /\ (a12 m == a12 n)%Q /\ (a13 m == a13 n)%Q /\ (a21 m == a21 n)%Q /\ (a22 m == a22 n)%Q /\
  (a23 m == a23 n)%Q /\ (a31 m == a31 n)%Q /\ (a32 m == a32 n)%Q /\ (a33 m == a33 n)%Q.

(** Both products, entry by entry, with the determinant as a variable. *)
Ltac entries m d Hd :=
  destruct m; unfold mtrx_eq, mtrx_mul, inv_mtrx_3x3, det_2x2, identity; set (d := det_3x3 _);
  match goal with d := ?v |- _ => assert (Hd : (d == v)%Q) by reflexivity end; clearbody d;
  unfold det_3x3 in Hd; cbn in *; intros ?; repeat split; field_simplify_eq; try done; rewrite Hd; ring.

Lemma inverse_right (m : mtrx3 Q) : ~ (det_3x3 m == 0)%Q -> mtrx_eq (mtrx_mul m (inv_mtrx_3x3 m)) identity.
Proof. entries m d Hd. Qed.

Lemma inverse_left (m : mtrx3 Q) : ~ (det_3x3 m == 0)%Q -> mtrx_eq (mtrx_mul (inv_mtrx_3x3 m) m) identity.
Proof. entries m d Hd. Qed.

(** ** Pixels at integer coordinates *)
Definition half_checks : bool :=
  forallb (fun v => match to_uchar (of_int v + half)%D with Some v' => v' =? v | None => false end) (seqZ 0 256).
Lemma half_checks_true : half_checks = true.
Proof. vm_compute. reflexivity. Qed.

(** Adding a half and cutting off the fraction gives the byte back. *)
Lemma repr_round x v : repr x v -> 0 <= v <= 255 -> to_uchar (x + half)%D = Some v.
Proof.
  intros Hx Hv. destruct (Z.eq_dec v 0) as [-> | Hn].
  - repr_zero Hx s. by destruct s.
  - pose proof half_checks_true as Hc. unfold half_checks in Hc. rewrite forallb_forall in Hc.
    specialize (Hc v). rewrite <- list_elem_of_In, elem_of_seqZ in Hc. specialize (Hc ltac:(lia)).
    rewrite (repr_eq x (of_int v) v Hx (repr_of_int v ltac:(unfold prec; lia)) Hn).
    destruct (to_uchar (of_int v + half)%D); [f_equal; lia | done].
Qed.

Lemma to_i_ok x z (p : myppm) : repr x z -> INT_MIN <= z <= INT_MAX -> to_i x p = Done z p.
Proof. intros Hx Hz. unfold to_i. by rewrite (repr_to_int x z Hx Hz). Qed.

(** An object as [ppm_init] leaves it: the arrays and numbers fit together. *)
Definition canvas (p : myppm) : Prop :=
  0 < width p /\ 0 < height p /\ width p * height p <= INT_MAX /\ size p = width p * height p /\
  length (pixel_map p) = Z.to_nat (width p * height p) /\ Forall byte_pixel (pixel_map p) /\
  center p = (of_int (Z.quot (width p) 2), of_int (Z.quot (height p) 2)).

Lemma canvas_bounds p : canvas p -> 0 < width p <= INT_MAX /\ 0 < height p <= INT_MAX.
Proof. intros (Hw & Hh & Hs & _). nia. Qed.

Lemma canvas_output m p : canvas p -> canvas (set_output_map m p).
Proof. done. Qed.

(** The colour of the picture at row [y], column [x]. *)
Definition colour (p : myppm) (y x : Z) : RGB := at_ (pixel_map p) (width p) y x.

Lemma pixel_ok p y x : canvas p -> 0 <= y < height p -> 0 <= x < width p -> pixel (y * width p + x) p = Done (colour p y x) p.
Proof.
  intros (_ & _ & _ & _ & Hl & _) Hy Hx. unfold pixel, bind, this. by rewrite (fetch_at _ _ (height p)) by done.
Qed.

Lemma getpixel_ok p a b x y : canvas p -> repr a x -> repr b y -> 0 <= x < width p -> 0 <= y < height p ->
  getpixel (a, b) p = Done (colour p y x) p.
Proof.
  intros Hp Ha Hb Hx Hy. pose proof (canvas_bounds p Hp). pose proof (idx_bound (width p) (height p) y x Hx Hy).
  assert (width p * height p <= INT_MAX) by apply Hp. unfold INT_MAX in *.
  unfold getpixel, bind, this. cbn [fst snd]. rewrite (to_i_ok b y p) by (done || unfold INT_MIN, INT_MAX; lia).
  rewrite (to_i_ok a x p) by (done || unfold INT_MIN, INT_MAX; lia).
  rewrite !int_of_ok by (unfold INT_MIN, INT_MAX; nia).
  rewrite (proj2 (Z.leb_le _ _)), (proj2 (Z.leb_le _ _)) by lia. by apply pixel_ok.
Qed.

(** ** [bilinear] at integer coordinates *)
Lemma expect_round x v (p : myppm) : repr x v -> is_byte v -> expect IntOverflow (to_uchar (x + half)%D) p = Done v p.
Proof. intros Hx Hv. rewrite (repr_round x v) by (done || unfold is_byte in *; lia). done. Qed.

Lemma repr_diff x y a b c : repr x a -> repr y b -> c = a - b -> Z.abs c < 2 ^ prec -> repr (x - y)%D c.
Proof. intros Hx Hy -> Hc. by apply repr_sub. Qed.

Lemma blend_corner x y x1 x2 y1 y2 X Y q11 q21 q12 q22 (p : myppm) :
  repr x X -> repr x1 X -> repr x2 (X + 1) -> repr y Y -> repr y1 Y -> repr y2 (Y + 1) ->
  is_byte q11 -> is_byte q21 -> is_byte q12 -> is_byte q22 ->
  blend x y x1 x2 y1 y2 q11 q21 q12 q22 p = Done q11 p.
Proof.
  intros Hx Hx1 Hx2 Hy Hy1 Hy2 H1 H2 H3 H4. unfold blend. apply expect_round; [| done]. unfold is_byte in *.
  assert (Hdx : repr (x2 - x)%D 1) by (apply (repr_diff _ _ (X + 1) X); done || lia).
  assert (Hdx1 : repr (x2 - x1)%D 1) by (apply (repr_diff _ _ (X + 1) X); done || lia).
  assert (Hdx0 : repr (x - x1)%D 0) by (apply (repr_diff _ _ X X); done || lia).
  assert (Hdy : repr (y2 - y)%D 1) by (apply (repr_diff _ _ (Y + 1) Y); done || lia).
  assert (Hdy1 : repr (y2 - y1)%D 1) by (apply (repr_diff _ _ (Y + 1) Y); done || lia).
  assert (Hdy0 : repr (y - y1)%D 0) by (apply (repr_diff _ _ Y Y); done || lia).
  assert (Hrow : forall u v, 0 <= u < 256 -> 0 <= v < 256 ->
    repr (of_int u * (x2 - x) / (x2 - x1) + of_int v * (x - x1) / (x2 - x1))%D u).
  { intros u v Hu Hv. replace u with (u * 1 + 0) at 2 by lia. apply repr_add; [| | unfold prec; lia].
    - eapply repr_div; [apply repr_mul; [apply repr_of_int | exact Hdx |] | exact Hdx1 | done |]; unfold prec; lia.
    - eapply repr_div; [apply repr_mul; [apply repr_of_int | exact Hdx0 |] | exact Hdx1 | done |]; unfold prec; lia. }
  replace q11 with (1 * q11 + 0 * q12) at 2 by lia. apply repr_add; [| | unfold prec; lia]; apply repr_mul; try (unfold prec; lia).
  - by eapply repr_div.
  - by apply Hrow.
  - by eapply repr_div.
  - by apply Hrow.
Qed.

Lemma each_ok (f : (RGB -> Z) -> P Z) c p : f red p = Done (red c) p -> f green p = Done (green c) p -> f blue p = Done (blue c) p ->
  each f p = Done c p.
Proof. intros H1 H2 H3. unfold each, bind. rewrite H1, H2, H3. by destruct c. Qed.

Lemma colour_byte p y x : canvas p -> byte_pixel (colour p y x).
Proof. intros Hp. apply at_byte. apply Hp. Qed.

Lemma repr_next x z : repr x z -> 0 <= z <= INT_MAX -> repr (x + of_int 1)%D (z + 1).
Proof. unfold INT_MAX. intros Hx Hz. apply repr_add; [done | by apply repr_of_int | unfold prec; lia]. Qed.

Lemma repr_int z : INT_MIN <= z <= INT_MAX -> repr (of_int z) z.
Proof. unfold INT_MIN, INT_MAX. intros Hz. apply repr_of_int. unfold prec. lia. Qed.

(** Inside the picture the colour of the pixel itself. *)
Lemma bilinear_inner p a b x y : canvas p -> repr a x -> repr b y -> 0 <= x -> x + 1 < width p -> 0 <= y -> y + 1 < height p ->
  bilinear (a, b) p = Done (colour p y x) p.
Proof.
  intros Hp Ha Hb Hx Hx' Hy Hy'. pose proof (canvas_bounds p Hp). unfold INT_MAX in *.
  pose proof (repr_floor _ _ Ha) as Ha1. pose proof (repr_floor _ _ Hb) as Hb1.
  pose proof (repr_next _ _ Ha1 ltac:(unfold INT_MAX; lia)) as Ha2. pose proof (repr_next _ _ Hb1 ltac:(unfold INT_MAX; lia)) as Hb2.
  unfold bilinear, bind at 1, this. cbn [fst snd].
  rewrite (repr_ltb _ _ _ _ Ha2 (repr_int (width p) ltac:(unfold INT_MIN, INT_MAX; lia))).
  rewrite (repr_ltb _ _ _ _ Hb2 (repr_int (height p) ltac:(unfold INT_MIN, INT_MAX; lia))).
  rewrite (proj2 (Z.ltb_lt _ _)), (proj2 (Z.ltb_lt _ _)) by lia. cbn [andb].
  do 4 (unfold bind at 1; erewrite getpixel_ok by (done || lia)).
  pose proof (colour_byte p y x Hp) as (? & ? & ?). pose proof (colour_byte p y (x + 1) Hp) as (? & ? & ?).
  pose proof (colour_byte p (y + 1) x Hp) as (? & ? & ?). pose proof (colour_byte p (y + 1) (x + 1) Hp) as (? & ? & ?).
  apply each_ok; by eapply blend_corner.
Qed.

(** Statements that change nothing and do not exit. *)
Definition quiet {A} (m : P A) (p : myppm) : Prop := (exists a, m p = Done a p) \/ exists w, m p = Undef w p.

Lemma expect_quiet {A} w (o : option A) p : quiet (expect w o) p.
Proof. destruct o; [left | right]; by eexists. Qed.

Lemma each_quiet f p : (forall ch, quiet (f ch) p) -> quiet (each f) p.
Proof.
  intros H. unfold quiet, each, bind. destruct (H red) as [[r ->] | [w ->]]; [| by right; exists w].
  destruct (H green) as [[g ->] | [w ->]]; [| by right; exists w].
  destruct (H blue) as [[b ->] | [w ->]]; [by left; eexists | by right; exists w].
Qed.

Lemma quiet_undef {A B} (m : P A) w p : quiet m p -> exists w', bind m (fun _ => undef (A := B) w) p = Undef w' p.
Proof. unfold bind. intros [[a ->] | [w' ->]]; by eexists. Qed.

(** In the last column and in the last row control reaches the end without a [return]. *)
Lemma bilinear_beyond p a b x y : canvas p -> repr (floor a) x -> repr (floor b) y -> 0 <= x <= width p -> 0 <= y < height p ->
  ~ (x + 1 < width p /\ y + 1 < height p) -> exists w, bilinear (a, b) p = Undef w p.
Proof.
  intros Hp Ha1 Hb1 Hx Hy Hedge. pose proof (canvas_bounds p Hp) as [Hw Hh]. unfold INT_MAX in *.
  pose proof (repr_next _ _ Ha1 ltac:(unfold INT_MAX; lia)) as Ha2. pose proof (repr_next _ _ Hb1 ltac:(unfold INT_MAX; lia)) as Hb2.
  pose proof (repr_int (width p) ltac:(unfold INT_MIN, INT_MAX; lia)) as Hrw.
  pose proof (repr_int (height p) ltac:(unfold INT_MIN, INT_MAX; lia)) as Hrh.
  unfold bilinear, bind at 1, this. cbn [fst snd].
  rewrite (repr_ltb _ _ _ _ Ha2 Hrw), (repr_ltb _ _ _ _ Hb2 Hrh), (repr_eqb _ _ _ _ Ha2 Hrw), (repr_eqb _ _ _ _ Hb2 Hrw).
  destruct (Z.ltb_spec (x + 1) (width p)), (Z.ltb_spec (y + 1) (height p)); cbn [andb]; [lia | | |];
    try destruct (Z.eqb_spec (x + 1) (width p)); try destruct (Z.eqb_spec (y + 1) (width p)); cbn [andb];
    try (do 2 (unfold bind at 1; erewrite getpixel_ok by (done || lia)));
    apply quiet_undef; try apply expect_quiet; apply each_quiet; intros ch; apply expect_quiet.
Qed.

Lemma bilinear_edge p a b x y : canvas p -> repr a x -> repr b y -> 0 <= x < width p -> 0 <= y < height p ->
  x + 1 = width p \/ y + 1 = height p -> exists w, bilinear (a, b) p = Undef w p.
Proof. intros Hp Ha Hb Hx Hy He. apply (bilinear_beyond p a b x y); [done | by apply repr_floor | by apply repr_floor | lia..]. Qed.

(** ** The passes *)
Lemma columns_cells body s : columns body s = for_each (cells 0 (width s) 0 (height s)) (fun c => body c.1 c.2) s.
Proof. apply for_each_nest. Qed.

Section Pass.
Variable p : myppm.
Hypothesis Hp : canvas p.

Abbreviation w := (width p).
Abbreviation h := (height p).
Abbreviation full m := (length m = Z.to_nat (w * h)).

(** The loops over the columns and rows, when every round has a result. *)
Lemma columns_fold body (T : list RGB -> Z * Z -> list RGB) m0 : full m0 ->
  (forall m c, full m -> 0 <= c.1 < w -> 0 <= c.2 < h ->
    body c.1 c.2 (set_output_map m p) = Done tt (set_output_map (T m c) p) /\ full (T m c)) ->
  columns body (set_output_map m0 p) = Done tt (set_output_map (fold_left T (cells 0 w 0 h) m0) p).
Proof.
  intros Hm0 Hb. rewrite columns_cells. cbn [width height set_output_map].
  assert (Hin : Forall (fun c => 0 <= c.1 < w /\ 0 <= c.2 < h) (cells 0 w 0 h))
    by (apply list.Forall_forall; intros c Hc; by apply elem_of_cells).
  revert m0 Hm0. induction Hin as [| c l [Hi Hj] _ IH]; intros m0 Hm0; [done |].
  cbn [for_each fold_left]. destruct (Hb m0 c Hm0 Hi Hj) as [Hrun Hfull]. rewrite (bind_done _ _ _ _ _ Hrun). by apply IH.
Qed.

(** Two bounds of [double]s as bounds of integers. *)
Lemma bounds_ok a x lim : repr a x -> 0 < lim <= INT_MAX -> ((a >=? of_int 0) && (a <? of_int lim))%D = ((0 <=? x) && (x <? lim)).
Proof.
  intros Ha Hl. rewrite (repr_leb _ _ 0 x (repr_int 0 ltac:(done)) Ha), (repr_ltb _ _ x lim Ha); [done |].
  apply repr_int. unfold INT_MIN, INT_MAX in *. lia.
Qed.

(** The pixel a place stands for. *)
Definition target (x y : Z) : option nat :=
  if (0 <=? x) && (x <? w) && ((0 <=? y) && (y <? h)) then Some (idx w y x) else None.

Lemma target_some x y k : target x y = Some k -> 0 <= x < w /\ 0 <= y < h /\ k = idx w y x.
Proof.
  unfold target. destruct (Z.leb_spec 0 x), (Z.ltb_spec x w), (Z.leb_spec 0 y), (Z.ltb_spec y h); cbn [andb]; try done.
  by intros [= <-].
Qed.

Lemma target_in x y : 0 <= x < w -> 0 <= y < h -> target x y = Some (idx w y x).
Proof. intros. unfold target. by rewrite !(proj2 (Z.leb_le _ _)), !(proj2 (Z.ltb_lt _ _)) by lia. Qed.

Definition put (g : Z * Z -> Z * Z) (m : list RGB) (c : Z * Z) : list RGB :=
  touch (fun c => target (g c).1 (g c).2) (fun c _ => colour p c.2 c.1) m c.

Lemma full_put g m c : full m -> full (put g m c).
Proof. intros Hm. unfold put, touch. destruct (target _ _); [by rewrite length_alter | done]. Qed.

(** A place with integer coordinates: the pixel is copied there. *)
Lemma copy_ok m i j x y : full m -> 0 <= i < w -> 0 <= j < h -> 0 <= x < w -> 0 <= y < h ->
  (let* c := pixel (j * w + i) in set_output (y * w + x) c) (set_output_map m p)
  = Done tt (set_output_map (<[idx w y x := colour p j i]> m) p).
Proof.
  intros Hm Hi Hj Hx Hy. pose proof (idx_bound w h y x Hx Hy).
  rewrite (bind_done _ _ _ _ _ (pixel_ok (set_output_map m p) j i (canvas_output m p Hp) Hj Hi)).
  unfold set_output. cbn [output_map set_output_map]. rewrite inside_true by lia. done.
Qed.

Lemma forward_exact place g m c : full m -> 0 <= c.1 < w -> 0 <= c.2 < h ->
  repr (place (set_output_map m p) c.1 c.2).1 (g c).1 -> repr (place (set_output_map m p) c.1 c.2).2 (g c).2 ->
  forward place c.1 c.2 (set_output_map m p) = Done tt (set_output_map (put g m c) p).
Proof.
  intros Hm Hi Hj Hx Hy. unfold forward, bind at 1, this. destruct (place _ _ _) as [a b]. cbn [fst snd] in *.
  cbn [width height size set_output_map]. pose proof (canvas_bounds p Hp) as [Hw Hh].
  rewrite <- !andb_assoc, (andb_assoc (_ <=? _)%D), (bounds_ok a (g c).1 w), (bounds_ok b (g c).2 h) by done.
  unfold put, touch, target. destruct (_ && _ && _) eqn:Hin; [| done].
  assert (0 <= (g c).1 < w /\ 0 <= (g c).2 < h) as [Hx' Hy'] by lia. pose proof (idx_bound w h _ _ Hx' Hy').
  assert (Hs : size p = w * h /\ w * h <= INT_MAX) by (split; apply Hp). rewrite (proj1 Hs). unfold INT_MAX in *.
  unfold bind at 1. rewrite (to_i_ok b (g c).2) by (done || unfold INT_MIN, INT_MAX; lia).
  unfold bind at 1. rewrite (to_i_ok a (g c).1) by (done || unfold INT_MIN, INT_MAX; lia).
  do 2 (unfold bind at 1; rewrite int_of_ok by (unfold INT_MIN, INT_MAX; nia)).
  rewrite (proj2 (Z.ltb_lt _ _)), (proj2 (Z.leb_le _ _)) by lia. cbn [andb]. rewrite copy_ok by done.
  by rewrite insert_alter.
Qed.

(** The first pass of 3 by 3 matrices, which takes integer parts before it compares. *)
Lemma forward3_exact place g m c : full m -> 0 <= c.1 < w -> 0 <= c.2 < h ->
  repr (place (set_output_map m p) c.1 c.2).1 (g c).1 -> repr (place (set_output_map m p) c.1 c.2).2 (g c).2 ->
  0 < (g c).1 <= INT_MAX -> 0 < (g c).2 -> (g c).2 * w + (g c).1 <= INT_MAX ->
  forward3 place c.1 c.2 (set_output_map m p) = Done tt (set_output_map (put g m c) p).
Proof.
  intros Hm Hi Hj Hx Hy Hx0 Hy0 Hb. unfold forward3, bind at 1, this. destruct (place _ _ _) as [a b]. cbn [fst snd] in *.
  cbn [width height size set_output_map]. pose proof (canvas_bounds p Hp) as [Hw Hh]. unfold INT_MAX in *.
  unfold bind at 1. rewrite (to_i_ok b (g c).2) by (done || unfold INT_MIN, INT_MAX; nia).
  unfold bind at 1. rewrite (to_i_ok a (g c).1) by (done || unfold INT_MIN, INT_MAX; lia).
  do 2 (unfold bind at 1; rewrite int_of_ok by (unfold INT_MIN, INT_MAX; nia)).
  rewrite (repr_ltb _ _ 0 (g c).1), (repr_ltb _ _ 0 (g c).2), (repr_ltb _ _ (g c).2 h), (repr_ltb _ _ (g c).1 w)
    by (done || apply repr_int; unfold INT_MIN, INT_MAX; lia).
  rewrite (proj2 (Z.ltb_lt 0 _)), (proj2 (Z.ltb_lt 0 _)) by lia. cbn [andb].
  unfold put, touch, target. rewrite !(proj2 (Z.leb_le 0 _)) by lia. cbn [andb].
  rewrite (andb_comm (_ <? h)). destruct (((g c).1 <? w) && ((g c).2 <? h)) eqn:Hin; [| by rewrite andb_false_r].
  assert (0 <= (g c).1 < w /\ 0 <= (g c).2 < h) as [Hx' Hy'] by lia. pose proof (idx_bound w h _ _ Hx' Hy').
  rewrite (proj2 (Z.ltb_lt _ (w * h))) by lia. cbn [andb]. rewrite copy_ok by done. by rewrite insert_alter.
Qed.

(** The result of a first pass over an injective map of places. *)
Definition spread (g : Z * Z -> Z * Z) (m0 m : list RGB) : Prop := full m /\
  (forall i j x y, 0 <= i < w -> 0 <= j < h -> g (i, j) = (x, y) -> 0 <= x < w -> 0 <= y < h ->
    m !! idx w y x = Some (colour p j i)) /\
  (forall k, (forall i j, 0 <= i < w -> 0 <= j < h -> target (g (i, j)).1 (g (i, j)).2 <> Some k) -> m !! k = m0 !! k).

Lemma put_spread g m0 : full m0 -> (forall c c', g c = g c' -> c = c') -> spread g m0 (fold_left (put g) (cells 0 w 0 h) m0).
Proof.
  intros Hm0 Hg. unfold put. split; [| split].
  - rewrite <- Hm0. apply (touch_length (fun c => target (g c).1 (g c).2) (fun c _ => colour p c.2 c.1)).
  - intros i j x y Hi Hj Hxy Hx Hy.
    rewrite (touch_hit (fun c => target (g c).1 (g c).2) (fun c _ => colour p c.2 c.1) _ m0 _ (i, j)).
    + destruct (lookup_lt_is_Some_2 m0 (idx w y x)) as [c0 ->]; [| done].
      rewrite Hm0. unfold idx. pose proof (idx_bound w h y x Hx Hy). lia.
    + apply NoDup_cells.
    + by apply elem_of_cells.
    + rewrite Hxy. by apply target_in.
    + intros c' _ Ht. apply target_some in Ht as (Hx' & Hy' & He). apply idx_inj in He; [| lia..].
      apply Hg. rewrite Hxy. destruct (g c'). cbn [fst snd] in *. f_equal; lia.
  - intros k Hk. apply (touch_miss (fun c => target (g c).1 (g c).2)). intros [i j] Hc. apply elem_of_cells in Hc as [Hi Hj]. by apply (Hk i j).
Qed.
(** *** The second pass: one black pixel, whose origin has integer coordinates *)
Section Fill.
Variables (origin : myppm -> Z -> Z -> XY) (m : list RGB) (i j x y : Z).
Hypothesis Hm : full m.
Hypothesis Hi : 0 <= i < w.
Hypothesis Hj : 0 <= j < h.
Hypothesis Hx : 0 <= x < w.
Hypothesis Hox : repr (origin (set_output_map m p) i j).1 x.
Hypothesis Hoy : repr (origin (set_output_map m p) i j).2 y.
Abbreviation s := (set_output_map m p).

Lemma backward_start (k : RGB -> P unit) : (let* c := expect OutOfBounds (fetch (output_map s) (j * w + i)) in k c) s = k (at_ m w j i) s.
Proof. cbn [output_map set_output_map]. unfold bind. by rewrite (fetch_at m w h). Qed.

Lemma backward_coloured : is_black (at_ m w j i) = false -> backward origin true i j s = Done tt s.
Proof.
  intros Hb. unfold backward, bind at 1, this. change (width s) with w. rewrite backward_start. by rewrite Hb.
Qed.

(** The tests before [bilinear], for an origin in the picture or one row above it. *)
Lemma backward_black : is_black (at_ m w j i) = true -> 0 <= y <= h -> y * w + x <= INT_MAX ->
  backward origin true i j s
  = (if y <? h then let* v := bilinear (origin s i j) in set_output (j * w + i) v else ret tt) s.
Proof.
  intros Hb Hy Hb'. unfold backward, bind at 1, this. change (width s) with w. rewrite backward_start, Hb.
  destruct (origin s i j) as [a b]. cbn [fst snd] in Hox, Hoy. change (size s) with (size p). change (height s) with h.
  pose proof (canvas_bounds p Hp) as [Hw Hh]. unfold INT_MAX in *.
  rewrite (repr_leb _ _ 0 x), (repr_leb _ _ 0 y), (repr_leb _ _ x w), (repr_leb _ _ y h)
    by (done || apply repr_int; unfold INT_MIN, INT_MAX; lia).
  rewrite !(proj2 (Z.leb_le _ _)) by lia. cbn [andb].
  unfold bind at 1. rewrite (to_i_ok b y) by (done || unfold INT_MIN, INT_MAX; lia).
  unfold bind at 1. rewrite (to_i_ok a x) by (done || unfold INT_MIN, INT_MAX; lia).
  do 2 (unfold bind at 1; rewrite int_of_ok by (unfold INT_MIN, INT_MAX; nia)).
  assert (size p = w * h) as -> by apply Hp. rewrite (proj2 (Z.leb_le 0 _)) by nia. cbn [andb].
  destruct (Z.ltb_spec y h), (Z.ltb_spec (y * w + x) (w * h)); try done; nia.
Qed.

Lemma backward_inner : is_black (at_ m w j i) = true -> 0 <= y -> x + 1 < w -> y + 1 < h ->
  backward origin true i j s = Done tt (set_output_map (<[idx w j i := colour p y x]> m) p).
Proof.
  intros Hb Hy Hx' Hy'. assert (w * h <= INT_MAX) by apply Hp. pose proof (idx_bound w h y x Hx ltac:(lia)).
  rewrite backward_black by (done || lia). rewrite (proj2 (Z.ltb_lt _ _)) by lia.
  destruct (origin s i j) as [a b]. cbn [fst snd] in Hox, Hoy.
  rewrite (bind_done _ _ _ _ _ (bilinear_inner s a b x y (canvas_output m p Hp) Hox Hoy ltac:(lia) Hx' Hy Hy')).
  unfold set_output. cbn [output_map set_output_map]. pose proof (idx_bound w h j i Hi Hj). by rewrite inside_true by lia.
Qed.

Lemma backward_edge : is_black (at_ m w j i) = true -> 0 <= y < h -> x + 1 = w \/ y + 1 = h ->
  exists f, backward origin true i j s = Undef f s.
Proof.
  intros Hb Hy He. assert (w * h <= INT_MAX) by apply Hp. pose proof (idx_bound w h y x Hx ltac:(lia)).
  rewrite backward_black by (done || lia). rewrite (proj2 (Z.ltb_lt _ _)) by lia.
  destruct (origin s i j) as [a b]. cbn [fst snd] in Hox, Hoy.
  destruct (bilinear_edge s a b x y (canvas_output m p Hp) Hox Hoy Hx Hy He) as [f Hf].
  exists f. unfold bind. by rewrite Hf.
Qed.

Lemma backward_outside : is_black (at_ m w j i) = true -> y = h -> y * w + x <= INT_MAX -> backward origin true i j s = Done tt s.
Proof. intros Hb Hyh Hb'. rewrite backward_black by (done || (pose proof (canvas_bounds p Hp); lia)). by rewrite Hyh, Z.ltb_irrefl. Qed.
End Fill.
End Pass.

End WarpFacts.
