(* ===== verification/WarpMain.v ===== *)
(** * What the commands of pr06 and pr07 do to a file

    The inverse matrix, the interpolation at the pixels, the mirror command of both
    programs, the translation and the perspective of pr06, and the runs that end in
    undefined behaviour. *)

From S2P Require Import Prelude CMem Double Raster Ppm PpmRead Sweep Warp WarpFacts.
From Stdlib Require Import ZArith QArith Lia SpecFloat.
From stdpp Require Import base list numbers.
From Stdlib Require String.
Import String.StringSyntax.
Import Double Raster Ppm PpmRead Sweep Warp WarpFacts.
Open Scope Z_scope.

Module WarpMain.

(** ** Exact places *)

(** A linear form with small factors, over coordinates. *)
Lemma repr_form a b u v (A B U V : Z) : repr a A -> repr b B -> repr u U -> repr v V -> Z.abs A <= 1 -> Z.abs B <= 1 ->
  Z.abs U <= 2 ^ 40 -> Z.abs V <= 2 ^ 40 -> repr (a * u + b * v)%D (A * U + B * V) /\ repr (a * u - b * v)%D (A * U - B * V).
Proof.
  intros Ha Hb Hu Hv HA HB HU HV. assert (Z.abs (A * U) <= 2 ^ 40 /\ Z.abs (B * V) <= 2 ^ 40) as [H1 H2] by (rewrite !Z.abs_mul; nia).
  split; [apply repr_add | apply repr_sub]; try apply repr_mul; try done; unfold prec; lia.
Qed.

Lemma repr_shift x y a b c : repr x a -> repr y b -> c = a + b -> Z.abs c < 2 ^ prec -> repr (x + y)%D c.
Proof. intros Hx Hy -> Hc. by apply repr_add. Qed.

Section Exact.
Variable p : myppm.
Hypothesis Hp : canvas p.
Abbreviation w := (width p).
Abbreviation h := (height p).
Abbreviation cx := (Z.quot (width p) 2).
Abbreviation cy := (Z.quot (height p) 2).

Lemma center_bounds : 0 <= cx <= INT_MAX /\ 0 <= cy <= INT_MAX.
Proof.
  pose proof (canvas_bounds p Hp) as [Hw Hh]. rewrite !Z.quot_div_nonneg by lia.
  split; (split; [apply Z.div_pos; lia | transitivity (w `max` h); [| lia]]).
  - pose proof (Z.div_le_upper_bound w 2 w). lia.
  - pose proof (Z.div_le_upper_bound h 2 h). lia.
Qed.

Lemma repr_center : repr (center p).1 cx /\ repr (center p).2 cy.
Proof.
  pose proof center_bounds. assert (center p = (of_int cx, of_int cy)) as -> by apply Hp. cbn [fst snd].
  split; apply repr_int; unfold INT_MIN, INT_MAX in *; lia.
Qed.

(** The offsets of a pixel from the centre. *)
Lemma repr_offsets i j : 0 <= i < w -> 0 <= j < h ->
  repr (of_int i - (center p).1)%D (i - cx) /\ repr (of_int j - (center p).2)%D (j - cy).
Proof.
  intros Hi Hj. pose proof center_bounds. pose proof repr_center as [Hcx Hcy]. pose proof (canvas_bounds p Hp). unfold INT_MAX in *.
  split; apply repr_sub; try done; try (apply repr_int; unfold INT_MIN, INT_MAX; lia); unfold prec; lia.
Qed.

(** Mirrored at the row of the centre. *)
Definition flip (j : Z) : Z := 2 * cy - j.

Lemma mirror_place i j : 0 <= i < w -> 0 <= j < h ->
  let xy := image_point (of_int 1) (of_int 0) (of_int 0) (of_int (-1)) p i j in repr xy.1 i /\ repr xy.2 (flip j).
Proof.
  intros Hi Hj. pose proof center_bounds. pose proof repr_center as [Hcx Hcy]. pose proof (canvas_bounds p Hp).
  destruct (repr_offsets i j Hi Hj) as [Hx Hy]. unfold INT_MAX in *. unfold image_point, flip. cbn [fst snd].
  destruct (repr_form _ _ _ _ 1 0 _ _ (repr_int 1 ltac:(done)) (repr_int 0 ltac:(done)) Hx Hy) as [H1 _]; try lia.
  destruct (repr_form _ _ _ _ 0 (-1) _ _ (repr_int 0 ltac:(done)) (repr_int (-1) ltac:(done)) Hx Hy) as [H2 _]; try lia.
  split; (eapply repr_shift; [eassumption | eassumption | lia | unfold prec; lia]).
Qed.

Lemma mirror_origin i j : 0 <= i < w -> 0 <= j < h ->
  let xy := origin_point (of_int 1) (of_int 0) (of_int 0) (of_int (-1)) p i j in repr xy.1 i /\ repr xy.2 (flip j).
Proof.
  intros Hi Hj. pose proof center_bounds. pose proof repr_center as [Hcx Hcy]. pose proof (canvas_bounds p Hp).
  destruct (repr_offsets i j Hi Hj) as [Hx Hy]. unfold INT_MAX in *. unfold origin_point, flip. cbn [fst snd].
  set (det := (of_int 1 * of_int (-1) - of_int 0 * of_int 0)%D). assert (Hdet : repr det (-1)) by (by split).
  destruct (repr_form _ _ _ _ (-1) 0 _ _ (repr_int (-1) ltac:(done)) (repr_int 0 ltac:(done)) Hx Hy) as [_ H1]; try lia.
  destruct (repr_form _ _ _ _ 0 1 _ _ (repr_opp _ _ (repr_int 0 ltac:(done))) (repr_int 1 ltac:(done)) Hx Hy) as [H2 _]; try lia.
  split; (eapply repr_shift; [eapply repr_div; [eassumption | exact Hdet | done |] | eassumption | |]).
  - instantiate (1 := i - cx). lia.
  - lia.
  - unfold prec. lia.
  - instantiate (1 := cy - j). lia.
  - lia.
  - unfold prec. lia.
Qed.

(** ** The mirror *)

(** [m] holds the mirrored picture wherever the mirror image of a row is a row. *)
Definition mirrored (m : list RGB) : Prop := length m = Z.to_nat (w * h) /\
  forall i j, 0 <= i < w -> 0 <= j < h -> flip j < h -> m !! idx w j i = Some (colour p (flip j) i).

Lemma flip_nonneg j : j < h -> 0 <= flip j.
Proof. intros Hj. unfold flip. pose proof (canvas_bounds p Hp). pose proof (Z.quot_rem' h 2). pose proof (Z.rem_bound_pos h 2). lia. Qed.

Lemma flip_high j : 0 <= j -> flip j <= h.
Proof. intros Hj. unfold flip. pose proof (canvas_bounds p Hp). pose proof (Z.quot_rem' h 2). pose proof (Z.rem_bound_pos h 2). lia. Qed.

Definition first_pass := columns (forward (image_point (of_int 1) (of_int 0) (of_int 0) (of_int (-1)))).
Definition second_pass := columns (backward (origin_point (of_int 1) (of_int 0) (of_int 0) (of_int (-1))) true).

Lemma first_pass_run m0 : length m0 = Z.to_nat (w * h) ->
  exists m, first_pass (set_output_map m0 p) = Done tt (set_output_map m p) /\ mirrored m /\
    forall i j, 0 <= i < w -> 0 <= j < h -> flip j = h -> m !! idx w j i = m0 !! idx w j i.
Proof.
  intros Hm0. set (g := fun c : Z * Z => (c.1, flip c.2)).
  destruct (put_spread p g m0 Hm0) as (Hfull & Hhit & Hmiss).
  { intros [i j] [i' j'] [= -> He]. f_equal. unfold flip in He. lia. }
  eexists. split; [| split].
  - apply (columns_fold p _ (put p g)); [done |]. intros m [i j] Hm Hi Hj. split; [| by apply full_put].
    apply (forward_exact p Hp _ g m (i, j)); try done; by apply mirror_place.
  - split; [done |]. intros i j Hi Hj Hf. pose proof (flip_nonneg j ltac:(lia)).
    apply (Hhit i (flip j) i j); try done. unfold g. cbn [fst snd]. f_equal. unfold flip. lia.
  - intros i j Hi Hj Hf. apply Hmiss. intros i' j' Hi' Hj' Ht. apply target_some in Ht as (_ & Hy & He).
    cbn [g fst snd] in *. apply idx_inj in He; [| lia..]. unfold flip in *. lia.
Qed.

(** The pixels the second pass cannot interpolate. *)
Definition on_edge (y x : Z) : bool := (x + 1 =? w) || (y + 1 =? h).

Lemma second_round m i j : w * (h + 1) <= INT_MAX -> mirrored m -> 0 <= i < w -> 0 <= j < h ->
  let s := set_output_map m p in let run := backward (origin_point (of_int 1) (of_int 0) (of_int 0) (of_int (-1))) true i j s in
  if (flip j <? h) && on_edge (flip j) i && is_black (colour p (flip j) i) then exists f, run = Undef f s else run = Done tt s.
Proof.
  intros Hsize [Hm Hmir] Hi Hj s run. subst s run. pose proof (flip_nonneg j ltac:(lia)). pose proof (flip_high j ltac:(lia)).
  destruct (mirror_origin i j Hi Hj) as [Hox Hoy].
  destruct (Z.ltb_spec (flip j) h) as [Hlt | Hge]; cbn [andb].
  - pose proof (Hmir i j Hi Hj Hlt) as Hat.
    assert (Hc : at_ m w j i = colour p (flip j) i) by (unfold at_; by rewrite Hat).
    destruct (is_black (colour p (flip j) i)) eqn:Hb; [rewrite andb_true_r | rewrite andb_false_r].
    + unfold on_edge. destruct (Z.eqb_spec (i + 1) w), (Z.eqb_spec (flip j + 1) h); cbn [orb];
        try (apply (backward_edge p Hp _ m i j i (flip j)); try done; try lia; by rewrite Hc).
      rewrite (backward_inner p Hp _ m i j i (flip j)); try done; try lia; [| by rewrite Hc].
      by rewrite list_insert_id.
    + apply backward_coloured; try done. by rewrite Hc.
  - destruct (is_black (at_ m w j i)) eqn:Hb; [| by apply backward_coloured].
    apply (backward_outside p Hp _ m i j i (flip j)); try done; nia.
Qed.

(** The whole run on an output array [m0]. *)
Lemma mirror_done m0 : length m0 = Z.to_nat (w * h) -> w * (h + 1) <= INT_MAX ->
  (forall i j, 0 <= i < w -> 0 <= j < h -> flip j < h -> on_edge (flip j) i = true -> is_black (colour p (flip j) i) = false) ->
  exists m, transform2 (of_int 1) (of_int 0) (of_int 0) (of_int (-1)) (set_output_map m0 p) = Done tt (set_output_map m p) /\
    mirrored m /\ forall i j, 0 <= i < w -> 0 <= j < h -> flip j = h -> m !! idx w j i = m0 !! idx w j i.
Proof.
  intros Hm0 Hsize Hedge. destruct (first_pass_run m0 Hm0) as (m & Hrun & Hmir & Hrest).
  exists m. split; [| done]. unfold transform2. rewrite (bind_done _ _ _ _ _ Hrun).
  rewrite columns_cells. apply for_each_same. intros [i j] Hc. apply elem_of_cells in Hc as [Hi Hj].
  pose proof (second_round m i j Hsize Hmir Hi Hj) as Hround. cbn zeta in Hround. cbn [fst snd].
  destruct (_ && is_black _) eqn:Hbad; [| done].
  apply andb_prop in Hbad as [[Hlt He]%andb_prop Hb]. rewrite (Hedge i j Hi Hj ltac:(lia) He) in Hb. done.
Qed.

Lemma mirror_undef m0 i j : length m0 = Z.to_nat (w * h) -> w * (h + 1) <= INT_MAX ->
  0 <= i < w -> 0 <= j < h -> flip j < h -> on_edge (flip j) i = true -> is_black (colour p (flip j) i) = true ->
  exists f s, transform2 (of_int 1) (of_int 0) (of_int 0) (of_int (-1)) (set_output_map m0 p) = Undef f s.
Proof.
  intros Hm0 Hsize Hi Hj Hlt He Hb. destruct (first_pass_run m0 Hm0) as (m & Hrun & Hmir & _).
  unfold transform2. rewrite (bind_done _ _ _ _ _ Hrun), columns_cells.
  apply (for_each_undef (eq (set_output_map m p))); [done | |].
  - intros [i' j'] s Hc <-. apply elem_of_cells in Hc as [Hi' Hj'].
    pose proof (second_round m i' j' Hsize Hmir Hi' Hj') as Hround. cbn zeta in Hround.
    destruct (_ && is_black _); [right | left; by eexists]. destruct Hround as [f Hf]. by exists f, (set_output_map m p).
  - exists (i, j). split; [by apply elem_of_cells |]. intros s <-.
    pose proof (second_round m i j Hsize Hmir Hi Hj) as Hround. cbn zeta in Hround.
    rewrite (proj2 (Z.ltb_lt _ _) Hlt), He, Hb in Hround. destruct Hround as [f Hf]. by exists f, (set_output_map m p).
Qed.
End Exact.

(** ** From the file to the transformation *)

(** The colour drawn at row [y] from the bottom, column [x]. *)
Definition drawn (pic : list RGB) (w h y x : Z) : RGB := at_ pic w (h - 1 - y) x.

Lemma file_canvas e w h pic bytes : ppm_file w h pic bytes ->
  exists p, ppm_init_center e (Some bytes) zeroed = Done tt p /\ canvas p /\ width p = w /\ height p = h /\
    forall y x, 0 <= y < h -> 0 <= x < w -> colour p y x = drawn pic w h y x.
Proof.
  intros Hf. pose proof (ppm_file_size w h pic bytes Hf) as Hs.
  destruct (ppm_file_loaded e w h pic bytes zeroed Hf) as [_ (p & Hrun & (Hw & Hh & <- & <- & [Hlen Hpic] & Hb) & Hsize & Hc)].
  exists p. split; [done |]. split; [done |]. split; [done |]. split; [done |].
  intros y x Hy Hx. unfold colour, drawn, at_. by rewrite Hpic.
Qed.

Lemma new_output_ok e p : canvas p -> new_output e p = Done tt (set_output_map (new_array (junk e 2) (width p * height p)) p).
Proof.
  intros (Hw & Hh & Hs & _). unfold new_output, bind at 1, this. unfold bind at 1.
  rewrite int_of_ok by (unfold INT_MIN, INT_MAX in *; nia). by rewrite (proj2 (Z.ltb_ge _ _)) by nia.
Qed.

Lemma bind_ret_unit {S} (m : M S unit) s : (m ;;; ret tt) s = m s.
Proof. unfold bind. destruct (m s) as [[] |  |]; done. Qed.

(** The first statements of both versions of [transformation]. *)
Lemma start_ok e point p (k : P unit) : canvas p ->
  (modify (set_translation point) ;;; new_output e ;;; k) p
  = k (set_output_map (new_array (junk e 2) (width p * height p)) (set_translation point p)).
Proof.
  intros Hp. unfold bind at 1, modify at 1. by rewrite (bind_done _ _ _ _ _ (new_output_ok e (set_translation point p) Hp)).
Qed.

Lemma transformation_2 e m point p : canvas p ->
  transformation e m 2 point p
  = transform2 (a11 m) (a12 m) (a13 m) (a21 m) (set_output_map (new_array (junk e 2) (width p * height p)) (set_translation point p)).
Proof. intros Hp. unfold transformation. cbn [Z.eqb negb andb]. etransitivity; [apply (start_ok e point p _ Hp) | apply bind_ret_unit]. Qed.

Lemma transformation7_2 sin e m point name p : canvas p ->
  transformation7 sin e m 2 point name p
  = transform2 (a11 m) (a12 m) (a13 m) (a21 m) (set_output_map (new_array (junk e 2) (width p * height p)) (set_translation point p)).
Proof. intros Hp. unfold transformation7. cbn [Z.eqb negb andb]. apply (start_ok e point p _ Hp). Qed.

Lemma lookup_new_array {A} (fill : nat -> A) w h y x : 0 <= x < w -> 0 <= y < h ->
  new_array fill (w * h) !! idx w y x = Some (fill (idx w y x)).
Proof.
  intros Hx Hy. unfold new_array. rewrite list_lookup_fmap, lookup_seq_lt; [done |].
  unfold idx. pose proof (idx_bound w h y x Hx Hy). lia.
Qed.

(** The three ways to ask for the mirror. *)
Definition mirror_runs (sin cos : double -> double) (u : mtrx3 double) e files file more : list (outcome myppm unit) :=
  [main6 sin cos u e files (lit "mirror" :: file :: more); main7 sin cos u e files (lit "mirror" :: file :: more);
   main7 sin cos u e files (lit "m" :: file :: more)].

Lemma mirror_runs_eq sin cos u e files file more bytes p run : files file = Some bytes ->
  ppm_init_center e (Some bytes) zeroed = Done tt p -> canvas p -> run ∈ mirror_runs sin cos u e files file more ->
  run = transform2 (of_int 1) (of_int 0) (of_int 0) (of_int (-1))
          (set_output_map (new_array (junk e 2) (width p * height p)) (set_translation (at_int 255 170) p)).
Proof.
  intros Hfile Hinit Hp Hrun. unfold mirror_runs in Hrun.
  repeat (apply elem_of_cons in Hrun as [-> | Hrun]); [| | | by apply not_elem_of_nil in Hrun];
    unfold main6, main7; rewrite Hfile, Hinit.
  - exact (transformation_2 e (first4 u (of_int 1) (of_int 0) (of_int 0) (of_int (-1))) (at_int 255 170) p Hp).
  - exact (transformation7_2 sin e (first4 u (of_int 1) (of_int 0) (of_int 0) (of_int (-1))) (at_int 255 170) (lit "mirror") p Hp).
  - exact (transformation7_2 sin e (first4 u (of_int 1) (of_int 0) (of_int 0) (of_int (-1))) (at_int 255 170) (lit "m") p Hp).
Qed.

Definition edge (w h y x : Z) : bool := (x + 1 =? w) || (y + 1 =? h).

(** C37: the command [mirror] of pr06 and pr07 on a PPM file.  With [flip y = 2 (h / 2) - y],
    it draws in row [y] the row [flip y] of the picture; when the height is even, row 0 has
    no such row and keeps what the memory held.  This holds when no pixel that is copied
    from the last column or the last row of the picture is black; one black pixel there
    makes the second pass interpolate it, and the run is undefined. *)
Theorem mirror_flips sin cos u e files file more w h pic bytes run :
  ppm_file w h pic bytes -> files file = Some bytes -> w * (h + 1) <= INT_MAX -> run ∈ mirror_runs sin cos u e files file more ->
  let flip y := 2 * (h / 2) - y in
  let bad x y := 0 <= x < w /\ 0 <= y < h /\ flip y < h /\ edge w h (flip y) x = true /\ is_black (drawn pic w h (flip y) x) = true in
  ((forall x y, ~ bad x y) -> exists p, run = Done tt p /\ forall x y, 0 <= x < w -> 0 <= y < h ->
     output_map p !! idx w y x = Some (if flip y <? h then drawn pic w h (flip y) x else junk e 2 (idx w y x))) /\
  (forall x y, bad x y -> exists f p, run = Undef f p).
Proof.
  intros Hppm Hfile Hsize Hrun fl bad. destruct (file_canvas e w h pic bytes Hppm) as (p & Hinit & Hp & <- & <- & Hpic).
  apply (mirror_runs_eq sin cos u e files file more bytes p run Hfile Hinit Hp) in Hrun. subst run.
  set (p1 := set_translation (at_int 255 170) p). assert (Hp1 : canvas p1) by done.
  assert (Hfl : forall y, fl y = flip p1 y).
  { intros y. unfold fl, flip. change (height p1) with (height p). rewrite Z.quot_div_nonneg; [done | apply Z.lt_le_incl, Hp | lia]. }
  pose proof (length_new_array (junk e 2) (width p * height p)) as Hlen. split.
  - intros Hok. destruct (mirror_done p1 Hp1 _ Hlen Hsize) as (m & -> & [_ Hmir] & Hrest).
    { intros x y Hx Hy Hlt He. apply not_true_is_false. intros Hb. apply (Hok x y). unfold bad. rewrite Hfl.
      pose proof (flip_nonneg p1 Hp1 y ltac:(lia)). change (height p1) with (height p) in *.
      change (width p1) with (width p) in *. rewrite <- Hpic by lia. done. }
    eexists. split; [reflexivity |]. intros x y Hx Hy. cbn [output_map set_output_map]. rewrite Hfl.
    pose proof (flip_nonneg p1 Hp1 y (proj2 Hy)). pose proof (flip_high p1 Hp1 y (proj1 Hy)).
    change (height p1) with (height p) in *. change (width p1) with (width p) in *.
    destruct (Z.ltb_spec (flip p1 y) (height p)).
    + rewrite Hmir by done. by rewrite <- Hpic by lia.
    + rewrite Hrest by (done || lia). by apply lookup_new_array.
  - intros x y (Hx & Hy & Hlt & He & Hb). rewrite Hfl in *. pose proof (flip_nonneg p1 Hp1 y ltac:(apply Hy)).
    apply (mirror_undef p1 Hp1 _ x y); try done. rewrite <- Hpic in Hb by lia. exact Hb.
Qed.

(** ** The translation of pr06 *)
Lemma repr_project x y z a b : repr x a -> repr y b -> repr z 1 -> repr (project x y z).1 a /\ repr (project x y z).2 b.
Proof. intros Hx Hy Hz. split; [eapply (repr_div _ _ a 1) | eapply (repr_div _ _ b 1)]; done || lia. Qed.

Lemma shift_place p i j : canvas p -> 0 <= i < width p -> 0 <= j < height p ->
  let xy := place3_center (shift 100 100).1.1 p i j in repr xy.1 (i + 100) /\ repr xy.2 (j + 100).
Proof.
  intros Hp Hi Hj. pose proof (center_bounds p Hp). pose proof (repr_center p Hp) as [Hcx Hcy]. pose proof (canvas_bounds p Hp).
  destruct (repr_offsets p Hp i j Hi Hj) as [Hx Hy]. unfold INT_MAX in *. unfold place3_center. cbn [shift fst snd a11 a12 a13 a21 a22 a23 a31 a32 a33].
  assert (Hr0 : repr (of_int 0) 0) by (by apply repr_int). assert (Hr1 : repr (of_int 1) 1) by (by apply repr_int).
  assert (Hr100 : repr (of_int 100) 100) by (by apply repr_int).
  destruct (repr_form _ _ _ _ 1 0 _ _ Hr1 Hr0 Hx Hy) as [Ha _]; try lia. destruct (repr_form _ _ _ _ 0 1 _ _ Hr0 Hr1 Hx Hy) as [Hb _]; try lia.
  destruct (repr_form _ _ _ _ 0 0 _ _ Hr0 Hr0 Hx Hy) as [Hz _]; try lia.
  apply repr_project; (eapply repr_shift; [| eassumption | |]); try apply (repr_shift _ _ _ _ _ Ha Hr100 eq_refl);
    try apply (repr_shift _ _ _ _ _ Hb Hr100 eq_refl); try exact Hz; unfold prec; lia.
Qed.

Lemma transformation_3 e m point p : canvas p ->
  transformation e m 3 point p
  = columns (forward3 (place3_center m)) (set_output_map (new_array (junk e 2) (width p * height p)) (set_translation point p)).
Proof. intros Hp. unfold transformation. cbn [Z.eqb negb andb]. exact (start_ok e point p _ Hp). Qed.

Lemma shift_run p m0 : canvas p -> length m0 = Z.to_nat (width p * height p) -> (height p + 100) * width p + 100 <= INT_MAX ->
  exists m, columns (forward3 (place3_center (shift 100 100).1.1)) (set_output_map m0 p) = Done tt (set_output_map m p) /\
    forall x y, 0 <= x < width p -> 0 <= y < height p -> m !! idx (width p) y x =
      if (100 <=? x) && (100 <=? y) then Some (colour p (y - 100) (x - 100)) else m0 !! idx (width p) y x.
Proof.
  intros Hp Hm0 Hsize. set (g := fun c : Z * Z => (c.1 + 100, c.2 + 100)). pose proof (canvas_bounds p Hp).
  destruct (put_spread p g m0 Hm0) as (_ & Hhit & Hmiss); [intros [i j] [i' j'] [= He1 He2]; f_equal; lia |].
  eexists. split.
  - apply (columns_fold p _ (put p g)); [done |]. intros m [i j] Hm Hi Hj. split; [| by apply full_put]. cbn [fst snd] in *.
    apply (forward3_exact p Hp _ g m (i, j)); try done; try (by apply shift_place); unfold g; cbn [fst snd]; nia.
  - intros x y Hx Hy. destruct ((100 <=? x) && (100 <=? y)) eqn:Hin.
    + apply (Hhit (x - 100) (y - 100) x y); try lia. unfold g. cbn [fst snd]. f_equal; lia.
    + apply Hmiss. intros i j Hi Hj Ht. apply target_some in Ht as (Hx' & Hy' & He). unfold g in *. cbn [fst snd] in *.
      apply idx_inj in He; lia.
Qed.

(** The command [translation] of pr06 on a PPM file draws every pixel 100 columns and
    100 rows further, loses those that leave the picture, and keeps in the first 100
    columns and rows what the memory held: the new array is not initialised and there is
    no second pass.*)
Lemma translation_shifts sin cos u e files file more w h pic bytes :
  ppm_file w h pic bytes -> files file = Some bytes -> (h + 100) * w + 100 <= INT_MAX ->
  exists p, main6 sin cos u e files (lit "translation" :: file :: more) = Done tt p /\
    forall x y, 0 <= x < w -> 0 <= y < h ->
      output_map p !! idx w y x = Some (if (100 <=? x) && (100 <=? y) then drawn pic w h (y - 100) (x - 100) else junk e 2 (idx w y x)).
Proof.
  intros Hppm Hfile Hsize. destruct (file_canvas e w h pic bytes Hppm) as (p & Hinit & Hp & <- & <- & Hpic).
  unfold main6. rewrite Hfile, Hinit. change (command6 sin cos u (lit "translation")) with (Some (shift 100 100)).
  change (shift 100 100) with ((shift 100 100).1.1, 3, at_int 100 100) at 1. cbn iota. rewrite transformation_3 by done.
  destruct (shift_run (set_translation (at_int 100 100) p) (new_array (junk e 2) (width p * height p)) Hp) as (m & -> & Hm);
    [apply length_new_array | done |].
  eexists. split; [reflexivity |]. intros x y Hx Hy. cbn [output_map set_output_map]. etransitivity; [by apply Hm |].
  destruct (_ && _) eqn:Hin; [by rewrite <- Hpic by lia | by apply lookup_new_array].
Qed.

(** ** The perspective of pr06 *)

(** One round of the first pass for 3 by 3 matrices writes the output array or is undefined. *)
Lemma to_i_quiet x p : quiet (to_i x) p.
Proof. apply expect_quiet. Qed.
Lemma int_of_quiet z p : quiet (int_of z) p.
Proof. unfold int_of. destruct (_ && _); [left | right]; by eexists. Qed.

Definition writes (p : myppm) (o : outcome myppm unit) : Prop :=
  match o with
  | Done _ s => exists m, s = set_output_map m p
  | Undef _ _ => True
  | Exited _ _ => False
  end.

Lemma writes_quiet {A} (x : P A) (k : A -> P unit) p s : quiet x s -> (forall a, writes p (k a s)) -> writes p (bind x k s).
Proof. unfold bind. intros [[a ->] | [f ->]] Hk; [apply Hk | done]. Qed.

Lemma forward3_round place i j m p : writes p (forward3 place i j (set_output_map m p)).
Proof.
  set (s := set_output_map m p). unfold forward3, bind at 1, this. destruct (place s i j) as [x y].
  apply writes_quiet; [apply to_i_quiet |]. intros yi. apply writes_quiet; [apply to_i_quiet |]. intros xi.
  apply writes_quiet; [apply int_of_quiet |]. intros yw. apply writes_quiet; [apply int_of_quiet |]. intros k.
  destruct (_ && _); [| by exists m]. apply writes_quiet; [apply expect_quiet |]. intros c. unfold set_output.
  destruct (inside (output_map s) k); [| done]. by exists (<[Z.to_nat k := c]> m).
Qed.

Lemma divide_by_zero x a s : repr x a -> to_int (x / S754_zero s)%D = None.
Proof.
  intros Hx. destruct (Z.eq_dec a 0) as [-> | Ha]; [by repr_zero Hx s0 |].
  by destruct (repr_finite x a Hx Ha) as (? & ? & ? & -> & _).
Qed.

(** At the offset (-50, -50) the denominator is zero. *)
Lemma perspective_zero p i j m : canvas p -> 0 <= i -> 0 <= j -> i - Z.quot (width p) 2 = -50 -> j - Z.quot (height p) 2 = -50 ->
  i < width p -> j < height p ->
  exists f s, forward3 (place3_center perspective.1.1) i j (set_output_map m p) = Undef f s.
Proof.
  intros Hp Hi Hj Hx Hy Hi' Hj'. set (s := set_output_map m p). assert (Hs : canvas s) by done.
  destruct (repr_offsets s Hs i j) as [Hdx Hdy]; [done | done |].
  pose proof (center_bounds s Hs). destruct (repr_center s Hs) as [_ Hcy]. change (width s) with (width p) in *. change (height s) with (height p) in *.
  rewrite Hx in Hdx. rewrite Hy in Hdy.
  pose proof (repr_eq _ _ _ Hdx (repr_int (-50) ltac:(done)) ltac:(done)) as Ex.
  pose proof (repr_eq _ _ _ Hdy (repr_int (-50) ltac:(done)) ltac:(done)) as Ey.
  exists IntOverflow, s. unfold forward3, bind at 1, this, place3_center, project, perspective.
  cbn [fst snd a11 a12 a13 a21 a22 a23 a31 a32 a33]. rewrite Ex, Ey.
  change (dec 1 2 * of_int (-50) + dec 1 2 * of_int (-50) + of_int 1)%D with (S754_zero false) at 1 2.
  change (of_int 1 * of_int (-50) + of_int 10 * of_int (-50) + of_int 5)%D with (of_int (-545)).
  unfold bind at 1, to_i. rewrite (divide_by_zero _ (-545 + Z.quot (height p) 2)); [done |].
  apply repr_add; [by apply repr_int | done | unfold prec, INT_MAX in *; lia].
Qed.

(** The command [perspective] of pr06 is undefined on every picture of at least 100
    columns and rows: for one pixel the denominator is exactly zero, and the quotient is
    converted to [int] before it is compared with the bounds.*)
Lemma perspective_undefined sin cos u e files file more w h pic bytes :
  ppm_file w h pic bytes -> files file = Some bytes -> 100 <= w -> 100 <= h ->
  exists f p, main6 sin cos u e files (lit "perspective" :: file :: more) = Undef f p.
Proof.
  intros Hppm Hfile Hw Hh. destruct (file_canvas e w h pic bytes Hppm) as (p & Hinit & Hp & <- & <- & _).
  unfold main6. rewrite Hfile, Hinit. change (command6 sin cos u (lit "perspective")) with (Some perspective).
  change perspective with (perspective.1.1, 3, at_int 0 0) at 1. cbn iota. rewrite transformation_3 by done.
  set (p1 := set_translation (at_int 0 0) p). rewrite columns_cells.
  assert (Hhalf : forall n, 100 <= n -> 50 <= Z.quot n 2 < n).
  { intros n Hn. rewrite Z.quot_div_nonneg by lia. split; [apply Z.div_le_lower_bound; lia | apply Z.div_lt; lia]. }
  pose proof (Hhalf _ Hw) as Hcx. pose proof (Hhalf _ Hh) as Hcy.
  apply (for_each_undef (fun s => exists m, s = set_output_map m p1)); [by eexists | |].
  - intros [i j] s _ [m ->]. pose proof (forward3_round (place3_center perspective.1.1) i j m p1) as Hr. cbn [fst snd].
    destruct (forward3 _ _ _ _) as [[] s' | | f s']; [left; by exists s' | done | right; by exists f, s'].
  - exists (Z.quot (width p) 2 - 50, Z.quot (height p) 2 - 50). split.
    + apply elem_of_cells. cbn [fst snd width height set_output_map set_translation p1]. lia.
    + intros s [m ->]. apply perspective_zero; cbn [fst snd width height set_translation p1]; try done; lia.
Qed.

(** ** The parts on their own *)

(** C31: [inv_mtrx_3x3] of pr07, read over the rational numbers, gives the inverse of every
    matrix whose determinant by [det_3x3] is not zero: both products are the identity. *)
Theorem inverse_matrix (m : mtrx3 Q) : ~ (det_3x3 m == 0)%Q ->
  mtrx_eq (mtrx_mul m (inv_mtrx_3x3 m)) identity /\ mtrx_eq (mtrx_mul (inv_mtrx_3x3 m) m) identity.
Proof. intros Hd. split; [by apply inverse_right | by apply inverse_left]. Qed.

Lemma getpixel_above p : canvas p -> getpixel (of_int 0, of_int (height p)) p = Undef OutOfBounds p.
Proof.
  intros Hp. pose proof (canvas_bounds p Hp) as [Hw Hh]. pose proof Hp as (_ & _ & Hs & _ & Hl & _). unfold INT_MAX in *.
  unfold getpixel, bind at 1, this. cbn [fst snd]. unfold bind at 1.
  rewrite (to_i_ok _ (height p)) by ((apply repr_int || idtac); unfold INT_MIN, INT_MAX; lia).
  unfold bind at 1. rewrite (to_i_ok _ 0) by (done || by apply repr_int).
  do 2 (unfold bind at 1; rewrite int_of_ok by (unfold INT_MIN, INT_MAX; nia)).
  rewrite (proj2 (Z.leb_le _ _)), (proj2 (Z.leb_le _ _)) by nia. cbn [andb].
  unfold pixel, bind, this, fetch. rewrite (proj2 (Z.ltb_ge _ _)) by nia. rewrite lookup_ge_None_2; [done |]. nia.
Qed.

(** At the coordinates of a pixel [bilinear] returns exactly the colour of the pixel,
    rounding included, except in the last column and the last row, where it reaches its
    end without returning; and [getpixel] lets one index too many pass: the first pixel of
    the row above the picture is read outside the array.*)
Lemma bilinear_at_pixels p x y : canvas p -> 0 <= x < width p -> 0 <= y < height p ->
  (if edge (width p) (height p) y x then exists f, bilinear (of_int x, of_int y) p = Undef f p
   else bilinear (of_int x, of_int y) p = Done (colour p y x) p) /\
  getpixel (of_int 0, of_int (height p)) p = Undef OutOfBounds p.
Proof.
  intros Hp Hx Hy. split; [| by apply getpixel_above]. pose proof (canvas_bounds p Hp) as [Hw Hh]. unfold INT_MAX in *.
  assert (Hrx : repr (of_int x) x) by (apply repr_int; unfold INT_MIN, INT_MAX; lia).
  assert (Hry : repr (of_int y) y) by (apply repr_int; unfold INT_MIN, INT_MAX; lia).
  unfold edge. destruct (Z.eqb_spec (x + 1) (width p)), (Z.eqb_spec (y + 1) (height p)); cbn [orb];
    try (apply (bilinear_edge p _ _ x y); done || lia). apply bilinear_inner; done || lia.
Qed.

(** ** Instances *)
Definition no_sin (x : double) : double := x.
Definition no_mtrx : mtrx3 double :=
  mk_mtrx3 (of_int 0) (of_int 0) (of_int 0) (of_int 0) (of_int 0) (of_int 0) (of_int 0) (of_int 0) (of_int 0).
Definition one_file : list Z -> option (list Z) := fun _ => Some (header [] [] (lit "1") (lit "1") (lit "255") ++ [10; 20; 30] ++ []).

Lemma mirror_flips_witness : exists p, main6 no_sin no_sin no_mtrx junk_env one_file [lit "mirror"; lit "a.ppm"] = Done tt p.
Proof.
  destruct (mirror_flips no_sin no_sin no_mtrx junk_env one_file (lit "a.ppm") [] 1 1 [mk_RGB 10 20 30] _
    (main6 no_sin no_sin no_mtrx junk_env one_file [lit "mirror"; lit "a.ppm"]) one_pixel_file eq_refl ltac:(done) ltac:(left)) as [H _].
  destruct H as (p & Hp & _); [| by exists p]. intros x y (Hx & Hy & _ & _ & Hb).
  assert (x = 0) as -> by lia. assert (y = 0) as -> by lia. done.
Defined.

Lemma translation_shifts_witness : exists p, main6 no_sin no_sin no_mtrx junk_env one_file [lit "translation"; lit "a.ppm"] = Done tt p.
Proof.
  destruct (translation_shifts no_sin no_sin no_mtrx junk_env one_file (lit "a.ppm") [] 1 1 [mk_RGB 10 20 30] _ one_pixel_file eq_refl ltac:(done))
    as (p & Hp & _). by exists p.
Defined.

(** A file of 100 by 100 equal pixels. *)
Definition big_picture : list RGB := replicate 10000 (mk_RGB 10 20 30).
Definition big_bytes : list Z := header [] [] (lit "100") (lit "100") (lit "255") ++ picture_bytes big_picture ++ [].

Lemma big_file : ppm_file 100 100 big_picture big_bytes.
Proof.
  exists [], [], (lit "100"), (lit "100"), (lit "255"), 255, []. split; [constructor |]. split; [constructor |].
  split; [solve_numeral |]. split; [solve_numeral |]. split; [solve_numeral |]. split; [done |]. split; [done |].
  split; [apply length_replicate |]. split; [by apply Forall_replicate |].
  exists (mk_RGB 10 20 30), (replicate 9999 (mk_RGB 10 20 30)). split; [apply (replicate_S 9999) | done].
Qed.

Lemma perspective_undefined_witness :
  exists f p, main6 no_sin no_sin no_mtrx junk_env (fun _ => Some big_bytes) [lit "perspective"; lit "a.ppm"] = Undef f p.
Proof.
  exact (perspective_undefined no_sin no_sin no_mtrx junk_env (fun _ => Some big_bytes) (lit "a.ppm") [] 100 100 big_picture big_bytes
    big_file eq_refl ltac:(done) ltac:(done)).
Defined.

Definition scale2 : mtrx3 Q := (mk_mtrx3 2 0 5 0 2 7 0 0 1)%Q.
Lemma inverse_matrix_witness : mtrx_eq (mtrx_mul scale2 (inv_mtrx_3x3 scale2)) identity.
Proof. apply (proj1 (inverse_matrix scale2 ltac:(vm_compute; discriminate))). Defined.

Definition four_pixels : myppm :=
  set_center (of_int 1, of_int 1) (set_pixel_map (replicate 4 (mk_RGB 1 2 3)) (set_size 4 (set_height 2 (set_width 2 zeroed)))).
Lemma bilinear_at_pixels_witness : bilinear (of_int 0, of_int 0) four_pixels = Done (mk_RGB 1 2 3) four_pixels.
Proof.
  apply (proj1 (bilinear_at_pixels four_pixels 0 0 ltac:(repeat split; try done; by repeat constructor) ltac:(done) ltac:(done))).
Defined.

End WarpMain.
