(* ===== verification/WarpNear.v ===== *)
(** * Transformations that are not exact: 2 by 2 matrices

    [bilinear] computes with doubles that are no integers.  This file bounds its rounding
    errors: inside the picture, whatever the coordinates behind the point, every channel
    that [bilinear] returns is the interpolation of the four pixels around the point over the
    rational numbers, rounded to the nearest integer up to an error of 2^-40.  It then
    describes both passes of [transform2] for every matrix: where each pixel goes, which
    pixels are filled and from where, and which runs are undefined. *)

From S2P Require Import Prelude CMem Double DoubleRange DoubleCanon DoubleNear Raster Ppm PpmRead Sweep Warp WarpFacts WarpMain.
From Stdlib Require Import ZArith QArith Qround Lqa Lia SpecFloat.
From stdpp Require Import base list numbers.
From Stdlib Require String.
Import String.StringSyntax.
Import Double DoubleRange DoubleCanon DoubleNear Raster Ppm PpmRead Sweep Warp WarpFacts WarpMain.
Open Scope Z_scope.

Module WarpNear.

(** One unit in the last place of a number between 1 and 2. *)
Definition ulp : Q := pow2 (-52).

Lemma ulp_pos : (0 < ulp)%Q.
Proof. apply pow2_pos. Qed.
Lemma ulp_small : (1048576 * ulp <= 1)%Q.
Proof. vm_compute. discriminate. Qed.
Lemma ulp_1 : (pow2 (1 - 53) == ulp)%Q.
Proof. reflexivity. Qed.
Lemma ulp_9 : (pow2 (9 - 53) == 256 * ulp)%Q.
Proof. reflexivity. Qed.
Lemma ulp_40 : (pow2 (-40) == 4096 * ulp)%Q.
Proof. reflexivity. Qed.
Lemma pow2_9 : (pow2 9 == 512)%Q.
Proof. reflexivity. Qed.
Lemma pow2_1 : (pow2 1 == 2)%Q.
Proof. reflexivity. Qed.

(** [x] is a double close to [v]. *)
Record approx (x : double) (v d : Q) : Prop := {
  approx_canonical : canonical x;
  approx_finite : finite x;
  approx_near : near (val x) v d
}.

Lemma approx_int x z : repr x z -> canonical x -> approx x (inject_Z z) 0.
Proof. intros Hr Hc. destruct (repr_val x z Hr) as [Hf Hv]. split; [done | done |]. unfold near. lra. Qed.

Lemma approx_eq x v v' d : (v == v')%Q -> approx x v d -> approx x v' d.
Proof. intros He [Hc Hf Hn]. split; [done | done |]. by apply (near_eq _ v). Qed.

(** Sums and products below 512. *)
Lemma approx_add x y a b c d : approx x a c -> approx y b d -> (- 511 <= a + b)%Q -> (a + b <= 511)%Q -> (c + d < 1)%Q ->
  approx (x + y)%D (a + b) (c + d + 256 * ulp).
Proof.
  intros [Hcx Hfx [Hx1 Hx2]] [Hcy Hfy [Hy1 Hy2]] Hlo Hhi Hd. pose proof pow2_9 as H9.
  destruct (add_near x y 9 Hfx Hfy ltac:(lia)) as [Hf [Hn1 Hn2]]; [lra | lra |]. pose proof ulp_9 as Hu.
  split; [auto with canon | done |]. unfold near. lra.
Qed.

Lemma product_near (a a' b b' c d : Q) : near a a' c -> near b b' d -> (0 <= a')%Q -> (a' <= 1)%Q -> (0 <= b')%Q -> (b' <= 255)%Q -> (0 <= c)%Q -> (0 <= d)%Q -> (d <= 1)%Q ->
  near (a * b) (a' * b') (256 * c + d).
Proof.
  intros [H1 H2] [H3 H4] Ha0 Ha1 Hb0 Hb1 Hc Hd Hd1. unfold near. split; nra.
Qed.

Lemma approx_mul x y a b c d : approx x a c -> approx y b d -> (0 <= a)%Q -> (a <= 1)%Q -> (0 <= b)%Q -> (b <= 255)%Q ->
  (0 <= c)%Q -> (c <= ulp)%Q -> (0 <= d)%Q -> (d <= 2048 * ulp)%Q -> approx (x * y)%D (a * b) (256 * c + d + 256 * ulp).
Proof.
  intros [Hcx Hfx Hx] [Hcy Hfy Hy] Ha0 Ha1 Hb0 Hb1 Hc Hcu Hd Hdu. pose proof ulp_small as Hs. pose proof ulp_pos as Hp.
  destruct (product_near _ _ _ _ _ _ Hx Hy Ha0 Ha1 Hb0 Hb1 Hc Hd ltac:(lra)) as [H1 H2]. pose proof pow2_9 as H9.
  assert (Hab : (0 <= a * b)%Q /\ (a * b <= 255)%Q) by (split; nra).
  destruct (mul_near x y 9 Hfx Hfy Hcx Hcy ltac:(lia)) as [Hf [Hn1 Hn2]]; [lra | lra |]. pose proof ulp_9 as Hu.
  split; [auto with canon | done |]. unfold near. lra.
Qed.

(** Division by the distance of neighbouring pixels, which is 1. *)
Lemma approx_div_one x y a c : approx x a c -> (- 511 <= a)%Q -> (a <= 511)%Q -> (c <= 1)%Q -> repr y 1 -> canonical y -> approx (x / y)%D a c.
Proof.
  intros [Hc Hf [H1 H2]] Ha Ha' Hc1 Hy Hcy. assert (H9 : (1024 <= pow2 900)%Q) by (change 1024%Q with (pow2 10); apply pow2_le; lia).
  destruct (div_one x y Hc Hf) as [Hv Hf']; [lra | lra | done |]. split; [auto with canon | done |]. unfold near. lra.
Qed.

(** ** One direction

    [X] is the integer below [x]; [part] what is behind the point. *)
Record in_cell (x : double) (X : Z) : Prop := {
  cell_canonical : canonical x;
  cell_finite : finite x;
  cell_low : (inject_Z X <= val x)%Q;
  cell_high : (val x < inject_Z X + 1)%Q;
  cell_range : 0 <= X <= INT_MAX
}.
Definition part (x : double) (X : Z) : Q := (val x - inject_Z X)%Q.

Lemma part_range x X : in_cell x X -> (0 <= part x X)%Q /\ (part x X <= 1)%Q.
Proof. intros [_ _ H1 H2 _]. unfold part. split; lra. Qed.

Lemma weight_right x x1 X : in_cell x X -> repr x1 X -> approx (x - x1)%D (part x X) ulp.
Proof.
  intros [Hc Hf H1 H2 HX] Hr. destruct (repr_val _ _ Hr) as [Hf1 Hv1]. pose proof pow2_1 as Hp. pose proof ulp_1 as Hu.
  destruct (sub_near x x1 1 Hf Hf1 ltac:(lia)) as [Hfs [Hn1 Hn2]]; [lra | lra |].
  split; [| done |]; [| unfold near, part; lra]. apply canonical_sub; [done | by eapply repr_canonical].
Qed.

Lemma weight_left x x2 X : in_cell x X -> repr x2 (X + 1) -> approx (x2 - x)%D (1 - part x X) ulp.
Proof.
  intros [Hc Hf H1 H2 HX] Hr. destruct (repr_val _ _ Hr) as [Hf1 Hv1]. rewrite inject_Z_plus in Hv1. change (inject_Z 1) with 1%Q in Hv1.
  pose proof pow2_1 as Hp. pose proof ulp_1 as Hu.
  destruct (sub_near x2 x 1 Hf1 Hf ltac:(lia)) as [Hfs [Hn1 Hn2]]; [lra | lra |].
  split; [| done |]; [| unfold near, part; lra]. apply canonical_sub; [by eapply repr_canonical | done].
Qed.

(** ** Both directions *)
Definition lerp (t a b : Q) : Q := ((1 - t) * a + t * b)%Q.

Lemma lerp_range t a b : (0 <= t)%Q -> (t <= 1)%Q -> (0 <= a)%Q -> (a <= 255)%Q -> (0 <= b)%Q -> (b <= 255)%Q -> (0 <= lerp t a b)%Q /\ (lerp t a b <= 255)%Q.
Proof. intros. unfold lerp. split; nra. Qed.

Lemma byte_range q : is_byte q -> (0 <= inject_Z q)%Q /\ (inject_Z q <= 255)%Q.
Proof. unfold is_byte. intros H. change 0%Q with (inject_Z 0). change 255%Q with (inject_Z 255). rewrite <- !Zle_Qle. lia. Qed.

Lemma row_near x x1 x2 X u v : in_cell x X -> repr x1 X -> repr x2 (X + 1) -> is_byte u -> is_byte v ->
  approx (of_int u * (x2 - x) / (x2 - x1) + of_int v * (x - x1) / (x2 - x1))%D (lerp (part x X) (inject_Z u) (inject_Z v)) (1280 * ulp).
Proof.
  intros Hx H1 H2 Hu Hv. pose proof (part_range x X Hx) as [Hp0 Hp1]. pose proof (byte_range u Hu) as [Hu0 Hu1]. pose proof (byte_range v Hv) as [Hv0 Hv1].
  pose proof ulp_pos as Hup. pose proof ulp_small as Hus. unfold is_byte in *.
  assert (Hd : repr (x2 - x1)%D 1) by (apply (repr_diff _ _ (X + 1) X); done || lia). pose proof (repr_canonical _ _ Hd) as Hdc.
  assert (Hq : forall q w t, is_byte q -> approx w t ulp -> (0 <= t)%Q -> (t <= 1)%Q ->
    approx (of_int q * w / (x2 - x1))%D (inject_Z q * t) (512 * ulp)).
  { intros q w t Hqb Hw Ht0 Ht1. pose proof (byte_range q Hqb) as [Hq0 Hq1]. unfold is_byte in Hqb.
    apply approx_div_one; [| nra | nra | lra | done | done].
    assert (Hqi : approx (of_int q) (inject_Z q) 0) by (apply approx_int; [apply repr_of_int; unfold prec; lia | apply canonical_of_int]).
    destruct Hqi as [Hqc Hqf Hqn]. destruct Hw as [Hwc Hwf Hwn].
    destruct (product_near _ _ _ _ _ _ Hwn Hqn Ht0 Ht1 Hq0 Hq1) as [Hp1' Hp2']; [lra | lra | lra |]. pose proof pow2_9 as H9.
    assert (Hqt : (0 <= t * inject_Z q)%Q /\ (t * inject_Z q <= 255)%Q) by (split; nra).
    destruct (mul_near (of_int q) w 9 Hqf Hwf Hqc Hwc ltac:(lia)) as [Hf [Hn1 Hn2]]; [lra | lra |]. pose proof ulp_9 as Hu9.
    split; [auto with canon | done |]. unfold near. lra. }
  pose proof (Hq u _ _ Hu (weight_left x x2 X Hx H2) ltac:(lra) ltac:(lra)) as Ha.
  pose proof (Hq v _ _ Hv (weight_right x x1 X Hx H1) ltac:(lra) ltac:(lra)) as Hb.
  pose proof (lerp_range (part x X) _ _ Hp0 Hp1 Hu0 Hu1 Hv0 Hv1) as [Hl0 Hl1]. unfold lerp in *.
  pose proof (approx_add _ _ _ _ _ _ Ha Hb ltac:(lra) ltac:(lra) ltac:(lra)) as [Hc Hf [Hn1 Hn2]].
  split; [done | done |]. unfold near. lra.
Qed.

(** The interpolation of four values, exactly. *)
Definition exact (x y : Q) (q11 q21 q12 q22 : Z) : Q :=
  lerp y (lerp x (inject_Z q11) (inject_Z q21)) (lerp x (inject_Z q12) (inject_Z q22)).

(** [z] is [v] rounded to the nearest integer, up to an error of 2^-40. *)
Definition rounds (z : Z) (v : Q) : Prop := (2 * v - 1 - 2 * pow2 (-40) <= 2 * inject_Z z /\ 2 * inject_Z z <= 2 * v + 1 + 2 * pow2 (-40))%Q.

Lemma half_val : canonical half /\ finite half /\ (2 * val half == 1)%Q.
Proof. vm_compute. repeat split. Qed.

Lemma blend_near x y x1 x2 y1 y2 X Y q11 q21 q12 q22 :
  in_cell x X -> repr x1 X -> repr x2 (X + 1) -> in_cell y Y -> repr y1 Y -> repr y2 (Y + 1) ->
  is_byte q11 -> is_byte q21 -> is_byte q12 -> is_byte q22 ->
  exists z, (forall p : myppm, blend x y x1 x2 y1 y2 q11 q21 q12 q22 p = Done z p) /\ is_byte z /\
    rounds z (exact (part x X) (part y Y) q11 q21 q12 q22).
Proof.
  intros Hx Hx1 Hx2 Hy Hy1 Hy2 H11 H21 H12 H22. pose proof (row_near x x1 x2 X q11 q21 Hx Hx1 Hx2 H11 H21) as HB.
  pose proof (row_near x x1 x2 X q12 q22 Hx Hx1 Hx2 H12 H22) as HE. pose proof (part_range x X Hx) as [Hx0 Hx1'].
  pose proof (part_range y Y Hy) as [Hy0 Hy1']. pose proof (byte_range _ H11) as [? ?]. pose proof (byte_range _ H21) as [? ?].
  pose proof (byte_range _ H12) as [? ?]. pose proof (byte_range _ H22) as [? ?].
  pose proof (lerp_range (part x X) (inject_Z q11) (inject_Z q21) Hx0 Hx1' ltac:(done) ltac:(done) ltac:(done) ltac:(done)) as [HB0 HB1].
  pose proof (lerp_range (part x X) (inject_Z q12) (inject_Z q22) Hx0 Hx1' ltac:(done) ltac:(done) ltac:(done) ltac:(done)) as [HE0 HE1].
  pose proof (lerp_range (part y Y) _ _ Hy0 Hy1' HB0 HB1 HE0 HE1) as [HT0 HT1]. fold (exact (part x X) (part y Y) q11 q21 q12 q22) in HT0, HT1.
  set (B := lerp (part x X) (inject_Z q11) (inject_Z q21)) in *. set (E := lerp (part x X) (inject_Z q12) (inject_Z q22)) in *.
  pose proof ulp_pos as Hup. pose proof ulp_small as Hus. pose proof ulp_40 as Hu40.
  assert (Hd : repr (y2 - y1)%D 1) by (apply (repr_diff _ _ (Y + 1) Y); done || lia). pose proof (repr_canonical _ _ Hd) as Hdc.
  pose proof (approx_div_one _ _ _ _ (weight_left y y2 Y Hy Hy2) ltac:(lra) ltac:(lra) ltac:(lra) Hd Hdc) as HA.
  pose proof (approx_div_one _ _ _ _ (weight_right y y1 Y Hy Hy1) ltac:(lra) ltac:(lra) ltac:(lra) Hd Hdc) as HD.
  pose proof (approx_mul _ _ _ _ _ _ HA HB ltac:(lra) ltac:(lra) HB0 HB1 ltac:(lra) ltac:(lra) ltac:(lra) ltac:(lra)) as HAB.
  pose proof (approx_mul _ _ _ _ _ _ HD HE ltac:(lra) ltac:(lra) HE0 HE1 ltac:(lra) ltac:(lra) ltac:(lra) ltac:(lra)) as HDE.
  assert (Hex : (exact (part x X) (part y Y) q11 q21 q12 q22 == (1 - part y Y) * B + part y Y * E)%Q) by reflexivity.
  pose proof (approx_add _ _ _ _ _ _ HAB HDE ltac:(lra) ltac:(lra) ltac:(lra)) as HS.
  destruct half_val as (Hhc & Hhf & Hhv). assert (Hh : approx half (val half) 0) by (split; [done | done | unfold near; lra]).
  pose proof (approx_add _ _ _ _ _ _ HS Hh ltac:(lra) ltac:(lra) ltac:(lra)) as [Hc Hf [Hn1 Hn2]].
  unfold blend. set (t := (_ + half)%D) in *. destruct (trunc_val t Hc Hf ltac:(lra)) as (z & Ht & Hz & Hz1 & Hz2).
  assert (Hz255 : z <= 255). { enough (z < 256) by lia. rewrite Zlt_Qlt. change (inject_Z 256) with 256%Q. lra. }
  exists z. unfold to_uchar. rewrite Ht. rewrite (proj2 (Z.leb_le _ _)), (proj2 (Z.leb_le _ _)) by lia. cbn [andb expect].
  split; [done |]. split; [unfold is_byte; lia |]. unfold rounds. split; lra.
Qed.

(** ** [bilinear] *)
Lemma cell_of x : canonical x -> finite x -> (0 <= val x)%Q -> (val x < 2147483648)%Q ->
  exists X, in_cell x X /\ repr (floor x) X /\ trunc x = Some X.
Proof.
  intros Hc Hf H0 Hhi. assert (H40 : (val x < pow2 40)%Q) by (apply (Qlt_trans _ 2147483648); [done | reflexivity]).
  destruct (floor_val x Hc Hf H0 H40) as (X & HX & Hr & Hlo & Hup). destruct (trunc_val x Hc Hf H0) as (z & Ht & Hz & Hzlo & Hzup).
  assert (Hle : X < 2147483648) by (rewrite Zlt_Qlt; change (inject_Z 2147483648) with 2147483648%Q; lra).
  assert (z = X) as ->; [| exists X; repeat split; try done; unfold INT_MAX; lia].
  assert (z < X + 1) by (rewrite Zlt_Qlt, inject_Z_plus; change (inject_Z 1) with 1%Q; lra).
  assert (X < z + 1) by (rewrite Zlt_Qlt, inject_Z_plus; change (inject_Z 1) with 1%Q; lra). lia.
Qed.

(** The exact interpolation of a channel at a point of the picture. *)
Definition sample (p : myppm) (x y : Q) (X Y : Z) (ch : RGB -> Z) : Q :=
  exact x y (ch (colour p Y X)) (ch (colour p Y (X + 1))) (ch (colour p (Y + 1) X)) (ch (colour p (Y + 1) (X + 1))).
Definition samples (p : myppm) (x y : Q) (X Y : Z) (c : RGB) : Prop :=
  rounds (red c) (sample p x y X Y red) /\ rounds (green c) (sample p x y X Y green) /\ rounds (blue c) (sample p x y X Y blue).

Lemma bilinear_near p x y X Y : canvas p -> in_cell x X -> in_cell y Y -> repr (floor x) X -> repr (floor y) Y ->
  X + 1 < width p -> Y + 1 < height p ->
  exists c, (forall m, bilinear (x, y) (set_output_map m p) = Done c (set_output_map m p)) /\ byte_pixel c /\
    samples p (part x X) (part y Y) X Y c.
Proof.
  intros Hp Hx Hy Hfx Hfy HX HY. pose proof (canvas_bounds p Hp) as [Hw Hh]. pose proof (cell_range _ _ Hx) as HXr. pose proof (cell_range _ _ Hy) as HYr.
  unfold INT_MAX in *. pose proof (repr_next _ _ Hfx ltac:(unfold INT_MAX; lia)) as Hx2. pose proof (repr_next _ _ Hfy ltac:(unfold INT_MAX; lia)) as Hy2.
  pose proof (colour_byte p Y X Hp) as (? & ? & ?). pose proof (colour_byte p Y (X + 1) Hp) as (? & ? & ?).
  pose proof (colour_byte p (Y + 1) X Hp) as (? & ? & ?). pose proof (colour_byte p (Y + 1) (X + 1) Hp) as (? & ? & ?).
  assert (Hch : forall ch, is_byte (ch (colour p Y X)) -> is_byte (ch (colour p Y (X + 1))) -> is_byte (ch (colour p (Y + 1) X)) -> is_byte (ch (colour p (Y + 1) (X + 1))) ->
    exists z, (forall q : myppm, blend x y (floor x) (floor x + of_int 1)%D (floor y) (floor y + of_int 1)%D (ch (colour p Y X)) (ch (colour p Y (X + 1))) (ch (colour p (Y + 1) X)) (ch (colour p (Y + 1) (X + 1))) q = Done z q)
      /\ is_byte z /\ rounds z (sample p (part x X) (part y Y) X Y ch)) by (intros; by apply blend_near).
  destruct (Hch red) as (r & Hr & Hrb & Hrn); [done..|]. destruct (Hch green) as (g & Hg & Hgb & Hgn); [done..|].
  destruct (Hch blue) as (b & Hb & Hbb & Hbn); [done..|]. exists (mk_RGB r g b). split; [| by split; (split; [done | by split])].
  intros m. pose proof (canvas_output m p Hp) as Hpm. unfold bilinear, bind at 1, this. cbn [fst snd width height set_output_map].
  rewrite (repr_ltb _ _ _ _ Hx2 (repr_int (width p) ltac:(unfold INT_MIN, INT_MAX; lia))).
  rewrite (repr_ltb _ _ _ _ Hy2 (repr_int (height p) ltac:(unfold INT_MIN, INT_MAX; lia))).
  rewrite (proj2 (Z.ltb_lt _ _)), (proj2 (Z.ltb_lt _ _)) by lia. cbn [andb].
  unfold bind at 1. rewrite (getpixel_ok _ _ _ X Y Hpm) by (done || cbn; lia).
  unfold bind at 1. rewrite (getpixel_ok _ _ _ (X + 1) Y Hpm) by (done || cbn; lia).
  unfold bind at 1. rewrite (getpixel_ok _ _ _ X (Y + 1) Hpm) by (done || cbn; lia).
  unfold bind at 1. rewrite (getpixel_ok _ _ _ (X + 1) (Y + 1) Hpm) by (done || cbn; lia).
  apply (each_ok _ (mk_RGB r g b)); [apply Hr | apply Hg | apply Hb].
Qed.

(** ** Places over the rational numbers *)
Definition finiteb (x : double) : bool := match x with S754_zero _ => true | S754_finite _ _ _ => true | _ => false end.

Lemma finiteb_true x : finiteb x = true <-> finite x.
Proof. by destruct x. Qed.

Lemma floor_cell x X : in_cell x X -> Qfloor (val x) = X.
Proof.
  intros [_ _ H1 H2 _]. pose proof (Qfloor_le (val x)) as Hlo. pose proof (Qlt_floor (val x)) as Hup.
  assert (Qfloor (val x) < X + 1) by (rewrite Zlt_Qlt, inject_Z_plus; change (inject_Z 1) with 1%Q; lra).
  assert (X < Qfloor (val x) + 1) by (rewrite Zlt_Qlt; lra). lia.
Qed.

Section Resample.
Variable p : myppm.
Hypothesis Hp : canvas p.
Abbreviation w := (width p).
Abbreviation h := (height p).
Abbreviation full m := (length m = Z.to_nat (w * h)).

(** The pixel of the picture a place lies in. *)
Definition spot (o : XY) : option (Z * Z) :=
  let X := Qfloor (val o.1) in
  let Y := Qfloor (val o.2) in
  if finiteb o.1 && finiteb o.2 && ((0 <=? X) && (X <? w) && ((0 <=? Y) && (Y <? h))) then Some (X, Y) else None.

Lemma spot_none o : (forall X Y, finite o.1 -> finite o.2 -> X = Qfloor (val o.1) -> Y = Qfloor (val o.2) -> 0 <= X < w -> 0 <= Y < h -> False) -> spot o = None.
Proof.
  intros H. unfold spot. destruct (_ && _) eqn:Hs; [| done]. rewrite !andb_true_iff, !finiteb_true, !Z.leb_le, !Z.ltb_lt in Hs.
  destruct (H _ _ (proj1 (proj1 Hs)) (proj2 (proj1 Hs)) eq_refl eq_refl); apply Hs.
Qed.

Lemma spot_cells o X Y : in_cell o.1 X -> in_cell o.2 Y -> X < w -> Y < h -> spot o = Some (X, Y).
Proof.
  intros Hx Hy HX HY. pose proof (cell_range _ _ Hx). pose proof (cell_range _ _ Hy). unfold spot. rewrite (floor_cell _ _ Hx), (floor_cell _ _ Hy).
  rewrite (proj2 (finiteb_true _) (cell_finite _ _ Hx)), (proj2 (finiteb_true _) (cell_finite _ _ Hy)). cbn [andb].
  by rewrite !(proj2 (Z.leb_le _ _)), !(proj2 (Z.ltb_lt _ _)) by lia.
Qed.

(** The guards of the first pass say that the place lies in the picture. *)
Lemma guard_lt x lim : canonical x -> 0 < lim <= INT_MAX ->
  if ((x >=? of_int 0) && (x <? of_int lim))%D then exists X, in_cell x X /\ X < lim /\ trunc x = Some X
  else ~ (finite x /\ 0 <= Qfloor (val x) < lim).
Proof.
  intros Hc Hl. unfold INT_MAX in Hl. destruct (_ && _) eqn:Hg.
  - apply andb_prop in Hg as [H0 Hlt]. assert (Hf : finite x) by (apply (guard_finite x lim); [lia | done | by apply lt_le]).
    apply ge_zero in H0; [| done]. apply lt_int in Hlt; [| done | done | lia].
    assert (Hm : (inject_Z lim <= 2147483647)%Q) by (change 2147483647%Q with (inject_Z 2147483647); rewrite <- Zle_Qle; lia).
    destruct (cell_of x Hc Hf H0) as (X & Hcell & _ & Ht); [lra |]. exists X. split; [done |]. split; [| done].
    rewrite Zlt_Qlt. pose proof (cell_low _ _ Hcell). lra.
  - intros (Hf & H0 & Hlt). apply andb_false_iff in Hg as [Hg | Hg]; apply not_true_iff_false in Hg; apply Hg.
    + apply ge_zero; [done |]. pose proof (Qfloor_le (val x)). change 0%Q with (inject_Z 0). apply (Qle_trans _ (inject_Z (Qfloor (val x)))); [by rewrite <- Zle_Qle | done].
    + apply lt_int; [done | done | lia |]. apply (Qlt_le_trans _ _ _ (Qlt_floor _)). rewrite <- Zle_Qle. lia.
Qed.

(** ** The first pass *)
Definition drop (place : Z -> Z -> XY) (m : list RGB) (c : Z * Z) : list RGB :=
  match spot (place c.1 c.2) with Some (X, Y) => <[idx w Y X := colour p c.2 c.1]> m | None => m end.
Definition moved (place : Z -> Z -> XY) (m0 : list RGB) : list RGB := fold_left (drop place) (cells 0 w 0 h) m0.

Lemma full_drop place m c : full m -> full (drop place m c).
Proof. intros Hm. unfold drop. destruct (spot _) as [[X Y] |]; [by rewrite length_insert | done]. Qed.

Lemma full_moved place m : full m -> full (moved place m).
Proof. unfold moved. revert m. induction (cells 0 w 0 h) as [| c l IH]; intros m Hm; [done |]. by apply IH, full_drop. Qed.

Lemma to_i_trunc x X (q : myppm) : trunc x = Some X -> INT_MIN <= X <= INT_MAX -> to_i x q = Done X q.
Proof.
  intros Ht HX. unfold INT_MIN, INT_MAX in HX. unfold to_i, to_int. rewrite Ht. by rewrite (proj2 (Z.leb_le _ _)), (proj2 (Z.leb_le _ _)) by lia.
Qed.

Lemma forward_drop place m c : full m -> 0 <= c.1 < w -> 0 <= c.2 < h ->
  (forall m', place (set_output_map m' p) = place p) -> canonical (place p c.1 c.2).1 -> canonical (place p c.1 c.2).2 ->
  forward place c.1 c.2 (set_output_map m p) = Done tt (set_output_map (drop (place p) m c) p).
Proof.
  intros Hm Hi Hj Hpl Hcx Hcy. unfold forward, bind at 1, this. rewrite Hpl. unfold drop.
  pose proof (canvas_bounds p Hp) as [Hw Hh]. destruct (place p c.1 c.2) as [a b] eqn:Hab. cbn [fst snd] in Hcx, Hcy.
  cbn [width height size set_output_map]. rewrite <- !andb_assoc, (andb_assoc (_ <=? _)%D).
  pose proof (guard_lt a w Hcx Hw) as Hga. pose proof (guard_lt b h Hcy Hh) as Hgb.
  destruct (_ && _)%D; cbn [andb].
  2: { rewrite spot_none; [done |]. intros X Y Hf _ -> _ HX _. by apply Hga. }
  destruct (_ && _)%D; cbn [andb].
  2: { rewrite spot_none; [done |]. intros X Y _ Hf _ -> _ HY. by apply Hgb. }
  destruct Hga as (X & Hx & HX & Htx), Hgb as (Y & Hy & HY & Hty). rewrite (spot_cells (a, b) X Y Hx Hy HX HY).
  pose proof (cell_range _ _ Hx). pose proof (cell_range _ _ Hy). assert (HX' : 0 <= X < w) by lia. assert (HY' : 0 <= Y < h) by lia.
  pose proof (idx_bound w h Y X HX' HY'). assert (Hs : size p = w * h /\ w * h <= INT_MAX) by (split; apply Hp). rewrite (proj1 Hs). unfold INT_MAX in *.
  unfold bind at 1. rewrite (to_i_trunc b Y) by (done || unfold INT_MIN, INT_MAX; lia).
  unfold bind at 1. rewrite (to_i_trunc a X) by (done || unfold INT_MIN, INT_MAX; lia).
  do 2 (unfold bind at 1; rewrite int_of_ok by (unfold INT_MIN, INT_MAX; nia)).
  rewrite (proj2 (Z.ltb_lt _ _)), (proj2 (Z.leb_le _ _)) by lia. cbn [andb]. by rewrite (copy_ok p Hp).
Qed.
(** A first pass that checks each place before it draws. *)
Lemma columns_checked body (ok : Z * Z -> bool) (T : list RGB -> Z * Z -> list RGB) m0 : full m0 -> (forall m c, full m -> full (T m c)) ->
  (forall m c, full m -> 0 <= c.1 < w -> 0 <= c.2 < h -> let run := body c.1 c.2 (set_output_map m p) in
    if ok c then run = Done tt (set_output_map (T m c) p) else exists f, run = Undef f (set_output_map m p)) ->
  let run := columns body (set_output_map m0 p) in
  if forallb ok (cells 0 w 0 h) then run = Done tt (set_output_map (fold_left T (cells 0 w 0 h) m0) p) else exists f s, run = Undef f s.
Proof.
  intros Hm0 HT Hround. cbn zeta in *. destruct (forallb ok (cells 0 w 0 h)) eqn:Hall.
  - apply (columns_fold p _ T); [done |]. intros m c Hm Hi Hj. split; [| by apply HT].
    specialize (Hround m c Hm Hi Hj). rewrite forallb_forall in Hall.
    rewrite (Hall c) in Hround; [done |]. apply list_elem_of_In. by apply elem_of_cells.
  - rewrite columns_cells. cbn [width height set_output_map].
    apply (for_each_undef (fun s => exists m, s = set_output_map m p /\ full m)); [by exists m0 | |].
    + intros c s Hc (m & -> & Hm). apply elem_of_cells in Hc as [Hi Hj]. specialize (Hround m c Hm Hi Hj). destruct (ok c).
      * left. eexists. split; [exact Hround |]. eexists. split; [reflexivity | by apply HT].
      * right. destruct Hround as [f Hf]. by eexists _, _.
    + assert (Hbad : existsb (fun c => negb (ok c)) (cells 0 w 0 h) = true).
      { clear -Hall. induction (cells 0 w 0 h) as [| c l IH]; [done |]. cbn [forallb existsb] in *. destruct (ok c); [by apply IH | done]. }
      apply existsb_exists in Hbad as (c & Hc & Hf). apply list_elem_of_In in Hc. exists c. split; [done |].
      intros s (m & -> & Hm). apply elem_of_cells in Hc as [Hi Hj]. specialize (Hround m c Hm Hi Hj). apply negb_true_iff in Hf. rewrite Hf in Hround.
      destruct Hround as [f Hr]. by eexists _, _.
Qed.

(** ** The second pass *)
Lemma guard_le x lim : canonical x -> 0 < lim <= INT_MAX ->
  if ((x >=? of_int 0) && (x <=? of_int lim))%D
  then exists X, in_cell x X /\ repr (floor x) X /\ trunc x = Some X /\ X <= lim /\ (X = lim -> (val x == inject_Z lim)%Q)
  else ~ (finite x /\ 0 <= val x /\ val x <= inject_Z lim)%Q.
Proof.
  intros Hc Hl. unfold INT_MAX in Hl. destruct (_ && _) eqn:Hg.
  - apply andb_prop in Hg as [H0 Hle]. assert (Hf : finite x) by (apply (guard_finite x lim); [lia | done..]).
    apply ge_zero in H0; [| done]. apply le_int in Hle; [| done | done | lia].
    assert (Hm : (inject_Z lim <= 2147483647)%Q) by (change 2147483647%Q with (inject_Z 2147483647); rewrite <- Zle_Qle; lia).
    destruct (cell_of x Hc Hf H0) as (X & Hcell & Hr & Ht); [lra |]. pose proof (cell_low _ _ Hcell) as Hlow.
    exists X. split; [done |]. split; [done |]. split; [done |]. split; [rewrite Zle_Qle; lra | intros ->; lra].
  - intros (Hf & H0 & Hle). apply andb_false_iff in Hg as [Hg | Hg]; apply not_true_iff_false in Hg; apply Hg.
    + by apply ge_zero.
    + apply le_int; [done | done | lia | done].
Qed.

(** Origins for which [bilinear] does not return: in the last row or column, or exactly one
    column behind it. *)
Definition beyond (o : XY) : bool :=
  match spot o with
  | Some (X, Y) => negb ((X + 1 <? w) && (Y + 1 <? h))
  | None => finiteb o.1 && finiteb o.2 && Qeq_bool (val o.1) (inject_Z w) && ((0 <=? Qfloor (val o.2)) && (Qfloor (val o.2) + 1 <? h))
  end.

(** What a pixel becomes that was [old]. *)
Definition filled (o : XY) (old new : RGB) : Prop :=
  match spot o with
  | Some (X, Y) => if is_black old then samples p (part o.1 X) (part o.2 Y) X Y new else new = old
  | None => new = old
  end.

(** The tests before [bilinear]. *)
Lemma outside_kept o : canonical o.1 -> canonical o.2 ->
  ((o.1 >=? of_int 0) && (o.1 <=? of_int w) && ((o.2 >=? of_int 0) && (o.2 <=? of_int h)))%D = false -> spot o = None /\ beyond o = false.
Proof.
  intros Hcx Hcy Hg. pose proof (canvas_bounds p Hp) as [Hw Hh]. pose proof (guard_le _ w Hcx Hw) as Hx. pose proof (guard_le _ h Hcy Hh) as Hy.
  assert (Hn : ~ ((finite o.1 /\ 0 <= val o.1 /\ val o.1 <= inject_Z w) /\ (finite o.2 /\ 0 <= val o.2 /\ val o.2 <= inject_Z h))%Q).
  { apply andb_false_iff in Hg as [Hg | Hg]; rewrite Hg in *; [by intros [? _] | by intros [_ ?]]. }
  assert (Hin : forall q lim, 0 <= Qfloor q < lim -> (0 <= q /\ q <= inject_Z lim)%Q).
  { intros q lim [H0 Hlt]. pose proof (Qfloor_le q). split.
    - apply (Qle_trans _ (inject_Z (Qfloor q))); [| done]. change 0%Q with (inject_Z 0). by rewrite <- Zle_Qle.
    - apply Qlt_le_weak. apply (Qlt_le_trans _ _ _ (Qlt_floor q)). rewrite <- Zle_Qle. lia. }
  assert (Hs : spot o = None).
  { apply spot_none. intros X Y Hfx Hfy -> -> HX HY. apply Hn. destruct (Hin _ _ HX), (Hin _ _ HY). done. }
  split; [done |]. unfold beyond. rewrite Hs. apply not_true_is_false. intros Hb.
  rewrite !andb_true_iff, !finiteb_true, Z.leb_le, Z.ltb_lt in Hb. destruct Hb as (((Hfx & Hfy) & He) & HY).
  apply Qeq_bool_eq in He. apply Hn. destruct (Hin (val o.2) h ltac:(lia)). split; [| done]. split; [done |]. split; [| lra].
  rewrite He. change 0%Q with (inject_Z 0). rewrite <- Zle_Qle. lia.
Qed.

Lemma and4 a b c d : a && b && c && d = (a && c && (b && d)).
Proof. by destruct a, b, c, d. Qed.

(** The step after the tests, for an origin in column [X], row [Y]. *)
Lemma lookup_round m i j a b X Y : full m -> 0 <= i < w -> 0 <= j < h -> in_cell a X -> in_cell b Y -> repr (floor a) X -> repr (floor b) Y ->
  X <= w -> Y <= h -> (X = w -> (val a == inject_Z w)%Q) ->
  let fill := (if Y * w + X <? w * h then let* v := bilinear (a, b) in set_output (j * w + i) v else ret tt) (set_output_map m p) in
  if beyond (a, b) then exists f, fill = Undef f (set_output_map m p)
  else match spot (a, b) with
       | Some (X, Y) => exists v, fill = Done tt (set_output_map (<[idx w j i := v]> m) p) /\ byte_pixel v /\ samples p (part a X) (part b Y) X Y v
       | None => fill = Done tt (set_output_map m p)
       end.
Proof.
  intros Hm Hi Hj Ha Hb Hfa Hfb HX HY HXe fill. subst fill. pose proof (cell_range _ _ Ha). pose proof (cell_range _ _ Hb). unfold beyond.
  pose proof (canvas_bounds p Hp) as [Hw Hh]. unfold INT_MAX in *. set (s := set_output_map m p). assert (Hps : canvas s) by done.
  assert (Hbey : Y < h -> ~ (X + 1 < w /\ Y + 1 < h) -> exists f, (let* v := bilinear (a, b) in set_output (j * w + i) v) s = Undef f s).
  { intros HYh Hn. destruct (bilinear_beyond s a b X Y Hps Hfa Hfb) as [f Hf]; [cbn; lia | cbn; lia | done |].
    exists f. unfold bind. by rewrite Hf. }
  destruct (decide (X < w /\ Y < h)) as [[HXlt HYlt] | Hout].
  - rewrite (spot_cells (a, b) X Y) by done. rewrite (proj2 (Z.ltb_lt (Y * w + X) _)) by nia.
    destruct (Z.ltb_spec (X + 1) w), (Z.ltb_spec (Y + 1) h); cbn [andb negb]; try (apply Hbey; lia).
    destruct (bilinear_near p a b X Y Hp Ha Hb Hfa Hfb) as (v & Hv & Hbyte & Hs); [done | done |]. exists v. split; [| done].
    rewrite (bind_done _ _ _ _ _ (Hv m)). unfold set_output. cbn [output_map set_output_map].
    pose proof (idx_bound w h j i Hi Hj). by rewrite inside_true by lia.
  - rewrite spot_none. 2: { cbn [fst snd]. rewrite (floor_cell _ _ Ha), (floor_cell _ _ Hb). intros ? ? _ _ -> -> ? ?. lia. }
    cbn [fst snd]. rewrite (floor_cell _ _ Hb), (proj2 (finiteb_true _) (cell_finite _ _ Ha)), (proj2 (finiteb_true _) (cell_finite _ _ Hb)). cbn [andb].
    destruct (Z.ltb_spec (Y * w + X) (w * h)) as [Hlt | Hge].
    + assert (X = w) as -> by nia. assert (Y + 1 < h) by nia. rewrite (proj2 (Qeq_bool_iff _ _) (HXe eq_refl)).
      rewrite (proj2 (Z.leb_le _ _)), (proj2 (Z.ltb_lt _ _)) by lia. cbn [andb]. apply Hbey; lia.
    + destruct (Qeq_bool _ _ && _) eqn:He; [| done]. rewrite !andb_true_iff, Z.ltb_lt in He. destruct He as (He & _ & HYh).
      apply Qeq_bool_eq in He. assert (X = w); [| nia]. rewrite <- (floor_cell _ _ Ha), He. apply Qfloor_Z.
Qed.

Section Round.
Variables (origin : myppm -> Z -> Z -> XY) (m : list RGB) (i j : Z).
Hypothesis Hm : full m.
Hypothesis Hi : 0 <= i < w.
Hypothesis Hj : 0 <= j < h.
Hypothesis Horigin : forall m', origin (set_output_map m' p) = origin p.
Hypothesis Hcx : canonical (origin p i j).1.
Hypothesis Hcy : canonical (origin p i j).2.
Hypothesis Hsize : w * (h + 1) <= INT_MAX.
Abbreviation s := (set_output_map m p).
Abbreviation o := (origin p i j).

Lemma backward_round :
  if is_black (at_ m w j i) then
    if beyond o then exists f, backward origin true i j s = Undef f s
    else match spot o with
         | Some (X, Y) => exists v, backward origin true i j s = Done tt (set_output_map (<[idx w j i := v]> m) p) /\
                            byte_pixel v /\ samples p (part o.1 X) (part o.2 Y) X Y v
         | None => backward origin true i j s = Done tt s
         end
  else backward origin true i j s = Done tt s.
Proof.
  destruct (is_black (at_ m w j i)) eqn:Hb; [| by apply backward_coloured]. pose proof (canvas_bounds p Hp) as [Hw Hh].
  remember (backward origin true i j s) as run eqn:Hrun. unfold backward, bind at 1, this in Hrun. change (width s) with w in Hrun.
  rewrite (backward_start p m i j) in Hrun by done. rewrite Hb, Horigin in Hrun.
  pose proof (outside_kept o Hcx Hcy) as Hout. pose proof (guard_le _ w Hcx Hw) as Hx. pose proof (guard_le _ h Hcy Hh) as Hy.
  destruct o as [a b]. cbn [fst snd] in *. change (size s) with (size p) in Hrun. change (height s) with h in Hrun. rewrite and4 in Hrun.
  match type of Hx with if ?g then _ else _ => destruct g end; cbn [andb] in *; [| by destruct (Hout eq_refl) as [-> ->]].
  match type of Hy with if ?g then _ else _ => destruct g end; [clear Hout | by destruct (Hout eq_refl) as [-> ->]].
  destruct Hx as (X & HXc & HXf & HXt & HXw & HXe), Hy as (Y & HYc & HYf & HYt & HYh & _).
  pose proof (cell_range _ _ HXc). pose proof (cell_range _ _ HYc). unfold INT_MAX in *.
  unfold bind at 1 in Hrun. rewrite (to_i_trunc b Y) in Hrun by (done || unfold INT_MIN, INT_MAX; lia).
  unfold bind at 1 in Hrun. rewrite (to_i_trunc a X) in Hrun by (done || unfold INT_MIN, INT_MAX; lia).
  do 2 (unfold bind at 1 in Hrun; rewrite int_of_ok in Hrun by (unfold INT_MIN, INT_MAX; nia)).
  assert (size p = w * h) as Hsz by apply Hp. rewrite Hsz, (proj2 (Z.leb_le 0 _)) in Hrun by nia. cbn [andb] in Hrun. clear Hsz. subst run.
  apply lookup_round; (done || lia).
Qed.
End Round.
(** The values of the other pixels. *)
Lemma at_insert m v i j i' j' : full m -> 0 <= i < w -> 0 <= j < h -> 0 <= i' < w -> 0 <= j' < h ->
  at_ (<[idx w j i := v]> m) w j' i' = if decide ((i, j) = (i', j')) then v else at_ m w j' i'.
Proof.
  intros Hm Hi Hj Hi' Hj'. unfold at_. destruct (decide _) as [[= -> ->] | Hne].
  - rewrite list_lookup_insert_eq; [done |]. rewrite Hm. pose proof (idx_bound w h j' i' Hi' Hj'). unfold idx. lia.
  - rewrite list_lookup_insert_ne; [done |]. intros He. apply idx_inj in He as [-> ->]; [done | lia..].
Qed.

Definition fails (origin : Z -> Z -> XY) (m : list RGB) (c : Z * Z) : bool := is_black (at_ m w c.2 c.1) && beyond (origin c.1 c.2).

(** A pass over the pixels of which each round looks at its own pixel only: [bad] says of
    which colours it has no result, [good] what it makes of the others. *)
Section Filling.
Variables (body : Z -> Z -> P unit) (stuck : outcome myppm unit -> Prop).
Variables (bad : Z * Z -> RGB -> bool) (good : Z * Z -> RGB -> RGB -> Prop).
Hypothesis Hstuck : forall o s, stuck o -> o <> Done tt s.

Definition round_ok (m : list RGB) (c : Z * Z) : Prop :=
  let run := body c.1 c.2 (set_output_map m p) in
  if bad c (at_ m w c.2 c.1) then stuck run
  else exists m', run = Done tt (set_output_map m' p) /\ full m' /\ good c (at_ m w c.2 c.1) (at_ m' w c.2 c.1) /\
    forall i j, 0 <= i < w -> 0 <= j < h -> (i, j) <> c -> at_ m' w j i = at_ m w j i.
Hypothesis Hround : forall m c, full m -> 0 <= c.1 < w -> 0 <= c.2 < h -> round_ok m c.

Lemma bad_same m m' l : (forall c, c ∈ l -> at_ m' w c.2 c.1 = at_ m w c.2 c.1) ->
  existsb (fun c => bad c (at_ m' w c.2 c.1)) l = existsb (fun c => bad c (at_ m w c.2 c.1)) l.
Proof.
  intros H. induction l as [| c l IH]; [done |]. cbn [existsb]. rewrite (H c) by left. f_equal. apply IH. intros c' Hc'. apply H. by right.
Qed.

Lemma fill_cells l m : NoDup l -> (forall c, c ∈ l -> 0 <= c.1 < w /\ 0 <= c.2 < h) -> full m ->
  let run := for_each l (fun c => body c.1 c.2) (set_output_map m p) in
  if existsb (fun c => bad c (at_ m w c.2 c.1)) l then stuck run
  else exists m2, run = Done tt (set_output_map m2 p) /\ full m2 /\
    forall i j, 0 <= i < w -> 0 <= j < h ->
      if decide ((i, j) ∈ l) then good (i, j) (at_ m w j i) (at_ m2 w j i) else at_ m2 w j i = at_ m w j i.
Proof.
  intros Hnd. revert m. induction Hnd as [| [i j] l Hn Hnd IH]; intros m Hl Hm.
  { exists m. split; [done |]. split; [done |]. intros. by rewrite decide_False by apply not_elem_of_nil. }
  destruct (Hl (i, j) ltac:(left)) as [Hi Hj]. assert (Hl' : forall c, c ∈ l -> 0 <= c.1 < w /\ 0 <= c.2 < h) by (intros; apply Hl; by right).
  pose proof (Hround m (i, j) Hm Hi Hj) as Hr. unfold round_ok in Hr. cbn [for_each existsb]. cbn zeta in *. cbn [fst snd] in *.
  destruct (bad (i, j) _); cbn [orb].
  { unfold bind. destruct (body i j _) as [[] s1 | |] eqn:Hrun; [by destruct (Hstuck _ s1 Hr) | done | done]. }
  destruct Hr as (m' & Hrun & Hm' & Hfill & Hrest). rewrite (bind_done _ _ _ _ _ Hrun). specialize (IH m' Hl' Hm'). cbn zeta in IH.
  rewrite (bad_same m m' l) in IH.
  2: { intros [i' j'] Hc. destruct (Hl' _ Hc). apply Hrest; [done | done |]. by intros [= -> ->]. }
  destruct (existsb _ l); [done |]. destruct IH as (m2 & Hdone & Hm2 & Hat). exists m2. split; [done |]. split; [done |].
  intros i' j' Hi' Hj'. specialize (Hat i' j' Hi' Hj'). destruct (decide ((i', j') ∈ (i, j) :: l)) as [Hin | Hout].
  - apply elem_of_cons in Hin as [[= -> ->] | Hin]; [rewrite decide_False in Hat by done; by rewrite Hat |].
    rewrite decide_True in Hat by done. rewrite <- Hrest; [done..|]. by intros [= -> ->].
  - apply not_elem_of_cons in Hout as [Hne Hout]. rewrite decide_False in Hat by done. rewrite Hat. by apply Hrest.
Qed.

Lemma fill_columns m : full m ->
  let run := columns body (set_output_map m p) in
  if existsb (fun c => bad c (at_ m w c.2 c.1)) (cells 0 w 0 h) then stuck run
  else exists m2, run = Done tt (set_output_map m2 p) /\ full m2 /\
    forall i j, 0 <= i < w -> 0 <= j < h -> good (i, j) (at_ m w j i) (at_ m2 w j i).
Proof.
  intros Hm. rewrite columns_cells. cbn [width height set_output_map].
  pose proof (fill_cells (cells 0 w 0 h) m (NoDup_cells _ _ _ _) ltac:(intros ? ?; by apply elem_of_cells) Hm) as H. cbn zeta in *.
  destruct (existsb _ _); [done |]. destruct H as (m2 & Hrun & Hm2 & Hat). exists m2. split; [done |]. split; [done |].
  intros i j Hi Hj. specialize (Hat i j Hi Hj). rewrite decide_True in Hat; [done |]. by apply elem_of_cells.
Qed.
End Filling.

Section Pass.
Variable origin : myppm -> Z -> Z -> XY.
Hypothesis Horigin : forall m', origin (set_output_map m' p) = origin p.
Hypothesis Hcanon : forall i j, canonical (origin p i j).1 /\ canonical (origin p i j).2.
Hypothesis Hsize : w * (h + 1) <= INT_MAX.

Definition undefined (o : outcome myppm unit) : Prop := exists f s, o = Undef f s.

(** The second pass with the check of the index. *)
Lemma second_pass_columns m : full m ->
  let run := columns (backward origin true) (set_output_map m p) in
  if existsb (fails (origin p) m) (cells 0 w 0 h) then undefined run
  else exists m2, run = Done tt (set_output_map m2 p) /\ full m2 /\
    forall i j, 0 <= i < w -> 0 <= j < h -> filled (origin p i j) (at_ m w j i) (at_ m2 w j i).
Proof.
  intros Hm. apply (fill_columns (backward origin true) undefined (fun c old => is_black old && beyond (origin p c.1 c.2))
    (fun c old new => filled (origin p c.1 c.2) old new)); [by intros o s (f & s' & ->) | | done].
  clear m Hm. intros m [i j] Hm Hi Hj. cbn [fst snd] in *. destruct (Hcanon i j) as [Hcx Hcy].
  pose proof (backward_round origin m i j Hm Hi Hj Horigin Hcx Hcy Hsize) as Hr.
  unfold round_ok, filled. cbn [fst snd]. cbn zeta. destruct (is_black _) eqn:Hb; cbn [andb].
  - destruct (beyond _); [destruct Hr as [f Hf]; by exists f, (set_output_map m p) |]. destruct (spot _) as [[X Y] |]; [| by exists m].
    destruct Hr as (v & Hv & _ & Hs). eexists. split; [exact Hv |]. split; [by rewrite length_insert |].
    split; [rewrite at_insert by done; by rewrite decide_True |]. intros i' j' Hi' Hj' Hne. rewrite at_insert by done. by rewrite decide_False.
  - exists m. split; [done |]. split; [done |]. by destruct (spot _) as [[X Y] |].
Qed.
End Pass.
(** ** Both passes *)
Lemma place_canonical a b c d i j : canonical a -> canonical b -> canonical c -> canonical d ->
  let xy := image_point a b c d p i j in let o := origin_point a b c d p i j in
  (canonical xy.1 /\ canonical xy.2) /\ (canonical o.1 /\ canonical o.2).
Proof.
  intros Ha Hb Hc Hd. assert (center p = (of_int (Z.quot w 2), of_int (Z.quot h 2))) as Hce by apply Hp.
  unfold image_point, origin_point. rewrite Hce. cbn [fst snd]. auto 12 with canon.
Qed.

Lemma transform2_resamples a b c d m0 : canonical a -> canonical b -> canonical c -> canonical d -> full m0 -> w * (h + 1) <= INT_MAX ->
  let m1 := moved (image_point a b c d p) m0 in
  let run := transform2 a b c d (set_output_map m0 p) in
  if existsb (fails (origin_point a b c d p) m1) (cells 0 w 0 h) then exists f s, run = Undef f s
  else exists m2, run = Done tt (set_output_map m2 p) /\ full m2 /\
    forall i j, 0 <= i < w -> 0 <= j < h -> filled (origin_point a b c d p i j) (at_ m1 w j i) (at_ m2 w j i).
Proof.
  intros Ha Hb Hc Hd Hm0 Hsize m1 run. pose proof (fun i j => place_canonical a b c d i j Ha Hb Hc Hd) as Hcan.
  assert (Hfirst : columns (forward (image_point a b c d)) (set_output_map m0 p) = Done tt (set_output_map m1 p)).
  { apply (columns_fold p _ (drop (image_point a b c d p))); [done |]. intros m ij Hm Hi Hj. split; [| by apply full_drop].
    apply forward_drop; [done | done | done | done | apply Hcan | apply Hcan]. }
  assert (Hm1 : full m1) by (by apply full_moved).
  subst run. unfold transform2. rewrite (bind_done _ _ _ _ _ Hfirst).
  exact (second_pass_columns (origin_point a b c d) ltac:(done) ltac:(intros; apply Hcan) Hsize m1 Hm1).
Qed.
End Resample.

(** ** The commands with a 2 by 2 matrix *)
Section Commands.
Variables sin cos : double -> double.
Hypothesis Hsin : forall x, canonical (sin x).
Hypothesis Hcos : forall x, canonical (cos x).
Variable u : mtrx3 double.

(** A run of pr06 or pr07 whose command sets [m]. *)
Definition matrix_run e files name file more (m : mtrx3 double) point (run : outcome myppm unit) : Prop :=
  (command6 sin cos u name = Some (m, 2, point) /\ run = main6 sin cos u e files (name :: file :: more)) \/
  (command7 sin cos u name = Some (m, 2, point) /\ run = main7 sin cos u e files (name :: file :: more)).

Definition canonical4 (m : mtrx3 double) : Prop := canonical (a11 m) /\ canonical (a12 m) /\ canonical (a13 m) /\ canonical (a21 m).

Lemma canonical_dec n k : canonical (dec n k).
Proof. unfold dec. auto with canon. Qed.
Hint Resolve canonical_dec : canon.

(** The entries of the settings for dimension 2. *)
Definition sound (t : setting) : Prop := t.1.2 = 2 -> canonical4 t.1.1.
Lemma sound_first4 a b c d point : canonical a -> canonical b -> canonical c -> canonical d -> sound (first4 u a b c d, 2, point).
Proof. by intros. Qed.
Lemma sound_other m dim point : dim <> 2 -> sound (m, dim, point).
Proof. by intros ? ?. Qed.
Ltac settings :=
  repeat (match goal with |- (if ?b then _ else _) = _ -> _ => destruct b end;
    [intros [= <-]; (by apply sound_other) || (apply sound_first4; solve [auto with canon | exact I | reflexivity]) |]); done.
Lemma sound_command6 name t : command6 sin cos u name = Some t -> sound t.
Proof. unfold command6. settings. Qed.
Lemma sound_command7 name t : command7 sin cos u name = Some t -> sound t.
Proof. unfold command7. settings. Qed.

Lemma matrix_canonical e files name file more m point run : matrix_run e files name file more m point run -> canonical4 m.
Proof. intros [[Hm _] | [Hm _]]; [by apply (sound_command6 name (m, 2, point)) | by apply (sound_command7 name (m, 2, point))]. Qed.

Lemma matrix_run_eq e files name file more m point run bytes p : matrix_run e files name file more m point run -> files file = Some bytes ->
  ppm_init_center e (Some bytes) zeroed = Done tt p -> canvas p ->
  run = transform2 (a11 m) (a12 m) (a13 m) (a21 m) (set_output_map (new_array (junk e 2) (width p * height p)) (set_translation point p)).
Proof.
  intros Hrun Hfile Hinit Hp. destruct Hrun as [[Hm ->] | [Hm ->]]; unfold main6, main7; rewrite Hfile, Hinit, Hm.
  - by apply transformation_2.
  - by apply transformation7_2.
Qed.
End Commands.

(** C38: the commands of pr06 and pr07 with a 2 by 2 matrix (rotation, scaling, shear, mirror)
    on a PPM file, for all functions [sin] and [cos].  The first pass moves every pixel, in
    order, to the integer part of the place that the matrix gives it, and drops it when the
    place is outside the picture.  After it every pixel that is black is looked up at its
    origin, and becomes the interpolation of the four pixels around the origin over the
    rational numbers, each channel rounded to the nearest integer up to an error of 2^-40;
    a pixel that is not black, or whose origin is outside the picture, is left alone.  The
    run is undefined exactly when a black pixel has its origin in the last row or column or
    exactly one column behind it. *)
Theorem matrices_resample sin cos u e files name file more m point run w h pic bytes p :
  (forall x, canonical (sin x)) -> (forall x, canonical (cos x)) -> matrix_run sin cos u e files name file more m point run ->
  files file = Some bytes -> ppm_file w h pic bytes -> w * (h + 1) <= INT_MAX -> ppm_init_center e (Some bytes) zeroed = Done tt p ->
  let m1 := moved p (image_point (a11 m) (a12 m) (a13 m) (a21 m) p) (new_array (junk e 2) (w * h)) in
  let origin := origin_point (a11 m) (a12 m) (a13 m) (a21 m) p in
  (forall y x, 0 <= y < h -> 0 <= x < w -> colour p y x = drawn pic w h y x) /\
  if existsb (fails p origin m1) (cells 0 w 0 h) then exists f s, run = Undef f s
  else exists q, run = Done tt q /\ forall i j, 0 <= i < w -> 0 <= j < h ->
    filled p (origin i j) (at_ m1 w j i) (at_ (output_map q) w j i).
Proof.
  intros Hsin Hcos Hrun Hfile Hppm Hsize Hinit m1 origin. destruct (file_canvas e w h pic bytes Hppm) as (p' & Hinit' & Hp & <- & <- & Hpic).
  rewrite Hinit in Hinit'. injection Hinit' as <-. split; [exact Hpic |].
  pose proof (matrix_canonical sin cos Hsin Hcos u _ _ _ _ _ _ _ _ Hrun) as (Ha & Hb & Hc & Hd).
  rewrite (matrix_run_eq sin cos u _ _ _ _ _ _ _ _ bytes p Hrun Hfile Hinit Hp).
  pose proof (transform2_resamples (set_translation point p) Hp _ _ _ _ (new_array (junk e 2) (width p * height p)) Ha Hb Hc Hd (length_new_array _ _) Hsize) as H.
  cbn zeta in H. change (existsb (fails p origin m1) (cells 0 (width p) 0 (height p))) with
    (existsb (fails (set_translation point p) (origin_point (a11 m) (a12 m) (a13 m) (a21 m) (set_translation point p))
      (moved (set_translation point p) (image_point (a11 m) (a12 m) (a13 m) (a21 m) (set_translation point p)) (new_array (junk e 2) (width p * height p))))
      (cells 0 (width (set_translation point p)) 0 (height (set_translation point p)))).
  destruct (existsb _ _); [exact H |]. destruct H as (m2 & Hdone & _ & Hat). eexists. split; [exact Hdone | exact Hat].
Qed.

(** ** Instance: a picture of 3 by 3 pixels, enlarged by 2 *)
Definition nine : list RGB := (fun n => mk_RGB (10 * n) (20 * n) (25 * n)) <$> seqZ 1 9.
Definition nine_bytes : list Z := header [] [] (lit "3") (lit "3") (lit "255") ++ picture_bytes nine ++ [].
Definition black_env : env := mk_env (fun _ _ => black) (fun _ => of_int 0) (fun _ _ => black).
Definition nine_loaded : myppm :=
  match ppm_init_center black_env (Some nine_bytes) zeroed with Done _ p => p | Exited _ p => p | Undef _ p => p end.
Definition no_angle (x : double) : double := of_int 0.

Lemma nine_file : ppm_file 3 3 nine nine_bytes.
Proof.
  exists [], [], (lit "3"), (lit "3"), (lit "255"), 255, []. split; [constructor |]. split; [constructor |].
  split; [solve_numeral |]. split; [solve_numeral |]. split; [solve_numeral |]. split; [done |]. split; [done |]. split; [done |].
  split; [by repeat constructor |]. by eexists _, _.
Qed.

Lemma matrices_resample_witness : exists q,
  main7 no_angle no_angle no_mtrx black_env (fun _ => Some nine_bytes) [lit "scaling"; lit "a.ppm"] = Done tt q /\
  let o := origin_point (of_int 2) (of_int 0) (of_int 0) (of_int 2) nine_loaded 0 0 in
  samples nine_loaded (part o.1 0) (part o.2 0) 0 0 (at_ (output_map q) 3 0 0).
Proof.
  pose proof (matrices_resample no_angle no_angle no_mtrx black_env (fun _ => Some nine_bytes) (lit "scaling") (lit "a.ppm") []
    (first4 no_mtrx (of_int 2) (of_int 0) (of_int 0) (of_int 2)) (at_int 0 0)
    (main7 no_angle no_angle no_mtrx black_env (fun _ => Some nine_bytes) [lit "scaling"; lit "a.ppm"]) 3 3 nine nine_bytes nine_loaded
    ltac:(intros; apply canonical_of_int) ltac:(intros; apply canonical_of_int) ltac:(by right) eq_refl nine_file ltac:(done)
    ltac:(vm_compute; reflexivity)) as [_ H].
  match type of H with if ?g then _ else _ => replace g with false in H by (vm_compute; reflexivity) end.
  destruct H as (q & Hq & Hat). exists q. split; [exact Hq |]. cbn zeta.
  specialize (Hat 0 0 ltac:(lia) ltac:(lia)). unfold filled in Hat.
  match type of Hat with match ?t with _ => _ end => replace t with (Some (0, 0)) in Hat by (vm_compute; reflexivity) end.
  match type of Hat with if ?t then _ else _ => replace t with true in Hat by (vm_compute; reflexivity) end. exact Hat.
Defined.

End WarpNear.
