(* ===== verification/WarpWave.v ===== *)
(** * The wave of pr07

    The command [special] moves every pixel to [(1.1 i, int(5 sin i + 1.1 j))] and fills the
    black pixels from [(i / 1.1, int((j - 5 sin(i / 1.1)) / 1.1))].  Unlike the matrices it
    does not test the index of the origin before it interpolates, so that an origin on the
    upper edge of the picture is looked up too. *)

From S2P Require Import Prelude CMem Double DoubleRange DoubleCanon DoubleNear Raster Ppm PpmRead Sweep Warp WarpFacts WarpMain WarpNear.
From Stdlib Require Import ZArith QArith Qround Lqa Lia SpecFloat.
From stdpp Require Import base list numbers.
From Stdlib Require String.
Import String.StringSyntax.
Import Double DoubleRange DoubleCanon DoubleNear Raster Ppm PpmRead Sweep Warp WarpFacts WarpMain WarpNear.
Open Scope Z_scope.

Module WarpWave.

(** Outside its first case [bilinear] has no result. *)
Lemma bind_never {A B} (m : P A) (k : A -> P B) s : (forall a s' b s2, k a s' <> Done b s2) -> forall b s2, bind m k s <> Done b s2.
Proof. intros Hk b s2. unfold bind. destruct (m s); [apply Hk | done | done]. Qed.

Lemma bilinear_never p a b : ((floor a + of_int 1 <? of_int (width p)) && (floor b + of_int 1 <? of_int (height p)))%D = false ->
  forall c q, bilinear (a, b) p <> Done c q.
Proof.
  intros Hc. intros c q. unfold bilinear, bind at 1, this. cbn [fst snd]. rewrite Hc. clear Hc.
  assert (Hnever : forall A B (m : P A) f s (c : B) q, bind m (fun _ => undef f) s <> Done c q) by (intros; by apply bind_never).
  do 2 (match goal with |- (if ?g then _ else _) _ <> _ => destruct g end; [do 2 (apply bind_never; intros ? ? ? ?); apply Hnever |]).
  apply Hnever.
Qed.

Section Wave.
Variable sin : double -> double.
Variable p : myppm.
Hypothesis Hp : canvas p.
Abbreviation w := (width p).
Abbreviation h := (height p).
Abbreviation full m := (length m = Z.to_nat (w * h)).

(** ** The first pass *)
Definition wave_row (i j : Z) : option Z := to_int (of_int 5 * sin (of_int i) + dec 11 1 * of_int j)%D.
Definition wave_xy (i j : Z) : XY := ((dec 11 1 * of_int i)%D, of_int (default 0 (wave_row i j))).

Lemma wave_first m0 : full m0 ->
  let run := columns (wave_forward sin) (set_output_map m0 p) in
  if forallb (fun c => bool_decide (is_Some (wave_row c.1 c.2))) (cells 0 w 0 h) then run = Done tt (set_output_map (moved p wave_xy m0) p)
  else exists f s, run = Undef f s.
Proof.
  intros Hm0. apply (columns_checked p _ _ (drop p wave_xy)); [done | apply full_drop |]. intros m c Hm Hi Hj run. subst run.
  unfold wave_forward, bind at 1, this, wave_place, bind at 1, to_i. fold (wave_row c.1 c.2).
  assert (Hxy : canonical (wave_xy c.1 c.2).1 /\ canonical (wave_xy c.1 c.2).2) by (unfold wave_xy; cbn [fst snd]; auto using canonical_dec with canon).
  pose proof (forward_drop p Hp (fun _ => wave_xy) m c Hm Hi Hj ltac:(done) (proj1 Hxy) (proj2 Hxy)) as Hf.
  unfold wave_xy in Hf at 1. destruct (wave_row c.1 c.2) as [yi |] eqn:Hrow.
  - rewrite bool_decide_eq_true_2 by (by eexists). cbn [expect ret]. unfold bind, ret.
    unfold forward in Hf |- *. unfold bind at 1, this in Hf. unfold bind at 1, this. rewrite Hrow in Hf. exact Hf.
  - rewrite bool_decide_eq_false_2 by (by intros []). by eexists.
Qed.

(** ** The second pass *)
Definition wave_origin (i j : Z) : option XY :=
  let x := (of_int i / dec 11 1)%D in
  (fun yi => (x, of_int yi)) <$> to_int ((of_int j - of_int 5 * sin x) / dec 11 1)%D.

(** The place has four pixels around it. *)
Definition inner (o : XY) : bool := match spot p o with Some (X, Y) => (X + 1 <? w) && (Y + 1 <? h) | None => false end.
(** Not so, and yet the place passes the guards: it lies in the closed rectangle. *)
Definition refused (o : XY) : bool :=
  finiteb o.1 && finiteb o.2 && (Qle_bool 0 (val o.1) && Qle_bool (val o.1) (inject_Z w)) && (Qle_bool 0 (val o.2) && Qle_bool (val o.2) (inject_Z h)) && negb (inner o).

Definition no_result (o : outcome myppm unit) : Prop := forall s, o <> Done tt s.
Definition wave_bad (c : Z * Z) (old : RGB) : bool :=
  is_black old && match wave_origin c.1 c.2 with Some o => refused o | None => true end.
Definition wave_good (c : Z * Z) (old new : RGB) : Prop :=
  match wave_origin c.1 c.2 with Some o => filled p o old new | None => new = old end.

Lemma refused_outside o : canonical o.1 -> canonical o.2 ->
  ((o.1 >=? of_int 0) && (o.1 <=? of_int w) && ((o.2 >=? of_int 0) && (o.2 <=? of_int h)))%D = false -> spot p o = None /\ refused o = false.
Proof.
  intros Hcx Hcy Hg. destruct (outside_kept p Hp o Hcx Hcy Hg) as [Hs _]. split; [done |]. apply not_true_is_false. unfold refused.
  rewrite !andb_true_iff, !finiteb_true, !Qle_bool_iff. intros ((((Hfx & Hfy) & Hx0 & Hx1) & Hy0 & Hy1) & _).
  pose proof (canvas_bounds p Hp) as [Hw Hh]. unfold INT_MAX in *. apply not_false_iff_true in Hg; [done |].
  rewrite (proj2 (ge_zero _ Hfx) Hx0), (proj2 (ge_zero _ Hfy) Hy0), (proj2 (le_int _ w Hcx Hfx ltac:(lia)) Hx1), (proj2 (le_int _ h Hcy Hfy ltac:(lia)) Hy1). done.
Qed.

(** Looking up a place that passed the guards. *)
Lemma wave_lookup m i j a b X Y : full m -> 0 <= i < w -> 0 <= j < h -> in_cell a X -> in_cell b Y -> repr (floor a) X -> repr (floor b) Y ->
  X <= w -> Y <= h -> (val a <= inject_Z w)%Q -> (val b <= inject_Z h)%Q ->
  let fill := (let* v := bilinear (a, b) in set_output (j * w + i) v) (set_output_map m p) in
  if refused (a, b) then no_result fill
  else exists v, fill = Done tt (set_output_map (<[idx w j i := v]> m) p) /\ spot p (a, b) = Some (X, Y) /\ samples p (part a X) (part b Y) X Y v.
Proof.
  intros Hm Hi Hj Ha Hb Hfa Hfb HX HY Hva Hvb fill. subst fill. pose proof (canvas_bounds p Hp) as [Hw Hh]. unfold INT_MAX in *.
  pose proof (cell_range _ _ Ha). pose proof (cell_range _ _ Hb). pose proof (cell_low _ _ Ha). pose proof (cell_low _ _ Hb).
  assert (Hpos : forall z, 0 <= z -> (0 <= inject_Z z)%Q) by (intros z Hz; change 0%Q with (inject_Z 0); by rewrite <- Zle_Qle).
  pose proof (Hpos X ltac:(lia)). pose proof (Hpos Y ltac:(lia)). unfold refused. cbn [fst snd].
  rewrite (proj2 (finiteb_true _) (cell_finite _ _ Ha)), (proj2 (finiteb_true _) (cell_finite _ _ Hb)), !(proj2 (Qle_bool_iff _ _)) by lra. cbn [andb].
  unfold inner. destruct (decide (X + 1 < w /\ Y + 1 < h)) as [[HXi HYi] | Hout].
  - rewrite (spot_cells p (a, b) X Y) by (done || lia). rewrite !(proj2 (Z.ltb_lt _ _)) by done. cbn [andb negb].
    destruct (bilinear_near p a b X Y Hp Ha Hb Hfa Hfb HXi HYi) as (v & Hv & _ & Hs). exists v. split; [| done].
    rewrite (bind_done _ _ _ _ _ (Hv m)). unfold set_output. cbn [output_map set_output_map]. pose proof (idx_bound w h j i Hi Hj). by rewrite inside_true by lia.
  - assert (Hinner : match spot p (a, b) with Some (X0, Y0) => (X0 + 1 <? w) && (Y0 + 1 <? h) | None => false end = false).
    { destruct (spot p (a, b)) as [[X0 Y0] |] eqn:Hs; [| done]. unfold spot in Hs. cbn [fst snd] in Hs. destruct (_ && _) in Hs; [| done].
      injection Hs as <- <-. rewrite (floor_cell _ _ Ha), (floor_cell _ _ Hb). lia. }
    rewrite Hinner. cbn [negb]. intros s. unfold bind. destruct (bilinear (a, b) (set_output_map m p)) as [c q | |] eqn:Hrun; [| done | done].
    exfalso. apply (bilinear_never (set_output_map m p) a b) in Hrun; [done |]. cbn [width height set_output_map].
    pose proof (repr_next _ _ Hfa ltac:(unfold INT_MAX; lia)) as Hx2. pose proof (repr_next _ _ Hfb ltac:(unfold INT_MAX; lia)) as Hy2.
    rewrite (repr_ltb _ _ _ _ Hx2 (repr_int w ltac:(unfold INT_MIN, INT_MAX; lia))), (repr_ltb _ _ _ _ Hy2 (repr_int h ltac:(unfold INT_MIN, INT_MAX; lia))). lia.
Qed.

Lemma cell_below x X lim : in_cell x X -> X <= lim -> (X = lim -> (val x == inject_Z lim)%Q) -> (val x <= inject_Z lim)%Q.
Proof.
  intros Hx HX He. destruct (decide (X = lim)) as [Heq | Hne]; [rewrite (He Heq); apply Qle_refl |].
  pose proof (cell_high _ _ Hx) as Hhi. apply Qlt_le_weak, (Qlt_le_trans _ _ _ Hhi). change 1%Q with (inject_Z 1).
  rewrite <- inject_Z_plus, <- Zle_Qle. lia.
Qed.

(** Filling a black pixel without the check of the index. *)
Lemma unchecked_round m i j o : full m -> 0 <= i < w -> 0 <= j < h -> canonical o.1 -> canonical o.2 -> is_black (at_ m w j i) = true ->
  let run := backward (fun _ _ _ => o) false i j (set_output_map m p) in
  if refused o then no_result run
  else match spot p o with
       | Some (X, Y) => exists v, run = Done tt (set_output_map (<[idx w j i := v]> m) p) /\ samples p (part o.1 X) (part o.2 Y) X Y v
       | None => run = Done tt (set_output_map m p)
       end.
Proof.
  intros Hm Hi Hj Hcx Hcy Hb run. pose proof (canvas_bounds p Hp) as [Hw Hh].
  assert (Hrun : run = backward (fun _ _ _ => o) false i j (set_output_map m p)) by done. clearbody run.
  unfold backward, bind at 1, this in Hrun. change (width (set_output_map m p)) with w in Hrun. rewrite (backward_start p m i j), Hb in Hrun by done.
  pose proof (refused_outside o Hcx Hcy) as Hout. pose proof (guard_le _ w Hcx Hw) as Hx. pose proof (guard_le _ h Hcy Hh) as Hy.
  destruct o as [a b]. cbn [fst snd] in *. change (height (set_output_map m p)) with h in Hrun. rewrite and4 in Hrun.
  match type of Hx with if ?g then _ else _ => destruct g end; cbn [andb] in *; [| by destruct (Hout eq_refl) as [-> ->]].
  match type of Hy with if ?g then _ else _ => destruct g end; [clear Hout | by destruct (Hout eq_refl) as [-> ->]].
  destruct Hx as (X & HXc & HXf & _ & HXw & HXe), Hy as (Y & HYc & HYf & _ & HYh & HYe).
  pose proof (wave_lookup m i j a b X Y Hm Hi Hj HXc HYc HXf HYf HXw HYh (cell_below _ _ _ HXc HXw HXe) (cell_below _ _ _ HYc HYh HYe)) as H.
  cbn zeta in H. rewrite <- Hrun in H. destruct (refused (a, b)); [done |]. destruct H as (v & Hv & -> & Hs). by exists v.
Qed.

Lemma wave_second m : full m ->
  let run := columns (wave_backward sin) (set_output_map m p) in
  if existsb (fun c => wave_bad c (at_ m w c.2 c.1)) (cells 0 w 0 h) then no_result run
  else exists m2, run = Done tt (set_output_map m2 p) /\ full m2 /\ forall i j, 0 <= i < w -> 0 <= j < h -> wave_good (i, j) (at_ m w j i) (at_ m2 w j i).
Proof.
  intros Hm. apply (fill_columns p (wave_backward sin) no_result wave_bad wave_good); [intros o s Ho; apply Ho | | done].
  clear m Hm. intros m [i j] Hm Hi Hj. unfold round_ok. cbn [fst snd] in *. cbn zeta. remember (wave_backward sin i j (set_output_map m p)) as run eqn:Hrun.
  unfold wave_backward, bind at 1, this in Hrun. change (width (set_output_map m p)) with w in Hrun. rewrite (backward_start p m i j) in Hrun by done.
  unfold wave_bad, wave_good. cbn [fst snd]. destruct (is_black (at_ m w j i)) eqn:Hb; cbn [andb].
  2: { exists m. subst run. split; [done |]. split; [done |]. split; [| done]. destruct (wave_origin i j) as [o |]; [| done]. unfold filled. rewrite Hb. by destruct (spot p o) as [[] |]. }
  unfold wave_origin. cbn zeta. unfold bind at 1, to_i in Hrun.
  destruct (to_int ((of_int j - of_int 5 * sin (of_int i / dec 11 1)) / dec 11 1)%D) as [yi |]; cbn [fmap option_fmap option_map]; [| subst run; by intros s].
  cbn [expect ret] in Hrun. set (o := ((of_int i / dec 11 1)%D, of_int yi)) in *.
  pose proof (unchecked_round m i j o Hm Hi Hj ltac:(subst o; cbn; auto using canonical_dec with canon) ltac:(subst o; cbn; auto with canon) Hb) as H.
  cbn zeta in H. unfold ret in Hrun. rewrite <- Hrun in H. destruct (refused o); [done |]. unfold filled. rewrite Hb. destruct (spot p o) as [[X Y] |]; [| by exists m].
  destruct H as (v & Hv & Hs). eexists. split; [exact Hv |]. split; [by rewrite length_insert |].
  split; [rewrite at_insert by done; by rewrite decide_True |]. intros i' j' Hi' Hj' Hne. rewrite at_insert by done. by rewrite decide_False.
Qed.
End Wave.

(** C40: the command [special] of pr07 on a PPM file, for every function [sin].  When every
    row [5 sin i + 1.1 j] fits an [int], the first pass moves each pixel, in order, to the
    integer part of its place on the wave and drops it outside the picture.  A pixel that
    is black afterwards becomes the interpolation of the four pixels around its origin
    over the rational numbers, rounded up to an error of 2^-40; a black pixel whose origin
    is outside the picture is left.  There is no result exactly when a row does not fit, or
    a black pixel's origin does not, or lies in the closed rectangle of the picture without
    four pixels around it: on its last row or column or on its upper or right edge. *)
Theorem wave_resamples sin cos u e files name file more w h pic bytes p :
  name = lit "special" \/ name = lit "s" -> files file = Some bytes -> ppm_file w h pic bytes ->
  ppm_init_center e (Some bytes) zeroed = Done tt p ->
  let run := main7 sin cos u e files (name :: file :: more) in
  let m1 := moved p (wave_xy sin) (new_array (junk e 2) (w * h)) in
  if forallb (fun c => bool_decide (is_Some (wave_row sin c.1 c.2))) (cells 0 w 0 h) &&
     negb (existsb (fun c => wave_bad sin p c (at_ m1 w c.2 c.1)) (cells 0 w 0 h))
  then exists q, run = Done tt q /\ forall i j, 0 <= i < w -> 0 <= j < h -> wave_good sin p (i, j) (at_ m1 w j i) (at_ (output_map q) w j i)
  else no_result run.
Proof.
  intros Hname Hfile Hppm Hinit run m1. destruct (file_canvas e w h pic bytes Hppm) as (p' & Hinit' & Hp & <- & <- & _).
  rewrite Hinit in Hinit'. injection Hinit' as <-. set (p1 := set_translation (at_int 0 0) p). assert (Hp1 : canvas p1) by done.
  set (m0 := new_array (junk e 2) (width p * height p)) in *.
  assert (Hrun : run = (columns (wave_forward sin) ;;; columns (wave_backward sin)) (set_output_map m0 p1)).
  { unfold run, main7. rewrite Hfile, Hinit. unfold p1, m0. destruct Hname as [-> | ->]; cbn [command7 either]; exact (start_ok e (at_int 0 0) p _ Hp). }
  clearbody run. pose proof (wave_first sin p1 Hp1 m0 (length_new_array _ _)) as H1. cbn zeta in H1.
  change (width p1) with (width p) in H1. change (height p1) with (height p) in H1. destruct (forallb _ _); cbn [andb].
  2: { destruct H1 as (f & s & Hf). rewrite Hrun. unfold bind. rewrite Hf. by intros ?. }
  rewrite (bind_done _ _ _ _ _ H1) in Hrun. pose proof (wave_second sin p1 Hp1 m1) as H2. cbn zeta in H2.
  specialize (H2 ltac:(apply (full_moved p); apply length_new_array)).
  change (existsb (fun c => wave_bad sin p c (at_ m1 (width p) c.2 c.1)) (cells 0 (width p) 0 (height p)))
    with (existsb (fun c => wave_bad sin p1 c (at_ m1 (width p1) c.2 c.1)) (cells 0 (width p1) 0 (height p1))).
  rewrite Hrun. destruct (existsb _ _); cbn [negb]; [exact H2 |]. destruct H2 as (m2 & Hdone & _ & Hat). eexists. split; [exact Hdone | exact Hat].
Qed.

Lemma wave_resamples_witness : exists q,
  main7 no_angle no_angle no_mtrx black_env (fun _ => Some nine_bytes) [lit "s"; lit "a.ppm"] = Done tt q.
Proof.
  pose proof (wave_resamples no_angle no_angle no_mtrx black_env (fun _ => Some nine_bytes) (lit "s") (lit "a.ppm") [] 3 3 nine nine_bytes nine_loaded
    ltac:(by right) eq_refl nine_file ltac:(vm_compute; reflexivity)) as H. cbn zeta in H.
  match type of H with if ?g then _ else _ => replace g with true in H by (vm_compute; reflexivity) end.
  destruct H as (q & Hq & _). exists q. exact Hq.
Defined.
End WarpWave.
