(* ===== verification/WarpProject.v ===== *)
(** * Projective transformations: 3 by 3 matrices

    The commands of pr06 and pr07 with a 3 by 3 matrix divide by the third coordinate of
    the place.  The first pass ([forward3]) converts the place to integers before it
    compares it with the picture, so that a place outside the range of [int] is undefined;
    the places it accepts lie strictly to the right of column 0 and above row 0.  pr07
    fills the black pixels afterwards with the inverse matrix, with the second pass of
    [WarpNear.v]. *)

From S2P Require Import Prelude CMem Double DoubleRange DoubleCanon DoubleNear Raster Ppm PpmRead Sweep Warp WarpFacts WarpMain WarpNear.
From Stdlib Require Import ZArith QArith Qround Lqa Lia SpecFloat.
From stdpp Require Import base list numbers.
From Stdlib Require String.
Import String.StringSyntax.
Import Double DoubleRange DoubleCanon DoubleNear Raster Ppm PpmRead Sweep Warp WarpFacts WarpMain WarpNear.
Open Scope Z_scope.

Module WarpProject.

Lemma gt_zero x : finite x -> (x >? of_int 0)%D = true <-> (0 < val x)%Q.
Proof.
  intros Hf. destruct x as [s | | | s m e]; [by destruct s | done | done |]. pose proof (pos_val m e).
  destruct s; cbn [val cond_Zopp]; (split; [done || lra |]); [| done]. rewrite inject_Z_opp. lra.
Qed.

Lemma to_int_trunc x X : to_int x = Some X -> trunc x = Some X.
Proof. unfold to_int. destruct (trunc x) as [z |]; [| done]. destruct (_ && _); [by intros [= ->] | done]. Qed.

Section Project.
Variable p : myppm.
Hypothesis Hp : canvas p.
Abbreviation w := (width p).
Abbreviation h := (height p).
Abbreviation full m := (length m = Z.to_nat (w * h)).

Definition int_ok (z : Z) : bool := (INT_MIN <=? z) && (z <=? INT_MAX).

(** The integers that [forward3] computes from a place exist. *)
Definition fits (o : XY) : bool :=
  match to_int o.1, to_int o.2 with
  | Some X, Some Y => int_ok (Y * w) && int_ok (Y * w + X)
  | _, _ => false
  end.

(** The pixel a place is drawn to: not in column 0 unless it lies to the right of its
    left edge, and the same for row 0. *)
Definition landing (o : XY) : option (Z * Z) :=
  if Qlt_le_dec 0 (val o.1) then if Qlt_le_dec 0 (val o.2) then spot p o else None else None.

Definition drop3 (place : Z -> Z -> XY) (m : list RGB) (c : Z * Z) : list RGB :=
  match landing (place c.1 c.2) with Some (X, Y) => <[idx w Y X := colour p c.2 c.1]> m | None => m end.
Definition moved3 (place : Z -> Z -> XY) (m0 : list RGB) : list RGB := fold_left (drop3 place) (cells 0 w 0 h) m0.

Lemma full_drop3 place m c : full m -> full (drop3 place m c).
Proof. intros Hm. unfold drop3. destruct (landing _) as [[X Y] |]; [by rewrite length_insert | done]. Qed.
Lemma full_moved3 place m : full m -> full (moved3 place m).
Proof. unfold moved3. revert m. induction (cells 0 w 0 h) as [| c l IH]; intros m Hm; [done |]. by apply IH, full_drop3. Qed.

(** The guards of [forward3], on one coordinate. *)
Lemma guard_gt x lim : canonical x -> 0 < lim <= INT_MAX ->
  if ((x >? of_int 0) && (x <? of_int lim))%D then (0 < val x)%Q /\ exists X, in_cell x X /\ X < lim /\ trunc x = Some X
  else ~ (finite x /\ (0 < val x)%Q /\ 0 <= Qfloor (val x) < lim).
Proof.
  intros Hc Hl. pose proof (guard_lt x lim Hc Hl) as Hg. destruct (x >? of_int 0)%D eqn:H0; cbn [andb].
  - rewrite (lt_le _ _ H0) in Hg. cbn [andb] in Hg. destruct (x <? of_int lim)%D; [| intros (? & _ & ?); by apply Hg].
    split; [| done]. destruct Hg as (X & HX & _). apply gt_zero; [apply HX | done].
  - intros (Hf & Hpos & _). apply gt_zero in Hpos; [| done]. congruence.
Qed.

Lemma landing_none o : (forall X Y, finite o.1 -> finite o.2 -> (0 < val o.1)%Q -> (0 < val o.2)%Q -> X = Qfloor (val o.1) -> Y = Qfloor (val o.2) ->
  0 <= X < w -> 0 <= Y < h -> False) -> landing o = None.
Proof.
  intros H. unfold landing. destruct (Qlt_le_dec _ _); [| done]. destruct (Qlt_le_dec _ _); [| done]. apply spot_none. intros X Y. intros. by apply (H X Y).
Qed.

Lemma landing_cells o X Y : (0 < val o.1)%Q -> (0 < val o.2)%Q -> in_cell o.1 X -> in_cell o.2 Y -> X < w -> Y < h -> landing o = Some (X, Y).
Proof.
  intros H1 H2 HX HY HXw HYh. unfold landing. destruct (Qlt_le_dec _ _); [| lra]. destruct (Qlt_le_dec _ _); [| lra]. by apply spot_cells.
Qed.

Lemma and5 a b c d e : a && (b && c && d && e) = (a && ((b && e) && (c && d))).
Proof. by destruct a, b, c, d, e. Qed.

Lemma int_ok_spec z : int_ok z = true <-> INT_MIN <= z <= INT_MAX.
Proof. unfold int_ok. by rewrite andb_true_iff, !Z.leb_le. Qed.

(** One pixel of the first pass. *)
Lemma forward3_lands place m c : full m -> 0 <= c.1 < w -> 0 <= c.2 < h ->
  (forall m', place (set_output_map m' p) = place p) -> canonical (place p c.1 c.2).1 -> canonical (place p c.1 c.2).2 ->
  if fits (place p c.1 c.2) then forward3 place c.1 c.2 (set_output_map m p) = Done tt (set_output_map (drop3 (place p) m c) p)
  else exists f, forward3 place c.1 c.2 (set_output_map m p) = Undef f (set_output_map m p).
Proof.
  intros Hm Hi Hj Hpl Hcx Hcy. remember (forward3 place c.1 c.2 (set_output_map m p)) as run eqn:Hrun.
  unfold forward3, bind at 1, this in Hrun. rewrite Hpl in Hrun. unfold drop3, fits.
  pose proof (canvas_bounds p Hp) as [Hw Hh]. destruct (place p c.1 c.2) as [a b] eqn:Hab. cbn [fst snd] in *.
  cbn [width height size set_output_map] in Hrun. unfold to_i, expect, bind at 1 2, int_of at 1 in Hrun.
  destruct (to_int b) as [Y |] eqn:HtY; cbn [ret undef] in Hrun; [| destruct (to_int a); by (subst run; eexists)].
  destruct (to_int a) as [X |] eqn:HtX; cbn [ret undef] in Hrun; [| by (subst run; eexists)].
  fold (int_ok (Y * w)) in Hrun. unfold bind at 1 in Hrun.
  destruct (int_ok (Y * w)); cbn [andb]; [| by (subst run; eexists)]. cbn [ret] in Hrun. unfold bind at 1, int_of in Hrun. fold (int_ok (Y * w + X)) in Hrun.
  destruct (int_ok (Y * w + X)); [| by (subst run; eexists)]. cbn [ret] in Hrun. rewrite and5 in Hrun. subst run.
  pose proof (guard_gt a w Hcx Hw) as Hga. pose proof (guard_gt b h Hcy Hh) as Hgb.
  match type of Hga with if ?g then _ else _ => destruct g end; cbn [andb].
  2: { rewrite andb_false_r, landing_none; [done |]. intros ? ? Hf _ Hpos _ -> _ HX _. by apply Hga. }
  match type of Hgb with if ?g then _ else _ => destruct g end; cbn [andb].
  2: { rewrite andb_false_r, landing_none; [done |]. intros ? ? _ Hf _ Hpos _ -> _ HY. by apply Hgb. }
  destruct Hga as (Hpa & X' & Hx & HX & Htx), Hgb as (Hpb & Y' & Hy & HY & Hty). rewrite (landing_cells (a, b) X' Y') by done.
  rewrite (to_int_trunc _ _ HtX) in Htx. rewrite (to_int_trunc _ _ HtY) in Hty. injection Htx as <-. injection Hty as <-.
  pose proof (cell_range _ _ Hx). pose proof (cell_range _ _ Hy). pose proof (idx_bound w h Y X ltac:(lia) ltac:(lia)).
  rewrite (proj2 (Z.ltb_lt _ _)) by lia. cbn [andb]. apply (copy_ok p Hp); (done || lia).
Qed.

(** *** The first pass *)
Section First.
Variable place : myppm -> Z -> Z -> XY.
Hypothesis Hplace : forall m', place (set_output_map m' p) = place p.
Hypothesis Hcanon : forall i j, canonical (place p i j).1 /\ canonical (place p i j).2.

Definition all_fit : bool := forallb (fun c => fits (place p c.1 c.2)) (cells 0 w 0 h).

Lemma first_pass3 m0 : full m0 ->
  if all_fit then columns (forward3 place) (set_output_map m0 p) = Done tt (set_output_map (moved3 (place p) m0) p)
  else exists f s, columns (forward3 place) (set_output_map m0 p) = Undef f s.
Proof.
  intros Hm0. apply (columns_checked p _ (fun c => fits (place p c.1 c.2)) (drop3 (place p))); [done | apply full_drop3 |].
  intros m c Hm Hi Hj. apply forward3_lands; [done | done | done | done | apply Hcanon | apply Hcanon].
Qed.
End First.

(** *** The matrices *)
Definition canonical9 (m : mtrx3 double) : Prop :=
  canonical4 m /\ canonical (a22 m) /\ canonical (a23 m) /\ canonical (a31 m) /\ canonical (a32 m) /\ canonical (a33 m).

Lemma inverse_canonical m : canonical9 m -> canonical9 (inv_mtrx_3x3 m).
Proof.
  intros ((? & ? & ? & ?) & ? & ? & ? & ? & ?).
  assert (Hdet : canonical (det_3x3 m)) by (unfold det_3x3; cbn [aadd asub amul arith_double]; auto 12 with canon).
  unfold inv_mtrx_3x3, det_2x2, canonical9, canonical4. cbn [a11 a12 a13 a21 a22 a23 a31 a32 a33 asub amul adiv arith_double].
  repeat split; auto 12 with canon.
Qed.

Lemma place3_canonical m i j : canonical9 m -> canonical (place3 m p i j).1 /\ canonical (place3 m p i j).2.
Proof. intros ((? & ? & ? & ?) & ? & ? & ? & ? & ?). unfold place3, project. cbn [fst snd]. auto 12 with canon. Qed.

Lemma place3_center_canonical m i j : canonical9 m -> canonical (place3_center m p i j).1 /\ canonical (place3_center m p i j).2.
Proof.
  intros ((? & ? & ? & ?) & ? & ? & ? & ? & ?). assert (center p = (of_int (Z.quot w 2), of_int (Z.quot h 2))) as Hce by apply Hp.
  unfold place3_center, project. rewrite Hce. cbn [fst snd]. auto 12 with canon.
Qed.

(** Both passes of pr07. *)
Lemma transform3_resamples m m0 : canonical9 m -> full m0 -> w * (h + 1) <= INT_MAX ->
  let m1 := moved3 (place3 m p) m0 in
  let origin := place3 (inv_mtrx_3x3 m) p in
  let run := transform3 m (set_output_map m0 p) in
  if all_fit (place3 m) && negb (existsb (WarpNear.fails p origin m1) (cells 0 w 0 h))
  then exists m2, run = Done tt (set_output_map m2 p) /\ full m2 /\
    forall i j, 0 <= i < w -> 0 <= j < h -> filled p (origin i j) (at_ m1 w j i) (at_ m2 w j i)
  else exists f s, run = Undef f s.
Proof.
  intros Hm Hm0 Hsize m1 origin run. pose proof (first_pass3 (place3 m) ltac:(done) ltac:(intros; by apply place3_canonical) m0 Hm0) as Hfirst.
  subst run. unfold transform3. destruct (all_fit (place3 m)); cbn [andb].
  2: { destruct Hfirst as (f & s & Hf). exists f, s. unfold bind. by rewrite Hf. }
  rewrite (bind_done _ _ _ _ _ Hfirst).
  pose proof (second_pass_columns p Hp (place3 (inv_mtrx_3x3 m)) ltac:(done) ltac:(intros; apply place3_canonical; by apply inverse_canonical) Hsize
    m1 ltac:(by apply full_moved3)) as Hpass. cbn zeta in Hpass. fold origin in Hpass. by destruct (existsb _ _).
Qed.
End Project.

(** ** The commands with a 3 by 3 matrix *)
Lemma transformation7_3 sin e m point name p : canvas p ->
  transformation7 sin e m 3 point name p
  = transform3 m (set_output_map (new_array (junk e 2) (width p * height p)) (set_translation point p)).
Proof.
  intros Hp. unfold transformation7. cbn [Z.eqb negb andb]. etransitivity; [apply (start_ok e point p _ Hp) |]. cbn [Z.eqb Pos.eqb andb].
  destruct (bool_decide_reflect (name = lit "s")) as [-> | _]; done.
Qed.

Definition sound9 (t : setting) : Prop := t.1.2 = 3 -> canonical9 t.1.1.
Lemma sound9_other m dim point : dim <> 3 -> sound9 (m, dim, point).
Proof. by intros ? ?. Qed.
Lemma sound9_matrix a b c d e f g h i dim point : canonical a -> canonical b -> canonical c -> canonical d -> canonical e ->
  canonical f -> canonical g -> canonical h -> canonical i -> sound9 (mk_mtrx3 a b c d e f g h i, dim, point).
Proof. by intros. Qed.

Ltac settings9 :=
  repeat (match goal with |- (if ?b then _ else _) = _ -> _ => destruct b end;
    [intros [= <-]; (by apply sound9_other) || (apply sound9_matrix; solve [auto using canonical_dec with canon | exact I | reflexivity]) |]); done.
Lemma sound9_command6 sin cos u name t : command6 sin cos u name = Some t -> sound9 t.
Proof. unfold command6. settings9. Qed.
Lemma sound9_command7 sin cos u name t : command7 sin cos u name = Some t -> sound9 t.
Proof. unfold command7. settings9. Qed.

(** *** What the places should be

    The place of the pixel in column [i], row [j] under a matrix, in homogeneous
    coordinates around the pixel [(cx, cy)] (pr06) and around the origin (pr07), and the
    inverse of a matrix by the signed minors of its transpose. *)
Definition around (cx cy : double) (m : mtrx3 double) (i j : Z) : XY :=
  match m with mk_mtrx3 a b c d e f g h k =>
    let dx := (of_int i - cx)%D in
    let dy := (of_int j - cy)%D in
    let z := (g * dx + h * dy + k)%D in
    (((a * dx + b * dy + c + cx) / z)%D, ((d * dx + e * dy + f + cy) / z)%D)
  end.
Definition from_origin (m : mtrx3 double) (i j : Z) : XY :=
  match m with mk_mtrx3 a b c d e f g h k =>
    let z := (g * of_int i + h * of_int j + k)%D in
    (((a * of_int i + b * of_int j + c) / z)%D, ((d * of_int i + e * of_int j + f) / z)%D)
  end.
Definition inverse {A} `{Arith A} (m : mtrx3 A) : mtrx3 A :=
  match m with mk_mtrx3 a b c d e f g h k =>
    let D := (a * (e * k - f * h) - b * (d * k - f * g) + c * (d * h - e * g))%A in
    mk_mtrx3 ((e * k - f * h) / D)%A ((c * h - b * k) / D)%A ((b * f - c * e) / D)%A
             ((f * g - d * k) / D)%A ((a * k - c * g) / D)%A ((c * d - a * f) / D)%A
             ((d * h - e * g) / D)%A ((b * g - a * h) / D)%A ((a * e - b * d) / D)%A
  end.
Definition determinant (m : mtrx3 Q) : Q :=
  match m with mk_mtrx3 a b c d e f g h k => (a * e * k + b * f * g + c * d * h - c * e * g - b * d * k - a * f * h)%Q end.

(** [inverse] is the inverse. *)
Lemma inverse_sound m : ~ (determinant m == 0)%Q -> mtrx_eq (mtrx_mul m (inverse m)) identity /\ mtrx_eq (mtrx_mul (inverse m) m) identity.
Proof.
  destruct m as [a b c d e f g h k]. cbn [determinant inverse]. unfold mtrx_eq, mtrx_mul, identity.
  cbn [a11 a12 a13 a21 a22 a23 a31 a32 a33 aadd asub amul adiv arith_Q]. intros Hd.
  assert (~ (a * (e * k - f * h) - b * (d * k - f * g) + c * (d * h - e * g) == 0)%Q) by (intros H0; apply Hd; rewrite <- H0; ring).
  repeat split; field; assumption.
Qed.

(** The two programs against these places. *)
Lemma project6 sin cos u e files name file more m point w h pic bytes p :
  files file = Some bytes -> ppm_file w h pic bytes -> ppm_init_center e (Some bytes) zeroed = Done tt p ->
  command6 sin cos u name = Some (m, 3, point) ->
  let m0 := new_array (junk e 2) (w * h) in
  let run := main6 sin cos u e files (name :: file :: more) in
  let place := around (of_int (Z.quot w 2)) (of_int (Z.quot h 2)) m in
  if all_fit p (fun _ => place) then exists q, run = Done tt q /\ output_map q = moved3 p place m0
  else exists f s, run = Undef f s.
Proof.
  intros Hfile Hppm Hinit Hcmd m0 run place. destruct (file_canvas e w h pic bytes Hppm) as (p' & Hinit' & Hp & <- & <- & _).
  rewrite Hinit in Hinit'. injection Hinit' as <-. set (p1 := set_translation point p). assert (Hp1 : canvas p1) by done.
  pose proof (sound9_command6 _ _ _ _ _ Hcmd eq_refl) as Hm. cbn [fst] in Hm. subst run. unfold main6. rewrite Hfile, Hinit, Hcmd, transformation_3 by done.
  pose proof (first_pass3 p1 Hp1 (place3_center m) ltac:(done) ltac:(intros; by apply place3_center_canonical) m0 (length_new_array _ _)) as H.
  assert (Hce : center p = (of_int (Z.quot (width p) 2), of_int (Z.quot (height p) 2))) by apply Hp.
  assert (Hpl : place = place3_center m p1).
  { subst place. unfold place3_center. change (center p1) with (center p). rewrite Hce. by destruct m. }
  clearbody place. subst place. change (all_fit p (fun _ => place3_center m p1)) with (all_fit p1 (place3_center m)).
  destruct (all_fit _ _); [| exact H]. eexists. split; [exact H | done].
Qed.

Lemma project7 sin cos u e files name file more m point w h pic bytes p :
  files file = Some bytes -> ppm_file w h pic bytes -> w * (h + 1) <= INT_MAX -> ppm_init_center e (Some bytes) zeroed = Done tt p ->
  command7 sin cos u name = Some (m, 3, point) ->
  let m0 := new_array (junk e 2) (w * h) in
  let run := main7 sin cos u e files (name :: file :: more) in
  let m1 := moved3 p (from_origin m) m0 in
  let origin := from_origin (inverse m) in
  if all_fit p (fun _ => from_origin m) && negb (existsb (WarpNear.fails p origin m1) (cells 0 w 0 h))
  then exists q, run = Done tt q /\ forall i j, 0 <= i < w -> 0 <= j < h -> filled p (origin i j) (at_ m1 w j i) (at_ (output_map q) w j i)
  else exists f s, run = Undef f s.
Proof.
  intros Hfile Hppm Hsize Hinit Hcmd m0 run m1 origin. destruct (file_canvas e w h pic bytes Hppm) as (p' & Hinit' & Hp & <- & <- & _).
  rewrite Hinit in Hinit'. injection Hinit' as <-. set (p1 := set_translation point p). assert (Hp1 : canvas p1) by done.
  pose proof (sound9_command7 _ _ _ _ _ Hcmd eq_refl) as Hm. cbn [fst] in Hm. subst run. unfold main7. rewrite Hfile, Hinit, Hcmd, transformation7_3 by done.
  pose proof (transform3_resamples p1 Hp1 m m0 Hm (length_new_array _ _) Hsize) as H. cbn zeta in H.
  assert (Hi : inv_mtrx_3x3 m = inverse m) by (by destruct m).
  assert (Hpl : forall r : mtrx3 double, place3 r p1 = from_origin r) by (by intros []).
  assert (Hall : all_fit p1 (place3 m) = all_fit p (fun _ => from_origin m)) by (unfold all_fit; by rewrite Hpl).
  rewrite Hall, !Hpl, Hi in H. fold m1 in H.
  change (existsb (WarpNear.fails p1 (from_origin (inverse m)) (moved3 p1 (from_origin m) m0)) (cells 0 (width p1) 0 (height p1))) with
    (existsb (WarpNear.fails p origin m1) (cells 0 (width p) 0 (height p))) in H.
  destruct (_ && _); [| exact H]. destruct H as (m2 & Hdone & _ & Hat). eexists. split; [exact Hdone | exact Hat].
Qed.

(** C39: the commands of pr06 and pr07 with a 3 by 3 matrix (translation, perspective,
    bilinear) on a PPM file.  When every place can be converted to integers, the first
    pass moves each pixel, in order, to the integer part of its place (homogeneous
    coordinates, in pr06 around the centre, in pr07 around the origin), and drops it when
    the place is outside the picture or not to the right of column 0 and above row 0; if
    one place cannot be converted the run is undefined.  This is all of pr06.  In pr07
    every pixel that is black then becomes the interpolation, up to 2^-40, of the picture
    around its place under the inverse matrix; the run is undefined exactly when the first
    pass is, or when such a place lies in the last row or column or exactly one column
    behind it.  The places are formulas of their own, and the formula for the inverse
    matrix gives, over the rational numbers, the inverse of every regular matrix; in the
    program it is evaluated with the rounding of [double]. *)
Theorem projections_resample sin cos u e files name file more m point w h pic bytes p :
  files file = Some bytes -> ppm_file w h pic bytes -> w * (h + 1) <= INT_MAX -> ppm_init_center e (Some bytes) zeroed = Done tt p ->
  let m0 := new_array (junk e 2) (w * h) in
  (command6 sin cos u name = Some (m, 3, point) ->
    let run := main6 sin cos u e files (name :: file :: more) in
    let place := around (of_int (Z.quot w 2)) (of_int (Z.quot h 2)) m in
    if all_fit p (fun _ => place) then exists q, run = Done tt q /\ output_map q = moved3 p place m0
    else exists f s, run = Undef f s) /\
  (command7 sin cos u name = Some (m, 3, point) ->
    let run := main7 sin cos u e files (name :: file :: more) in
    let m1 := moved3 p (from_origin m) m0 in
    let origin := from_origin (inverse m) in
    if all_fit p (fun _ => from_origin m) && negb (existsb (WarpNear.fails p origin m1) (cells 0 w 0 h))
    then exists q, run = Done tt q /\ forall i j, 0 <= i < w -> 0 <= j < h -> filled p (origin i j) (at_ m1 w j i) (at_ (output_map q) w j i)
    else exists f s, run = Undef f s) /\
  (forall r : mtrx3 Q, ~ (determinant r == 0)%Q -> mtrx_eq (mtrx_mul r (inverse r)) identity /\ mtrx_eq (mtrx_mul (inverse r) r) identity).
Proof.
  intros Hfile Hppm Hsize Hinit m0. split; [| split; [| exact inverse_sound]]; intros Hcmd run; subst run.
  - exact (project6 _ _ _ _ _ _ _ _ _ _ _ _ _ _ _ Hfile Hppm Hinit Hcmd).
  - exact (project7 _ _ _ _ _ _ _ _ _ _ _ _ _ _ _ Hfile Hppm Hsize Hinit Hcmd).
Qed.

(** The picture of [WarpNear.v] under the perspective of both programs. *)
Lemma projections_resample_witness :
  (exists q, main6 no_angle no_angle no_mtrx black_env (fun _ => Some nine_bytes) [lit "perspective"; lit "a.ppm"] = Done tt q) /\
  (exists q, main7 no_angle no_angle no_mtrx black_env (fun _ => Some nine_bytes) [lit "p"; lit "a.ppm"] = Done tt q).
Proof.
  split.
  - pose proof (proj1 (projections_resample no_angle no_angle no_mtrx black_env (fun _ => Some nine_bytes) (lit "perspective") (lit "a.ppm") []
      perspective.1.1 (at_int 0 0) 3 3 nine nine_bytes nine_loaded eq_refl nine_file ltac:(done) ltac:(vm_compute; reflexivity)) ltac:(reflexivity)) as H.
    cbn zeta in H. match type of H with if ?g then _ else _ => replace g with true in H by (vm_compute; reflexivity) end.
    destruct H as (q & Hq & _). by exists q.
  - pose proof (proj1 (proj2 (projections_resample no_angle no_angle no_mtrx black_env (fun _ => Some nine_bytes) (lit "p") (lit "a.ppm") []
      (mk_mtrx3 (dec 1255 3) (dec 255 3) (dec (-108375) 3) (dec 17 2) (dec 117 2) (dec (-7225) 2) (dec 1 3) (dec 1 3) (dec 575 3)) (at_int 0 0)
      3 3 nine nine_bytes nine_loaded eq_refl nine_file ltac:(done) ltac:(vm_compute; reflexivity))) ltac:(reflexivity)) as H.
    cbn zeta in H. match type of H with if ?g then _ else _ => replace g with true in H by (vm_compute; reflexivity) end.
    destruct H as (q & Hq & _). by exists q.
Defined.

End WarpProject.
